(* ===== verification/_CoqProject ===== *)
-Q . S2P
Prelude.v
Machine.v
Logic.v
LinkedList.v
ListRefinement.v
IdMapper.v
Pmem.v
NativeVmem.v
PageTable.v
NativePaging.v
Vmem.v
Region.v
VmInv.v
VmemSpec.v
RegionSpec.v
VmStep.v
VmCreate.v
VirtualMemory.v
Scheduler.v
Gdt.v
NativeTask.v
CString.v
Formatting.v
Logging.v
Serial.v
Console.v
Elf.v
Multiboot.v
Task.v
TaskArguments.v
Interrupts.v
Hello.v
Alloc.v
KernelMemory.v
KernelInv.v
System.v
Loader.v
LoadProgram.v
LoadModule.v
KernelGrowth.v
ModuleStack.v
Init.v
Dump.v
