(* ===== verification/Prelude.v ===== *)
(** * A verification of the BubackOS kernel

    BubackOS is a small x86_64 kernel in C: a boot loader starts it with a list of
    modules (ELF programs), it sets up memory, interrupts and tasks, turns every
    module into a task with an address space of its own, and runs the tasks round
    robin.  This library models its C code (paths below are under src/src/kernel/
    unless they start with modules/) and proves what its services promise.

    ** The parts, and the files that model them

    - Ground: Prelude.v (C integers at their width, macros, tactics, hint
      databases), Machine.v (the structs of the headers, the global variables of
      all services as one record [kstate], physical memory, and the monad [M] the
      functions are written in: [Ret], [Leave] for a [noreturn] jump to a task or to
      sleep, [Fault] for undefined behaviour, [OutOfFuel]), Logic.v (weakest
      preconditions [wp]/[wpx] for total correctness, and [GoodAlloc], what the
      services rely on of [kalloc]).
    - libutils: LinkedList.v and ListRefinement.v
      (libutils/src/algorithms/linkedlist.c), IdMapper.v
      (libutils/src/libutils/id_mapper.c), Logging.v (libutils/src/logging.c with
      core/src/logging/).
    - libc: CString.v (libc/src/string.c), Formatting.v (libc/src/formatting.c).
    - Physical memory: Pmem.v (core/src/pmem/services.c).
    - Hardware paging: NativeVmem.v (the interface core/hal/native_vmem.h, a
      class), PageTable.v (page entries and the walk of the processor),
      NativePaging.v (hal/src/x86_64/native_pagging.c, an instance of the class).
    - Virtual memory: Vmem.v (core/src/vmem/services.c) and Region.v
      (core/src/vmem/region_services.c) hold the code; VmInv.v the invariant
      [vm_inv] with its ghost state; VmemSpec.v, RegionSpec.v, VmStep.v and
      VmCreate.v the specifications of each operation; VirtualMemory.v the theorems.
    - Kernel memory: Alloc.v (core/src/alloc.c, which discharges [GoodAlloc]),
      KernelMemory.v (its start), KernelGrowth.v (its growth).
    - Tasks: Scheduler.v (core/src/scheduler/services.c, against the class of
      core/hal/native_task.h), NativeTask.v (hal/src/x86_64/native_task.c, the
      instance), Task.v and TaskArguments.v (core/src/task/), KernelInv.v (tasks and
      virtual memory together: [kernel_inv]), System.v (services and interrupts as
      the steps of one system).
    - Interrupts: Gdt.v (hal/src/x86_64/lib/gdt.c), Interrupts.v
      (hal/src/x86_64/lib/idt.c, core/src/hw_events.c, core/src/syscall/).
    - Modules: Elf.v (core/src/loader/elfparser.c), Loader.v, LoadProgram.v and
      LoadModule.v (core/src/loader/module_loader.c: the code with one segment, the
      loop over the headers, a module from the file to its area), ModuleStack.v
      (where the stack goes), Hello.v (modules/hello), Console.v (modules/console).
    - Descriptions for the log: Dump.v ([vmem_dump], [vmem_region_dump],
      [log_pagetable_entry], [display_boot_info], as lists of log lines).
    - Start: Serial.v (hal/src/x86_64/serial.c), Multiboot.v
      (hal/src/x86_64/platform.c, hal/src/common/multiboot2.c), Init.v
      (core/src/init.c, hal/src/x86_64/boot.c and the tables of idt.c, idt_fill.S).

    Functions keep their C names; [x86_vmem_*] and [x86_task_*] are the functions
    [native_vmem_*] and [native_task_*] of the x86_64 layer, since these names are
    the methods of the classes.  A loop of the code is a [Fixpoint] next to the
    function, with the rest of the function around it.

    ** How the machine is modelled

    A pointer is its address.  Structs live in typed stores, one finite map per
    struct type; page tables, images and strings live in the byte-addressed [ram].
    The kernel itself runs on addresses that are physical: the theorem
    [kernel_identity_mapped] shows that the start of the allocator makes the kernel
    area agree with this for the memory it covers, and
    [grown_memory_not_identity] that growing kernel data later does not.  Images of
    modules are read through the page tables in CR3.  The addresses the linker
    chooses are a class ([Layout]); what the serial device answers is a parameter.

    ** What the theorems show

    - Lists and id mappers refine sequences and finite maps, for any sequence of
      operations, with all other lists untouched.
    - Physical pages are never handed out twice; system pages stay system pages;
      after the start exactly the reserved regions and the kernel image are.
    - Changing a page table entry makes the processor translate that page as asked
      and changes no other translation of any address space.
    - [vm_inv] holds after every operation of virtual memory: the software view
      (the list of maps) and the page tables of every area agree; regions are backed
      by pages of their own; a new area sees the kernel and nothing else; the kernel
      is mapped to itself when the processor is switched to it.
    - The scheduler refines a round-robin queue over any sequence of requests, every
      ready task runs, a fault or an exit removes the running task and only it, the
      timer preempts, and unknown system calls return -1.
    - The kernel as a whole is sound: in every state that services and interrupts
      reach ([kernel_step]) all invariants hold together, and a timer tick or a
      fault ends in a ready task with its registers and its area, or in sleep.
    - [task_run] keeps [kernel_inv] and gives the task its stack and registers; the
      loader skips files that are not ELF programs and makes every byte of every
      segment of the others readable in an area of their own; the parser of the
      boot information collects what the tags say.
    - Descriptors, gates and page entries read back as the processor reads them;
      the C library functions do what their callers rely on; log lines reach the
      device byte for byte; the console stays on its screen.
    - Places where the code does not do what it means to are theorems too, among
      them the placement of stacks over modules, the growth of kernel data, the
      buffer overrun of [snprintf] and the unchecked level of the logging call.

    ** Bounds and fuel

    Loops over lists run on [list_fuel], one more than the number of nodes in
    memory: a well-formed list has no more nodes, so the specifications, which are
    total, never run out.  Loops over pages count the pages left.  String functions
    and the parsers take a number of steps; the theorems say how many are enough.
    Specifications that allocate state how many bytes they need at most
    ([assoc_cost], [region_cost], [area_cost], [run_cost], [module_cost]): enough
    bytes left before kernel data has to grow ([avail]).  [kalloc_fuel n] allows [n]
    nested growths of kernel data.  Virtual and physical addresses stay below 2^48.

    ** Not modelled

    - Log messages inside the services, which do not change their state.
    - The assembler that saves and restores registers (native_task.S, idt.S, the
      entry points of idt_fill.S, boot.S): entering the kernel is a call of
      [interrupt_handler] with a frame, leaving it is [Leave].
    - Code that is never reached (the frame buffer case of multiboot2.c behind its
      [break]) and the constants of headers no code uses.
    - Service calls that fail for want of physical memory are not steps of the
      system of System.v: what is proved of them is that no free page is left.
    - Caches and the TLB: [native_vmem_flush] reloads CR3 and changes nothing else.

    The rest of this file is the shared ground: C integers at their width, the
    alignment macros of libutils/utils.h, the constants of core/hal/platform.h, bit
    and byte lemmas, and the tactics and hint databases the component files use. *)
From Stdlib Require Export ZArith Lia.
From stdpp Require Export base numbers strings gmap fin_maps list.

#[export] Set Default Goal Selector "!".
Open Scope Z_scope.

(** * Machine integers *)

(** An unsigned C integer of [w] bits is a [Z] in [0, 2^w); arithmetic is the
    arithmetic of [Z] followed by [wrap]. *)
Definition wrap (w : Z) (x : Z) : Z := x mod 2 ^ w.
Definition u8 (x : Z) : Z := x mod 2 ^ 8.
Definition u16 (x : Z) : Z := x mod 2 ^ 16.
Definition u32 (x : Z) : Z := x mod 2 ^ 32.
Definition u64 (x : Z) : Z := x mod 2 ^ 64.

(** Conversion to [int] (32 bits, two's complement). *)
Definition s32 (x : Z) : Z := (x + 2 ^ 31) mod 2 ^ 32 - 2 ^ 31.

Declare Scope cint_scope.
Delimit Scope cint_scope with cint.
Notation "x ⊞ y" := (u64 (x + y)) (at level 50, left associativity) : cint_scope.
Notation "x ⊟ y" := (u64 (x - y)) (at level 50, left associativity) : cint_scope.
Open Scope cint_scope.

(** The null pointer, and C's truth test of a pointer. *)
Definition NULL : Z := 0.
Definition isnull (p : Z) : bool := p =? 0.

(** * Constants of core/hal/platform.h *)
Definition SYSTEM_PAGE_ALIGN : Z := 12.
Definition SYSTEM_PAGE_SIZE : Z := Z.shiftl 2 (SYSTEM_PAGE_ALIGN - 1).
Definition SYSTEM_STACKSIZE : Z := 32768.
Definition TASK_DEFAULT_STACK_SIZE : Z := SYSTEM_PAGE_SIZE * 10.
Definition SYSCALL_MAX_NUMBER : Z := 255.
Definition REGION_ADDRESS_INCREMENT : Z := 1 * 1024 * 1024.

(** * Alignment macros of libutils/utils.h *)
Definition ALIGN (addr a : Z) : Z := Z.land addr (Z.lnot (a - 1)).
Definition ALIGN_NEXT (addr a : Z) : Z := ALIGN (u64 (addr + a - 1)) a.
(** [MEM_ALIGN] of core/vmem/services.h. *)
Definition MEM_ALIGN (addr : Z) : Z := ALIGN addr SYSTEM_PAGE_SIZE.

(** * Hint databases *)
Create HintDb kern.
Create Rewrite HintDb kint.

(** * Tactics *)

(** [lia] after the constants of the development are replaced by numerals. *)
Ltac kconst :=
  change SYSTEM_PAGE_SIZE with 4096 in *;
  change TASK_DEFAULT_STACK_SIZE with 40960 in *;
  change REGION_ADDRESS_INCREMENT with 1048576 in *;
  change SYSTEM_PAGE_ALIGN with 12 in *;
  change NULL with 0 in *;
  change (2 ^ 64) with 18446744073709551616 in *;
  change (2 ^ 32) with 4294967296 in *;
  change (2 ^ 16) with 65536 in *;
  change (2 ^ 12) with 4096 in *;
  change (2 ^ 8) with 256 in *.
Ltac klia := kconst; lia.

(** Turns the boolean tests of the code into propositions. *)
Ltac zbool :=
  repeat match goal with
  | H : (_ =? _) = true |- _ => apply Z.eqb_eq in H
  | H : (_ =? _) = false |- _ => apply Z.eqb_neq in H
  | H : (_ <? _) = true |- _ => apply Z.ltb_lt in H
  | H : (_ <? _) = false |- _ => apply Z.ltb_ge in H
  | H : (_ <=? _) = true |- _ => apply Z.leb_le in H
  | H : (_ <=? _) = false |- _ => apply Z.leb_gt in H
  | H : negb _ = true |- _ => apply negb_true_iff in H
  | H : negb _ = false |- _ => apply negb_false_iff in H
  | H : _ && _ = true |- _ => apply andb_true_iff in H as [? ?]
  | H : _ || _ = false |- _ => apply orb_false_iff in H as [? ?]
  | H : isnull _ = true |- _ => unfold isnull in H
  | H : isnull _ = false |- _ => unfold isnull in H
  end.

(** * Lemmas on wrapping arithmetic *)

Lemma u64_small x : 0 <= x < 2 ^ 64 -> u64 x = x.
Proof. apply Z.mod_small. Qed.

Lemma u64_range x : 0 <= u64 x < 2 ^ 64.
Proof. apply Z.mod_pos_bound. lia. Qed.

Lemma u64_u64 x : u64 (u64 x) = u64 x.
Proof. apply u64_small, u64_range. Qed.

Lemma u8_range x : 0 <= u8 x < 2 ^ 8.
Proof. apply Z.mod_pos_bound. lia. Qed.

Lemma u8_small x : 0 <= x < 2 ^ 8 -> u8 x = x.
Proof. apply Z.mod_small. Qed.

#[export] Hint Rewrite u64_small using klia : kint.

Lemma isnull_true p : isnull p = true <-> p = 0.
Proof. apply Z.eqb_eq. Qed.

Lemma isnull_false p : isnull p = false <-> p <> 0.
Proof. apply Z.eqb_neq. Qed.

(** * Lemmas on alignment *)

Lemma land_lnot_ones x k : 0 <= k -> Z.land x (Z.lnot (2 ^ k - 1)) = x / 2 ^ k * 2 ^ k.
Proof.
  intros Hk.
  replace (2 ^ k - 1) with (Z.ones k) by (rewrite Z.ones_equiv; lia).
  rewrite <- Z.ldiff_land.
  rewrite Z.ldiff_ones_r by lia.
  rewrite Z.shiftl_mul_pow2, Z.shiftr_div_pow2 by lia. done.
Qed.

Lemma ALIGN_pow2 x k : 0 <= k -> ALIGN x (2 ^ k) = x / 2 ^ k * 2 ^ k.
Proof. apply land_lnot_ones. Qed.

Lemma MEM_ALIGN_div x : MEM_ALIGN x = x / 4096 * 4096.
Proof. apply (ALIGN_pow2 x 12). lia. Qed.

Lemma MEM_ALIGN_mod x : MEM_ALIGN x = x - x mod 4096.
Proof. rewrite MEM_ALIGN_div. pose proof (Z.div_mod x 4096). lia. Qed.

Lemma MEM_ALIGN_fix x : MEM_ALIGN x = x <-> x mod 4096 = 0.
Proof. rewrite MEM_ALIGN_mod. lia. Qed.

(** [MEM_ALIGN] rounds down to the page that holds the address. *)
Lemma MEM_ALIGN_spec x :
  MEM_ALIGN x mod 4096 = 0 /\ MEM_ALIGN x <= x < MEM_ALIGN x + 4096.
Proof.
  rewrite MEM_ALIGN_div. split.
  - apply Z.mod_mul. lia.
  - pose proof (Z.div_mod x 4096). pose proof (Z.mod_pos_bound x 4096). lia.
Qed.

Lemma MEM_ALIGN_idem x : MEM_ALIGN (MEM_ALIGN x) = MEM_ALIGN x.
Proof. apply MEM_ALIGN_fix, MEM_ALIGN_spec. Qed.

Lemma MEM_ALIGN_page base off :
  base mod 4096 = 0 -> 0 <= off < 4096 -> MEM_ALIGN (base + off) = base.
Proof.
  intros Hb Hoff. rewrite MEM_ALIGN_mod.
  rewrite Z.add_mod by lia. rewrite Hb, Z.add_0_l, Z.mod_mod, Z.mod_small by lia. lia.
Qed.

(** [ALIGN_NEXT] rounds up to a page when the addition does not wrap. *)
Lemma ALIGN_NEXT_page x :
  0 <= x < 2 ^ 64 - 4096 ->
  ALIGN_NEXT x SYSTEM_PAGE_SIZE = (x + 4095) / 4096 * 4096.
Proof.
  intros Hx. unfold ALIGN_NEXT. rewrite u64_small by klia.
  change (ALIGN ?y SYSTEM_PAGE_SIZE) with (MEM_ALIGN y).
  rewrite MEM_ALIGN_div. f_equal. f_equal. klia.
Qed.

Lemma ALIGN_NEXT_spec x :
  0 <= x < 2 ^ 64 - 4096 ->
  ALIGN_NEXT x SYSTEM_PAGE_SIZE mod 4096 = 0 /\
  x <= ALIGN_NEXT x SYSTEM_PAGE_SIZE < x + 4096.
Proof.
  intros Hx. rewrite ALIGN_NEXT_page by done. split.
  - apply Z.mod_mul. lia.
  - pose proof (Z.div_mod (x + 4095) 4096).
    pose proof (Z.mod_pos_bound (x + 4095) 4096). lia.
Qed.

(** * Bytes and little-endian words *)

(** [byte_of v i] is byte [i] of [v]; a word is the sum of its bytes. *)
Definition byte_of (v i : Z) : Z := Z.land (Z.shiftr v (8 * i)) 255.

Fixpoint le_load (f : Z -> Z) (a : Z) (n : nat) : Z :=
  match n with
  | O => 0
  | S n' => f a + 256 * le_load f (a + 1) n'
  end.

Lemma byte_of_div v i : 0 <= i -> byte_of v i = v / 2 ^ (8 * i) mod 256.
Proof.
  intros. unfold byte_of. change 255 with (Z.ones 8).
  rewrite Z.land_ones, Z.shiftr_div_pow2 by lia. done.
Qed.

Lemma byte_of_range v i : 0 <= byte_of v i < 256.
Proof.
  unfold byte_of. change 255 with (Z.ones 8). rewrite Z.land_ones by lia.
  apply Z.mod_pos_bound. lia.
Qed.

Lemma le_load_ext f g a n :
  (forall i, a <= i < a + Z.of_nat n -> f i = g i) -> le_load f a n = le_load g a n.
Proof.
  revert a. induction n as [|n IH]; intros a H; [done|].
  cbn [le_load]. rewrite H by lia. f_equal. f_equal. apply IH.
  intros i Hi. apply H. lia.
Qed.

Lemma le_load_range f a n :
  (forall i, 0 <= f i < 256) -> 0 <= le_load f a n < 2 ^ (8 * Z.of_nat n).
Proof.
  intros Hf. revert a. induction n as [|n IH]; intros a; [cbn; lia|].
  cbn [le_load]. specialize (IH (a + 1)). pose proof (Hf a).
  replace (8 * Z.of_nat (S n)) with (8 + 8 * Z.of_nat n) by lia.
  rewrite Z.pow_add_r by lia. change (2 ^ 8) with 256. lia.
Qed.

(** Reading back the bytes of a word gives the word modulo its width. *)
Lemma le_load_bytes v a k n :
  0 <= k ->
  le_load (fun i => byte_of v (i - a + k)) a n = v / 2 ^ (8 * k) mod 2 ^ (8 * Z.of_nat n).
Proof.
  revert a k. induction n as [|n IH]; intros a k Hk.
  { cbn. rewrite Z.mod_1_r. done. }
  cbn [le_load]. rewrite byte_of_div by lia.
  replace (a - a + k) with k by lia.
  rewrite (le_load_ext _ (fun i => byte_of v (i - (a + 1) + (k + 1)))).
  2:{ intros i _. f_equal. lia. }
  rewrite IH by lia.
  replace (8 * Z.of_nat (S n)) with (8 + 8 * Z.of_nat n) by lia.
  rewrite Z.pow_add_r by lia. rewrite Z.rem_mul_r by lia.
  change (2 ^ 8) with 256. f_equal. f_equal. f_equal.
  replace (8 * (k + 1)) with (8 * k + 8) by lia.
  rewrite Z.pow_add_r by lia. change (2 ^ 8) with 256.
  rewrite Z.div_div by lia. done.
Qed.

(** * Lists *)

Lemma lookup_app_snoc {A} (l : list A) (x : A) (i : nat) (y : A) :
  (l ++ [x]) !! i = Some y -> l !! i = Some y \/ (i = length l /\ y = x).
Proof.
  intros H. apply lookup_snoc_Some in H. naive_solver.
Qed.

(** Distinct non-null 64-bit addresses are fewer than [2^64]. *)
Lemma addresses_bound (l : list Z) :
  NoDup l -> (forall a, a ∈ l -> 0 < a < 2 ^ 64) -> Z.of_nat (length l) < 2 ^ 64.
Proof.
  intros Hnd Hr.
  assert (l ⊆+ seqZ 1 (2 ^ 64 - 1)) as Hsub.
  { apply NoDup_submseteq; [done|]. intros a Ha. apply elem_of_seqZ.
    specialize (Hr a Ha). lia. }
  apply submseteq_length in Hsub. rewrite length_seqZ in Hsub. lia.
Qed.

Lemma list_delete_ge {A} (l : list A) (i : nat) : (length l <= i)%nat -> delete i l = l.
Proof.
  revert i. induction l as [|x l IH]; intros [|i] Hi; cbn in *; try done; [lia|].
  f_equal. apply IH. lia.
Qed.
