(* ===== verification/Machine.v ===== *)
(** The machine the kernel runs on: the C structs of the headers, the global
    variables of every service, physical memory, and the monad in which the
    functions of the kernel are written.

    Structs live in typed stores, one finite map per struct type (the code never
    views a struct at two types); page tables, images and other raw data live in
    byte-addressed [ram].  A dereference of an address that holds no struct is a
    [Fault]; a loop whose bound is used up is [OutOfFuel]; a [noreturn] function
    that hands the processor over is [Leave]. *)
From S2P Require Import Prelude.

(** * Structs of the headers *)

(** algorithms/linkedlist.h *)
Record linkedlist_node_t := mk_node { node_val : Z; node_next : Z }.
Record linkedlist_t := mk_ll { ll_first : Z; ll_size : Z }.

(** libutils/id_mapper.h *)
Record id_mapper_t := mk_idm { idm_next : Z; idm_list : Z }.
Record id_mapper_entry_t := mk_entry { entry_id : Z; entry_val : Z }.

(** A [const char*] that is only tested for NULL and printed. *)
Definition cstring : Type := option string.

(** core/vmem/services.h, core/vmem/region_services.h *)
Record vmem_t := mk_vmem {
  vmem_id : Z; native_vmem : Z; v_regions : Z; v_map : Z; next_start_address : Z }.
Record vmem_region_t := mk_region {
  vmem_region_id : Z; r_attached : Z; r_name : cstring; r_start : Z; r_size : Z;
  allocated_size : Z; r_user : bool; r_writable : bool; r_executable : bool; r_pages : Z }.
Record vmem_map_t := mk_map { map_virtual_addr : Z; map_physical_addr : Z; map_region : Z }.

(** core/types.h, core/hal/platform.h *)
Record region_t := mk_seg { addr_start : Z; addr_end : Z; seg_size : Z }.
Record info_module_t := mk_module { m_param : cstring; m_region : region_t }.
Record platform_t := mk_platform {
  total_memory_info : Z; p_kernel : region_t; p_kernel_data : region_t;
  reserved_segments : Z; p_modules : Z }.

(** x86_64/native_pagging.h *)
Record native_page_table_t := mk_npt {
  npt_entries : Z; npt_allocated_memory : Z;
  mem_available_addr : Z; mem_available_size : Z }.

(** core/task/services.h *)
Inductive task_status_t := TASK_STATUS_CREATED | TASK_STATUS_READY | TASK_STATUS_NOT_READY.
Record task_t := mk_task {
  task_id : Z; t_name : cstring; t_kernel : bool; t_priority : Z; t_userdata : Z;
  t_status : task_status_t; native_task : Z; memory_handler_of : Z }.

#[export] Instance task_status_eq_dec : EqDecision task_status_t.
Proof. solve_decision. Defined.

(** x86_64/native_task.h *)
Record native_task_t := mk_ntask {
  r15 : Z; r14 : Z; r13 : Z; r12 : Z; rbp : Z; rbx : Z; r11 : Z; r10 : Z; r9 : Z; r8 : Z;
  rax : Z; rcx : Z; rdx : Z; rsi : Z; rdi : Z; orig_rax : Z;
  codeptr : Z; cs : Z; eflags : Z; stackptr : Z; ss : Z }.

(** The system call handlers of the kernel, as function pointers. *)
Inductive syscall_handler := syscall_handler_task_exit_ptr | syscall_handler_logging_ptr.

#[export] Instance syscall_handler_eq_dec : EqDecision syscall_handler.
Proof. solve_decision. Defined.

(** * The state *)

(** [mem]: physical memory, the globals of alloc.c, the platform object of
    platform.c; [kfreed] is the list of arguments [kfree] was called with. *)
Record mem_t := mk_mem {
  ram : Z -> Z; current_mem_ptr : Z; mem_allocator_initialised : bool;
  kernel_code_vmem_region : Z; kernel_data_vmem_region : Z;
  platform : platform_t; kfreed : list Z }.

(** [lists]: the linked lists of the whole kernel. *)
Record lists_t := mk_lists {
  lls : gmap Z linkedlist_t; nodes : gmap Z linkedlist_node_t }.

(** [ids]: id mappers (the static ones and the allocated ones) and their entries. *)
Record ids_t := mk_ids {
  idmappers : gmap Z id_mapper_t; identries : gmap Z id_mapper_entry_t }.

(** [vm]: virtual memory areas, regions and maps, and [kernel_vmem]. *)
Record vm_t := mk_vm {
  vmems : gmap Z vmem_t; regions : gmap Z vmem_region_t; maps : gmap Z vmem_map_t;
  kernel_vmem : Z }.

(** [paging]: page-table objects and the page-table base register. *)
Record paging_t := mk_paging { npts : gmap Z native_page_table_t; cr3 : Z }.

(** [pmem]: the globals of pmem/services.c. *)
Record pmem_t := mk_pmem { total_of_pages : Z; total_memory : Z; pages : list Z }.

(** [sched]: tasks, saved registers, and the globals of scheduler/services.c. *)
Record sched_t := mk_sched {
  tasks : gmap Z task_t; ntasks : gmap Z native_task_t;
  current_task : Z; scheduled_tasks : Z }.

(** [boot]: reserved segments and modules announced by the boot loader, and the
    globals of syscall/services.c and loader/module_loader.c. *)
Record boot_t := mk_boot {
  segs : gmap Z region_t; mods : gmap Z info_module_t;
  syscall_vector : list (option syscall_handler); memory_handler : Z }.

Record kstate := mk_state {
  mem : mem_t; lists : lists_t; ids : ids_t; vm : vm_t; paging : paging_t;
  pmem : pmem_t; sched : sched_t; boot : boot_t }.

(** Where the linker put the static objects and the kernel image. *)
Class Layout := {
  a_vmem_id_mapper : Z; a_vmem_region_mapper : Z; a_task_id_mapper : Z;
  ADDR_KERNEL_START : Z; ADDR_KERNEL_END : Z;
  layout_mappers : NoDup [a_vmem_id_mapper; a_vmem_region_mapper; a_task_id_mapper];
  layout_image : 0 < ADDR_KERNEL_START /\
    ADDR_KERNEL_START <= a_vmem_id_mapper < ADDR_KERNEL_END /\
    ADDR_KERNEL_START <= a_vmem_region_mapper < ADDR_KERNEL_END /\
    ADDR_KERNEL_START <= a_task_id_mapper < ADDR_KERNEL_END /\
    ADDR_KERNEL_END < 2 ^ 48 }.

(** ** Setters, one per group and per field *)
Definition set_mem v s := mk_state v (lists s) (ids s) (vm s) (paging s) (pmem s) (sched s) (boot s).
Definition set_lists v s := mk_state (mem s) v (ids s) (vm s) (paging s) (pmem s) (sched s) (boot s).
Definition set_ids v s := mk_state (mem s) (lists s) v (vm s) (paging s) (pmem s) (sched s) (boot s).
Definition set_vm v s := mk_state (mem s) (lists s) (ids s) v (paging s) (pmem s) (sched s) (boot s).
Definition set_paging v s := mk_state (mem s) (lists s) (ids s) (vm s) v (pmem s) (sched s) (boot s).
Definition set_pmem v s := mk_state (mem s) (lists s) (ids s) (vm s) (paging s) v (sched s) (boot s).
Definition set_sched v s := mk_state (mem s) (lists s) (ids s) (vm s) (paging s) (pmem s) v (boot s).
Definition set_boot v s := mk_state (mem s) (lists s) (ids s) (vm s) (paging s) (pmem s) (sched s) v.

Definition set_ram v s :=
  let m := mem s in set_mem (mk_mem v (current_mem_ptr m) (mem_allocator_initialised m)
    (kernel_code_vmem_region m) (kernel_data_vmem_region m) (platform m) (kfreed m)) s.
Definition set_current_mem_ptr v s :=
  let m := mem s in set_mem (mk_mem (ram m) v (mem_allocator_initialised m)
    (kernel_code_vmem_region m) (kernel_data_vmem_region m) (platform m) (kfreed m)) s.
Definition set_mem_allocator_initialised v s :=
  let m := mem s in set_mem (mk_mem (ram m) (current_mem_ptr m) v
    (kernel_code_vmem_region m) (kernel_data_vmem_region m) (platform m) (kfreed m)) s.
Definition set_kernel_code_vmem_region v s :=
  let m := mem s in set_mem (mk_mem (ram m) (current_mem_ptr m) (mem_allocator_initialised m)
    v (kernel_data_vmem_region m) (platform m) (kfreed m)) s.
Definition set_kernel_data_vmem_region v s :=
  let m := mem s in set_mem (mk_mem (ram m) (current_mem_ptr m) (mem_allocator_initialised m)
    (kernel_code_vmem_region m) v (platform m) (kfreed m)) s.
Definition set_platform v s :=
  let m := mem s in set_mem (mk_mem (ram m) (current_mem_ptr m) (mem_allocator_initialised m)
    (kernel_code_vmem_region m) (kernel_data_vmem_region m) v (kfreed m)) s.
Definition set_kfreed v s :=
  let m := mem s in set_mem (mk_mem (ram m) (current_mem_ptr m) (mem_allocator_initialised m)
    (kernel_code_vmem_region m) (kernel_data_vmem_region m) (platform m) v) s.

(** [platform.memory.kernel_data] is the part of the platform object that moves. *)
Definition set_kernel_data v s :=
  let p := platform (mem s) in
  set_platform (mk_platform (total_memory_info p) (p_kernel p) v
    (reserved_segments p) (p_modules p)) s.

Definition set_lls v s := set_lists (mk_lists v (nodes (lists s))) s.
Definition set_nodes v s := set_lists (mk_lists (lls (lists s)) v) s.
Definition set_idmappers v s := set_ids (mk_ids v (identries (ids s))) s.
Definition set_identries v s := set_ids (mk_ids (idmappers (ids s)) v) s.
Definition set_vmems v s :=
  set_vm (mk_vm v (regions (vm s)) (maps (vm s)) (kernel_vmem (vm s))) s.
Definition set_regions v s :=
  set_vm (mk_vm (vmems (vm s)) v (maps (vm s)) (kernel_vmem (vm s))) s.
Definition set_maps v s :=
  set_vm (mk_vm (vmems (vm s)) (regions (vm s)) v (kernel_vmem (vm s))) s.
Definition set_kernel_vmem v s :=
  set_vm (mk_vm (vmems (vm s)) (regions (vm s)) (maps (vm s)) v) s.
Definition set_npts v s := set_paging (mk_paging v (cr3 (paging s))) s.
Definition set_cr3 v s := set_paging (mk_paging (npts (paging s)) v) s.
Definition set_tasks v s :=
  let c := sched s in set_sched (mk_sched v (ntasks c) (current_task c) (scheduled_tasks c)) s.
Definition set_ntasks v s :=
  let c := sched s in set_sched (mk_sched (tasks c) v (current_task c) (scheduled_tasks c)) s.
Definition set_current_task v s :=
  let c := sched s in set_sched (mk_sched (tasks c) (ntasks c) v (scheduled_tasks c)) s.
Definition set_scheduled_tasks v s :=
  let c := sched s in set_sched (mk_sched (tasks c) (ntasks c) (current_task c) v) s.
Definition set_segs v s :=
  let b := boot s in set_boot (mk_boot v (mods b) (syscall_vector b) (memory_handler b)) s.
Definition set_mods v s :=
  let b := boot s in set_boot (mk_boot (segs b) v (syscall_vector b) (memory_handler b)) s.
Definition set_syscall_vector v s :=
  let b := boot s in set_boot (mk_boot (segs b) (mods b) v (memory_handler b)) s.
Definition set_memory_handler v s :=
  let b := boot s in set_boot (mk_boot (segs b) (mods b) (syscall_vector b) v) s.

(** * The monad *)

(** How the kernel gives the processor away: [iretq] into the saved registers of
    a task, or [hlt] until the next hardware event. *)
Inductive cpu_exit := ResumeTask (regs : native_task_t) | Sleep.

Inductive outcome (A : Type) :=
  | Ret (a : A) (s : kstate)
  | Leave (e : cpu_exit) (s : kstate)
  | Fault
  | OutOfFuel.
Arguments Ret {A} a s.
Arguments Leave {A} e s.
Arguments Fault {A}.
Arguments OutOfFuel {A}.

Definition M (A : Type) : Type := kstate -> outcome A.

#[export] Instance M_ret : MRet M := fun A a s => Ret a s.
#[export] Instance M_bind : MBind M := fun A B f m s =>
  match m s with
  | Ret a s' => f a s'
  | Leave e s' => Leave e s'
  | Fault => Fault
  | OutOfFuel => OutOfFuel
  end.

Definition gets {A} (f : kstate -> A) : M A := fun s => Ret (f s) s.
Definition modify (f : kstate -> kstate) : M unit := fun s => Ret tt (f s).
Definition fault {A} : M A := fun _ => Fault.
Definition out_of_fuel {A} : M A := fun _ => OutOfFuel.
Definition leave {A} (e : cpu_exit) : M A := fun s => Leave e s.

(** ** Typed stores *)
Class Struct (T : Type) := {
  sizeof : Z;
  zeroed : T;
  heap : kstate -> gmap Z T;
  set_heap : gmap Z T -> kstate -> kstate;
  heap_set_heap h s : heap (set_heap h s) = h;
  heap_set_mem m s : heap (set_mem m s) = heap s;
  mem_set_heap h s : mem (set_heap h s) = mem s;
  sizeof_pos : 0 < sizeof }.
Arguments sizeof T {_}.

#[export, refine] Instance linkedlist_t_struct : Struct linkedlist_t :=
  { sizeof := 16; zeroed := mk_ll 0 0;
    heap s := lls (lists s); set_heap := set_lls }.
Proof. all: done. Defined.
#[export, refine] Instance linkedlist_node_t_struct : Struct linkedlist_node_t :=
  { sizeof := 16; zeroed := mk_node 0 0;
    heap s := nodes (lists s); set_heap := set_nodes }.
Proof. all: done. Defined.
#[export, refine] Instance id_mapper_t_struct : Struct id_mapper_t :=
  { sizeof := 16; zeroed := mk_idm 0 0;
    heap s := idmappers (ids s); set_heap := set_idmappers }.
Proof. all: done. Defined.
#[export, refine] Instance id_mapper_entry_t_struct : Struct id_mapper_entry_t :=
  { sizeof := 16; zeroed := mk_entry 0 0;
    heap s := identries (ids s); set_heap := set_identries }.
Proof. all: done. Defined.
#[export, refine] Instance vmem_t_struct : Struct vmem_t :=
  { sizeof := 40; zeroed := mk_vmem 0 0 0 0 0;
    heap s := vmems (vm s); set_heap := set_vmems }.
Proof. all: done. Defined.
#[export, refine] Instance vmem_region_t_struct : Struct vmem_region_t :=
  { sizeof := 64; zeroed := mk_region 0 0 None 0 0 0 false false false 0;
    heap s := regions (vm s); set_heap := set_regions }.
Proof. all: done. Defined.
#[export, refine] Instance vmem_map_t_struct : Struct vmem_map_t :=
  { sizeof := 24; zeroed := mk_map 0 0 0;
    heap s := maps (vm s); set_heap := set_maps }.
Proof. all: done. Defined.
#[export, refine] Instance native_page_table_t_struct : Struct native_page_table_t :=
  { sizeof := 32; zeroed := mk_npt 0 0 0 0;
    heap s := npts (paging s); set_heap := set_npts }.
Proof. all: done. Defined.
#[export, refine] Instance task_t_struct : Struct task_t :=
  { sizeof := 56; zeroed := mk_task 0 None false 0 0 TASK_STATUS_CREATED 0 0;
    heap s := tasks (sched s); set_heap := set_tasks }.
Proof. all: done. Defined.
#[export, refine] Instance native_task_t_struct : Struct native_task_t :=
  { sizeof := 168; zeroed := mk_ntask 0 0 0 0 0 0 0 0 0 0 0 0 0 0 0 0 0 0 0 0 0;
    heap s := ntasks (sched s); set_heap := set_ntasks }.
Proof. all: done. Defined.
#[export, refine] Instance region_t_struct : Struct region_t :=
  { sizeof := 24; zeroed := mk_seg 0 0 0;
    heap s := segs (boot s); set_heap := set_segs }.
Proof. all: done. Defined.
#[export, refine] Instance info_module_t_struct : Struct info_module_t :=
  { sizeof := 32; zeroed := mk_module None (mk_seg 0 0 0);
    heap s := mods (boot s); set_heap := set_mods }.
Proof. all: done. Defined.

(** [*p], [*p = v] and [p->field = v]. *)
Definition load {T} `{Struct T} (p : Z) : M T := fun s =>
  match heap s !! p with Some v => Ret v s | None => Fault end.
Definition store {T} `{Struct T} (p : Z) (v : T) : M unit := fun s =>
  match heap s !! p with
  | Some _ => Ret tt (set_heap (<[p := v]> (heap s)) s)
  | None => Fault
  end.
Definition update {T} `{Struct T} (p : Z) (f : T -> T) : M unit :=
  v ← load p; store p (f v).

(** ** Physical memory *)
Definition load8 (m : Z -> Z) (a : Z) : Z := m a.
Definition load64 (m : Z -> Z) (a : Z) : Z := le_load m a 8.
Definition store64 (m : Z -> Z) (a v : Z) : Z -> Z := fun x =>
  if (a <=? x) && (x <? a + 8) then byte_of v (x - a) else m x.

(** The allocator, as the macros [MEM_ALLOC] and [NEW] name it: the services are
    written against this interface, and Alloc.v ties the knot. *)
Class Kalloc := kalloc : Z -> M Z.

(** [NEW(T)]: allocate and view the zero-filled bytes as a [T]. *)
Definition NEW T `{Struct T} `{Kalloc} : M Z :=
  p ← kalloc (sizeof T);
  if isnull p then mret NULL
  else modify (fun s => set_heap (<[p := zeroed]> (heap s)) s) ;; mret p.

(** [kfree] releases nothing; the call is recorded. *)
Definition kfree (addr : Z) : M unit :=
  modify (fun s => set_kfreed (kfreed (mem s) ++ [addr]) s).
