(* ===== verification/Logic.v ===== *)
(** Total-correctness reasoning about the kernel monad: the weakest
    precondition [wpx], its rules, the heap invariants shared by the services,
    and what the services rely on of [kalloc] ([GoodAlloc], discharged for the
    real allocator in Alloc.v). *)
From S2P Require Import Prelude Machine.

(** [wpx m Q E s]: started in [s], [m] neither faults nor runs out of fuel; it
    returns a value and state in [Q], or leaves the kernel in [E]. *)
Definition wpx {A} (m : M A) (Q : A -> kstate -> Prop) (E : cpu_exit -> kstate -> Prop)
    (s : kstate) : Prop :=
  match m s with
  | Ret a s' => Q a s'
  | Leave e s' => E e s'
  | Fault | OutOfFuel => False
  end.

(** [wp]: the computation returns. *)
Definition wp {A} (m : M A) (Q : A -> kstate -> Prop) (s : kstate) : Prop :=
  wpx m Q (fun _ _ => False) s.

(** ** Rules *)
Section rules.
Context {A B : Type}.
Implicit Types (m : M A) (f : A -> M B) (E : cpu_exit -> kstate -> Prop).

Lemma wpx_ret a (Q : A -> kstate -> Prop) E s : Q a s -> wpx (mret a) Q E s.
Proof. done. Qed.

Lemma wpx_bind m f (Q : B -> kstate -> Prop) E s :
  wpx m (fun a s' => wpx (f a) Q E s') E s -> wpx (m ≫= f) Q E s.
Proof. unfold wpx, mbind, M_bind. destruct (m s); done. Qed.

Lemma wpx_mono m (Q Q' : A -> kstate -> Prop) E (E' : cpu_exit -> kstate -> Prop) s :
  wpx m Q E s -> (forall a s', Q a s' -> Q' a s') -> (forall e s', E e s' -> E' e s') ->
  wpx m Q' E' s.
Proof. unfold wpx. destruct (m s); naive_solver. Qed.

Lemma wp_wpx m (Q : A -> kstate -> Prop) E s : wp m Q s -> wpx m Q E s.
Proof. intros H. eapply wpx_mono; [exact H | done | done]. Qed.

(** A call specified by [wp], in the middle of a computation. *)
Lemma wpx_call m f (P : A -> kstate -> Prop) (Q : B -> kstate -> Prop) E s :
  wp m P s -> (forall a s', P a s' -> wpx (f a) Q E s') -> wpx (m ≫= f) Q E s.
Proof. intros Hm Hf. apply wpx_bind. eapply wpx_mono; [apply Hm | done | done]. Qed.

Lemma wp_call m f (P : A -> kstate -> Prop) (Q : B -> kstate -> Prop) s :
  wp m P s -> (forall a s', P a s' -> wp (f a) Q s') -> wp (m ≫= f) Q s.
Proof. apply wpx_call. Qed.

Lemma wp_mono m (Q Q' : A -> kstate -> Prop) s :
  wp m Q s -> (forall a s', Q a s' -> Q' a s') -> wp m Q' s.
Proof. intros H HQ. eapply wpx_mono; [exact H | exact HQ | done]. Qed.

Lemma wp_inv m (Q : A -> kstate -> Prop) s :
  wp m Q s -> exists a s', m s = Ret a s' /\ Q a s'.
Proof. unfold wp, wpx. destruct (m s); naive_solver. Qed.

Lemma wp_intro m (Q : A -> kstate -> Prop) s a s' :
  m s = Ret a s' -> Q a s' -> wp m Q s.
Proof. unfold wp, wpx. intros ->. done. Qed.

Lemma bind_Ret m f s a s' : m s = Ret a s' -> (m ≫= f) s = f a s'.
Proof. unfold mbind, M_bind. by intros ->. Qed.

Lemma bind_assoc {C} m f (g : B -> M C) s :
  ((m ≫= f) ≫= g) s = (m ≫= (fun x => f x ≫= g)) s.
Proof. unfold mbind, M_bind. by destruct (m s). Qed.
End rules.

Lemma wpx_gets {A} (f : kstate -> A) (Q : A -> kstate -> Prop) E s :
  Q (f s) s -> wpx (gets f) Q E s.
Proof. done. Qed.

Lemma wpx_modify (f : kstate -> kstate) (Q : unit -> kstate -> Prop) E s :
  Q tt (f s) -> wpx (modify f) Q E s.
Proof. done. Qed.

Lemma wpx_load {T} `{Struct T} p (v : T) (Q : T -> kstate -> Prop) E s :
  heap s !! p = Some v -> Q v s -> wpx (load p) Q E s.
Proof. unfold wpx, load. by intros ->. Qed.

Lemma wpx_store {T} `{Struct T} p (v w : T) (Q : unit -> kstate -> Prop) E s :
  heap s !! p = Some w -> Q tt (set_heap (<[p := v]> (heap s)) s) -> wpx (store p v) Q E s.
Proof. unfold wpx, store. by intros ->. Qed.

Lemma wpx_update {T} `{Struct T} p (f : T -> T) (v : T) (Q : unit -> kstate -> Prop) E s :
  heap s !! p = Some v -> Q tt (set_heap (<[p := f v]> (heap s)) s) -> wpx (update p f) Q E s.
Proof. intros Hp HQ. apply wpx_bind, (wpx_load _ v), (wpx_store _ _ v); done. Qed.

(** Steps through the head of a computation: binds, state accesses, tests whose
    outcome is a hypothesis. *)
Ltac wstep :=
  lazymatch goal with
  | |- wp _ _ _ => unfold wp; wstep
  | |- wpx (mret _) _ _ _ => apply wpx_ret
  | |- wpx (gets _) _ _ _ => apply wpx_gets
  | |- wpx (modify _) _ _ _ => apply wpx_modify
  | |- wpx (kfree _) _ _ _ => apply wpx_modify
  | |- wpx (_ ≫= _) _ _ _ => apply wpx_bind
  | |- wpx (load _) _ _ _ => eapply wpx_load; [eassumption|]
  | |- wpx (store _ _) _ _ _ => eapply wpx_store; [eassumption|]
  | |- wpx (update _ _) _ _ _ => eapply wpx_update; [eassumption|]
  end.

(** Resolve the test of a pointer that is known to be (non-)null. *)
Ltac nonnull p :=
  rewrite (proj2 (isnull_false p)) by first [done | lia]; cbv beta match.
Ltac isnullp p :=
  rewrite (proj2 (isnull_true p)) by first [done | lia]; cbv beta match.

(** Computes the head of a closed computation. *)
Ltac mcompute := repeat (progress (unfold wp, wpx, mret, mbind, M_ret, M_bind, gets, modify; cbn)).

(** * The kernel heap *)

Definition KERNEL_MEMORY_PAGE_RESERVE : Z := 10 * SYSTEM_PAGE_SIZE.

(** Value [get_current_memory_ptr] of alloc.c returns. *)
Definition heap_top (m : mem_t) : Z :=
  if isnull (current_mem_ptr m) then addr_end (p_kernel_data (platform m))
  else current_mem_ptr m.

(** The state after [n] bytes at the top were handed out and zero-filled; [kd]
    is what the allocator left in [platform.memory.kernel_data]. *)
Definition bump_mem (n : Z) (kd : region_t) (m : mem_t) : mem_t :=
  let top := heap_top m in
  let p := platform m in
  mk_mem (fun a => if (top <=? a) && (a <? top + n) then 0 else ram m a)
    (top + n) (mem_allocator_initialised m)
    (kernel_code_vmem_region m) (kernel_data_vmem_region m)
    (mk_platform (total_memory_info p) (p_kernel p) kd (reserved_segments p) (p_modules p))
    (kfreed m).
Definition bump (n : Z) (kd : region_t) (s : kstate) : kstate := set_mem (bump_mem n kd (mem s)) s.

(** Size of kernel data memory as [ensure_free_memory] sees it. *)
Definition kernel_data_current_size (s : kstate) : Z :=
  if isnull (kernel_data_vmem_region (mem s)) then seg_size (p_kernel_data (platform (mem s)))
  else match regions (vm s) !! kernel_data_vmem_region (mem s) with
       | Some r => allocated_size r | None => 0 end.

(** The region of kernel data memory, once there is one, is a region. *)
Definition kernel_data_region_ok (s : kstate) : bool :=
  isnull (kernel_data_vmem_region (mem s)) ||
  bool_decide (is_Some (regions (vm s) !! kernel_data_vmem_region (mem s))).

(** Bytes the allocator can hand out without growing kernel data memory. *)
Definition avail (s : kstate) : Z :=
  let m := mem s in
  Z.min (2 ^ 62 - heap_top m)
    (if mem_allocator_initialised m
     then kernel_data_current_size s -
          (heap_top m + KERNEL_MEMORY_PAGE_RESERVE - addr_start (p_kernel_data (platform m)))
     else if kernel_data_region_ok s then 2 ^ 62 - heap_top m else -1).

(** Kernel data memory starts at a positive address and the allocation pointer
    is in it; once the allocator is initialised it has its region. *)
Definition alloc_ok (m : mem_t) : Prop :=
  0 < addr_start (p_kernel_data (platform m)) <= heap_top m /\
  (mem_allocator_initialised m = true -> kernel_data_vmem_region m <> 0).

(** Kernel data memory is announced with at most twice the reserve and a page
    above the allocation pointer [top]. *)
Definition kdata_size (top : Z) (kd kd' : region_t) : Prop :=
  0 <= seg_size kd -> 0 <= seg_size kd' <= Z.max (seg_size kd) (top + 86016 - addr_start kd).

Lemma kdata_size_refl top kd : kdata_size top kd kd.
Proof. unfold kdata_size. lia. Qed.

(** What the services rely on: a request that fits is served from the top of
    the heap, zero-filled, and nothing but the allocator's own state moves. *)
Class GoodAlloc (K : Kalloc) : Prop := good_alloc : forall n s,
  alloc_ok (mem s) -> 0 <= n <= avail s ->
  exists kd, K n s = Ret (heap_top (mem s)) (bump n kd s) /\
    addr_start kd = addr_start (p_kernel_data (platform (mem s))) /\
    kdata_size (heap_top (mem s) + n) (p_kernel_data (platform (mem s))) kd /\
    (mem_allocator_initialised (mem s) = true -> kd = p_kernel_data (platform (mem s))).

(** [grown n m m']: the memory group moved as [n] bytes being handed out from
    the top; [quiet] says besides that no byte outside them changed. *)
Record grown (n : Z) (m m' : mem_t) : Prop := {
  gr_pos : 0 <= n;
  gr_top : heap_top m' = heap_top m + n;
  gr_init : mem_allocator_initialised m' = mem_allocator_initialised m;
  gr_code : kernel_code_vmem_region m' = kernel_code_vmem_region m;
  gr_data : kernel_data_vmem_region m' = kernel_data_vmem_region m;
  gr_total : total_memory_info (platform m') = total_memory_info (platform m);
  gr_kernel : p_kernel (platform m') = p_kernel (platform m);
  gr_start : addr_start (p_kernel_data (platform m')) = addr_start (p_kernel_data (platform m));
  gr_size : kdata_size (heap_top m') (p_kernel_data (platform m)) (p_kernel_data (platform m'));
  gr_kdata : mem_allocator_initialised m = true ->
    p_kernel_data (platform m') = p_kernel_data (platform m);
  gr_above a : heap_top m' <= a -> ram m' a = ram m a;
  gr_segs : reserved_segments (platform m') = reserved_segments (platform m);
  gr_mods : p_modules (platform m') = p_modules (platform m) }.

Record quiet (n : Z) (m m' : mem_t) : Prop := {
  q_grown : grown n m m';
  q_ram a : ~ (heap_top m <= a < heap_top m + n) -> ram m' a = ram m a;
  q_bytes : (forall a, 0 <= ram m a < 256) -> forall a, 0 <= ram m' a < 256 }.

Lemma heap_top_pos m : alloc_ok m -> 0 < heap_top m.
Proof. unfold alloc_ok. lia. Qed.

Lemma grown_refl m : grown 0 m m.
Proof. split; auto using kdata_size_refl; lia. Qed.

Lemma grown_trans n1 n2 m1 m2 m3 : grown n1 m1 m2 -> grown n2 m2 m3 -> grown (n1 + n2) m1 m3.
Proof.
  intros [] []. split; try congruence; try lia.
  3: { intros a Ha. rewrite gr_above1, gr_above0 by lia. done. }
  { unfold kdata_size in *. intros H0. specialize (gr_size0 H0). specialize (gr_size1 ltac:(lia)). lia. }
  intros Hi. rewrite gr_kdata1 by congruence. auto.
Qed.

Lemma quiet_refl m : quiet 0 m m.
Proof. split; [apply grown_refl | done | done]. Qed.

Lemma quiet_trans n1 n2 m1 m2 m3 : quiet n1 m1 m2 -> quiet n2 m2 m3 -> quiet (n1 + n2) m1 m3.
Proof.
  intros [H1 R1 B1] [H2 R2 B2]. split; [by eapply grown_trans| |by auto].
  intros a Ha. pose proof (gr_top _ _ _ H1). pose proof (gr_pos _ _ _ H1).
  pose proof (gr_pos _ _ _ H2). rewrite R2, R1 by lia. done.
Qed.

Lemma grown_alloc_ok n m m' : grown n m m' -> alloc_ok m -> alloc_ok m'.
Proof.
  intros [] [? Hi]. split; [lia|]. rewrite gr_data0, gr_init0. done.
Qed.

Lemma heap_top_bump n kd m : alloc_ok m -> 0 <= n -> heap_top (bump_mem n kd m) = heap_top m + n.
Proof.
  intros Hok Hn. apply heap_top_pos in Hok.
  assert (isnull (heap_top m + n) = false) as E by (apply isnull_false; lia).
  unfold heap_top at 1, bump_mem. cbn. by rewrite E.
Qed.

Lemma quiet_bump n kd m :
  alloc_ok m -> 0 <= n ->
  addr_start kd = addr_start (p_kernel_data (platform m)) ->
  kdata_size (heap_top m + n) (p_kernel_data (platform m)) kd ->
  (mem_allocator_initialised m = true -> kd = p_kernel_data (platform m)) ->
  quiet n m (bump_mem n kd m).
Proof.
  intros Hok Hn Hst Hsz Hi. split.
  - split; rewrite ?heap_top_bump by done; cbn; auto. intros a Ha.
    rewrite (proj2 (Z.ltb_ge a (heap_top m + n))), andb_false_r by lia. done.
  - intros a Ha. cbn. destruct (_ && _) eqn:E; [|done].
    apply andb_true_iff in E as [?%Z.leb_le ?%Z.ltb_lt]. lia.
  - intros Hb a. cbn. destruct (_ && _); [lia|apply Hb].
Qed.

Lemma set_kfreed_id s : set_kfreed (kfreed (mem s)) s = s.
Proof. by destruct s as [[] ? ? ? ? ? ? ?]. Qed.

Lemma quiet_kfreed fr s : quiet 0 (mem s) (mem (set_kfreed fr s)).
Proof.
  split; [|done|done]. split; try done.
  - change (heap_top (mem (set_kfreed fr s))) with (heap_top (mem s)). lia.
  - apply kdata_size_refl.
Qed.

(** Writing below the top of the heap. *)
Lemma grown_ram v s : (forall a, heap_top (mem s) <= a -> v a = ram (mem s) a) -> grown 0 (mem s) (mem (set_ram v s)).
Proof.
  intros Hv. split; try done; [|apply kdata_size_refl].
  change (heap_top (mem (set_ram v s))) with (heap_top (mem s)). lia.
Qed.

(** Room left after allocations, when kernel data memory did not shrink. *)
Lemma avail_grown n s s' :
  grown n (mem s) (mem s') ->
  (mem_allocator_initialised (mem s) = true ->
   kernel_data_current_size s <= kernel_data_current_size s') ->
  (kernel_data_region_ok s = true -> kernel_data_region_ok s' = true) ->
  avail s - n <= avail s'.
Proof.
  intros [] Hcs Hr. unfold avail. rewrite gr_init0, gr_top0, gr_start0.
  destruct (mem_allocator_initialised (mem s)); [specialize (Hcs eq_refl); lia|].
  destruct (kernel_data_region_ok s); [rewrite Hr by done; lia|]. destruct (kernel_data_region_ok s'); lia.
Qed.

(** The current size depends on the region store and, before the allocator has
    its region, on the platform object. *)
Lemma kernel_data_current_size_eq n s s' :
  alloc_ok (mem s) -> grown n (mem s) (mem s') -> regions (vm s') = regions (vm s) ->
  mem_allocator_initialised (mem s) = true ->
  kernel_data_current_size s' = kernel_data_current_size s.
Proof.
  intros [_ Hok] [] Hr Hi. unfold kernel_data_current_size. rewrite gr_data0, Hr.
  destruct (isnull (kernel_data_vmem_region (mem s))) eqn:E; [|done].
  apply isnull_true in E. by apply Hok in Hi.
Qed.

Lemma avail_grown_regions n s s' :
  alloc_ok (mem s) -> grown n (mem s) (mem s') -> regions (vm s') = regions (vm s) ->
  avail s - n <= avail s'.
Proof.
  intros Hok Hq Hr. eapply avail_grown; [done| |].
  - intros Hi. by rewrite (kernel_data_current_size_eq n s s').
  - unfold kernel_data_region_ok. by rewrite (gr_data _ _ _ Hq), Hr.
Qed.

(** ** Stores below the top of the heap *)

(** Every struct of type [T] has a non-null address below the top. *)
Definition below T `{Struct T} (s : kstate) : Prop :=
  forall p v, heap (T := T) s !! p = Some v -> 0 < p < heap_top (mem s).

Lemma below_top_fresh {T} `{Struct T} s : below T s -> heap (T := T) s !! heap_top (mem s) = None.
Proof.
  intros Hb. destruct (heap (T := T) s !! heap_top (mem s)) eqn:E; [|done].
  apply Hb in E. lia.
Qed.

Lemma below_insert {T} `{Struct T} s p (v : T) :
  below T s -> 0 < p < heap_top (mem s) -> below T (set_heap (<[p := v]> (heap s)) s).
Proof.
  intros Hb Hp q w. rewrite heap_set_heap, mem_set_heap.
  intros [[-> ->] | [? ?]]%lookup_insert_Some; [done | by eapply Hb].
Qed.

Lemma below_grown {T} `{Struct T} n s s' :
  grown n (mem s) (mem s') -> heap (T := T) s' = heap s -> below T s -> below T s'.
Proof. intros [] Hh Hb p v. rewrite Hh. intros E%Hb. lia. Qed.

(** ** Allocation *)
Section alloc.
Context `{K : Kalloc} `{!GoodAlloc K}.

(** A request that fits. *)
Lemma wp_kalloc n s :
  alloc_ok (mem s) -> 0 <= n <= avail s ->
  wp (kalloc n) (fun p s' => p = heap_top (mem s) /\ exists m', s' = set_mem m' s /\
    quiet n (mem s) m' /\
    (forall a, heap_top (mem s) <= a < heap_top (mem s) + n -> ram m' a = 0)) s.
Proof.
  intros Hok Hn. destruct (good_alloc n s Hok Hn) as (kd & E & Hst & Hsz & Hi).
  eapply wp_intro; [exact E|]. split; [done|].
  eexists; split_and!; [done | by apply quiet_bump; [|lia| | |] |].
  intros a Ha. cbn. destruct (_ && _) eqn:E'; [done|].
  apply andb_false_iff in E' as [?%Z.leb_gt | ?%Z.ltb_ge]; lia.
Qed.

Lemma wp_NEW T `{Struct T} s :
  alloc_ok (mem s) -> sizeof T <= avail s ->
  wp (NEW T) (fun p s' => p = heap_top (mem s) /\ exists m',
    s' = set_heap (<[p := zeroed]> (heap s)) (set_mem m' s) /\
    quiet (sizeof T) (mem s) m') s.
Proof.
  intros Hok Hn. unfold NEW. pose proof (sizeof_pos (T := T)).
  eapply wp_call; [apply wp_kalloc; [done|lia]|].
  intros p s' (-> & m' & -> & Hq & _).
  assert (isnull (heap_top (mem s)) = false) as ->.
  { apply isnull_false. apply heap_top_pos in Hok. lia. }
  wstep. wstep. wstep. split; [done|]. exists m'. by rewrite heap_set_mem.
Qed.
End alloc.

#[export] Hint Resolve grown_refl quiet_refl q_grown grown_alloc_ok : kern.

(** * Running, and a concrete machine for examples *)

(** The state a computation ends in. *)
Definition run {A} (m : M A) (s : kstate) : kstate :=
  match m s with Ret _ s' => s' | Leave _ s' => s' | _ => s end.
Definition result {A} (m : M A) (s : kstate) : option A :=
  match m s with Ret a _ => Some a | _ => None end.

Lemma wp_run {A} (m : M A) Q s : wp m Q s -> exists a, m s = Ret a (run m s) /\ Q a (run m s).
Proof. unfold wp, wpx, run. destruct (m s); naive_solver. Qed.

Lemma result_run {A} (m : M A) s a : result m s = Some a -> m s = Ret a (run m s).
Proof. unfold result, run. destruct (m s); naive_solver. Qed.

(** The smallest allocator that serves every request from the top. *)
Definition bump_alloc : Kalloc := fun n s =>
  Ret (heap_top (mem s)) (bump n (p_kernel_data (platform (mem s))) s).

#[export] Instance bump_alloc_good : GoodAlloc bump_alloc.
Proof. intros n s Hok Hn. eexists. split; [done|]. split; [done|]. split; [apply kdata_size_refl|done]. Qed.

(** The machine when [platform_initialize] is done: static data is zero, the
    kernel image is at 1 MB and kernel data starts on the page after it. *)
Definition state0 : kstate :=
  mk_state
    (mk_mem (fun _ => 0) 0 false 0 0
       (mk_platform 134217728 (mk_seg 1048576 1572864 524288) (mk_seg 1576960 1576960 0) 0 0) [])
    (mk_lists ∅ ∅) (mk_ids ∅ ∅) (mk_vm ∅ ∅ ∅ 0) (mk_paging ∅ 0) (mk_pmem 0 0 [])
    (mk_sched ∅ ∅ 0 0) (mk_boot ∅ ∅ (replicate 255 None) 0).

Lemma state0_alloc_ok : alloc_ok (mem state0).
Proof. split; [vm_compute; split; congruence | done]. Qed.

Lemma state0_avail : 2 ^ 61 <= avail state0.
Proof. vm_compute. congruence. Qed.

(** The linker's layout that fits it. *)
Definition layout_example : Layout.
Proof.
  refine {| a_vmem_id_mapper := 1500000; a_vmem_region_mapper := 1500032; a_task_id_mapper := 1500064;
    ADDR_KERNEL_START := 1048576; ADDR_KERNEL_END := 1572864 |}.
  - repeat (constructor; [rewrite ?not_elem_of_cons; split_and?; try done; apply not_elem_of_nil|]). constructor.
  - lia.
Defined.

(** [state0] with the static mappers in their place. *)
Definition state1 : kstate :=
  set_idmappers (<[1500000 := mk_idm 0 0]> (<[1500032 := mk_idm 0 0]> {[1500064 := mk_idm 0 0]})) state0.
