(* ===== verification/LinkedList.v ===== *)
(** libutils/src/algorithms/linkedlist.c: singly linked lists of [void*].

    The operations below follow the C code on the stores of list headers and
    nodes.  [is_list] relates a header to the sequence of its nodes, and the
    specifications show that every operation acts on that sequence as the
    corresponding operation on [list Z]. *)
From S2P Require Import Prelude Machine Logic.

(** * Definitions *)
Section code.
Context `{Kalloc}.

Definition linkedlist_create : M Z :=
  linkedlist ← NEW linkedlist_t;
  if isnull linkedlist then mret NULL
  else store linkedlist (mk_ll NULL 0);; mret linkedlist.

Definition linkedlist_size (ll : Z) : M Z :=
  if isnull ll then mret 0 else l ← load ll; mret (ll_size l).

(** A [linkedlist_iter_t*] is [None] for NULL and [Some n] for a pointer to an
    iterator whose [next_node] is [n]. *)
Definition linkedlist_iter_initialize (ll : Z) (iter : option Z) : M (bool * option Z) :=
  if isnull ll then mret (false, iter)
  else match iter with
       | None => mret (false, iter)
       | Some _ => l ← load ll; mret (true, Some (ll_first l))
       end.

Definition linkedlist_iter_next_node (iter : option Z) : M (Z * option Z) :=
  match iter with
  | None => mret (NULL, iter)
  | Some n =>
      if isnull n then mret (NULL, iter)
      else node ← load n; mret (n, Some (node_next node))
  end.

Definition linkedlist_iter_next (iter : option Z) : M (Z * option Z) :=
  '(current, iter') ← linkedlist_iter_next_node iter;
  if isnull current then mret (NULL, iter')
  else node ← load current; mret (node_val node, iter').

(** A local iterator over [ll].  Initialisation fails on a NULL list and leaves
    the iterator indeterminate, so the loop that follows has no defined
    behaviour. *)
Definition iter_begin (ll : Z) : M (option Z) :=
  '(ok, iter) ← linkedlist_iter_initialize ll (Some NULL);
  if (ok : bool) then mret iter else fault.

(** [while ((var = next(&iter))) body].  The body goes on with a new loop state
    ([inl]) or leaves the loop ([inr]); the bound is the number of nodes in the
    store plus one. *)
Fixpoint while_next {St R} (next : option Z -> M (Z * option Z)) (body : Z -> St -> M (St + R))
    (fuel : nat) (iter : option Z) (st : St) : M (St + R) :=
  match fuel with
  | O => out_of_fuel
  | S fuel' =>
      '(var, iter') ← next iter;
      if isnull var then mret (inl st)
      else r ← body var st;
           match r with
           | inl st' => while_next next body fuel' iter' st'
           | inr v => mret (inr v)
           end
  end.

Definition list_fuel (s : kstate) : nat := S (size (nodes (lists s))).

(** [WHILE_LINKEDLIST_ITER(ll, type, var) body] *)
Definition while_linkedlist_iter {St R} (ll : Z) (st : St) (body : Z -> St -> M (St + R)) :
    M (St + R) :=
  iter ← iter_begin ll;
  fuel ← gets list_fuel;
  while_next linkedlist_iter_next body fuel iter st.

(** [linkedlist_iter_initialize(ll, &iter); while ((next = linkedlist_iter_next_node(&iter)))] *)
Definition while_nodes {St R} (ll : Z) (st : St) (body : Z -> St -> M (St + R)) : M (St + R) :=
  iter ← iter_begin ll;
  fuel ← gets list_fuel;
  while_next linkedlist_iter_next_node body fuel iter st.

(** [for (i = 0; i < index && next; ++i) next = linkedlist_iter_next_node(&iter)] *)
Fixpoint linkedlist_get_loop (n : nat) (next : Z) (iter : option Z) : M Z :=
  match n with
  | O => mret next
  | S n' =>
      if isnull next then mret next
      else '(next', iter') ← linkedlist_iter_next_node iter;
           linkedlist_get_loop n' next' iter'
  end.

Definition linkedlist_get (ll index : Z) : M Z :=
  if isnull ll then mret NULL
  else
    l ← load ll;
    if ll_size l <=? index then mret NULL
    else
      iter ← iter_begin ll;
      '(next, iter') ← linkedlist_iter_next_node iter;
      next ← linkedlist_get_loop (Z.to_nat index) next iter';
      if isnull next then mret NULL
      else node ← load next; mret (node_val node).

Definition linkedlist_find (ll el : Z) : M Z :=
  if isnull ll then mret (-1)
  else
    r ← while_linkedlist_iter ll 0 (fun e i =>
      if e =? el then mret (inr i) else mret (inl (s32 (i + 1))));
    match r with
    | inr i => mret i
    | inl _ => mret (-1)
    end.

Definition linkedlist_destroy (ll : Z) : M unit :=
  if isnull ll then mret tt
  else
    iter ← iter_begin ll;
    '(last, iter) ← linkedlist_iter_next_node iter;
    '(_, iter) ← linkedlist_iter_next_node iter;
    fuel ← gets list_fuel;
    r ← while_next (R := Empty_set) linkedlist_iter_next_node (fun next last =>
      kfree last;; mret (inl next)) fuel iter last;
    match r with
    | inl last => kfree last;; kfree ll
    | inr v => match v : Empty_set with end
    end.

Definition linkedlist_append (ll data : Z) : M bool :=
  if isnull ll then mret false
  else
    node ← NEW linkedlist_node_t;
    if isnull node then mret false
    else
      store node (mk_node data NULL);;
      l ← load ll;
      (if ll_size l =? 0 then store ll (mk_ll node (ll_size l))
       else
         r ← while_nodes (R := Empty_set) ll NULL (fun next _ => mret (inl next));
         match r with
         | inl last => update last (fun n => mk_node (node_val n) node)
         | inr v => match v : Empty_set with end
         end);;
      update ll (fun l => mk_ll (ll_first l) (ll_size l ⊞ 1));;
      mret true.

Definition linkedlist_remove_node (ll previous removed : Z) : M unit :=
  if isnull removed then mret tt
  else
    (if isnull previous then mret tt
     else r ← load removed; update previous (fun n => mk_node (node_val n) (node_next r)));;
    l ← load ll;
    (if ll_first l =? removed
     then r ← load removed; store ll (mk_ll (node_next r) (ll_size l))
     else mret tt);;
    kfree removed;;
    update ll (fun l => mk_ll (ll_first l) (ll_size l ⊟ 1)).

Definition linkedlist_remove_element (ll addr : Z) : M bool :=
  if isnull ll then mret false
  else
    r ← while_nodes ll NULL (fun next previous =>
      n ← load next;
      if node_val n =? addr then linkedlist_remove_node ll previous next;; mret (inr tt)
      else mret (inl next));
    match r with
    | inr _ => mret true
    | inl _ => mret false
    end.

(** [enum iter_action_enum] *)
Definition ITER_GO_NEXT : Z := 0.
Definition ITER_STOP_AND_RETURN : Z := 1.
Definition ITER_REMOVE_AND_RETURN : Z := 2.
Definition ITER_REMOVE_AND_NEXT : Z := 3.

(** The callback gets the data its [void*] argument points to and gives it back
    updated, with the action. *)
Definition linkedlist_iter_with_action {D} (ll : Z) (iter_func : D -> Z -> M (Z * D))
    (data_to_func : D) : M Z :=
  r ← while_nodes ll (NULL, data_to_func) (fun next '(previous, data) =>
    n ← load next;
    '(action, data') ← iter_func data (node_val n);
    if action =? ITER_STOP_AND_RETURN then n ← load next; mret (inr (node_val n))
    else if action =? ITER_GO_NEXT then mret (inl (next, data'))
    else if action =? ITER_REMOVE_AND_NEXT then
      linkedlist_remove_node ll previous next;; mret (inl (next, data'))
    else if action =? ITER_REMOVE_AND_RETURN then
      n ← load next;
      linkedlist_remove_node ll previous next;; mret (inr (node_val n))
    else mret (inr NULL));
  match r with
  | inr v => mret v
  | inl _ => mret NULL
  end.

Definition linkedlist_iter_remove_element (remaining : Z) (value : Z) : M (Z * Z) :=
  if remaining =? 0 then mret (ITER_REMOVE_AND_RETURN, remaining)
  else mret (ITER_GO_NEXT, remaining ⊟ 1).

Definition linkedlist_remove (ll index : Z) : M Z :=
  if isnull ll then mret NULL
  else
    l ← load ll;
    if ll_size l <=? index then mret NULL
    else linkedlist_iter_with_action ll linkedlist_iter_remove_element index.

Definition linkedlist_pop (ll : Z) : M Z :=
  if isnull ll then mret NULL
  else
    l ← load ll;
    if isnull (ll_first l) then mret NULL
    else
      size ← linkedlist_size ll;
      linkedlist_remove ll (size ⊟ 1).
End code.

(** * Representation *)

(** [lseg N p ns q]: from [p], following [next], the nodes [ns] (address, value)
    up to [q]. *)
Fixpoint lseg (N : gmap Z linkedlist_node_t) (p : Z) (ns : list (Z * Z)) (q : Z) : Prop :=
  match ns with
  | [] => p = q
  | (a, v) :: ns' => p = a /\ a <> 0 /\ exists nx, N !! a = Some (mk_node v nx) /\ lseg N nx ns' q
  end.

(** The first node address of a sequence that ends in NULL. *)
Definition hd_addr (ns : list (Z * Z)) : Z :=
  match ns with [] => 0 | (a, _) :: _ => a end.

Definition is_list (H : gmap Z linkedlist_t) (N : gmap Z linkedlist_node_t)
    (ll : Z) (ns : list (Z * Z)) : Prop :=
  ll <> 0 /\ H !! ll = Some (mk_ll (hd_addr ns) (Z.of_nat (length ns))) /\
  lseg N (hd_addr ns) ns 0 /\ NoDup ns.*1 /\ Z.of_nat (length ns) < 2 ^ 64.

(** The lists of the kernel: [L] gives the nodes of every list, and no node is
    in two lists. *)
Record lists_ok (H : gmap Z linkedlist_t) (N : gmap Z linkedlist_node_t)
    (L : gmap Z (list (Z * Z))) : Prop := {
  lo_list ll ns : L !! ll = Some ns -> is_list H N ll ns;
  lo_disj l1 l2 ns1 ns2 a : L !! l1 = Some ns1 -> L !! l2 = Some ns2 ->
    a ∈ ns1.*1 -> a ∈ ns2.*1 -> l1 = l2 }.

Record lists_inv (s : kstate) (L : gmap Z (list (Z * Z))) : Prop := {
  li_ok : lists_ok (lls (lists s)) (nodes (lists s)) L;
  li_lls : below linkedlist_t s;
  li_nodes : below linkedlist_node_t s;
  li_space : 0 < heap_top (mem s) <= 2 ^ 63 }.

(** The values of a list, and those a [WHILE_LINKEDLIST_ITER] loop sees: it
    stops at the first NULL value. *)
Definition values (ns : list (Z * Z)) : list Z := ns.*2.
Fixpoint upto_null (xs : list Z) : list Z :=
  match xs with
  | [] => []
  | x :: xs' => if isnull x then [] else x :: upto_null xs'
  end.

Lemma upto_null_all xs : Forall (fun x => x <> 0) xs -> upto_null xs = xs.
Proof.
  induction 1 as [|x xs Hx _ IH]; [done|]. cbn. by rewrite (proj2 (isnull_false x)), IH.
Qed.

(** ** Segments *)
Section lseg.
Implicit Types (N : gmap Z linkedlist_node_t) (ns : list (Z * Z)).

Lemma lseg_app N p ns1 ns2 q :
  lseg N p (ns1 ++ ns2) q <-> exists r, lseg N p ns1 r /\ lseg N r ns2 q.
Proof.
  revert p. induction ns1 as [|[a v] ns1 IH]; intros p; cbn; [naive_solver|].
  setoid_rewrite IH. naive_solver.
Qed.

Lemma lseg_hd N p ns : lseg N p ns 0 -> p = hd_addr ns.
Proof. destruct ns as [|[a v] ns]; cbn; naive_solver. Qed.

(** A segment only depends on its own nodes. *)
Lemma lseg_frame N N' p ns q :
  (forall a, a ∈ ns.*1 -> N' !! a = N !! a) -> lseg N p ns q -> lseg N' p ns q.
Proof.
  revert p. induction ns as [|[a v] ns IH]; intros p Hf; cbn; [done|].
  intros (-> & Ha & nx & E & Hs). split_and!; [done|done|].
  exists nx. rewrite Hf by (cbn; set_solver). split; [done|].
  apply IH; [|done]. intros b Hb. apply Hf. cbn. set_solver.
Qed.

Lemma lseg_insert N p ns q b w :
  b ∉ ns.*1 -> lseg N p ns q -> lseg (<[b := w]> N) p ns q.
Proof.
  intros Hb. apply lseg_frame. intros a Ha. rewrite lookup_insert_ne; [done | set_solver].
Qed.

Lemma lseg_dom N p ns q a : lseg N p ns q -> a ∈ ns.*1 -> a <> 0 /\ is_Some (N !! a).
Proof.
  revert p. induction ns as [|[b v] ns IH]; intros p; cbn; [set_solver|].
  intros (-> & Hb & nx & E & Hs) [->|Ha]%elem_of_cons; eauto.
Qed.

(** Nodes of one segment are distinct elements of the store. *)
Lemma lseg_length N p ns q : lseg N p ns q -> NoDup ns.*1 -> (length ns <= size N)%nat.
Proof.
  intros Hs Hnd. rewrite <- (length_fmap fst).
  rewrite <- (size_dom (D := gset Z) N).
  rewrite <- (size_list_to_set (C := gset Z)) by done.
  apply subseteq_size. intros a Ha%elem_of_list_to_set.
  apply elem_of_dom. by eapply lseg_dom.
Qed.

Lemma hd_addr_app ns1 ns2 : hd_addr (ns1 ++ ns2) = match ns1 with [] => hd_addr ns2 | _ => hd_addr ns1 end.
Proof. by destruct ns1 as [|[a v] ns1]. Qed.
End lseg.

Lemma is_list_lookup H N ll ns ns1 a v ns2 :
  is_list H N ll ns -> ns = ns1 ++ (a, v) :: ns2 ->
  a <> 0 /\ N !! a = Some (mk_node v (hd_addr ns2)).
Proof.
  intros (_ & _ & Hs & _) ->. apply lseg_app in Hs as (r & _ & Hs).
  cbn in Hs. destruct Hs as (-> & Ha & nx & E & Hs). apply lseg_hd in Hs. by subst nx.
Qed.

Lemma is_list_frame H N H' N' ll ns :
  H' !! ll = H !! ll -> (forall a, a ∈ ns.*1 -> N' !! a = N !! a) ->
  is_list H N ll ns -> is_list H' N' ll ns.
Proof.
  intros Hh Hn (? & E & Hs & ? & ?). split_and!; try done; [by rewrite Hh|].
  by eapply lseg_frame.
Qed.

(** ** The store of lists *)
Section store.
Context (H : gmap Z linkedlist_t) (N : gmap Z linkedlist_node_t) (L : gmap Z (list (Z * Z))).
Hypothesis Hok : lists_ok H N L.

(** Replacing one list by another whose other nodes are not shared. *)
Lemma lists_ok_replace H' N' ll ns ns' :
  L !! ll = Some ns -> is_list H' N' ll ns' ->
  (forall l, l <> ll -> H' !! l = H !! l) ->
  (forall a, a ∉ ns.*1 -> a ∉ ns'.*1 -> N' !! a = N !! a) ->
  (forall l ns0 a, l <> ll -> L !! l = Some ns0 -> a ∈ ns'.*1 -> a ∉ ns.*1 -> a ∉ ns0.*1) ->
  lists_ok H' N' (<[ll := ns']> L).
Proof.
  intros El Hl HH HN Hfresh. destruct Hok as [Hlist Hdisj]. split.
  - intros l ns0 [[-> ->] | [Hne E]]%lookup_insert_Some; [done|].
    apply (is_list_frame H N); [by apply HH | | by apply Hlist].
    intros a Ha. destruct (decide (a ∈ ns.*1)) as [Hin|Hin]; [by destruct Hne; eapply Hdisj|].
    destruct (decide (a ∈ ns'.*1)) as [Hin'|Hin']; [exfalso; by eapply Hfresh|].
    by apply HN.
  - assert (forall l ns0 a, ll <> l -> L !! l = Some ns0 -> a ∈ ns'.*1 -> a ∉ ns0.*1) as Hx.
    { intros l ns0 a Hne E Ha Ha0.
      destruct (decide (a ∈ ns.*1)) as [Hin|Hin]; [by destruct Hne; eapply Hdisj|].
      by eapply Hfresh. }
    intros l1 l2 ns1 ns2 a [[-> ->]|[? ?]]%lookup_insert_Some
      [[-> ->]|[? ?]]%lookup_insert_Some Ha1 Ha2; [done | | | by eapply Hdisj];
      exfalso; by eapply Hx.
Qed.

Lemma lists_ok_new H' N' p :
  L !! p = None -> p <> 0 -> H' = <[p := mk_ll 0 0]> H -> N' = N ->
  lists_ok H' N' (<[p := []]> L).
Proof.
  intros Hp Hp0 -> ->. destruct Hok as [Hlist Hdisj]. split.
  - intros l ns0 [[-> <-] | [Hne E]]%lookup_insert_Some.
    + split_and!; [done | by rewrite lookup_insert_eq | done | constructor | cbn; lia].
    + apply (is_list_frame H N); [by rewrite lookup_insert_ne | done | by apply Hlist].
  - intros l1 l2 ns1 ns2 a [[-> <-]|[? ?]]%lookup_insert_Some
      [[-> <-]|[? ?]]%lookup_insert_Some Ha1 Ha2; cbn in *; try set_solver.
Qed.
End store.

Lemma lists_inv_grown n s s' L :
  lists s' = lists s -> grown n (mem s) (mem s') -> heap_top (mem s') <= 2 ^ 63 ->
  lists_inv s L -> lists_inv s' L.
Proof.
  intros Hl Hg Hs [Hok Hb1 Hb2 Hsp]. pose proof (gr_top _ _ _ Hg). pose proof (gr_pos _ _ _ Hg).
  split; [by rewrite Hl | | | lia].
  - eapply below_grown; [done| |done]. cbn. by rewrite Hl.
  - eapply below_grown; [done| |done]. cbn. by rewrite Hl.
Qed.

(** * Loops over a list *)

Section loops.
Context {St R : Type} (ll : Z) (ns : list (Z * Z)).
Implicit Types (J : list (Z * Z) -> St -> kstate -> Prop).

Definition has_list (s : kstate) : Prop := is_list (lls (lists s)) (nodes (lists s)) ll ns.

Lemma wpx_iter_begin (Q : option Z -> kstate -> Prop) E s :
  has_list s -> Q (Some (hd_addr ns)) s -> wpx (iter_begin ll) Q E s.
Proof.
  intros (Hll & E1 & _) HQ. unfold iter_begin, linkedlist_iter_initialize.
  nonnull ll.
  wstep. wstep. eapply wpx_load; [exact E1|]. by repeat wstep.
Qed.

Lemma wpx_next_node (done todo : list (Z * Z)) a v (Q : Z * option Z -> kstate -> Prop) E s :
  has_list s -> ns = done ++ (a, v) :: todo ->
  Q (a, Some (hd_addr todo)) s ->
  wpx (linkedlist_iter_next_node (Some (hd_addr ((a, v) :: todo)))) Q E s.
Proof.
  intros Hl Ens HQ. destruct (is_list_lookup _ _ _ _ _ _ _ _ Hl Ens) as [Ha E1].
  cbn. nonnull a.
  wstep. eapply wpx_load; [exact E1|]. by wstep.
Qed.

Lemma wpx_next (done todo : list (Z * Z)) a v (Q : Z * option Z -> kstate -> Prop) E s :
  has_list s -> ns = done ++ (a, v) :: todo ->
  Q (v, Some (hd_addr todo)) s ->
  wpx (linkedlist_iter_next (Some (hd_addr ((a, v) :: todo)))) Q E s.
Proof.
  intros Hl Ens HQ. unfold linkedlist_iter_next. wstep.
  eapply wpx_next_node; [done|done|].
  destruct (is_list_lookup _ _ _ _ _ _ _ _ Hl Ens) as [Ha E1].
  nonnull a.
  wstep. eapply wpx_load; [exact E1|]. by wstep.
Qed.

(** Iterating over nodes: [J done] holds when the nodes [done] were visited. *)
Lemma while_next_nodes (body : Z -> St -> M (St + R)) J (Q : St + R -> kstate -> Prop) :
  (forall done st s, J done st s -> has_list s) ->
  (forall done a v todo st s, ns = done ++ (a, v) :: todo -> J done st s ->
    wp (body a st) (fun r s' => match r with
      | inl st' => J (done ++ [(a, v)]) st' s' | inr x => Q (inr x) s' end) s) ->
  (forall st s, J ns st s -> Q (inl st) s) ->
  forall fuel done todo st s, ns = done ++ todo -> J done st s -> (length todo < fuel)%nat ->
    wp (while_next linkedlist_iter_next_node body fuel (Some (hd_addr todo)) st) Q s.
Proof.
  intros Hlist Hbody Hend. induction fuel as [|fuel IH]; intros done todo st s Ens HJ Hlen; [lia|].
  destruct todo as [|[a v] todo]; cbn [while_next].
  { wstep. repeat wstep. apply Hend. rewrite app_nil_r in Ens. by rewrite Ens. }
  wstep. eapply wpx_next_node; [by eapply Hlist|done|].
  destruct (is_list_lookup _ _ _ _ _ _ _ _ (Hlist _ _ _ HJ) Ens) as [Ha _].
  nonnull a.
  wstep. eapply wpx_mono; [by eapply Hbody| |done].
  intros [st'|x] s' Hs'; [|by wstep].
  eapply IH; [|done|cbn in Hlen; lia]. by rewrite <- app_assoc.
Qed.

Lemma wp_while_nodes (body : Z -> St -> M (St + R)) J (Q : St + R -> kstate -> Prop) st s :
  (forall done st s, J done st s -> has_list s) ->
  (forall done a v todo st s, ns = done ++ (a, v) :: todo -> J done st s ->
    wp (body a st) (fun r s' => match r with
      | inl st' => J (done ++ [(a, v)]) st' s' | inr x => Q (inr x) s' end) s) ->
  (forall st s, J ns st s -> Q (inl st) s) ->
  J [] st s -> wp (while_nodes ll st body) Q s.
Proof.
  intros Hlist Hbody Hend HJ. unfold while_nodes. pose proof (Hlist _ _ _ HJ) as Hl.
  wstep. eapply wpx_iter_begin; [done|]. wstep. wstep.
  eapply (while_next_nodes body J Q Hlist Hbody Hend _ []); [done|done|].
  destruct Hl as (_ & _ & Hs & Hnd & _). unfold list_fuel.
  apply lseg_length in Hs; [|done]. lia.
Qed.

(** Iterating over values: the loop sees the values before the first NULL. *)
Lemma while_next_values (body : Z -> St -> M (St + R))
    (J : list Z -> St -> kstate -> Prop) (Q : St + R -> kstate -> Prop) :
  (forall done st s, J done st s -> has_list s) ->
  (forall done v st s, done ++ [v] `prefix_of` upto_null (values ns) -> v <> 0 -> J done st s ->
    wp (body v st) (fun r s' => match r with
      | inl st' => J (done ++ [v]) st' s' | inr x => Q (inr x) s' end) s) ->
  (forall st s, J (upto_null (values ns)) st s -> Q (inl st) s) ->
  forall fuel done todo st s, ns = done ++ todo -> upto_null (values done) = values done ->
    J (values done) st s -> (length todo < fuel)%nat ->
    wp (while_next linkedlist_iter_next body fuel (Some (hd_addr todo)) st) Q s.
Proof.
  intros Hlist Hbody Hend.
  assert (forall xs ys, upto_null xs = xs -> upto_null (xs ++ ys) = xs ++ upto_null ys) as Hup.
  { induction xs as [|x xs IH]; intros ys Hx; cbn in *; [done|].
    destruct (isnull x); [done|]. injection Hx as Hx. by rewrite IH. }
  induction fuel as [|fuel IH]; intros done todo st s Ens Hdone HJ Hlen; [lia|].
  assert (upto_null (values ns) = values done ++ upto_null (values todo)) as Hv.
  { rewrite Ens. unfold values in *. rewrite fmap_app. by apply Hup. }
  destruct todo as [|[a v] todo]; cbn [while_next].
  { wstep. repeat wstep. apply Hend. rewrite Hv. cbn. by rewrite app_nil_r. }
  wstep. eapply wpx_next; [by eapply Hlist|done|].
  cbn in Hv. destruct (isnull v) eqn:Ev.
  { wstep. apply Hend. by rewrite Hv, app_nil_r. }
  apply isnull_false in Ev.
  wstep. eapply wpx_mono; [eapply (Hbody (values done) v); [|done|done]| |done].
  { rewrite Hv. exists (upto_null (values todo)). by rewrite <- app_assoc. }
  assert (values (done ++ [(a, v)]) = values done ++ [v]) as E2.
  { unfold values. by rewrite fmap_app. }
  intros [st'|x] s' Hs'; [|by wstep].
  eapply (IH (done ++ [(a, v)])); [by rewrite <- app_assoc | | by rewrite E2 | cbn in Hlen; lia].
  rewrite E2, Hup by done. cbn. by rewrite (proj2 (isnull_false v)).
Qed.

Lemma wp_while_linkedlist_iter (body : Z -> St -> M (St + R))
    (J : list Z -> St -> kstate -> Prop) (Q : St + R -> kstate -> Prop) st s :
  (forall done st s, J done st s -> has_list s) ->
  (forall done v st s, done ++ [v] `prefix_of` upto_null (values ns) -> v <> 0 -> J done st s ->
    wp (body v st) (fun r s' => match r with
      | inl st' => J (done ++ [v]) st' s' | inr x => Q (inr x) s' end) s) ->
  (forall st s, J (upto_null (values ns)) st s -> Q (inl st) s) ->
  J [] st s -> wp (while_linkedlist_iter ll st body) Q s.
Proof.
  intros Hlist Hbody Hend HJ. unfold while_linkedlist_iter. pose proof (Hlist _ _ _ HJ) as Hl.
  wstep. eapply wpx_iter_begin; [done|]. wstep. wstep.
  eapply (while_next_values body J Q Hlist Hbody Hend _ []); [done|done|done|].
  destruct Hl as (_ & _ & Hs & Hnd & _). unfold list_fuel.
  apply lseg_length in Hs; [|done]. lia.
Qed.
End loops.

(** * Specifications *)

(** What a list operation may change: the list stores, and memory by quiet
    allocations of [n] bytes. *)
Definition only_lists (n : Z) (s s' : kstate) : Prop :=
  exists H N m', s' = set_lists (mk_lists H N) (set_mem m' s) /\ quiet n (mem s) m'.

Lemma only_lists_intro n s m' H N :
  quiet n (mem s) m' -> only_lists n s (set_lists (mk_lists H N) (set_mem m' s)).
Proof. intros Hq. by exists H, N, m'. Qed.

Lemma only_lists_refl s : only_lists 0 s s.
Proof.
  destruct s as [m [H N] ? ? ? ? ? ?]. exists H, N, m. split; [done | apply quiet_refl].
Qed.

Lemma only_lists_trans n1 n2 s1 s2 s3 :
  only_lists n1 s1 s2 -> only_lists n2 s2 s3 -> only_lists (n1 + n2) s1 s3.
Proof.
  intros (H1 & N1 & m1 & -> & Hq1) (H2 & N2 & m2 & -> & Hq2). exists H2, N2, m2.
  split; [done|by eapply quiet_trans].
Qed.

Lemma only_lists_quiet n s s' : only_lists n s s' -> quiet n (mem s) (mem s').
Proof. intros (H & N & m' & -> & Hq). done. Qed.

Lemma only_lists_avail n s s' :
  alloc_ok (mem s) -> only_lists n s s' -> alloc_ok (mem s') /\ avail s - n <= avail s'.
Proof.
  intros Hok Ho. pose proof (only_lists_quiet _ _ _ Ho) as [Hg _ _]. split; [eauto with kern|].
  eapply avail_grown_regions; [done|done|]. by destruct Ho as (H & N & m' & -> & _).
Qed.

Lemma lists_inv_frame s s' L : mem s' = mem s -> lists s' = lists s -> lists_inv s L -> lists_inv s' L.
Proof.
  intros Hm Hl Hi. apply (lists_inv_grown 0 s); [done | rewrite Hm; apply grown_refl | | done].
  rewrite Hm. apply Hi.
Qed.

(** The list invariant after an operation that rewrote one list. *)
Lemma lists_inv_replace n s m' H' N' L ll ns ns' :
  lists_inv s L -> grown n (mem s) m' -> heap_top m' <= 2 ^ 63 ->
  L !! ll = Some ns ->
  is_list H' N' ll ns' ->
  (forall l, l <> ll -> H' !! l = lls (lists s) !! l) ->
  (forall a, a ∉ ns.*1 -> a ∉ ns'.*1 -> N' !! a = nodes (lists s) !! a) ->
  (forall a, a ∈ ns'.*1 -> a ∈ ns.*1 \/ heap_top (mem s) <= a < heap_top m') ->
  lists_inv (set_lists (mk_lists H' N') (set_mem m' s)) (<[ll := ns']> L).
Proof.
  intros [Hok Hb1 Hb2 Hsp] Hg Htop El Hl HH HN Hnew.
  pose proof (gr_top _ _ _ Hg) as Et. pose proof (gr_pos _ _ _ Hg). split; cbn.
  - eapply lists_ok_replace; [done..|].
    intros l ns0 a Hne E Ha Hna Ha0. destruct (Hnew a Ha) as [|Hrange]; [done|].
    destruct (lo_list _ _ _ Hok _ _ E) as (_ & _ & Hs & _).
    destruct (lseg_dom _ _ _ _ _ Hs Ha0) as [_ [w Hw]]. apply Hb2 in Hw. lia.
  - intros p v E. cbn in E |- *. rewrite Et.
    destruct (decide (p = ll)) as [->|Hne].
    + destruct (lo_list _ _ _ Hok _ _ El) as (_ & E' & _). apply Hb1 in E'. lia.
    + rewrite HH in E by done. apply Hb1 in E. lia.
  - intros a v E. cbn in E |- *. rewrite Et.
    destruct (decide (a ∈ ns'.*1)) as [Hin|Hnin].
    + destruct (Hnew a Hin) as [Hold|?].
      * destruct (lo_list _ _ _ Hok _ _ El) as (_ & _ & Hs & _).
        destruct (lseg_dom _ _ _ _ _ Hs Hold) as [_ [w Hw]]. apply Hb2 in Hw. lia.
      * destruct Hl as (_ & _ & Hs & _). destruct (lseg_dom _ _ _ _ _ Hs Hin) as [? _]. lia.
    + destruct (decide (a ∈ ns.*1)) as [Hold|Hnold].
      * destruct (lo_list _ _ _ Hok _ _ El) as (_ & _ & Hs & _).
        destruct (lseg_dom _ _ _ _ _ Hs Hold) as [_ [w Hw]]. apply Hb2 in Hw. lia.
      * rewrite HN in E by done. apply Hb2 in E. lia.
  - lia.
Qed.

(** ** Reading *)
Section reading.
Context (s : kstate) (L : gmap Z (list (Z * Z))) (ll : Z) (ns : list (Z * Z)).
Hypothesis Hinv : lists_inv s L.
Hypothesis Hll : L !! ll = Some ns.

Lemma inv_is_list : has_list ll ns s.
Proof. by apply (lo_list _ _ _ (li_ok _ _ Hinv)). Qed.

Lemma linkedlist_size_spec :
  wp (linkedlist_size ll) (fun r s' => r = Z.of_nat (length ns) /\ s' = s) s.
Proof.
  destruct inv_is_list as (Hne & E & _). unfold linkedlist_size. nonnull ll.
  wstep. eapply wpx_load; [exact E|]. by wstep.
Qed.

Lemma linkedlist_get_loop_spec n done todo next :
  ns = done ++ todo -> done <> [] -> next = hd_addr (drop (length done - 1) ns) ->
  wp (linkedlist_get_loop n next (Some (hd_addr todo)))
    (fun r s' => r = hd_addr (drop (length done - 1 + n) ns) /\ s' = s) s.
Proof.
  pose proof inv_is_list as Hl.
  revert done todo next. induction n as [|n IH]; intros done todo next Ens Hd ->;
    cbn [linkedlist_get_loop].
  { wstep. by rewrite Nat.add_0_r. }
  destruct (exists_last Hd) as (done' & [a v] & Ed).
  assert (drop (length done - 1) ns = (a, v) :: todo) as E1.
  { rewrite Ens, Ed, <- app_assoc. cbn. apply drop_app_length'.
    rewrite length_app. cbn. lia. }
  rewrite E1. cbn [hd_addr].
  assert (a <> 0) as Ha.
  { eapply (is_list_lookup _ _ _ _ done' a v todo); [exact Hl|].
    by rewrite Ens, Ed, <- app_assoc. }
  nonnull a. destruct todo as [|[b w] todo].
  { wstep. apply (wpx_ret (NULL, Some NULL)).
    assert (linkedlist_get_loop n NULL (Some NULL) = mret NULL) as -> by (by destruct n).
    wstep. split; [|done]. rewrite drop_ge; [done|].
    apply (f_equal length) in E1. rewrite length_drop in E1. cbn in E1. lia. }
  wstep. eapply (wpx_next_node _ _ done); [done|done|].
  eapply wpx_mono; [eapply (IH (done ++ [(b, w)]) todo)| |done].
  - by rewrite <- app_assoc.
  - by destruct done.
  - rewrite length_app. cbn. replace (length done + 1 - 1)%nat with (length done) by lia.
    rewrite Ens, drop_app_length. done.
  - rewrite length_app. cbn. intros r s' [-> ->]. split; [|done].
    f_equal. f_equal. destruct done; [done|cbn]. lia.
Qed.

(** [linkedlist_get] is list lookup, NULL out of range. *)
Lemma linkedlist_get_spec i :
  0 <= i -> wp (linkedlist_get ll i)
    (fun r s' => r = default 0 (values ns !! Z.to_nat i) /\ s' = s) s.
Proof.
  intros Hi. pose proof inv_is_list as Hl. destruct Hl as (Hne & E & _).
  unfold linkedlist_get. nonnull ll.
  wstep. eapply wpx_load; [exact E|]. cbn.
  destruct (Z.leb_spec (Z.of_nat (length ns)) i) as [Hge|Hlt].
  { wstep. rewrite lookup_ge_None_2; [done|]. unfold values. rewrite length_fmap. lia. }
  wstep. eapply wpx_iter_begin; [apply inv_is_list|].
  assert (exists a v ns', ns = (a, v) :: ns') as (a & v & ns' & Ens).
  { destruct ns as [|[a v] ns']; [cbn in Hlt; lia|eauto]. }
  replace (hd_addr ns) with (hd_addr ((a, v) :: ns')) by (by rewrite Ens).
  wstep. eapply (wpx_next_node ll ns [] ns'); [apply inv_is_list|done|].
  eapply wpx_call; [eapply (linkedlist_get_loop_spec _ [(a, v)] ns'); [done|done|by rewrite Ens]|].
  intros r s' [-> ->]. cbn [length]. replace (1 - 1 + Z.to_nat i)%nat with (Z.to_nat i) by lia.
  destruct (drop (Z.to_nat i) ns) as [|[b w] rest] eqn:Ed.
  { apply (f_equal length) in Ed. rewrite length_drop in Ed. cbn in Ed. lia. }
  assert (ns = take (Z.to_nat i) ns ++ (b, w) :: rest) as Ex
    by (by rewrite <- Ed, take_drop).
  destruct (is_list_lookup _ _ _ _ _ b w rest inv_is_list Ex) as [Hb Eb].
  cbn [hd_addr]. nonnull b. wstep. eapply wpx_load; [exact Eb|]. wstep. split; [|done].
  assert (ns !! Z.to_nat i = Some (b, w)) as El.
  { rewrite <- (Nat.add_0_r (Z.to_nat i)), <- lookup_drop, Ed. done. }
  unfold values. by rewrite list_lookup_fmap, El.
Qed.

(** [linkedlist_find] returns the position of the first occurrence among the
    values before the first NULL, or -1. *)
Lemma linkedlist_find_spec el :
  Z.of_nat (length ns) < 2 ^ 31 ->
  wp (linkedlist_find ll el) (fun r s' => s' = s /\
    ((r = -1 /\ el ∉ upto_null (values ns)) \/
     (exists i : nat, r = Z.of_nat i /\ upto_null (values ns) !! i = Some el /\
        el ∉ take i (upto_null (values ns))))) s.
Proof.
  intros Hlen. pose proof inv_is_list as Hl. destruct Hl as (Hne & E & _).
  set (vs := upto_null (values ns)).
  assert (length vs <= length ns)%nat as Hvs.
  { unfold vs, values. rewrite <- (length_fmap snd ns).
    generalize (ns.*2) as xs. intros xs. induction xs as [|x xs IH]; cbn; [done|].
    destruct (isnull x); cbn; lia. }
  unfold linkedlist_find. nonnull ll.
  eapply wp_call.
  { eapply (wp_while_linkedlist_iter ll ns _
      (fun done i s' => s' = s /\ i = Z.of_nat (length done) /\ el ∉ done)
      (fun r s' => s' = s /\ match r with
         | inl _ => el ∉ vs
         | inr i => exists n : nat, i = Z.of_nat n /\ vs !! n = Some el /\ el ∉ take n vs end)).
    - intros done st s' (-> & _). apply inv_is_list.
    - intros done v i s' [rest Hpre] Hv (-> & -> & Hd).
      assert (vs = done ++ v :: rest) as Ev by (unfold vs; rewrite Hpre, <- app_assoc; done).
      destruct (Z.eqb_spec v el) as [->|Hne'].
      + apply wpx_ret. split; [done|]. exists (length done). rewrite Ev.
        rewrite list_lookup_middle, take_app_length by done. done.
      + apply wpx_ret. split_and!; [done| |set_solver].
        rewrite length_app. cbn. unfold s32.
        assert (length done < length vs)%nat by (rewrite Ev, length_app; cbn; lia).
        rewrite Z.mod_small by lia. lia.
    - intros st s' (-> & _ & Hd). done.
    - split_and!; [done|done|set_solver]. }
  intros [x|i] s' [-> Hr]; wstep; (split; [done|]); [by left | by right].
Qed.
End reading.

Lemma lists_inv_key_below s L ll ns :
  lists_inv s L -> L !! ll = Some ns -> 0 < ll < heap_top (mem s).
Proof.
  intros Hi E. destruct (inv_is_list _ _ _ _ Hi E) as (_ & E' & _). by apply (li_lls _ _ Hi) in E'.
Qed.

Lemma lists_inv_node_below s L ll ns a :
  lists_inv s L -> L !! ll = Some ns -> a ∈ ns.*1 -> 0 < a < heap_top (mem s).
Proof.
  intros Hi E Ha. destruct (inv_is_list _ _ _ _ Hi E) as (_ & _ & Hs & _).
  destruct (lseg_dom _ _ _ _ _ Hs Ha) as [_ [w Hw]]. by apply (li_nodes _ _ Hi) in Hw.
Qed.

Lemma lists_inv_size_bound s L ll ns p d :
  lists_inv s L -> L !! ll = Some ns -> p = heap_top (mem s) ->
  (p ∉ ns.*1) /\ NoDup (ns ++ [(p, d)]).*1 /\ Z.of_nat (length ns) + 1 < 2 ^ 64.
Proof.
  intros Hi E ->. set (p := heap_top (mem s)).
  assert (p ∉ ns.*1) as Hp.
  { intros Hin. pose proof (lists_inv_node_below _ _ _ _ _ Hi E Hin). unfold p in *. lia. }
  assert (NoDup (ns ++ [(p, d)]).*1) as Hnd.
  { rewrite fmap_app. apply list.NoDup_app. split_and!; [|cbn; set_solver|apply NoDup_singleton].
    apply (inv_is_list _ _ _ _ Hi E). }
  split_and!; [done|done|].
  apply addresses_bound in Hnd; [rewrite length_fmap, length_app in Hnd; cbn in Hnd; lia|].
  pose proof (li_space _ _ Hi).
  intros a. rewrite fmap_app. intros [Ha|Ha]%elem_of_app.
  - pose proof (lists_inv_node_below _ _ _ _ _ Hi E Ha). lia.
  - cbn in Ha. assert (a = p) as -> by set_solver. unfold p. lia.
Qed.

(** Linking a new last node. *)
Lemma lseg_link N ns0 a v p d :
  lseg N (hd_addr (ns0 ++ [(a, v)])) (ns0 ++ [(a, v)]) 0 ->
  NoDup ((ns0 ++ [(a, v)]) ++ [(p, d)]).*1 -> p <> 0 ->
  lseg (<[a := mk_node v p]> (<[p := mk_node d 0]> N)) (hd_addr (ns0 ++ [(a, v)]))
    ((ns0 ++ [(a, v)]) ++ [(p, d)]) 0.
Proof.
  rewrite !fmap_app. cbn. intros Hs Hnd Hp.
  assert (a <> p /\ (a ∉ ns0.*1) /\ (p ∉ ns0.*1)) as (Hap & Ha & Hpn).
  { apply list.NoDup_app in Hnd as (Hnd & Hd & _). apply list.NoDup_app in Hnd as (_ & Hd' & _).
    split_and!.
    - intros ->. apply (Hd p); [apply elem_of_app; right|]; constructor.
    - intros Hin. apply (Hd' a Hin). constructor.
    - intros Hin. apply (Hd p); [apply elem_of_app; by left | constructor]. }
  apply lseg_app in Hs as (r & Hs & Hr). cbn in Hr. destruct Hr as (-> & Ha0 & nx & Ea & _).
  apply lseg_app. exists p. split.
  - apply lseg_app. exists a. split; [by apply lseg_insert, lseg_insert|].
    cbn. split_and!; [done|done|]. exists p. by rewrite lookup_insert_eq.
  - cbn. split_and!; [done|done|]. exists 0.
    by rewrite lookup_insert_ne, lookup_insert_eq.
Qed.

(** ** Creation and insertion *)
Section growing.
Context `{K : Kalloc} `{!GoodAlloc K}.
Context (s : kstate) (L : gmap Z (list (Z * Z))).
Hypothesis Hinv : lists_inv s L.
Hypothesis Hok : alloc_ok (mem s).

Lemma avail_top n m' : quiet n (mem s) m' -> n <= avail s -> heap_top m' <= 2 ^ 63.
Proof.
  intros [Hg _ _] Ha. rewrite (gr_top _ _ _ Hg). unfold avail in Ha. lia.
Qed.

Lemma linkedlist_create_spec :
  16 <= avail s ->
  wp linkedlist_create (fun p s' => p = heap_top (mem s) /\ L !! p = None /\
    only_lists 16 s s' /\ lists_inv s' (<[p := []]> L)) s.
Proof.
  intros Ha. unfold linkedlist_create.
  eapply wp_call; [by apply (wp_NEW linkedlist_t)|].
  intros p s' (-> & m' & -> & Hq). pose proof (heap_top_pos _ Hok) as Hp. cbn in Hq.
  pose proof (gr_top _ _ _ (q_grown _ _ _ Hq)) as Et.
  set (p := heap_top (mem s)) in *. nonnull p.
  wstep. eapply wpx_store; [cbn; apply lookup_insert_eq|]. wstep.
  assert (L !! p = None) as Hnone.
  { destruct (L !! p) as [ns|] eqn:E; [|done].
    pose proof (lists_inv_key_below _ _ _ _ Hinv E). unfold p in *. lia. }
  split_and!; [done|done|by apply only_lists_intro|].
  assert (heap_top m' <= 2 ^ 63) by (eapply avail_top; [done|lia]).
  split; cbn; [| | |lia].
  - eapply lists_ok_new; [apply (li_ok _ _ Hinv)|done|lia| |done]. by rewrite insert_insert_eq.
  - intros q v. cbn. rewrite insert_insert_eq.
    intros [[<- <-]|[? E]]%lookup_insert_Some; [lia|]. apply (li_lls _ _ Hinv) in E. lia.
  - eapply below_grown; [apply (q_grown _ _ _ Hq)|done|apply (li_nodes _ _ Hinv)].
Qed.

(** [linkedlist_append] adds the value at the end. *)
Lemma linkedlist_append_spec ll ns d :
  L !! ll = Some ns -> 16 <= avail s ->
  wp (linkedlist_append ll d) (fun r s' => r = true /\ only_lists 16 s s' /\
    lists_inv s' (<[ll := ns ++ [(heap_top (mem s), d)]]> L)) s.
Proof.
  intros Ell Ha. pose proof (inv_is_list _ _ _ _ Hinv Ell) as Hl.
  destruct (lists_inv_size_bound _ _ _ _ (heap_top (mem s)) d Hinv Ell eq_refl) as (Hp & Hnd & Hsz).
  unfold linkedlist_append. destruct Hl as (Hll & E & Hseg & Hnd0 & Hlen). nonnull ll.
  eapply wp_call; [by apply (wp_NEW linkedlist_node_t)|].
  intros p s' (-> & m' & -> & Hq). pose proof (heap_top_pos _ Hok) as Hp0. cbn in Hq.
  pose proof (gr_top _ _ _ (q_grown _ _ _ Hq)) as Et.
  assert (heap_top m' <= 2 ^ 63) as Htop by (eapply avail_top; [done|lia]).
  set (p := heap_top (mem s)) in *. nonnull p.
  wstep. eapply wpx_store; [cbn; apply lookup_insert_eq|].
  wstep. eapply wpx_load; [cbn; exact E|]. cbn [ll_size].
  assert (forall H' N', is_list H' N' ll (ns ++ [(p, d)]) ->
    (forall l, l <> ll -> H' !! l = lls (lists s) !! l) ->
    (forall a, a ∉ ns.*1 -> a <> p -> N' !! a = nodes (lists s) !! a) ->
    lists_inv (set_lists (mk_lists H' N') (set_mem m' s)) (<[ll := ns ++ [(p, d)]]> L)) as Hfinal.
  { intros H' N' Hl' HH HN.
    apply (lists_inv_replace 16 _ _ _ _ _ _ ns); try done; [apply Hq| |].
    - intros a Ha1 Ha2. apply HN; [done|]. rewrite fmap_app in Ha2. cbn in Ha2. set_solver.
    - intros a. rewrite fmap_app. intros [?|?]%elem_of_app; [by left|].
      assert (a = p) as -> by (cbn in *; set_solver). unfold p in *. right; lia. }
  destruct ns as [|x ns0 _] using rev_ind; cbn [length Z.of_nat Z.eqb].
  - wstep. eapply wpx_store; [cbn; exact E|].
    wstep. eapply wpx_update; [cbn; apply lookup_insert_eq|]. wstep.
    split_and!; [done|by apply only_lists_intro|]. cbn.
    apply Hfinal.
    + rewrite insert_insert_eq. split_and!; [done|by rewrite lookup_insert_eq| |done|cbn; lia].
      cbn. split_and!; [done|lia|]. exists 0. by rewrite lookup_insert_eq.
    + intros l Hl. by rewrite !lookup_insert_ne.
    + intros a _ Hap. cbn. by rewrite !lookup_insert_ne.
  - destruct x as [a v].
    assert ((Z.of_nat (length (ns0 ++ [(a, v)])) =? 0) = false) as ->.
    { apply Z.eqb_neq. rewrite length_app. cbn. lia. }
    match goal with |- wpx _ _ _ ?x => set (s2 := x) end.
    assert (has_list ll (ns0 ++ [(a, v)]) s2) as Hl2.
    { split_and!; [done|exact E| |done|done]. cbn. rewrite insert_insert_eq.
      by apply lseg_insert. }
    wstep. wstep.
    eapply wpx_mono; [eapply (wp_while_nodes ll (ns0 ++ [(a, v)]) _
      (fun done st s' => s' = s2 /\ st = from_option fst 0 (last done))
      (fun r s' => s' = s2 /\ r = inl a))| |done].
    { intros done st s' [-> _]. done. }
    { intros done b w todo st s' _ [-> _]. wstep. by rewrite last_snoc. }
    { intros st s' [-> ->]. by rewrite last_snoc. }
    { done. }
    intros r s' [-> ->].
    destruct (is_list_lookup _ _ _ _ ns0 a v [] Hl2 eq_refl) as [Ha0 Ea].
    eapply wpx_update; [exact Ea|].
    wstep. eapply wpx_update; [cbn; exact E|]. wstep.
    split_and!; [done|by apply only_lists_intro|]. cbn.
    apply Hfinal.
    + rewrite insert_insert_eq. split_and!; [done| | |done|].
      * rewrite lookup_insert_eq. f_equal. f_equal; [by rewrite hd_addr_app; destruct ns0|].
        rewrite (length_app (_ ++ _)), u64_small by lia. cbn. lia.
      * replace (hd_addr ((ns0 ++ [(a, v)]) ++ [(p, d)])) with (hd_addr (ns0 ++ [(a, v)]))
          by (rewrite (hd_addr_app (_ ++ _)); by destruct ns0).
        apply lseg_link; [done|done|lia].
      * rewrite length_app. cbn. lia.
    + intros l Hl. by rewrite lookup_insert_ne.
    + intros b Hb Hbp. cbn. rewrite insert_insert_eq.
      rewrite !lookup_insert_ne; [done|done|]. intros <-. apply Hb. rewrite fmap_app. cbn. set_solver.
Qed.
End growing.

(** ** Removal *)

(** Unlinking the node after [ns1]. *)
Lemma lseg_unlink N ns1 p pv a v ns2 :
  lseg N (hd_addr (ns1 ++ (p, pv) :: (a, v) :: ns2)) (ns1 ++ (p, pv) :: (a, v) :: ns2) 0 ->
  NoDup (ns1 ++ (p, pv) :: (a, v) :: ns2).*1 ->
  lseg (<[p := mk_node pv (hd_addr ns2)]> N) (hd_addr (ns1 ++ (p, pv) :: ns2))
    (ns1 ++ (p, pv) :: ns2) 0.
Proof.
  rewrite fmap_app. cbn. intros Hs Hnd.
  apply list.NoDup_app in Hnd as (_ & Hd & Hnd). apply NoDup_cons in Hnd as [Hp _].
  replace (hd_addr (ns1 ++ (p, pv) :: (a, v) :: ns2)) with (hd_addr (ns1 ++ (p, pv) :: ns2)) in Hs
    by (rewrite !hd_addr_app; by destruct ns1).
  apply lseg_app in Hs as (r & Hs & Hr). cbn in Hr.
  destruct Hr as (-> & Hp0 & nx & Ep & -> & Ha0 & nx' & Ea & Hs2).
  pose proof (lseg_hd _ _ _ Hs2) as ->.
  apply lseg_app. exists p. split.
  - apply lseg_insert; [|done]. intros Hin. apply (Hd p Hin). constructor.
  - cbn. split_and!; [done|done|]. exists (hd_addr ns2). rewrite lookup_insert_eq.
    split; [done|]. apply lseg_insert; [|done].
    intros Hin. apply Hp. by constructor.
Qed.

Definition last_addr (ns : list (Z * Z)) : Z := from_option fst 0 (last ns).

Lemma NoDup_remove_node (ns1 : list (Z * Z)) x ns2 :
  NoDup (ns1 ++ x :: ns2).*1 -> NoDup (ns1 ++ ns2).*1.
Proof.
  rewrite !fmap_app. cbn. rewrite !list.NoDup_app, NoDup_cons. set_solver.
Qed.

Section removal.
Context (s : kstate) (L : gmap Z (list (Z * Z))) (ll : Z) (ns : list (Z * Z)).
Hypothesis Hinv : lists_inv s L.
Hypothesis Hll : L !! ll = Some ns.

(** [linkedlist_remove_node] unlinks exactly the node it is given. *)
Lemma linkedlist_remove_node_spec ns1 a v ns2 :
  ns = ns1 ++ (a, v) :: ns2 ->
  wp (linkedlist_remove_node ll (last_addr ns1) a)
    (fun _ s' => only_lists 0 s s' /\ lists_inv s' (<[ll := ns1 ++ ns2]> L)) s.
Proof.
  intros Ens. pose proof (inv_is_list _ _ _ _ Hinv Hll) as Hl.
  destruct (is_list_lookup _ _ _ _ _ _ _ _ Hl Ens) as [Ha Ea].
  destruct Hl as (Hne & E & Hs & Hnd & Hlen). rewrite Ens in *.
  unfold linkedlist_remove_node. nonnull a.
  assert (forall H' N' fr, is_list H' N' ll (ns1 ++ ns2) ->
    (forall l, l <> ll -> H' !! l = lls (lists s) !! l) ->
    (forall b, b ∉ (ns1 ++ (a, v) :: ns2).*1 -> N' !! b = nodes (lists s) !! b) ->
    let m' := mem (set_kfreed fr s) in
    only_lists 0 s (set_lists (mk_lists H' N') (set_mem m' s)) /\
    lists_inv (set_lists (mk_lists H' N') (set_mem m' s)) (<[ll := ns1 ++ ns2]> L)) as Hfinal.
  { intros H' N' fr Hl' HH HN m'.
    assert (quiet 0 (mem s) m') as Hq by apply quiet_kfreed.
    split; [by apply only_lists_intro|].
    apply (lists_inv_replace 0 s m' H' N' L ll (ns1 ++ (a, v) :: ns2)); try done; [apply Hq| | |].
    - apply (li_space _ _ Hinv).
    - intros b Hb _. by apply HN.
    - intros b Hb. left. revert Hb. rewrite !fmap_app. cbn. set_solver. }
  assert (Z.of_nat (length (ns1 ++ ns2)) = Z.of_nat (length (ns1 ++ (a, v) :: ns2)) - 1) as Hlen'.
  { rewrite !length_app. cbn. lia. }
  pose proof (NoDup_remove_node _ _ _ Hnd) as Hnd'.
  destruct ns1 as [|[p pv] ns1' _] using rev_ind; cbn [app] in *.
  - change (last_addr []) with 0. isnullp 0. cbn in E.
    wstep. wstep. wstep. eapply wpx_load; [exact E|]. cbn [ll_first ll_size].
    rewrite Z.eqb_refl. wstep. wstep. eapply wpx_load; [exact Ea|].
    eapply wpx_store; [exact E|].
    wstep. wstep. eapply wpx_update; [cbn; apply lookup_insert_eq|]. cbn.
    apply Hfinal.
    + rewrite insert_insert_eq. split_and!; [done| | |done|lia].
      * rewrite lookup_insert_eq. rewrite u64_small by lia. f_equal. f_equal. lia.
      * cbn. cbn in Hs. destruct Hs as (_ & _ & nx & E1 & Hs2).
        pose proof (lseg_hd _ _ _ Hs2) as ->. done.
    + intros l Hl. by rewrite !lookup_insert_ne.
    + done.
  - unfold last_addr. rewrite last_snoc. cbn [from_option fst].
    repeat rewrite <- app_assoc in *. cbn [app] in *.
    assert (p <> 0 /\ nodes (lists s) !! p = Some (mk_node pv a)) as [Hp Ep].
    { apply (is_list_lookup (lls (lists s)) _ ll (ns1' ++ (p, pv) :: (a, v) :: ns2) ns1' p pv
        ((a, v) :: ns2)); [|done].
      by split_and!. }
    nonnull p.
    wstep. wstep. eapply wpx_load; [exact Ea|]. eapply wpx_update; [exact Ep|].
    wstep. eapply wpx_load; [cbn; exact E|]. cbn [ll_first ll_size].
    assert ((hd_addr (ns1' ++ (p, pv) :: (a, v) :: ns2) =? a) = false) as ->.
    { apply Z.eqb_neq. rewrite hd_addr_app. intros Ehd.
      rewrite fmap_app in Hnd. cbn in Hnd.
      apply list.NoDup_app in Hnd as (_ & Hd & Hnd). apply NoDup_cons in Hnd as [Hpa _].
      destruct ns1' as [|[b w] ns1']; cbn in Ehd.
      - apply Hpa. subst. constructor.
      - apply (Hd b); cbn; [constructor|]. subst b. apply elem_of_cons. right. constructor. }
    wstep. wstep. wstep. wstep. eapply wpx_update; [cbn; exact E|]. cbn.
    apply Hfinal.
    + split_and!; [done| | |done|lia].
      * rewrite lookup_insert_eq, u64_small by lia. f_equal. f_equal; [|lia].
        rewrite !hd_addr_app. by destruct ns1'.
      * by apply lseg_unlink with (a := a) (v := v).
    + intros l Hl. by rewrite lookup_insert_ne.
    + intros b Hb. cbn. rewrite lookup_insert_ne; [done|]. intros <-. apply Hb.
      rewrite fmap_app. cbn. set_solver.
Qed.
End removal.

(** [linkedlist_remove_element] deletes the first occurrence of the value. *)
Lemma linkedlist_remove_element_spec s L ll ns x :
  lists_inv s L -> L !! ll = Some ns ->
  wp (linkedlist_remove_element ll x) (fun r s' => only_lists 0 s s' /\
    ((r = true /\ exists ns1 a ns2, ns = ns1 ++ (a, x) :: ns2 /\ (x ∉ values ns1) /\
        lists_inv s' (<[ll := ns1 ++ ns2]> L)) \/
     (r = false /\ (x ∉ values ns) /\ s' = s))) s.
Proof.
  intros Hinv Hll. pose proof (inv_is_list _ _ _ _ Hinv Hll) as Hl.
  unfold linkedlist_remove_element. pose proof Hl as (Hne & _). nonnull ll.
  eapply wp_call.
  { eapply (wp_while_nodes ll ns _
      (fun done st s' => s' = s /\ st = last_addr done /\ (x ∉ values done))
      (fun r s' => match r with
         | inl _ => (x ∉ values ns) /\ s' = s
         | inr _ => only_lists 0 s s' /\ exists ns1 a ns2, ns = ns1 ++ (a, x) :: ns2 /\
             (x ∉ values ns1) /\ lists_inv s' (<[ll := ns1 ++ ns2]> L) end)).
    - intros done st s' (-> & _). done.
    - intros done a v todo st s' Ens (-> & -> & Hd).
      destruct (is_list_lookup _ _ _ _ _ _ _ _ Hl Ens) as [Ha Ea].
      wstep. eapply wpx_load; [exact Ea|]. cbn [node_val].
      destruct (Z.eqb_spec v x) as [->|Hv].
      + eapply wpx_call; [by eapply linkedlist_remove_node_spec|].
        intros _ s' [Ho Hi']. wstep. split; [done|]. by exists done, a, todo.
      + wstep. split_and!; [done| |].
        * unfold last_addr. by rewrite last_snoc.
        * unfold values in *. rewrite fmap_app. cbn. set_solver.
    - intros st s' (-> & _ & Hd). done.
    - split_and!; [done|done|]. cbn. set_solver. }
  intros [r|r] s' Hr; wstep.
  - destruct Hr as [Hx ->]. split; [apply only_lists_refl|]. by right.
  - destruct Hr as [Ho Hx]. split; [done|]. by left.
Qed.

(** [linkedlist_iter_with_action] with a callback that goes on, stops, or
    removes and returns: [I] is kept while it goes on, [Q] holds at the end. *)
Lemma linkedlist_iter_with_action_spec {D} s0 L ll ns (f : D -> Z -> M (Z * D))
    (I : list (Z * Z) -> D -> kstate -> Prop) (Q : Z -> kstate -> Prop) d :
  L !! ll = Some ns ->
  (forall done d s, I done d s -> lists_inv s L) ->
  (forall done a v todo d s, ns = done ++ (a, v) :: todo -> I done d s ->
    wp (f d v) (fun '(act, d') s' => lists_inv s' L /\
      ((act = ITER_GO_NEXT /\ I (done ++ [(a, v)]) d' s') \/
       (act = ITER_STOP_AND_RETURN /\ Q v s') \/
       (act = ITER_REMOVE_AND_RETURN /\ forall s'', only_lists 0 s' s'' ->
          lists_inv s'' (<[ll := done ++ todo]> L) -> Q v s''))) s) ->
  (forall d s, I ns d s -> Q 0 s) ->
  I [] d s0 -> wp (linkedlist_iter_with_action ll f d) Q s0.
Proof.
  intros Hll HI Hf Hend HI0. unfold linkedlist_iter_with_action.
  eapply wp_call.
  { eapply (wp_while_nodes ll ns _
      (fun done st s' => st.1 = last_addr done /\ I done st.2 s')
      (fun r s' => match r with inl st => Q 0 s' | inr v => Q v s' end)).
    - intros done [pr d'] s' [_ Hi]. by eapply inv_is_list; [eapply HI|].
    - intros done a v todo [pr d'] s' Ens [E1 Hi]. cbn in E1, Hi. subst pr.
      pose proof (inv_is_list _ _ _ _ (HI _ _ _ Hi) Hll) as Hl.
      destruct (is_list_lookup _ _ _ _ _ _ _ _ Hl Ens) as [Ha Ea].
      wstep. eapply wpx_load; [exact Ea|]. cbn [node_val].
      eapply wpx_call; [by eapply Hf|]. intros [act d''] s'' [Hi' Hact].
      pose proof (inv_is_list _ _ _ _ Hi' Hll) as Hl'.
      destruct (is_list_lookup _ _ _ _ _ _ _ _ Hl' Ens) as [_ Ea'].
      destruct Hact as [[-> Hgo]|[[-> Hst]|[-> Hrm]]]; cbn [Z.eqb Pos.eqb
        ITER_GO_NEXT ITER_STOP_AND_RETURN ITER_REMOVE_AND_RETURN ITER_REMOVE_AND_NEXT].
      + wstep. cbn. split; [|done]. unfold last_addr. by rewrite last_snoc.
      + wstep. eapply wpx_load; [exact Ea'|]. by wstep.
      + wstep. eapply wpx_load; [exact Ea'|].
        eapply wpx_call; [by eapply linkedlist_remove_node_spec|].
        intros _ s3 [Ho Hi3]. wstep. by apply Hrm.
    - intros [pr d'] s' [_ Hi]. by eapply Hend.
    - done. }
  intros [st|v] s' Hr; by wstep.
Qed.

(** [linkedlist_remove] deletes by position and returns the value; out of range
    it returns NULL and changes nothing. *)
Lemma linkedlist_remove_spec s L ll ns i :
  lists_inv s L -> L !! ll = Some ns -> 0 <= i ->
  wp (linkedlist_remove ll i) (fun r s' => r = default 0 (values ns !! Z.to_nat i) /\
    only_lists 0 s s' /\ lists_inv s' (<[ll := delete (Z.to_nat i) ns]> L)) s.
Proof.
  intros Hinv Hll Hi. pose proof (inv_is_list _ _ _ _ Hinv Hll) as Hl.
  pose proof Hl as (Hne & E & _ & _ & Hlen). unfold linkedlist_remove. nonnull ll.
  wstep. eapply wpx_load; [exact E|]. cbn [ll_size].
  destruct (Z.leb_spec (Z.of_nat (length ns)) i) as [Hge|Hlt].
  { wstep. assert (length ns <= Z.to_nat i)%nat as Hn by lia.
    rewrite lookup_ge_None_2 by (unfold values; by rewrite length_fmap).
    split_and!; [done|apply only_lists_refl|].
    rewrite list_delete_ge by done. by rewrite insert_id. }
  eapply (linkedlist_iter_with_action_spec s L ll ns _
    (fun done d s' => s' = s /\ d = i - Z.of_nat (length done) /\ Z.of_nat (length done) <= i)); try done.
  - intros done d s' (-> & _). done.
  - intros done a v todo d s' Ens (-> & -> & Hd). unfold linkedlist_iter_remove_element.
    assert (length ns = length done + S (length todo))%nat by (rewrite Ens, length_app; done).
    destruct (Z.eqb_spec (i - Z.of_nat (length done)) 0) as [Hz|Hnz].
    + wstep. split; [done|]. do 2 right. split; [done|]. intros s'' Ho Hi''.
      replace (Z.to_nat i) with (length done) by lia. split_and!; [|done|].
      * unfold values. by rewrite list_lookup_fmap, Ens, list_lookup_middle.
      * rewrite Ens. by rewrite delete_middle.
    + wstep. split; [done|]. left. split_and!; [done|done| |].
      * rewrite u64_small by lia. rewrite length_app. cbn. lia.
      * rewrite length_app. cbn. lia.
  - intros d s' (-> & _ & Hd). lia.
  - cbn. split_and!; [done|lia|lia].
Qed.

(** [linkedlist_pop] takes the last value off. *)
Lemma linkedlist_pop_spec s L ll ns :
  lists_inv s L -> L !! ll = Some ns ->
  wp (linkedlist_pop ll) (fun r s' => r = default 0 (last (values ns)) /\
    only_lists 0 s s' /\ lists_inv s' (<[ll := removelast ns]> L)) s.
Proof.
  intros Hinv Hll. pose proof (inv_is_list _ _ _ _ Hinv Hll) as Hl.
  pose proof Hl as (Hne & E & Hs & _ & Hlen). unfold linkedlist_pop. nonnull ll.
  wstep. eapply wpx_load; [exact E|]. cbn [ll_first].
  destruct ns as [|[a v] ns' _] using rev_ind.
  { cbn. split_and!; [done|apply only_lists_refl|]. by rewrite insert_id. }
  assert (hd_addr (ns' ++ [(a, v)]) <> 0) as Hhd.
  { destruct ns' as [|[b w] ns']; cbn in *; naive_solver. }
  nonnull (hd_addr (ns' ++ [(a, v)])).
  eapply wpx_call; [by eapply linkedlist_size_spec|]. intros r s' [-> ->].
  rewrite length_app in *. cbn in Hlen |- *. rewrite u64_small by lia.
  eapply wp_wpx, wp_mono; [eapply linkedlist_remove_spec; [done|done|lia]|].
  replace (Z.to_nat (Z.of_nat (length ns' + 1) - 1)) with (length ns') by lia.
  intros r s' (-> & Ho & Hi). split_and!; [|done|].
  - unfold values. rewrite fmap_app, last_app. cbn.
    rewrite list_lookup_middle; [done|by rewrite length_fmap].
  - rewrite removelast_last. by rewrite (delete_middle ns' [] (a, v)), app_nil_r in Hi.
Qed.

(** [linkedlist_destroy] calls [kfree] on the header and on every node but the
    second. *)
Lemma linkedlist_destroy_spec s L ll ns :
  lists_inv s L -> L !! ll = Some ns ->
  wp (linkedlist_destroy ll) (fun _ s' => s' = set_kfreed (kfreed (mem s) ++
    match ns.*1 with [] => [0] | a :: rest => a :: drop 1 rest end ++ [ll]) s) s.
Proof.
  intros Hinv Hll. pose proof (inv_is_list _ _ _ _ Hinv Hll) as Hl.
  assert (forall fr, has_list ll ns (set_kfreed fr s)) as Hl' by done.
  pose proof Hl as (Hne & E & Hs & Hnd & Hlen). unfold linkedlist_destroy. nonnull ll.
  wstep. eapply wpx_iter_begin; [done|].
  pose proof (lseg_length _ _ _ _ Hs Hnd) as Hsz.
  assert (forall fuel done todo last fr0, ns = done ++ todo -> (length todo < fuel)%nat ->
    wp (while_next (R := Empty_set) linkedlist_iter_next_node (fun next last =>
      kfree last;; mret (inl next)) fuel (Some (hd_addr todo)) last)
      (fun r s' => exists fr a, r = inl a /\ s' = set_kfreed fr s /\
         fr ++ [a] = fr0 ++ last :: todo.*1) (set_kfreed fr0 s)) as Hloop.
  { intros fuel done todo last fr0 Ens Hf.
    eapply (while_next_nodes ll ns _
      (fun done' st s' => exists fr todo', s' = set_kfreed fr s /\ ns = done' ++ todo' /\
         fr ++ st :: todo'.*1 = fr0 ++ last :: todo.*1)); [..|exact Ens| |exact Hf].
    - intros ? ? ? (fr & ? & -> & _). apply Hl'.
    - intros done' a v todo' st s' Ens' (fr & todo'' & -> & Ens'' & Efr).
      rewrite Ens' in Ens''. apply app_inv_head in Ens''. subst todo''.
      wstep. wstep. wstep. exists (fr ++ [st]), todo'. cbn.
      split_and!; [done|by rewrite <- app_assoc|]. by rewrite <- app_assoc.
    - intros st s' (fr & todo' & -> & Ens' & Efr).
      assert (todo' = []) as ->.
      { apply (app_inv_head ns). by rewrite app_nil_r. }
      eexists _, _. split_and!; [done|done|done].
    - exists fr0, todo. done. }
  destruct ns as [|[a v] ns'].
  { mcompute. by rewrite <- app_assoc. }
  wstep. eapply (wpx_next_node ll _ []); [done|done|].
  destruct ns' as [|[b w] ns'].
  { mcompute. by rewrite <- app_assoc. }
  wstep. eapply (wpx_next_node ll _ [(a, v)]); [done|done|].
  wstep. wstep. eapply wpx_call.
  { pose proof (Hloop (list_fuel s) [(a, v); (b, w)] ns' a (kfreed (mem s)) eq_refl) as Hw.
    rewrite set_kfreed_id in Hw. apply Hw. unfold list_fuel. cbn in Hsz |- *. lia. }
  intros r s' (fr & c & -> & -> & Efr). wstep. wstep. wstep. cbn.
  rewrite drop_0, Efr, <- app_assoc. done.
Qed.

(** The list operations when [kalloc] gives NULL. *)
Lemma linkedlist_append_no_memory `{K : Kalloc} ll d s s' :
  ll <> 0 -> K 16 s = Ret 0 s' -> linkedlist_append ll d s = Ret false s'.
Proof.
  intros Hll HK. unfold linkedlist_append. nonnull ll.
  rewrite (bind_Ret _ _ s 0 s'); [done|]. unfold NEW. by rewrite (bind_Ret _ _ s 0 s').
Qed.
