(* ===== verification/ListRefinement.v ===== *)
(** The contract of linkedlist.c: run any sequence of its operations on one list
    of a heap that holds many, and the results and final contents are those of
    the same operations on a plain sequence, the other lists untouched.  Also
    the places where the code does not do what its header says. *)
From S2P Require Import Prelude Machine Logic LinkedList.

(** * The operations, as data *)
Inductive lop :=
  | LAppend (d : Z) | LRemoveElement (x : Z) | LRemove (i : Z) | LPop
  | LGet (i : Z) | LFind (x : Z) | LSize.

(** Running an operation of the code; booleans are returned as 0 and 1. *)
Definition exec_lop `{Kalloc} (ll : Z) (op : lop) : M Z :=
  match op with
  | LAppend d => b ← linkedlist_append ll d; mret (Z.b2z b)
  | LRemoveElement x => b ← linkedlist_remove_element ll x; mret (Z.b2z b)
  | LRemove i => linkedlist_remove ll i
  | LPop => linkedlist_pop ll
  | LGet i => linkedlist_get ll i
  | LFind x => linkedlist_find ll x
  | LSize => linkedlist_size ll
  end.

Fixpoint exec_lops `{Kalloc} (ll : Z) (ops : list lop) : M (list Z) :=
  match ops with
  | [] => mret []
  | op :: ops' => r ← exec_lop ll op; rs ← exec_lops ll ops'; mret (r :: rs)
  end.

(** * The abstract data type: a sequence *)
Fixpoint remove_first (x : Z) (xs : list Z) : list Z :=
  match xs with
  | [] => []
  | y :: ys => if y =? x then ys else y :: remove_first x ys
  end.

(** First position of [x], -1 when absent; a NULL value ends the search. *)
Fixpoint index_from (n : Z) (x : Z) (xs : list Z) : Z :=
  match xs with
  | [] => -1
  | y :: ys => if isnull y then -1 else if y =? x then n else index_from (n + 1) x ys
  end.

Definition seq_lop (xs : list Z) (op : lop) : Z * list Z :=
  match op with
  | LAppend d => (1, xs ++ [d])
  | LRemoveElement x => (Z.b2z (bool_decide (x ∈ xs)), remove_first x xs)
  | LRemove i => (default 0 (xs !! Z.to_nat i), delete (Z.to_nat i) xs)
  | LPop => (default 0 (last xs), removelast xs)
  | LGet i => (default 0 (xs !! Z.to_nat i), xs)
  | LFind x => (index_from 0 x xs, xs)
  | LSize => (Z.of_nat (length xs), xs)
  end.

Fixpoint seq_lops (xs : list Z) (ops : list lop) : list Z * list Z :=
  match ops with
  | [] => ([], xs)
  | op :: ops' =>
      let '(r, xs') := seq_lop xs op in
      let '(rs, xs'') := seq_lops xs' ops' in (r :: rs, xs'')
  end.

(** Indices are [size_t]. *)
Definition lop_ok (op : lop) : Prop :=
  match op with LRemove i | LGet i => 0 <= i | _ => True end.

(** * Simulation *)

Lemma values_app ns1 ns2 : values (ns1 ++ ns2) = values ns1 ++ values ns2.
Proof. apply fmap_app. Qed.

Lemma remove_first_middle x xs ys : (x ∉ xs) -> remove_first x (xs ++ x :: ys) = xs ++ ys.
Proof.
  induction xs as [|y xs IH]; cbn; intros Hx; [by rewrite Z.eqb_refl|].
  rewrite (proj2 (Z.eqb_neq y x)); [|set_solver]. f_equal. apply IH. set_solver.
Qed.

Lemma remove_first_absent x xs : (x ∉ xs) -> remove_first x xs = xs.
Proof.
  induction xs as [|y xs IH]; cbn; intros Hx; [done|].
  rewrite (proj2 (Z.eqb_neq y x)); [|set_solver]. f_equal. apply IH. set_solver.
Qed.

Lemma index_from_absent n x xs : (x ∉ upto_null xs) -> index_from n x xs = -1.
Proof.
  revert n. induction xs as [|y xs IH]; intros n; cbn; [done|].
  destruct (isnull y); [done|]. intros Hx.
  rewrite (proj2 (Z.eqb_neq y x)) by set_solver. apply IH. set_solver.
Qed.

Lemma index_from_present n x xs i :
  upto_null xs !! i = Some x -> (x ∉ take i (upto_null xs)) -> index_from n x xs = n + Z.of_nat i.
Proof.
  revert n i. induction xs as [|y xs IH]; intros n i; cbn; [done|].
  destruct (isnull y); [done|]. destruct i as [|i]; cbn.
  - intros [= ->] _. rewrite Z.eqb_refl. lia.
  - intros Hi Hx. rewrite (proj2 (Z.eqb_neq y x)) by set_solver.
    rewrite (IH _ i); [lia|done|set_solver].
Qed.

Lemma delete_fmap {A B} (f : A -> B) i (l : list A) : f <$> delete i l = delete i (f <$> l).
Proof. revert i. induction l as [|x l IH]; intros [|i]; cbn; f_equal; auto. Qed.

Lemma removelast_fmap {A B} (f : A -> B) (l : list A) : f <$> removelast l = removelast (f <$> l).
Proof.
  induction l as [|x l _] using rev_ind; [done|].
  rewrite removelast_last, fmap_app. cbn. by rewrite removelast_last.
Qed.

Section refinement.
Context `{K : Kalloc} `{!GoodAlloc K}.

(** One operation: the concrete step is simulated by the abstract one. *)
Lemma exec_lop_sim op s L ll ns :
  lists_inv s L -> alloc_ok (mem s) -> L !! ll = Some ns ->
  lop_ok op -> 16 <= avail s -> Z.of_nat (length ns) < 2 ^ 31 ->
  wp (exec_lop ll op) (fun r s' => exists ns' n, (r, values ns') = seq_lop (values ns) op /\
    only_lists n s s' /\ n <= 16 /\ lists_inv s' (<[ll := ns']> L) /\
    (length ns' <= S (length ns))%nat) s.
Proof.
  intros Hi Hok Hll Hop Ha Hlen. destruct op as [d|x|i| |i|x|]; cbn [exec_lop seq_lop].
  - eapply wp_call; [by eapply linkedlist_append_spec|].
    intros r s' (-> & Ho & Hi'). wstep. eexists _, _.
    split_and!; [|done|done|done|rewrite length_app; cbn; lia].
    cbn. by rewrite values_app.
  - eapply wp_call; [by eapply linkedlist_remove_element_spec|].
    intros r s' (Ho & [(-> & ns1 & a & ns2 & -> & Hx & Hi')|(-> & Hx & ->)]); wstep.
    + exists (ns1 ++ ns2), 0. split_and!; [|done|lia|done|rewrite !length_app; cbn; lia].
      rewrite !values_app. cbn. rewrite remove_first_middle by done.
      rewrite bool_decide_eq_true_2; [done|]. apply elem_of_app. right. constructor.
    + exists ns, 0. split_and!; [|done|lia|by rewrite insert_id|lia].
      rewrite remove_first_absent by done. by rewrite bool_decide_eq_false_2.
  - eapply wp_mono; [by eapply linkedlist_remove_spec|]. cbn.
    intros r s' (-> & Ho & Hi'). eexists _, _. split_and!; [|done|lia|done|].
    + unfold values. by rewrite delete_fmap.
    + destruct (decide (Z.to_nat i < length ns)%nat) as [Hlt|].
      * rewrite length_delete; [lia|by apply lookup_lt_is_Some].
      * rewrite list_delete_ge; lia.
  - eapply wp_mono; [by eapply linkedlist_pop_spec|]. cbn.
    intros r s' (-> & Ho & Hi'). eexists _, _. split_and!; [|done|lia|done|].
    + unfold values. by rewrite removelast_fmap.
    + destruct ns as [|x ns _] using rev_ind; [cbn; lia|].
      rewrite removelast_last, length_app. cbn. lia.
  - eapply wp_mono; [by eapply linkedlist_get_spec|]. cbn.
    intros r s' (-> & ->). exists ns, 0.
    split_and!; [done|apply only_lists_refl|lia|by rewrite insert_id|lia].
  - eapply wp_mono; [by eapply linkedlist_find_spec|]. cbn.
    intros r s' (-> & Hr). exists ns, 0.
    split_and!; [|apply only_lists_refl|lia|by rewrite insert_id|lia]. f_equal.
    destruct Hr as [[-> Hx]|(i & -> & Hx & Ht)].
    + by rewrite index_from_absent.
    + by rewrite (index_from_present _ _ _ i).
  - eapply wp_mono; [by eapply linkedlist_size_spec|]. cbn.
    intros r s' (-> & ->). exists ns, 0.
    split_and!; [|apply only_lists_refl|lia|by rewrite insert_id|lia].
    unfold values. by rewrite length_fmap.
Qed.

Lemma exec_lops_sim ops s L ll ns :
  lists_inv s L -> alloc_ok (mem s) -> L !! ll = Some ns -> Forall lop_ok ops ->
  16 * Z.of_nat (length ops) <= avail s ->
  Z.of_nat (length ns) + Z.of_nat (length ops) <= 2 ^ 31 ->
  wp (exec_lops ll ops) (fun rs s' => exists ns' n,
    (rs, values ns') = seq_lops (values ns) ops /\
    only_lists n s s' /\ lists_inv s' (<[ll := ns']> L)) s.
Proof.
  revert s L ns. induction ops as [|op ops IH]; intros s L ns Hi Hok Hll Hops Ha Hlen.
  { cbn [exec_lops seq_lops]. wstep. exists ns, 0.
    split_and!; [done|apply only_lists_refl|by rewrite insert_id]. }
  apply Forall_cons in Hops as [Hop Hops]. cbn [length] in *. cbn [exec_lops seq_lops].
  eapply wp_call; [eapply exec_lop_sim; try done; lia|].
  intros r s1 (ns1 & n1 & E1 & Ho1 & Hn1 & Hi1 & Hl1). rewrite <- E1. cbn.
  destruct (only_lists_avail _ _ _ Hok Ho1) as [Hok1 Hav1].
  eapply wp_call; [eapply IH; [done|done|apply lookup_insert_eq|done|lia|lia]|].
  intros rs s2 (ns2 & n2 & E2 & Ho2 & Hi2). rewrite <- E2. wstep.
  exists ns2, (n1 + n2). split_and!; [done| |by rewrite insert_insert_eq in Hi2].
  destruct Ho1 as (H1 & N1 & m1 & -> & Hq1). destruct Ho2 as (H2 & N2 & m2 & -> & Hq2).
  exists H2, N2, m2. split; [done|]. by eapply quiet_trans.
Qed.
End refinement.

(** * Claims *)


(** A heap with one empty list, made by [linkedlist_create]. *)
Definition ll_example : Z := 1576960.
Definition s_example : kstate := run (linkedlist_create (H := bump_alloc)) state0.

Lemma state0_lists : lists_inv state0 ∅.
Proof.
  split; [split; intros *; rewrite lookup_empty; done| | |].
  - intros p v. cbn. by rewrite lookup_empty.
  - intros p v. cbn. by rewrite lookup_empty.
  - vm_compute. split; congruence.
Qed.

Lemma s_example_lists : lists_inv s_example {[ll_example := []]}.
Proof.
  destruct (wp_run _ _ _ (linkedlist_create_spec (K := bump_alloc) state0 ∅ state0_lists
    state0_alloc_ok ltac:(pose proof state0_avail; lia))) as (p & _ & -> & _ & _ & Hi).
  exact Hi.
Qed.


(** Every block of a list: its nodes, in order, and its header. *)
Definition blocks (ll : Z) (ns : list (Z * Z)) : list Z := ns.*1 ++ [ll].

(** [linkedlist_destroy] does not release "all node": of the blocks of a list
    with at least two nodes, it passes every one to [kfree], in order, except the
    second node, which is not released under any other name. *)
Theorem linkedlist_destroy_leaks_second_node s L ll a v b w ns :
  lists_inv s L -> L !! ll = Some ((a, v) :: (b, w) :: ns) ->
  exists s', linkedlist_destroy ll s = Ret tt s' /\
    kfreed (mem s') = kfreed (mem s) ++ delete 1%nat (blocks ll ((a, v) :: (b, w) :: ns)) /\
    (b ∉ ((a, v) :: ns).*1).
Proof.
  intros Hi Hll. destruct (wp_inv _ _ _ (linkedlist_destroy_spec s L ll _ Hi Hll)) as ([] & s' & E & ->).
  eexists. split; [exact E|]. split; [cbn; by rewrite drop_0|].
  destruct (inv_is_list _ _ _ _ Hi Hll) as (_ & _ & _ & Hnd & _). cbn in Hnd.
  apply NoDup_cons in Hnd as [Ha Hnd]. apply NoDup_cons in Hnd as [Hb _]. cbn. set_solver.
Qed.

Definition s_three : kstate :=
  run (exec_lops (H := bump_alloc) ll_example [LAppend 7; LAppend 8; LAppend 9]) s_example.

Lemma s_three_lists :
  lists_inv s_three {[ll_example := [(1576976, 7); (1576992, 8); (1577008, 9)]]}.
Proof.
  split; [split| | |].
  - intros ll ns [<- <-]%lookup_singleton_Some.
    split_and!; [done|by vm_compute| |repeat constructor; set_solver|by vm_compute].
    cbn. repeat (split_and!; [done|done|]; eexists; split; [by vm_compute|]). done.
  - intros l1 l2 ns1 ns2 a [<- <-]%lookup_singleton_Some [<- <-]%lookup_singleton_Some. done.
  - intros p v. change (heap s_three) with (lls (lists s_three)).
    replace (lls (lists s_three)) with ({[ll_example := mk_ll 1576976 3]} : gmap Z linkedlist_t)
      by (by vm_compute).
    intros [<- <-]%lookup_singleton_Some. vm_compute. split; congruence.
  - intros p v. change (heap s_three) with (nodes (lists s_three)).
    replace (nodes (lists s_three)) with
      (<[1577008 := mk_node 9 0]> (<[1576992 := mk_node 8 1577008]>
        {[1576976 := mk_node 7 1576992]}) : gmap Z linkedlist_node_t) by (by vm_compute).
    rewrite !lookup_insert_Some, lookup_singleton_Some. change (heap_top (mem s_three)) with 1577024.
    lia.
  - vm_compute. split; congruence.
Qed.

Lemma linkedlist_destroy_leaks_second_node_witness :
  exists s', linkedlist_destroy ll_example s_three = Ret tt s' /\
    kfreed (mem s') = [] ++ delete 1%nat (blocks ll_example [(1576976, 7); (1576992, 8); (1577008, 9)]) /\
    (1576992 ∉ [1576976; 1577008]).
Proof.
  apply (linkedlist_destroy_leaks_second_node s_three _ ll_example 1576976 7 1576992 8
    [(1577008, 9)] s_three_lists).
  apply lookup_singleton_eq.
Defined.

(** A callback that removes the values 7 and 8 and goes on. *)
Definition remove_7_8 (u : unit) (v : Z) : M (Z * unit) :=
  mret (if (v =? 7) || (v =? 8) then ITER_REMOVE_AND_NEXT else ITER_GO_NEXT, u).

Definition s_four : kstate :=
  run (exec_lops (H := bump_alloc) ll_example [LAppend 6; LAppend 7; LAppend 8; LAppend 9]) s_example.

(** [ITER_REMOVE_AND_NEXT] is wrong for two adjacent elements.  On the list
    6, 7, 8, 9 with a callback that removes 7 and 8, the code only unlinks 7,
    yet counts two removals: the size says 2 while three values remain. *)
Theorem iter_with_action_remove_adjacent_broken :
  exists s', linkedlist_iter_with_action ll_example remove_7_8 tt s_four = Ret 0 s' /\
    result (linkedlist_size ll_example) s' = Some 2 /\
    result (while_linkedlist_iter (R := Empty_set) ll_example [] (fun v acc => mret (inl (acc ++ [v])))) s'
      = Some (inl [6; 8; 9]).
Proof.
  eexists. split; [apply result_run; vm_compute; reflexivity|].
  split; vm_compute; reflexivity.
Qed.
