(* ===== verification/IdMapper.v ===== *)
(** libutils/src/libutils/id_mapper.c: handlers (ids) for kernel objects.

    A mapper is a counter and a linked list of (id, pointer) entries.
    [idm_repr] relates a mapper to the sequence of its entries; the operations
    refine a finite map from ids to pointers with a counter of ids given out. *)
From S2P Require Import Prelude Machine Logic LinkedList.

(** * Definitions *)
Section code.
Context `{Kalloc}.

Definition id_mapper_create (id_mapper : Z) : M Z :=
  id_mapper ← (if isnull id_mapper then NEW id_mapper_t else mret id_mapper);
  l ← linkedlist_create;
  update id_mapper (fun m => mk_idm (idm_next m) l);;
  update id_mapper (fun m => mk_idm 1 (idm_list m));;
  mret id_mapper.

(** [atomic_fetch_add] returns the old value. *)
Definition id_mapper_next_id (id_mapper : Z) : M Z :=
  if isnull id_mapper then mret 0
  else
    m ← load id_mapper;
    store id_mapper (mk_idm (idm_next m ⊞ 1) (idm_list m));;
    mret (idm_next m).

Definition id_mapper_get (id_mapper id : Z) : M Z :=
  if isnull id_mapper || isnull id then mret NULL
  else
    m ← load id_mapper;
    r ← while_linkedlist_iter (idm_list m) tt (fun entry _ =>
      e ← load entry;
      if entry_id e =? id then mret (inr (entry_val e)) else mret (inl tt));
    match r with
    | inr v => mret v
    | inl _ => mret NULL
    end.

Definition id_mapper_add (id_mapper val : Z) : M Z :=
  if isnull id_mapper || isnull val then mret 0
  else
    entry ← NEW id_mapper_entry_t;
    if isnull entry then mret 0
    else
      id ← id_mapper_next_id id_mapper;
      update entry (fun e => mk_entry id (entry_val e));;
      update entry (fun e => mk_entry (entry_id e) val);;
      m ← load id_mapper;
      ok ← linkedlist_append (idm_list m) entry;
      if negb ok then kfree entry;; mret 0
      else e ← load entry; mret (entry_id e).

Definition _find_id (id entry : Z) : M (Z * Z) :=
  e ← load entry;
  if entry_id e =? id then mret (ITER_REMOVE_AND_RETURN, id)
  else mret (ITER_GO_NEXT, id).

Definition id_mapper_del (id_mapper id : Z) : M bool :=
  if isnull id_mapper || isnull id then mret false
  else
    m ← load id_mapper;
    r ← linkedlist_iter_with_action (idm_list m) _find_id id;
    mret (negb (isnull r)).
End code.

(** * Representation *)

(** A mapper's list, next id and entries (id, pointer) in list order. *)
Record idm := mk_gidm { g_list : Z; g_next : Z; g_entries : list (Z * Z) }.

Definition entry_repr (E : gmap Z id_mapper_entry_t) (p : Z) (e : Z * Z) : Prop :=
  p <> 0 /\ E !! p = Some (mk_entry e.1 e.2).

(** Ids are distinct, non-zero and below the counter; pointers are not NULL. *)
Definition entries_ok (next : Z) (es : list (Z * Z)) : Prop :=
  NoDup es.*1 /\ Forall (fun e => 0 < e.1 < next /\ e.2 <> 0) es.

Record idm_repr (s : kstate) (L : gmap Z (list (Z * Z))) (p : Z) (g : idm) : Prop := {
  ir_ptr : p <> 0;
  ir_head : idmappers (ids s) !! p = Some (mk_idm (g_next g) (g_list g));
  ir_list : exists ns, L !! g_list g = Some ns /\
    Forall2 (entry_repr (identries (ids s))) (values ns) (g_entries g);
  ir_entries : entries_ok (g_next g) (g_entries g) }.

(** All mappers of the kernel: each has a list of its own. *)
Record ids_inv (s : kstate) (L : gmap Z (list (Z * Z))) (G : gmap Z idm) : Prop := {
  ii_repr p g : G !! p = Some g -> idm_repr s L p g;
  ii_lists p q g h : G !! p = Some g -> G !! q = Some h -> g_list g = g_list h -> p = q;
  ii_mappers : below id_mapper_t s;
  ii_entries : below id_mapper_entry_t s }.

(** What an operation on mappers may change. *)
Definition only_ids (n : Z) (s s' : kstate) : Prop :=
  exists I Ls m', s' = set_ids I (set_lists Ls (set_mem m' s)) /\ quiet n (mem s) m'.

Lemma only_ids_refl s : only_ids 0 s s.
Proof. exists (ids s), (lists s), (mem s). split; [by destruct s | apply quiet_refl]. Qed.

Lemma only_ids_quiet n s s' : only_ids n s s' -> quiet n (mem s) (mem s').
Proof. intros (I & Ls & m' & -> & Hq). done. Qed.

Lemma only_ids_avail n s s' :
  alloc_ok (mem s) -> only_ids n s s' -> alloc_ok (mem s') /\ avail s - n <= avail s'.
Proof.
  intros Hok Ho. pose proof (only_ids_quiet _ _ _ Ho) as [Hg _ _]. split; [eauto with kern|].
  eapply avail_grown_regions; [done|done|]. by destruct Ho as (I & Ls & m' & -> & _).
Qed.

Lemma only_ids_trans n1 n2 s1 s2 s3 : only_ids n1 s1 s2 -> only_ids n2 s2 s3 -> only_ids (n1 + n2) s1 s3.
Proof.
  intros (I1 & L1 & m1 & -> & Hq1) (I2 & L2 & m2 & -> & Hq2).
  exists I2, L2, m2. split; [done|]. by eapply quiet_trans.
Qed.

Lemma only_lists_ids n s s' : only_lists n s s' -> only_ids n s s'.
Proof. intros (H & N & m' & -> & Hq). by exists (ids s), (mk_lists H N), m'. Qed.

Lemma set_ids_only s I n s' :
  only_ids n (set_ids I s) s' -> only_ids n s s'.
Proof. intros (I2 & L2 & m2 & -> & Hq2). by exists I2, L2, m2. Qed.

(** ** Framing *)

(** A list that is not a mapper's may change freely. *)
Lemma ids_inv_frame n s s' L L' G :
  ids s' = ids s -> grown n (mem s) (mem s') ->
  (forall p g, G !! p = Some g -> L' !! g_list g = L !! g_list g) ->
  ids_inv s L G -> ids_inv s' L' G.
Proof.
  intros Hi Hg HL [Hr Hl Hm He]. split; [|done| |].
  - intros p g Hp. pose proof (HL _ _ Hp) as E. destruct (Hr _ _ Hp) as [? ? Hls ?].
    split; rewrite ?Hi, ?E; done.
  - eapply below_grown; [done| |done]. cbn. by rewrite Hi.
  - eapply below_grown; [done| |done]. cbn. by rewrite Hi.
Qed.

Lemma entry_repr_insert E p w ps es :
  E !! p = None -> Forall2 (entry_repr E) ps es -> Forall2 (entry_repr (<[p := w]> E)) ps es.
Proof.
  intros Hp Hf. eapply Forall2_impl; [done|]. intros q e [? Eq]. split; [done|].
  rewrite lookup_insert_ne; [done|]. congruence.
Qed.

Lemma entries_ok_mono n n' es : n <= n' -> entries_ok n es -> entries_ok n' es.
Proof. intros Hn [Hd Hf]. split; [done|]. eapply Forall_impl; [done|]. cbn. lia. Qed.

Lemma entries_ok_add n v es : 0 < n -> v <> 0 -> entries_ok n es -> entries_ok (n + 1) (es ++ [(n, v)]).
Proof.
  intros Hn Hv [Hd Hf]. split.
  - rewrite fmap_app. apply NoDup_app. split_and!; [done| |cbn; apply NoDup_singleton].
    intros i (e & -> & He)%list_elem_of_fmap. rewrite Forall_forall in Hf. apply Hf in He.
    cbn. intros Hi%list_elem_of_singleton. lia.
  - apply Forall_app. split; [|apply Forall_singleton; cbn; lia].
    eapply Forall_impl; [done|]. cbn. lia.
Qed.

Lemma NoDup_fmap_fst_filter (P : Z * Z -> Prop) `{!forall x, Decision (P x)} (es : list (Z * Z)) :
  NoDup es.*1 -> NoDup (filter P es).*1.
Proof.
  induction es as [|e es IH]; [done|]. intros [Hn Hd]%NoDup_cons. rewrite filter_cons.
  destruct (decide (P e)); [|auto]. cbn. apply NoDup_cons. split; [|auto].
  intros (x & E & Hx)%list_elem_of_fmap. apply Hn, list_elem_of_fmap. exists x.
  by apply list_elem_of_filter in Hx as [_ ?].
Qed.

Lemma filter_all_ne id (es : list (Z * Z)) :
  id ∉ es.*1 -> filter (fun e => e.1 <> id) es = es.
Proof.
  induction es as [|e es IH]; [done|]. rewrite fmap_cons. intros [Hne Hn]%not_elem_of_cons.
  rewrite filter_cons_True by congruence. by rewrite IH.
Qed.

Lemma filter_ne_middle id es1 (e : Z * Z) es2 :
  NoDup (es1 ++ e :: es2).*1 -> e.1 = id ->
  filter (fun e => e.1 <> id) (es1 ++ e :: es2) = es1 ++ es2.
Proof.
  rewrite fmap_app. cbn. intros (_ & Hd & Hn)%NoDup_app <-. apply NoDup_cons in Hn as [Hn _].
  rewrite filter_app, filter_cons_False by (intros ?; done).
  rewrite !filter_all_ne; [done|done|]. intros Hi. apply (Hd _ Hi). by constructor.
Qed.

(** The invariant after one mapper and its list were rewritten. *)
Lemma ids_inv_update n s s' L G p g g' ns' :
  ids_inv s L G -> G !! p = Some g -> g_list g' = g_list g -> grown n (mem s) (mem s') ->
  idmappers (ids s') = <[p := mk_idm (g_next g') (g_list g)]> (idmappers (ids s)) ->
  identries (ids s) ⊆ identries (ids s') -> below id_mapper_entry_t s' ->
  Forall2 (entry_repr (identries (ids s'))) (values ns') (g_entries g') ->
  entries_ok (g_next g') (g_entries g') ->
  ids_inv s' (<[g_list g := ns']> L) (<[p := g']> G).
Proof.
  intros [Hr Hl Hm He] Hp Hgl Hg Hmap Hsub Hbe Hf Hok. split; [| | |done].
  - intros q h [[-> ->]|[Hne Hq]]%lookup_insert_Some.
    + split; [by destruct (Hr _ _ Hp)| |exists ns'|done].
      * by rewrite Hmap, lookup_insert_eq, Hgl.
      * by rewrite Hgl, lookup_insert_eq.
    + destruct (Hr _ _ Hq) as [Hq0 Hhd (ns & Hns & Hes) Hqe].
      split; [done| |exists ns|done].
      * by rewrite Hmap, lookup_insert_ne.
      * rewrite lookup_insert_ne by (intros E; destruct Hne; by eapply Hl).
        split; [done|]. eapply Forall2_impl; [done|]. intros a e [? Ea]. split; [done|].
        by eapply lookup_weaken.
  - intros q1 q2 g1 g2 [[-> ->]|[Hn1 Hq1]]%lookup_insert_Some
      [[-> ->]|[Hn2 Hq2]]%lookup_insert_Some E; [done| | |by eapply Hl];
      rewrite Hgl in E; by eapply Hl.
  - intros q w. change (heap s') with (idmappers (ids s')). rewrite Hmap.
    pose proof (gr_top _ _ _ Hg). pose proof (gr_pos _ _ _ Hg).
    intros [[-> _]|[_ Hq]]%lookup_insert_Some.
    + destruct (Hm _ _ (ir_head _ _ _ _ (Hr _ _ Hp))). lia.
    + apply Hm in Hq. lia.
Qed.

(** * Specifications *)
Section specs.
Context `{K : Kalloc} `{!GoodAlloc K}.
Context (s : kstate) (L : gmap Z (list (Z * Z))) (G : gmap Z idm) (p : Z) (g : idm).
Hypothesis Hli : lists_inv s L.
Hypothesis Hii : ids_inv s L G.
Hypothesis Hp : G !! p = Some g.

Lemma id_mapper_get_spec id :
  wp (id_mapper_get p id)
    (fun r s' => r = default 0 ((list_to_map (g_entries g) : gmap Z Z) !! id) /\ s' = s) s.
Proof.
  destruct (ii_repr _ _ _ Hii _ _ Hp) as [Hp0 Hhd (ns & Hns & Hes) [Hnd Hfa]].
  unfold id_mapper_get. nonnull p. cbn [orb].
  destruct (Z.eqb_spec id 0) as [->|Hid].
  { isnullp 0. wstep. split; [|done]. rewrite not_elem_of_list_to_map_1; [done|].
    intros (e & E & He)%list_elem_of_fmap. rewrite Forall_forall in Hfa. apply Hfa in He. lia. }
  nonnull id. wstep. eapply wpx_load; [exact Hhd|]. cbn [idm_list].
  assert (upto_null (values ns) = values ns) as Hup.
  { apply upto_null_all. eapply Forall2_Forall_l; [exact Hes|]. apply Forall_true. by intros e q [? _]. }
  eapply wpx_call.
  { eapply (wp_while_linkedlist_iter (g_list g) ns _
      (fun done _ s' => s' = s /\ id ∉ (take (length done) (g_entries g)).*1)
      (fun r s' => s' = s /\ match r with
         | inl _ => id ∉ (g_entries g).*1
         | inr v => (id, v) ∈ g_entries g end)).
    - intros done _ s' [-> _]. by eapply inv_is_list.
    - intros done v _ s' [rest Hpre] Hv [-> Hd]. rewrite Hup in Hpre.
      assert (values ns !! length done = Some v) as Hlk
        by (rewrite Hpre, <- app_assoc; apply list_lookup_middle; done).
      destruct (Forall2_lookup_l _ _ _ _ _ Hes Hlk) as (e & He & _ & Ee).
      wstep. eapply wpx_load; [exact Ee|]. cbn.
      destruct (Z.eqb_spec e.1 id) as [<-|Hne]; wstep; (split; [done|]).
      + apply list_elem_of_lookup_2 in He. by destruct e.
      + rewrite length_app, Nat.add_1_r. rewrite (take_S_r _ _ _ He), fmap_app. cbn.
        rewrite not_elem_of_app. split; [done|]. by intros ->%list_elem_of_singleton.
    - intros _ s' [-> Hd]. split; [done|]. rewrite Hup, (Forall2_length _ _ _ Hes) in Hd.
      by rewrite firstn_all in Hd.
    - split; [done|]. cbn. apply not_elem_of_nil. }
  intros [[]|v] s' [-> Hr]; wstep; (split; [|done]).
  - by rewrite not_elem_of_list_to_map_1.
  - by rewrite (elem_of_list_to_map_1 _ _ v).
Qed.

Lemma id_mapper_add_spec v :
  alloc_ok (mem s) -> 32 <= avail s -> v <> 0 -> 0 < g_next g < 2 ^ 64 - 1 ->
  wp (id_mapper_add p v) (fun r s' => r = g_next g /\ only_ids 32 s s' /\
    exists ns', lists_inv s' (<[g_list g := ns']> L) /\
      ids_inv s' (<[g_list g := ns']> L)
        (<[p := mk_gidm (g_list g) (g_next g + 1) (g_entries g ++ [(g_next g, v)])]> G)) s.
Proof.
  intros Hok Ha Hv Hnx.
  destruct (ii_repr _ _ _ Hii _ _ Hp) as [Hp0 Hhd (ns & Hns & Hes) Heo].
  unfold id_mapper_add. nonnull p. nonnull v. cbn [orb].
  eapply wp_call; [apply (wp_NEW id_mapper_entry_t); [done|cbn; lia]|].
  intros q s1 (-> & m1 & -> & Hq1). cbn in Hq1. pose proof (heap_top_pos _ Hok) as Hq0.
  pose proof (below_top_fresh _ (ii_entries _ _ _ Hii)) as Hfr. cbn in Hfr.
  pose proof (gr_top _ _ _ (q_grown _ _ _ Hq1)) as Et1.
  set (q := heap_top (mem s)) in *. nonnull q.
  unfold id_mapper_next_id. nonnull p.
  wstep. wstep. eapply wpx_load; [exact Hhd|]. wstep.
  eapply wpx_store; [exact Hhd|]. wstep.
  wstep. eapply wpx_update; [cbn; apply lookup_insert_eq|].
  wstep. eapply wpx_update; [cbn; apply lookup_insert_eq|]. cbn [idm_next].
  rewrite u64_small by lia.
  wstep. eapply wpx_load; [cbn; apply lookup_insert_eq|]. cbn [idm_list].
  match goal with |- wpx _ _ _ ?x => set (s2 := x) end.
  assert (identries (ids s2) = <[q := mk_entry (g_next g) v]> (identries (ids s))) as Eent.
  { cbn. by rewrite !insert_insert_eq. }
  assert (lists_inv s2 L) as Hli2.
  { eapply (lists_inv_grown 16 s); [done|apply Hq1| |done]. cbn. unfold avail in Ha. lia. }
  assert (only_ids 16 s s2) as Ho2 by (by exists (ids s2), (lists s), m1).
  destruct (only_ids_avail _ _ _ Hok Ho2) as [Hok2 Ha2].
  eapply wpx_call; [eapply linkedlist_append_spec; [done|done|done|lia]|].
  intros r s3 (-> & Ho3 & Hl3). cbn [negb].
  assert (ids s3 = ids s2) as Ei3 by (by destruct Ho3 as (? & ? & ? & -> & _)).
  wstep. eapply wpx_load; [cbn; rewrite Ei3, Eent; apply lookup_insert_eq|]. wstep.
  split; [done|]. pose proof (only_ids_trans 16 16 _ _ _ Ho2 (only_lists_ids _ _ _ Ho3)) as Ho.
  split; [done|]. pose proof (q_grown _ _ _ (only_ids_quiet _ _ _ Ho)) as Hg.
  eexists. split; [exact Hl3|].
  eapply (ids_inv_update _ s); [done|done|done|exact Hg|by rewrite Ei3| | | |].
  - rewrite Ei3, Eent. by apply insert_subseteq.
  - intros a w. change (heap s3) with (identries (ids s3)). rewrite Ei3, Eent.
    pose proof (gr_top _ _ _ Hg) as Et. intros [[<- _]|[_ Hw]]%lookup_insert_Some; [lia|].
    apply (ii_entries _ _ _ Hii) in Hw. lia.
  - rewrite Ei3, Eent. unfold values. rewrite fmap_app. cbn. apply Forall2_app.
    + by apply entry_repr_insert.
    + repeat constructor; [cbn; lia|]. apply lookup_insert_eq.
  - cbn. apply entries_ok_add; [lia|done|done].
Qed.

Lemma id_mapper_add_null : wp (id_mapper_add p 0) (fun r s' => r = 0 /\ s' = s) s.
Proof. unfold id_mapper_add. by destruct (isnull p). Qed.

(** Removing the entry with one id, if any. *)
Lemma id_mapper_del_spec id :
  wp (id_mapper_del p id) (fun r s' =>
    r = bool_decide (id ∈ (g_entries g).*1) /\ only_ids 0 s s' /\
    exists ns', lists_inv s' (<[g_list g := ns']> L) /\
      ids_inv s' (<[g_list g := ns']> L)
        (<[p := mk_gidm (g_list g) (g_next g)
                  (filter (fun e => e.1 <> id) (g_entries g))]> G)) s.
Proof.
  destruct (ii_repr _ _ _ Hii _ _ Hp) as [Hp0 Hhd (ns & Hns & Hes) [Hnd Hfa]].
  assert (forall s' r ns' es', only_ids 0 s s' -> ids s' = ids s ->
    lists_inv s' (<[g_list g := ns']> L) ->
    r = bool_decide (id ∈ (g_entries g).*1) ->
    filter (fun e => e.1 <> id) (g_entries g) = es' ->
    Forall2 (entry_repr (identries (ids s))) (values ns') es' ->
    r = bool_decide (id ∈ (g_entries g).*1) /\ only_ids 0 s s' /\
    exists ns', lists_inv s' (<[g_list g := ns']> L) /\
      ids_inv s' (<[g_list g := ns']> L)
        (<[p := mk_gidm (g_list g) (g_next g) (filter (fun e => e.1 <> id) (g_entries g))]> G))
    as Hfinal.
  { intros s' r ns' es' Ho Ei Hl Hr He Hf. split; [done|]. split; [done|]. exists ns'.
    split; [done|]. pose proof (q_grown _ _ _ (only_ids_quiet _ _ _ Ho)) as Hg.
    eapply (ids_inv_update _ s); [done|done|done|exact Hg| | | | |]; cbn; rewrite ?Ei.
    - by rewrite insert_id.
    - done.
    - eapply below_grown; [exact Hg|cbn; by rewrite Ei|apply Hii].
    - by rewrite He.
    - split; [by apply NoDup_fmap_fst_filter|].
      rewrite Forall_forall in Hfa |- *. intros e [_ He']%list_elem_of_filter. by apply Hfa. }
  unfold id_mapper_del. nonnull p. cbn [orb].
  destruct (Z.eqb_spec id 0) as [->|Hid].
  { isnullp 0. wstep. assert (0 ∉ (g_entries g).*1) as Hno.
    { intros (e & E & He)%list_elem_of_fmap. rewrite Forall_forall in Hfa. apply Hfa in He. lia. }
    eapply (Hfinal s _ ns (g_entries g)); [apply only_ids_refl|done|by rewrite insert_id| | |done].
    - by rewrite bool_decide_eq_false_2.
    - apply filter_all_ne. done. }
  nonnull id. wstep. eapply wpx_load; [exact Hhd|]. cbn [idm_list].
  eapply wpx_call.
  { eapply (linkedlist_iter_with_action_spec s L (g_list g) ns _
      (fun done d s' => s' = s /\ d = id /\ id ∉ (take (length done) (g_entries g)).*1)
      (fun v s' => (v = 0 /\ s' = s /\ id ∉ (g_entries g).*1) \/
         (v <> 0 /\ only_lists 0 s s' /\ exists done a todo, ns = done ++ (a, v) :: todo /\
          (g_entries g).*1 !! length done = Some id /\
          lists_inv s' (<[g_list g := done ++ todo]> L)))); [done| | | |].
    - intros done d s' (-> & _). done.
    - intros done a v todo d s' Ens (-> & -> & Hd).
      assert (values ns !! length done = Some v) as Hlk.
      { unfold values. by rewrite Ens, list_lookup_fmap, list_lookup_middle. }
      destruct (Forall2_lookup_l _ _ _ _ _ Hes Hlk) as (e & He & Hv0 & Ee).
      unfold _find_id. wstep. eapply wpx_load; [exact Ee|]. cbn.
      destruct (Z.eqb_spec e.1 id) as [Heq|Hne]; wstep; (split; [done|]).
      + right. right. split; [done|]. intros s'' Ho Hl. right. split_and!; [done|done|].
        exists done, a, todo. split_and!; [done| |done].
        rewrite list_lookup_fmap, He. cbn. by rewrite Heq.
      + left. split_and!; [done|done|done|].
        rewrite length_app, Nat.add_1_r. rewrite (take_S_r _ _ _ He), fmap_app. cbn.
        rewrite not_elem_of_app. split; [done|]. by intros ->%list_elem_of_singleton.
    - intros d s' (-> & _ & Hd). left. split_and!; [done|done|].
      assert (length ns = length (g_entries g)) as El.
      { rewrite <- (Forall2_length _ _ _ Hes). unfold values. by rewrite length_fmap. }
      by rewrite El, firstn_all in Hd.
    - split_and!; [done|done|]. cbn. apply not_elem_of_nil. }
  intros v s' [(-> & -> & Hno)|(Hv & Ho & done & a & todo & Ens & Hin & Hl)]; wstep.
  - isnullp 0. cbn [negb].
    eapply (Hfinal s _ ns (g_entries g)); [apply only_ids_refl|done|by rewrite insert_id| | |done].
    + by rewrite bool_decide_eq_false_2.
    + by apply filter_all_ne.
  - nonnull v. cbn [negb]. rewrite list_lookup_fmap in Hin.
    destruct (g_entries g !! length done) as [e|] eqn:He; [|done]. cbn in Hin.
    injection Hin as Hin. apply list_elem_of_split_length in He as (es1 & es2 & He & Hlen).
    rewrite He in *. rewrite Ens in Hes. unfold values in Hes. rewrite fmap_app in Hes.
    apply Forall2_app_inv in Hes as [H1 H2]; [|by rewrite length_fmap]. cbn in H2.
    apply Forall2_cons in H2 as [_ H2].
    eapply (Hfinal s' _ (done ++ todo) (es1 ++ es2)); [by apply only_lists_ids| |done| | |].
    + by destruct Ho as (? & ? & ? & -> & _).
    + rewrite bool_decide_eq_true_2; [done|]. rewrite fmap_app. cbn. rewrite Hin. set_solver.
    + by apply filter_ne_middle.
    + unfold values. rewrite fmap_app. by apply Forall2_app.
Qed.
End specs.

(** A static mapper ([create(&mapper)]) becomes an empty one. *)
Lemma id_mapper_create_spec `{K : Kalloc} `{!GoodAlloc K} s L G p m0 :
  lists_inv s L -> ids_inv s L G -> (forall q g, G !! q = Some g -> is_Some (L !! g_list g)) ->
  alloc_ok (mem s) -> 16 <= avail s ->
  idmappers (ids s) !! p = Some m0 -> G !! p = None ->
  wp (id_mapper_create p) (fun r s' => r = p /\ only_ids 16 s s' /\
    exists l, l = heap_top (mem s) /\ lists_inv s' (<[l := []]> L) /\
      ids_inv s' (<[l := []]> L) (<[p := mk_gidm l 1 []]> G)) s.
Proof.
  intros Hli Hii HGL Hok Ha Hp HG. pose proof (ii_mappers _ _ _ Hii _ _ Hp) as Hpb.
  unfold id_mapper_create. nonnull p. wstep. wstep.
  eapply wpx_call; [by eapply linkedlist_create_spec|].
  intros l s1 (-> & HLl & Ho & Hl1). set (l := heap_top (mem s)) in *.
  assert (ids s1 = ids s) as Ei by (by destruct Ho as (? & ? & ? & -> & _)).
  pose proof (q_grown _ _ _ (only_lists_quiet _ _ _ Ho)) as Hg.
  wstep. eapply wpx_update; [cbn; rewrite Ei; exact Hp|].
  wstep. eapply wpx_update; [cbn; apply lookup_insert_eq|]. wstep.
  cbn [heap set_heap id_mapper_t_struct idm_next idm_list].
  match goal with |- context [only_ids 16 s ?x] => set (s2 := x) end.
  assert (idmappers (ids s2) = <[p := mk_idm 1 l]> (idmappers (ids s))) as Em.
  { cbn. by rewrite insert_insert_eq, Ei. }
  assert (identries (ids s2) = identries (ids s)) as Ee by (cbn; by rewrite Ei).
  assert (mem s2 = mem s1) as Emem by done.
  split; [done|]. split.
  { destruct Ho as (H & N & m' & E1 & Hq). subst s1. by exists (ids s2), (mk_lists H N), m'. }
  exists l. split; [done|]. split; [by apply (lists_inv_frame s1)|].
  assert (forall q g, G !! q = Some g -> g_list g <> l) as Hne.
  { intros q g Hq E. destruct (HGL _ _ Hq) as [x Hx]. congruence. }
  split.
  - intros q h [[-> <-]|[Hnq Hq]]%lookup_insert_Some.
    + split; [lia| |exists []|split; constructor].
      * by rewrite Em, lookup_insert_eq.
      * cbn. by rewrite lookup_insert_eq.
    + destruct (ii_repr _ _ _ Hii _ _ Hq) as [Hq0 Hhd (ns & Hns & Hes) Hqe].
      split; [done| |exists ns|done].
      * by rewrite Em, lookup_insert_ne.
      * rewrite lookup_insert_ne by (by apply not_eq_sym, (Hne q)). by rewrite Ee.
  - intros q1 q2 g1 g2 [[-> <-]|[Hn1 Hq1]]%lookup_insert_Some
      [[-> <-]|[Hn2 Hq2]]%lookup_insert_Some E; [done| | |by eapply (ii_lists _ _ _ Hii)].
    + cbn in E. by destruct (Hne _ _ Hq2).
    + cbn in E. by destruct (Hne _ _ Hq1).
  - intros q w. change (heap s2) with (idmappers (ids s2)). rewrite Em, Emem.
    pose proof (gr_top _ _ _ Hg).
    intros [[-> _]|[_ Hq]]%lookup_insert_Some; [lia|]. apply (ii_mappers _ _ _ Hii) in Hq. lia.
  - eapply (below_grown 16 s); [by rewrite Emem|by cbn; rewrite Ei|apply Hii].
Qed.

(** * Refinement of a finite map *)

Inductive iop := IAdd (val : Z) | IGet (id : Z) | IDel (id : Z).

(** The abstract mapper: the next id and the live ids. *)
Record amap := mk_amap { a_next : Z; a_map : gmap Z Z }.

Definition astep (op : iop) (a : amap) : Z * amap :=
  match op with
  | IAdd v => if isnull v then (0, a)
              else (a_next a, mk_amap (a_next a + 1) (<[a_next a := v]> (a_map a)))
  | IGet id => (default 0 (a_map a !! id), a)
  | IDel id => (if bool_decide (is_Some (a_map a !! id)) then 1 else 0,
                mk_amap (a_next a) (delete id (a_map a)))
  end.

Fixpoint asteps (ops : list iop) (a : amap) : list Z * amap :=
  match ops with
  | [] => ([], a)
  | op :: ops' =>
      let '(r, a1) := astep op a in
      let '(rs, a2) := asteps ops' a1 in (r :: rs, a2)
  end.

Definition exec_iop `{Kalloc} (p : Z) (op : iop) : M Z :=
  match op with
  | IAdd v => id_mapper_add p v
  | IGet id => id_mapper_get p id
  | IDel id => b ← id_mapper_del p id; mret (if (b : bool) then 1 else 0)
  end.

Fixpoint exec_iops `{Kalloc} (p : Z) (ops : list iop) : M (list Z) :=
  match ops with
  | [] => mret []
  | op :: ops' => r ← exec_iop p op; rs ← exec_iops p ops'; mret (r :: rs)
  end.

Definition abs (g : idm) : amap := mk_amap (g_next g) (list_to_map (g_entries g)).

Lemma abs_filter id (es : list (Z * Z)) :
  NoDup es.*1 ->
  (list_to_map (filter (fun e => e.1 <> id) es) : gmap Z Z) = delete id (list_to_map es).
Proof.
  intros Hnd. apply map_eq. intros i. apply option_eq. intros v.
  rewrite lookup_delete_Some, <- !elem_of_list_to_map by auto using NoDup_fmap_fst_filter.
  rewrite list_elem_of_filter. cbn. naive_solver.
Qed.

Section refinement.
Context `{K : Kalloc} `{!GoodAlloc K}.

Lemma exec_iop_sim op s L G p g :
  lists_inv s L -> ids_inv s L G -> G !! p = Some g -> alloc_ok (mem s) -> 32 <= avail s ->
  0 < g_next g < 2 ^ 64 - 1 ->
  wp (exec_iop p op) (fun r s' => exists n L' g', (r, abs g') = astep op (abs g) /\
    g_list g' = g_list g /\ g_next g <= g_next g' <= g_next g + 1 /\
    only_ids n s s' /\ n <= 32 /\ lists_inv s' L' /\ ids_inv s' L' (<[p := g']> G) /\
    (forall l, l <> g_list g -> L' !! l = L !! l)) s.
Proof.
  intros Hli Hii Hp Hok Ha Hnx. pose proof (ir_entries _ _ _ _ (ii_repr _ _ _ Hii _ _ Hp)) as [Hnd Hfa].
  destruct op as [v|id|id]; cbn [exec_iop astep].
  - destruct (Z.eqb_spec v 0) as [->|Hv].
    { eapply wp_mono; [apply id_mapper_add_null|]. intros r s' (-> & ->).
      exists 0, L, g. rewrite (insert_id G p g Hp).
      split_and!; try done; try lia. apply only_ids_refl. }
    rewrite (proj2 (isnull_false v)) by done.
    eapply wp_mono; [by eapply id_mapper_add_spec|]. intros r s' (-> & Ho & ns' & Hl & Hi).
    eexists 32, _, (mk_gidm _ _ _). split_and!; [| | | |exact Ho|lia|exact Hl|exact Hi|]; cbn; try done; try lia.
    + unfold abs. cbn. rewrite list_to_map_snoc; [done|].
      intros (e & E & He)%list_elem_of_fmap. rewrite Forall_forall in Hfa. apply Hfa in He. lia.
    + intros l Hl'. by rewrite lookup_insert_ne.
  - eapply wp_mono; [by eapply id_mapper_get_spec|]. intros r s' (-> & ->).
    exists 0, L, g. rewrite (insert_id G p g Hp). split_and!; try done; try lia. apply only_ids_refl.
  - eapply wp_call; [by eapply id_mapper_del_spec|]. intros r s' (-> & Ho & ns' & Hl & Hi).
    wstep. eexists 0, _, (mk_gidm _ _ _). split_and!; [| | | |exact Ho|lia|exact Hl|exact Hi|]; cbn; try done; try lia.
    + unfold abs. cbn. rewrite abs_filter by done. f_equal.
      erewrite bool_decide_ext; [done|]. split.
      * intros [[i v] [-> He]]%list_elem_of_fmap. exists v. by apply elem_of_list_to_map_1.
      * intros [v Hv]. apply list_elem_of_fmap. exists (id, v). split; [done|].
        by apply elem_of_list_to_map_2.
    + intros l Hl'. by rewrite lookup_insert_ne.
Qed.

Lemma exec_iops_sim ops s L G p g :
  lists_inv s L -> ids_inv s L G -> G !! p = Some g -> alloc_ok (mem s) ->
  32 * Z.of_nat (length ops) <= avail s ->
  0 < g_next g -> g_next g + Z.of_nat (length ops) < 2 ^ 64 ->
  wp (exec_iops p ops) (fun rs s' => exists n L' g', (rs, abs g') = asteps ops (abs g) /\
    g_list g' = g_list g /\ only_ids n s s' /\ lists_inv s' L' /\ ids_inv s' L' (<[p := g']> G) /\
    (forall l, l <> g_list g -> L' !! l = L !! l)) s.
Proof.
  revert s L G g. induction ops as [|op ops IH]; intros s L G g Hli Hii Hp Hok Ha Hnx Hb.
  { cbn [exec_iops asteps]. wstep. exists 0, L, g. rewrite (insert_id G p g Hp).
    split_and!; try done. apply only_ids_refl. }
  cbn [exec_iops asteps length] in *.
  eapply wp_call; [eapply exec_iop_sim; [done..|lia|lia]|].
  intros r s1 (n1 & L1 & g1 & E1 & Eg1 & Hn1 & Ho1 & Hn & Hl1 & Hi1 & HL1). rewrite <- E1. cbn.
  destruct (only_ids_avail _ _ _ Hok Ho1) as [Hok1 Hav1].
  eapply wp_call; [eapply IH; [done|done|apply lookup_insert_eq|done|lia|lia|lia]|].
  intros rs s2 (n2 & L2 & g2 & E2 & Eg2 & Ho2 & Hl2 & Hi2 & HL2). rewrite <- E2. wstep.
  exists (n1 + n2), L2, g2. rewrite insert_insert_eq in Hi2.
  split_and!; try done; [congruence|by eapply only_ids_trans|].
  intros l Hl. rewrite HL2 by congruence. by apply HL1.
Qed.
End refinement.

(** * Claims *)

(** C15: an id mapper implements a finite map with fresh ids.  Every sequence of
    add, get and del on a mapper terminates without a fault and returns what the
    same sequence returns on a finite map whose add hands out the counter: an id
    finds the pointer it was given out for until it is deleted, a deleted or
    never issued id finds NULL, no id is given out twice, NULL is never stored.
    No other mapper and no list but the mapper's own changes. *)
Theorem id_mapper_refines_map `{K : Kalloc} `{!GoodAlloc K} ops s L G p g :
  lists_inv s L -> ids_inv s L G -> G !! p = Some g -> alloc_ok (mem s) ->
  32 * Z.of_nat (length ops) <= avail s ->
  0 < g_next g -> g_next g + Z.of_nat (length ops) < 2 ^ 64 ->
  exists rs s' L' g', exec_iops p ops s = Ret rs s' /\ (rs, abs g') = asteps ops (abs g) /\
    lists_inv s' L' /\ ids_inv s' L' (<[p := g']> G) /\
    (forall l, l <> g_list g -> L' !! l = L !! l) /\ exists n, only_ids n s s'.
Proof.
  intros H1 H2 H3 H4 H5 H6 H7.
  destruct (wp_inv _ _ _ (exec_iops_sim ops s L G p g H1 H2 H3 H4 H5 H6 H7))
    as (rs & s' & E & n & L' & g' & ? & ? & ? & ? & ? & ?).
  exists rs, s', L', g'. split_and!; eauto.
Qed.

(** The mapper of tasks in a fresh kernel. *)
Definition idm_example : Z := 1500000.
Definition s_idm0 : kstate := set_idmappers {[idm_example := mk_idm 0 0]} state0.
Definition s_idm : kstate := run (id_mapper_create (H := bump_alloc) idm_example) s_idm0.

Lemma s_idm0_inv : lists_inv s_idm0 ∅ /\ ids_inv s_idm0 ∅ ∅.
Proof.
  split.
  - split; [split; intros *; rewrite lookup_empty; done| | |vm_compute; split; congruence];
      intros p v; cbn; by rewrite lookup_empty.
  - split; try (intros *; by rewrite lookup_empty).
    + intros p v. change (heap s_idm0) with ({[idm_example := mk_idm 0 0]} : gmap Z id_mapper_t).
      intros [<- _]%lookup_singleton_Some. vm_compute. split; congruence.
    + intros p v. cbn. by rewrite lookup_empty.
Qed.

Lemma s_idm_inv : lists_inv s_idm {[1576960 := []]} /\
  ids_inv s_idm {[1576960 := []]} {[idm_example := mk_gidm 1576960 1 []]}.
Proof.
  destruct s_idm0_inv as [H1 H2].
  destruct (wp_run _ _ _ (id_mapper_create_spec (K := bump_alloc) s_idm0 ∅ ∅ idm_example (mk_idm 0 0)
    H1 H2 ltac:(intros *; by rewrite lookup_empty) state0_alloc_ok
    ltac:(vm_compute; congruence) ltac:(done) ltac:(done))) as (r & _ & _ & _ & l & -> & Hl & Hi).
  split; [exact Hl|exact Hi].
Qed.

Lemma id_mapper_refines_map_witness :
  exists rs s' L' g',
    exec_iops (H := bump_alloc) idm_example [IAdd 70; IAdd 80; IGet 1; IDel 1; IGet 1; IAdd 90; IDel 1] s_idm
      = Ret rs s' /\
    (rs, abs g') = ([1; 2; 70; 1; 0; 3; 0], mk_amap 4 (<[3 := 90]> (delete 1 (<[2 := 80]> {[1 := 70]})))) /\
    lists_inv s' L' /\ ids_inv s' L' (<[idm_example := g']> {[idm_example := mk_gidm 1576960 1 []]}) /\
    (forall l, l <> 1576960 -> L' !! l = ({[1576960 := []]} : gmap Z (list (Z * Z))) !! l) /\
    exists n, only_ids n s_idm s'.
Proof.
  apply (id_mapper_refines_map (K := bump_alloc)
    [IAdd 70; IAdd 80; IGet 1; IDel 1; IGet 1; IAdd 90; IDel 1] s_idm {[1576960 := []]}
    {[idm_example := mk_gidm 1576960 1 []]} idm_example (mk_gidm 1576960 1 [])).
  - apply s_idm_inv.
  - apply s_idm_inv.
  - apply lookup_singleton_eq.
  - split; [vm_compute; split; congruence | done].
  - vm_compute. congruence.
  - done.
  - done.
Defined.

(** The static mappers of the example machine. *)
Lemma state1_mappers : below id_mapper_t state1.
Proof.
  intros p v Hp. change (heap state1) with (idmappers (ids state1)) in Hp. change (heap_top (mem state1)) with 1576960.
  unfold state1 in Hp. cbn [idmappers ids set_idmappers set_ids] in Hp.
  repeat (apply lookup_insert_Some in Hp as [[<- <-]|[_ Hp]]; [lia|]).
  apply lookup_singleton_Some in Hp as [<- <-]. lia.
Qed.
