(* ===== verification/Pmem.v ===== *)
(** core/src/pmem/services.c: the allocator of physical pages.

    [pages] has one byte per page of physical memory: free, system or user.
    The specifications describe each operation by its effect on every page, and
    the claims at the end are about arbitrary sequences of operations: pages
    handed out are never handed out twice, and system pages stay system. *)
From S2P Require Import Prelude Machine Logic.

(** * Definitions *)

Definition PAGE_TYPE_FREE : Z := 0.
Definition PAGE_TYPE_SYSTEM : Z := 1.
Definition PAGE_TYPE_USER : Z := 2.

Definition PAGE_TO_ADDR (p : Z) : Z := u64 (Z.shiftl p SYSTEM_PAGE_ALIGN).
Definition ADDR_TO_PAGE (a : Z) : Z := Z.shiftr a SYSTEM_PAGE_ALIGN.

(** [pages[p]] and [pages[p] = t]; outside the array the access has no defined
    behaviour. *)
Definition read_page (p : Z) : M Z :=
  pm ← gets pmem;
  match pages pm !! Z.to_nat p with Some t => mret t | None => fault end.
Definition write_page (p t : Z) : M unit :=
  pm ← gets pmem;
  match pages pm !! Z.to_nat p with
  | Some _ => modify (set_pmem (mk_pmem (total_of_pages pm) (total_memory pm)
                                  (<[Z.to_nat p := t]> (pages pm))))
  | None => fault
  end.

(** [for (p = 0; p < total_of_pages; ++p) pages[p] = PAGE_TYPE_FREE], with [n]
    iterations left. *)
Fixpoint pmem_initialize_loop (n : nat) (p : Z) : M unit :=
  match n with
  | O => mret tt
  | S n' => write_page p PAGE_TYPE_FREE;; pmem_initialize_loop n' (p + 1)
  end.

(** The array is the zero-filled memory [kalloc] gives. *)
Definition pmem_initialize `{Kalloc} (t : Z) : M bool :=
  let total := t / SYSTEM_PAGE_SIZE in
  modify (fun s => set_pmem (mk_pmem total t (pages (pmem s))) s);;
  p ← kalloc (1 * total);
  modify (fun s => set_pmem (mk_pmem (total_of_pages (pmem s)) (total_memory (pmem s))
    (if isnull p then [] else replicate (Z.to_nat total) 0)) s);;
  pmem_initialize_loop (Z.to_nat total) 0;;
  mret true.

Definition pmem_set_page (page_number page_type : Z) : M bool :=
  total ← gets (fun s => total_of_pages (pmem s));
  if total <=? page_number then mret false
  else
    t ← read_page page_number;
    (if negb (t =? PAGE_TYPE_SYSTEM) then write_page page_number page_type else mret tt);;
    mret true.

(** [for (; p < total_of_pages; ++p)], with [n] iterations left. *)
Fixpoint pmem_next_page_loop (pagetype : Z) (n : nat) (p : Z) : M Z :=
  match n with
  | O => mret 0
  | S n' =>
      t ← read_page p;
      if t =? pagetype then mret p else pmem_next_page_loop pagetype n' (p + 1)
  end.

Definition pmem_next_page_available (pagetype : Z) : M Z :=
  total ← gets (fun s => total_of_pages (pmem s));
  let p := ADDR_TO_PAGE (64 * 1024 * 1024) in
  pmem_next_page_loop pagetype (Z.to_nat (total - p)) p.

Definition pmem_allocate : M Z :=
  page_number ← pmem_next_page_available PAGE_TYPE_FREE;
  if isnull page_number then mret 0
  else
    ok ← pmem_set_page page_number PAGE_TYPE_USER;
    if negb ok then mret 0 else mret (PAGE_TO_ADDR page_number).

(** [while (page <= page_end)], with [n] iterations left. *)
Fixpoint pmem_set_as_system_loop (n : nat) (page : Z) : M unit :=
  match n with
  | O => mret tt
  | S n' => pmem_set_page page PAGE_TYPE_SYSTEM;; pmem_set_as_system_loop n' (page + 1)
  end.

Definition pmem_set_as_system (addr total_in_bytes : Z) : M bool :=
  let page := ADDR_TO_PAGE addr in
  let page_end := ADDR_TO_PAGE (addr ⊞ total_in_bytes) in
  pmem_set_as_system_loop (Z.to_nat (page_end - page + 1)) page;;
  mret true.

Definition pmem_release (addr : Z) : M bool :=
  if negb (ALIGN addr SYSTEM_PAGE_SIZE =? addr) then mret false
  else pmem_set_page (ADDR_TO_PAGE addr) PAGE_TYPE_FREE.

(** * Invariant and abstract effect *)

Record pmem_ok (pm : pmem_t) : Prop := {
  po_pages : length (pages pm) = Z.to_nat (total_of_pages pm);
  po_total : total_of_pages pm = total_memory pm / 4096;
  po_range : 0 <= total_memory pm < 2 ^ 64;
  po_types : Forall (fun t => t = PAGE_TYPE_FREE \/ t = PAGE_TYPE_SYSTEM \/ t = PAGE_TYPE_USER) (pages pm) }.

(** Page [p] (a page number) gets type [t], unless it is a system page or out of
    memory. *)
Definition mark (p t : Z) (pm : pmem_t) : pmem_t :=
  mk_pmem (total_of_pages pm) (total_memory pm)
    (alter (fun o => if o =? PAGE_TYPE_SYSTEM then o else t) (Z.to_nat p) (pages pm)).

(** The type of page [p]. *)
Definition page_at (pm : pmem_t) (p : Z) : option Z :=
  if p <? 0 then None else pages pm !! Z.to_nat p.

Lemma page_at_mark pm p t q :
  0 <= p -> page_at (mark p t pm) q =
    if q =? p then (fun o => if o =? PAGE_TYPE_SYSTEM then o else t) <$> page_at pm q else page_at pm q.
Proof.
  intros Hp. unfold page_at, mark. cbn. destruct (Z.ltb_spec q 0); [by destruct (_ =? _)|].
  destruct (Z.eqb_spec q p) as [->|Hne].
  - by rewrite list_lookup_alter_eq.
  - rewrite list_lookup_alter_ne; [done|]. lia.
Qed.

Lemma page_at_total pm p t : pmem_ok pm -> page_at pm p = Some t -> 0 <= p < total_of_pages pm.
Proof.
  intros [Hl Ht Hr _]. unfold page_at. destruct (Z.ltb_spec p 0); [done|]. intros E%lookup_lt_Some.
  pose proof (Z.div_pos (total_memory pm) 4096). lia.
Qed.

Lemma page_at_Some pm p : pmem_ok pm -> 0 <= p < total_of_pages pm ->
  exists t, page_at pm p = Some t /\ pages pm !! Z.to_nat p = Some t.
Proof.
  intros [Hl _ _ _] Hp. unfold page_at. destruct (Z.ltb_spec p 0); [lia|].
  destruct (lookup_lt_is_Some_2 (pages pm) (Z.to_nat p)) as [t Et]; [lia|]. eauto.
Qed.

Lemma mark_ok pm p t :
  t = PAGE_TYPE_FREE \/ t = PAGE_TYPE_SYSTEM \/ t = PAGE_TYPE_USER -> pmem_ok pm -> pmem_ok (mark p t pm).
Proof.
  intros Ht [Hl Htot Hr Hty]. split; cbn; [by rewrite length_alter|done|done|].
  apply Forall_alter; [done|]. intros o _ Ho. by destruct (o =? PAGE_TYPE_SYSTEM).
Qed.

Lemma pmem_eq pm pm' :
  pmem_ok pm -> pmem_ok pm' -> total_memory pm = total_memory pm' ->
  (forall p, 0 <= p -> page_at pm p = page_at pm' p) -> pm = pm'.
Proof.
  intros [_ Ht _ _] [_ Ht' _ _] E Hp. destruct pm as [a b c], pm' as [a' b' c']. cbn in *.
  f_equal; [congruence|done|]. apply list_eq. intros i. specialize (Hp (Z.of_nat i) ltac:(lia)).
  unfold page_at in Hp. destruct (Z.ltb_spec (Z.of_nat i) 0); [lia|]. by rewrite Nat2Z.id in Hp.
Qed.

Lemma total_pages_bound pm : pmem_ok pm -> 0 <= total_of_pages pm < 2 ^ 52.
Proof.
  intros [_ Ht Hr _]. rewrite Ht. split; [apply Z.div_pos; lia|].
  apply Z.div_lt_upper_bound; lia.
Qed.

Lemma PAGE_TO_ADDR_spec p : 0 <= p < 2 ^ 52 -> PAGE_TO_ADDR p = p * 4096.
Proof.
  intros Hp. unfold PAGE_TO_ADDR. rewrite Z.shiftl_mul_pow2 by done.
  change (2 ^ SYSTEM_PAGE_ALIGN) with 4096. apply u64_small. lia.
Qed.

Lemma ADDR_TO_PAGE_spec a : ADDR_TO_PAGE a = a / 4096.
Proof. unfold ADDR_TO_PAGE. by rewrite Z.shiftr_div_pow2. Qed.

Lemma alter_fix {A} (f : A -> A) (i : nat) (l : list A) :
  (forall x, l !! i = Some x -> f x = x) -> alter f i l = l.
Proof.
  intros Hf. apply list_eq. intros j. rewrite list_lookup_alter. destruct (decide (i = j)) as [<-|]; [|done].
  destruct (l !! i) eqn:E; [|done]. cbn. by rewrite Hf.
Qed.

Lemma alter_insert {A} (f : A -> A) (i : nat) (l : list A) x : l !! i = Some x -> alter f i l = <[i := f x]> l.
Proof.
  intros E. apply list_eq. intros j. rewrite list_lookup_alter, list_lookup_insert.
  pose proof (lookup_lt_Some _ _ _ E). destruct (decide (i = j)) as [<-|].
  - rewrite E, decide_True by done. done.
  - rewrite decide_False by naive_solver. done.
Qed.

(** * Specifications *)

Section specs.
Context (s : kstate).
Hypothesis Hok : pmem_ok (pmem s).

Lemma pmem_set_page_spec p t :
  0 <= p -> wp (pmem_set_page p t) (fun r s' =>
    r = (p <? total_of_pages (pmem s)) /\ s' = set_pmem (mark p t (pmem s)) s) s.
Proof.
  intros Hp. unfold pmem_set_page. wstep. wstep. destruct (Z.leb_spec (total_of_pages (pmem s)) p) as [Hge|Hlt].
  - wstep. split; [symmetry; apply Z.ltb_ge; lia|].
    destruct s as [m ls i v pg [tp tm ps] c b]; cbn in *. unfold mark. cbn.
    rewrite alter_fix; [done|]. intros x E%lookup_lt_Some. destruct Hok as [Hl _ _ _]. cbn in Hl. lia.
  - destruct (page_at_Some _ p Hok ltac:(lia)) as (o & _ & Eo).
    assert ((p <? total_of_pages (pmem s)) = true) as -> by (by apply Z.ltb_lt).
    unfold read_page. wstep. wstep. wstep. rewrite Eo. wstep.
    destruct (Z.eqb_spec o PAGE_TYPE_SYSTEM) as [->|Hne]; cbn [negb].
    + do 3 wstep. split; [done|]. destruct s as [m ls i v pg [tp tm ps] c b]; cbn in *.
      unfold mark. cbn. rewrite alter_fix; [done|]. intros x. rewrite Eo. by intros [= <-].
    + unfold write_page. wstep. wstep. wstep. rewrite Eo. wstep. wstep. split; [done|].
      unfold mark. do 2 f_equal. rewrite (alter_insert _ _ _ o) by done.
      by rewrite (proj2 (Z.eqb_neq _ _) Hne).
Qed.

Lemma pmem_next_page_loop_spec t n p :
  0 <= p -> total_of_pages (pmem s) - p = Z.of_nat n ->
  wp (pmem_next_page_loop t n p) (fun r s' => s' = s /\
    ((r = 0 /\ forall q, p <= q -> page_at (pmem s) q <> Some t) \/
     (p <= r < total_of_pages (pmem s) /\ page_at (pmem s) r = Some t /\
      forall q, p <= q < r -> page_at (pmem s) q <> Some t))) s.
Proof.
  revert p. induction n as [|n IH]; intros p Hp Hn; cbn [pmem_next_page_loop].
  - wstep. split; [done|]. left. split; [done|]. intros q Hq E.
    apply page_at_total in E; [lia|done].
  - destruct (page_at_Some _ p Hok ltac:(lia)) as (o & Ep & Eo).
    wstep. unfold read_page. wstep. wstep. rewrite Eo. wstep.
    destruct (Z.eqb_spec o t) as [->|Hne].
    + wstep. split; [done|]. right. split_and!; [lia|lia|done|]. intros q Hq. lia.
    + apply wp_wpx. eapply wp_mono; [apply IH; lia|]. intros r s' [-> Hr]. split; [done|].
      assert (forall q, p = q -> page_at (pmem s) q <> Some t) as Hpq by (intros q <-; congruence).
      destruct Hr as [[-> Hq]|(Hr & Er & Hq)]; [left|right].
      * split; [done|]. intros q Hle. destruct (Z.eq_dec p q); [by apply Hpq|apply Hq; lia].
      * split_and!; [lia|lia|done|]. intros q Hle.
        destruct (Z.eq_dec p q); [by apply Hpq|apply Hq; lia].
Qed.

(** 64 MB, in pages. *)
Definition first_user_page : Z := 16384.

Lemma pmem_allocate_spec :
  wp pmem_allocate (fun r s' =>
    (r = 0 /\ s' = s /\ forall q, first_user_page <= q -> page_at (pmem s) q <> Some PAGE_TYPE_FREE) \/
    (exists p, r = p * 4096 /\ first_user_page <= p < total_of_pages (pmem s) /\
       page_at (pmem s) p = Some PAGE_TYPE_FREE /\
       (forall q, first_user_page <= q < p -> page_at (pmem s) q <> Some PAGE_TYPE_FREE) /\
       s' = set_pmem (mark p PAGE_TYPE_USER (pmem s)) s)) s.
Proof.
  pose proof (total_pages_bound _ Hok) as Hb.
  unfold pmem_allocate, pmem_next_page_available. wstep. wstep. wstep.
  change (ADDR_TO_PAGE (64 * 1024 * 1024)) with 16384.
  destruct (Z.le_gt_cases (total_of_pages (pmem s)) 16384) as [Hsmall|Hbig].
  { replace (Z.to_nat (total_of_pages (pmem s) - 16384)) with O by lia. cbn [pmem_next_page_loop].
    wstep. isnullp 0. wstep. left. split_and!; [done|done|]. intros q Hq E.
    apply page_at_total in E; [unfold first_user_page in Hq; lia|done]. }
  eapply wpx_mono; [apply pmem_next_page_loop_spec; [lia|rewrite Z2Nat.id; lia]| |done].
  intros p s' [-> [[-> Hq]|(Hp & Ep & Hq)]].
  - isnullp 0. wstep. left. done.
  - nonnull p. eapply wpx_call; [apply pmem_set_page_spec; lia|].
    intros r s' [-> ->]. rewrite (proj2 (Z.ltb_lt _ _)) by lia. cbn [negb]. wstep. right.
    exists p. rewrite PAGE_TO_ADDR_spec by lia. done.
Qed.

Lemma pmem_release_spec a :
  0 <= a -> wp (pmem_release a) (fun r s' =>
    if a mod 4096 =? 0
    then r = (a / 4096 <? total_of_pages (pmem s)) /\
         s' = set_pmem (mark (a / 4096) PAGE_TYPE_FREE (pmem s)) s
    else r = false /\ s' = s) s.
Proof.
  intros Ha. unfold pmem_release. change (ALIGN a SYSTEM_PAGE_SIZE) with (MEM_ALIGN a).
  destruct (Z.eqb_spec (MEM_ALIGN a) a) as [Hal|Hal]; cbn [negb]; rewrite MEM_ALIGN_fix in Hal.
  - rewrite (proj2 (Z.eqb_eq _ _) Hal), ADDR_TO_PAGE_spec. apply pmem_set_page_spec.
    apply Z.div_pos; lia.
  - rewrite (proj2 (Z.eqb_neq _ _) Hal). by wstep.
Qed.
End specs.

(** Marking [n] pages from [p] on. *)
Fixpoint mark_many (n : nat) (p t : Z) (pm : pmem_t) : pmem_t :=
  match n with O => pm | S n' => mark_many n' (p + 1) t (mark p t pm) end.

Lemma mark_many_ok n p t pm :
  t = PAGE_TYPE_FREE \/ t = PAGE_TYPE_SYSTEM \/ t = PAGE_TYPE_USER -> pmem_ok pm ->
  pmem_ok (mark_many n p t pm).
Proof. intros Ht. revert p pm. induction n; intros p pm Hok; cbn; auto using mark_ok. Qed.

Lemma page_at_mark_many n p t pm q :
  0 <= p -> page_at (mark_many n p t pm) q =
    if (p <=? q) && (q <? p + Z.of_nat n)
    then (fun o => if o =? PAGE_TYPE_SYSTEM then o else t) <$> page_at pm q else page_at pm q.
Proof.
  revert p pm. induction n as [|n IH]; intros p pm Hp; cbn [mark_many].
  { destruct (Z.leb_spec p q), (Z.ltb_spec q (p + Z.of_nat 0)); cbn; done || lia. }
  rewrite IH, page_at_mark by lia.
  destruct (Z.eqb_spec q p), (Z.leb_spec (p + 1) q), (Z.ltb_spec q (p + 1 + Z.of_nat n)),
    (Z.leb_spec p q), (Z.ltb_spec q (p + Z.of_nat (S n))); cbn; done || lia.
Qed.

Lemma pmem_set_as_system_loop_spec n p s :
  0 <= p -> pmem_ok (pmem s) ->
  wp (pmem_set_as_system_loop n p)
    (fun _ s' => s' = set_pmem (mark_many n p PAGE_TYPE_SYSTEM (pmem s)) s) s.
Proof.
  revert p s. induction n as [|n IH]; intros p s Hp Hok; cbn [pmem_set_as_system_loop].
  { wstep. by destruct s. }
  eapply wp_call; [by apply pmem_set_page_spec|]. intros r s' [_ ->].
  eapply wp_mono; [apply IH; [lia|]|].
  - cbn. apply mark_ok; auto.
  - by intros _ s' ->.
Qed.

(** Pages from the one of [addr] to the one of [addr + total], inclusive. *)
Definition system_span (addr total : Z) : nat := Z.to_nat ((addr + total) / 4096 - addr / 4096 + 1).

Lemma pmem_set_as_system_spec addr total s :
  pmem_ok (pmem s) -> 0 <= addr -> 0 <= total -> addr + total < 2 ^ 64 ->
  wp (pmem_set_as_system addr total) (fun r s' => r = true /\
    s' = set_pmem (mark_many (system_span addr total) (addr / 4096) PAGE_TYPE_SYSTEM (pmem s)) s) s.
Proof.
  intros Hok Ha Ht Hs. unfold pmem_set_as_system. rewrite u64_small, !ADDR_TO_PAGE_spec by lia.
  eapply wp_call; [apply pmem_set_as_system_loop_spec; [apply Z.div_pos; lia|done]|].
  intros _ s' ->. by wstep.
Qed.

Lemma pmem_initialize_loop_spec n p s k :
  pages (pmem s) = replicate k 0 -> 0 <= p -> (Z.to_nat p + n)%nat = k ->
  wp (pmem_initialize_loop n p) (fun _ s' => s' = s) s.
Proof.
  revert p. induction n as [|n IH]; intros p Hpg Hp Hk; cbn [pmem_initialize_loop]; [by wstep|].
  wstep. unfold write_page. wstep. wstep. rewrite Hpg, lookup_replicate_2 by lia. wstep.
  rewrite insert_replicate, <- Hpg.
  assert (set_pmem (mk_pmem (total_of_pages (pmem s)) (total_memory (pmem s)) (pages (pmem s))) s = s)
    as -> by (by destruct s as [? ? ? ? ? [] ? ?]).
  apply IH; [done|lia|lia].
Qed.

Lemma pmem_initialize_spec `{K : Kalloc} `{!GoodAlloc K} t s :
  alloc_ok (mem s) -> 0 <= t < 2 ^ 64 -> t / 4096 <= avail s ->
  wp (pmem_initialize t) (fun r s' => r = true /\ exists m',
    s' = set_pmem (mk_pmem (t / 4096) t (replicate (Z.to_nat (t / 4096)) PAGE_TYPE_FREE)) (set_mem m' s) /\
    quiet (t / 4096) (mem s) m') s.
Proof.
  intros Hok Ht Ha. unfold pmem_initialize. change SYSTEM_PAGE_SIZE with 4096.
  pose proof (Z.div_pos t 4096 ltac:(lia) ltac:(lia)). rewrite Z.mul_1_l.
  wstep. wstep. eapply wpx_call; [apply wp_kalloc; [done|]|].
  { change (avail _) with (avail s). lia. }
  intros p s' (-> & m' & -> & Hq & _). cbn in Hq |- *. pose proof (heap_top_pos _ Hok).
  wstep. wstep. nonnull (heap_top (mem s)).
  eapply wpx_call; [eapply pmem_initialize_loop_spec; [done|done|lia]|].
  intros _ s' ->. wstep. split; [done|]. by exists m'.
Qed.

(** * Sequences of operations *)

Inductive pop := PAllocate | PRelease (addr : Z) | PSetAsSystem (addr total : Z).

Definition pop_ok (op : pop) : Prop :=
  match op with
  | PAllocate => True
  | PRelease a => 0 <= a < 2 ^ 64
  | PSetAsSystem a n => 0 <= a /\ 0 <= n /\ a + n < 2 ^ 64
  end.

(** [held]: the addresses handed out and not given back. *)
Definition exec_pop (op : pop) (held : list Z) : M (list Z) :=
  match op with
  | PAllocate => a ← pmem_allocate; mret (if isnull a then held else a :: held)
  | PRelease a => ok ← pmem_release a; mret (if ok : bool then filter (fun x => x <> a) held else held)
  | PSetAsSystem a n => pmem_set_as_system a n;; mret held
  end.

Fixpoint exec_pops (ops : list pop) (held : list Z) : M (list Z) :=
  match ops with
  | [] => mret held
  | op :: ops' => held' ← exec_pop op held; exec_pops ops' held'
  end.

(** Every held address is that of a page of memory above 64 MB that is not free,
    and no address is held twice. *)
Definition held_ok (pm : pmem_t) (held : list Z) : Prop :=
  NoDup held /\ Forall (fun a => a mod 4096 = 0 /\ 67108864 <= a < total_memory pm /\
    exists t, page_at pm (a / 4096) = Some t /\ t <> PAGE_TYPE_FREE) held.

(** Memory keeps its size and its system pages. *)
Definition system_kept (pm pm' : pmem_t) : Prop :=
  total_memory pm' = total_memory pm /\
  forall p, page_at pm p = Some PAGE_TYPE_SYSTEM -> page_at pm' p = Some PAGE_TYPE_SYSTEM.

Lemma mark_many_kept n p t pm : 0 <= p -> system_kept pm (mark_many n p t pm).
Proof.
  intros Hp. split.
  - revert p pm Hp. induction n as [|n IH]; intros p pm Hp; cbn; [done|]. rewrite IH by lia. done.
  - intros q E. rewrite page_at_mark_many, E by done. by destruct (_ && _).
Qed.

Lemma page_of_addr p : p * 4096 / 4096 = p.
Proof. apply Z.div_mul. lia. Qed.

Lemma held_ok_mono pm pm' held held' :
  held' `sublist_of` held -> total_memory pm' = total_memory pm ->
  (forall a t, a ∈ held' -> page_at pm (a / 4096) = Some t -> t <> PAGE_TYPE_FREE ->
     exists t', page_at pm' (a / 4096) = Some t' /\ t' <> PAGE_TYPE_FREE) ->
  held_ok pm held -> held_ok pm' held'.
Proof.
  intros Hsub Ht Hpg [Hnd Hf]. split; [by eapply sublist_NoDup|].
  apply Forall_forall. intros a Ha. rewrite Forall_forall in Hf.
  destruct (Hf a) as (? & ? & t & Et & Hne).
  { eapply elem_of_submseteq; [done|]. by apply sublist_submseteq. }
  rewrite Ht. split_and!; [done|lia|lia|]. by eapply Hpg.
Qed.

Lemma exec_pop_inv op held s :
  pmem_ok (pmem s) -> held_ok (pmem s) held -> pop_ok op ->
  wp (exec_pop op held) (fun held' s' => exists pm', s' = set_pmem pm' s /\
    pmem_ok pm' /\ held_ok pm' held' /\ system_kept (pmem s) pm') s.
Proof.
  intros Hok Hh Hop. destruct op as [|a|a n]; cbn [exec_pop].
  - eapply wp_call; [by apply pmem_allocate_spec|].
    intros r s' [(-> & -> & _)|(p & -> & Hp & Ep & _ & ->)]; unfold first_user_page in *.
    { isnullp 0. wstep. exists (pmem s). split; [by destruct s|]. split_and!; try done. }
    nonnull (p * 4096). wstep. eexists. split; [done|]. split_and!.
    + apply mark_ok; auto.
    + destruct Hh as [Hnd Hf]. split.
      * apply NoDup_cons. split; [|done]. intros Hin. rewrite Forall_forall in Hf.
        destruct (Hf _ Hin) as (_ & _ & t & Et & Hne). rewrite page_of_addr in Et. congruence.
      * apply Forall_cons. split.
        -- split_and!; [apply Z.mod_mul; lia|lia| |].
           { cbn. destruct Hok as [_ Ht Hr _]. pose proof (Z.mul_div_le (total_memory (pmem s)) 4096). lia. }
           exists PAGE_TYPE_USER. rewrite page_of_addr, page_at_mark, Z.eqb_refl, Ep by lia. done.
        -- eapply Forall_impl; [exact Hf|]. cbn. intros b (? & ? & t & Et & Hne). split_and!; try done; try lia.
           rewrite page_at_mark, Et by lia. cbn. destruct (_ =? p); [|by eauto].
           eexists. split; [done|]. by destruct (t =? PAGE_TYPE_SYSTEM) eqn:E; zbool.
    + apply (mark_many_kept 1). lia.
  - eapply wp_call; [apply pmem_release_spec; [done|cbn in Hop; lia]|].
    intros r s'. destruct (Z.eqb_spec (a mod 4096) 0) as [Hal|Hal].
    2:{ intros [-> ->]. wstep. exists (pmem s). split; [by destruct s|]. split_and!; try done. }
    intros [-> ->]. wstep. eexists. split; [done|]. cbn in Hop.
    assert (0 <= a / 4096) as Hpa by (apply Z.div_pos; lia).
    assert (forall b t, b ∈ held -> b <> a -> page_at (pmem s) (b / 4096) = Some t ->
      page_at (mark (a / 4096) PAGE_TYPE_FREE (pmem s)) (b / 4096) = Some t) as Hoth.
    { intros b t Hb Hne Et. rewrite page_at_mark by done.
      destruct (Z.eqb_spec (b / 4096) (a / 4096)) as [E|]; [|done]. destruct Hne.
      destruct Hh as [_ Hf]. rewrite Forall_forall in Hf. destruct (Hf _ Hb) as [Hm _].
      rewrite (Z.div_mod b 4096), (Z.div_mod a 4096), Hm, Hal, E by lia. done. }
    split_and!; [apply mark_ok; auto| |by apply (mark_many_kept 1)].
    destruct (Z.ltb_spec (a / 4096) (total_of_pages (pmem s))) as [Hlt|Hge].
    + eapply (held_ok_mono (pmem s) _ held); [apply sublist_filter|done| |done].
      intros b t [Hne Hb]%list_elem_of_filter Et Ht. exists t. split; [by eapply Hoth|done].
    + eapply (held_ok_mono (pmem s) _ held); [done|done| |done]. intros b t Hb Et Ht. exists t. split; [|done].
      apply Hoth; [done| |done]. intros ->. apply page_at_total in Et; [lia|done].
  - destruct Hop as (Ha & Hn & Hs). eapply wp_call; [by apply pmem_set_as_system_spec|].
    intros r s' [_ ->]. wstep. eexists. split; [done|].
    assert (0 <= a / 4096) as Hpa by (apply Z.div_pos; lia).
    split_and!; [apply mark_many_ok; auto| |by apply mark_many_kept].
    eapply (held_ok_mono (pmem s) _ held); [done|by apply mark_many_kept| |done]. intros b t Hb Et Ht.
    rewrite page_at_mark_many, Et by done. destruct (_ && _); [|by eauto]. cbn.
    eexists. split; [done|]. by destruct (t =? PAGE_TYPE_SYSTEM) eqn:E; zbool.
Qed.

Lemma exec_pops_inv ops held s :
  pmem_ok (pmem s) -> held_ok (pmem s) held -> Forall pop_ok ops ->
  wp (exec_pops ops held) (fun held' s' => exists pm', s' = set_pmem pm' s /\
    pmem_ok pm' /\ held_ok pm' held' /\ system_kept (pmem s) pm') s.
Proof.
  revert held s. induction ops as [|op ops IH]; intros held s Hok Hh Hops; cbn [exec_pops].
  { wstep. exists (pmem s). split; [by destruct s|]. split_and!; try done. }
  apply Forall_cons in Hops as [Hop Hops].
  eapply wp_call; [by apply exec_pop_inv|]. intros h1 s1 (pm1 & -> & Hok1 & Hh1 & Hk1).
  eapply wp_mono; [by apply IH|]. intros h2 s2 (pm2 & -> & Hok2 & Hh2 & Hk2). exists pm2.
  split; [done|]. split; [done|]. split; [done|]. destruct Hk1 as [T1 K1], Hk2 as [T2 K2].
  split; [cbn in *; congruence|]. auto.
Qed.

(** * Claims *)

(** C3: no physical page is handed out twice.  Whatever sequence of allocations,
    releases and system reservations runs, it does not fault, and the addresses
    handed out and not given back are pairwise distinct pages of physical memory
    above 64 MB, none of which is free; a page that was a system page at the
    start is one at the end. *)
Theorem pmem_no_double_allocation ops held s :
  pmem_ok (pmem s) -> held_ok (pmem s) held -> Forall pop_ok ops ->
  exists held' pm', exec_pops ops held s = Ret held' (set_pmem pm' s) /\
    pmem_ok pm' /\ held_ok pm' held' /\ system_kept (pmem s) pm'.
Proof.
  intros H1 H2 H3. destruct (wp_inv _ _ _ (exec_pops_inv ops held s H1 H2 H3))
    as (held' & s' & E & pm' & -> & ?). eauto.
Qed.

(** 64 MB and three pages, the page at 64 MB reserved. *)
Definition s_pages : kstate :=
  set_pmem (mk_pmem 16387 67121152 (replicate (Z.to_nat 16384) 0 ++ [1; 0; 0])) state0.

Lemma s_pages_ok : pmem_ok (pmem s_pages).
Proof.
  split; [by vm_compute|by vm_compute|vm_compute; split; congruence|].
  cbn [s_pages pmem set_pmem pages]. apply Forall_app. split.
  - apply Forall_replicate. by left.
  - unfold PAGE_TYPE_FREE, PAGE_TYPE_SYSTEM. repeat (apply Forall_cons; split; [lia|]). constructor.
Qed.

Lemma pmem_no_double_allocation_witness :
  exists held' pm', exec_pops [PAllocate; PAllocate; PRelease 67112960; PAllocate; PAllocate] [] s_pages
      = Ret held' (set_pmem pm' s_pages) /\
    pmem_ok pm' /\ held_ok pm' held' /\ system_kept (pmem s_pages) pm'.
Proof.
  apply (pmem_no_double_allocation
    [PAllocate; PAllocate; PRelease 67112960; PAllocate; PAllocate] [] s_pages).
  - exact s_pages_ok.
  - split; constructor.
  - repeat constructor; cbn; lia.
Defined.

Example s_pages_allocations :
  result (exec_pops [PAllocate; PAllocate; PRelease 67112960; PAllocate; PAllocate] []) s_pages
    = Some [67112960; 67117056].
Proof. vm_compute. reflexivity. Qed.

(** C17: [pmem_allocate] is first fit.  It returns the address of the lowest free
    page at or above 64 MB and makes exactly that page a user page; it returns 0
    and changes nothing exactly when there is no such page. *)
Theorem pmem_allocate_first_fit s :
  pmem_ok (pmem s) ->
  exists r pm', pmem_allocate s = Ret r (set_pmem pm' s) /\ pmem_ok pm' /\
    ((r = 0 /\ pm' = pmem s /\ forall q, 16384 <= q -> page_at (pmem s) q <> Some PAGE_TYPE_FREE) \/
     (exists p, r = p * 4096 /\ 16384 <= p < total_of_pages (pmem s) /\
        page_at (pmem s) p = Some PAGE_TYPE_FREE /\
        (forall q, 16384 <= q < p -> page_at (pmem s) q <> Some PAGE_TYPE_FREE) /\
        (forall q, page_at pm' q = if q =? p then Some PAGE_TYPE_USER else page_at (pmem s) q))).
Proof.
  intros Hok. destruct (wp_inv _ _ _ (pmem_allocate_spec s Hok))
    as (r & s' & E & [(-> & -> & Hq)|(p & -> & Hp & Ep & Hq & ->)]).
  - exists 0, (pmem s). split; [rewrite E; by destruct s|]. eauto.
  - unfold first_user_page in Hp. eexists _, _. split; [exact E|].
    split; [apply mark_ok; auto|]. right. exists p. split_and!; try done; try lia.
    intros q. rewrite page_at_mark by lia.
    destruct (Z.eqb_spec q p) as [->|]; [|done]. by rewrite Ep.
Qed.

Lemma pmem_allocate_first_fit_witness :
  exists r pm', pmem_allocate s_pages = Ret r (set_pmem pm' s_pages) /\ pmem_ok pm' /\
    ((r = 0 /\ pm' = pmem s_pages /\
        forall q, 16384 <= q -> page_at (pmem s_pages) q <> Some PAGE_TYPE_FREE) \/
     (exists p, r = p * 4096 /\ 16384 <= p < 16387 /\
        page_at (pmem s_pages) p = Some PAGE_TYPE_FREE /\
        (forall q, 16384 <= q < p -> page_at (pmem s_pages) q <> Some PAGE_TYPE_FREE) /\
        (forall q, page_at pm' q = if q =? p then Some PAGE_TYPE_USER else page_at (pmem s_pages) q))).
Proof. apply (pmem_allocate_first_fit s_pages s_pages_ok). Defined.

(** [pmem_set_as_system addr total] reserves exactly the pages from the one
    of [addr] to the one of [addr + total], that last one included: when the
    range ends on a page boundary the page after it is reserved too. *)
Theorem pmem_set_as_system_span addr total s :
  pmem_ok (pmem s) -> 0 <= addr -> 0 <= total -> addr + total < 2 ^ 64 ->
  exists pm', pmem_set_as_system addr total s = Ret true (set_pmem pm' s) /\ pmem_ok pm' /\
    forall q, page_at pm' q =
      if (addr / 4096 <=? q) && (q <=? (addr + total) / 4096)
      then (fun _ => PAGE_TYPE_SYSTEM) <$> page_at (pmem s) q else page_at (pmem s) q.
Proof.
  intros Hok Ha Ht Hs. destruct (wp_inv _ _ _ (pmem_set_as_system_spec addr total s Hok Ha Ht Hs))
    as (r & s' & E & -> & ->).
  eexists. split; [exact E|]. split; [apply mark_many_ok; auto|]. intros q.
  rewrite page_at_mark_many by (apply Z.div_pos; lia). unfold system_span.
  assert (addr / 4096 <= (addr + total) / 4096) by (apply Z.div_le_mono; lia).
  rewrite Z2Nat.id by lia.
  destruct (Z.leb_spec (addr / 4096) q), (Z.leb_spec q ((addr + total) / 4096)),
    (Z.ltb_spec q (addr / 4096 + ((addr + total) / 4096 - addr / 4096 + 1)));
    cbn; try lia; [|done|done].
  destruct (page_at (pmem s) q) as [o|]; [|done]. cbn. by destruct (o =? PAGE_TYPE_SYSTEM) eqn:Eo; zbool; subst.
Qed.

Lemma pmem_set_as_system_span_witness :
  exists pm', pmem_set_as_system 67108864 4096 s_pages = Ret true (set_pmem pm' s_pages) /\ pmem_ok pm' /\
    forall q, page_at pm' q =
      if (16384 <=? q) && (q <=? 16385)
      then (fun _ => PAGE_TYPE_SYSTEM) <$> page_at (pmem s_pages) q else page_at (pmem s_pages) q.
Proof. apply (pmem_set_as_system_span 67108864 4096 s_pages s_pages_ok); done. Defined.
