(* ===== verification/NativeVmem.v ===== *)
(** core/hal/native_vmem.h and the permission bits of core/types.h: the
    interface between the virtual memory services and the hardware layer.

    The operations are a class; NativePaging.v is its x86_64 implementation. *)
From S2P Require Import Prelude Machine.

(** * core/types.h *)
Definition SET_BIT (x y : Z) : Z := Z.lor x (Z.shiftl 1 y).
Definition CLEAR_BIT (x y : Z) : Z := Z.land x (Z.lnot (Z.shiftl 1 y)).
Definition READ_BIT (x y : Z) : bool := negb (Z.land x (Z.shiftl 1 y) =? 0).
Definition TOGGLE_BIT (x y : Z) : Z := Z.lxor x (Z.shiftl 1 y).

(** [permission_t] is a [uint8_t]. *)
Definition PERM_SET (p y : Z) (v : bool) : Z := u8 (if v then SET_BIT p y else CLEAR_BIT p y).
Definition PERM_IS_READ (p : Z) : bool := READ_BIT p 0.
Definition PERM_IS_WRITE (p : Z) : bool := READ_BIT p 1.
Definition PERM_IS_EXEC (p : Z) : bool := READ_BIT p 2.
Definition PERM_IS_KERNEL_MODE (p : Z) : bool := READ_BIT p 3.
Definition PERM_SET_READ (p : Z) (v : bool) : Z := PERM_SET p 0 v.
Definition PERM_SET_WRITE (p : Z) (v : bool) : Z := PERM_SET p 1 v.
Definition PERM_SET_EXEC (p : Z) (v : bool) : Z := PERM_SET p 2 v.
Definition PERM_SET_KERNEL_MODE (p : Z) (v : bool) : Z := PERM_SET p 3 v.

(** * core/hal/native_vmem.h *)
Record page_map_entry_t := mk_pme {
  pme_virtual_addr : Z; pme_physical_addr : Z; pme_size : Z; pme_permission : Z; pme_present : bool }.

(** [vmem_t*] arguments are addresses of [vmem_t] structs. *)
Class NativeVmem := {
  native_vmem_create : Z -> M bool;
  native_vmem_set : Z -> page_map_entry_t -> M bool;
  native_vmem_switch : Z -> M unit;
  native_vmem_flush : M unit }.

(** ** Bits *)
Lemma READ_BIT_testbit x y : 0 <= y -> READ_BIT x y = Z.testbit x y.
Proof.
  intros Hy. unfold READ_BIT. rewrite Z.shiftl_1_l.
  destruct (Z.testbit x y) eqn:E.
  - apply negb_true_iff, Z.eqb_neq. intros H0.
    assert (Z.testbit (Z.land x (2 ^ y)) y = true) as Ht.
    { by rewrite Z.land_spec, E, Z.pow2_bits_true. }
    by rewrite H0, Z.bits_0 in Ht.
  - apply negb_false_iff, Z.eqb_eq, Z.bits_inj'. intros i Hi.
    rewrite Z.land_spec, Z.pow2_bits_eqb, Z.bits_0 by done.
    destruct (Z.eqb_spec y i) as [->|]; [by rewrite E|by rewrite andb_false_r].
Qed.

(** A permission bit reads back what was set, and the others keep their value. *)
Lemma READ_PERM_SET p x y v :
  0 <= x < 8 -> 0 <= y < 8 -> READ_BIT (PERM_SET p y v) x = if x =? y then v else READ_BIT p x.
Proof.
  intros Hx Hy. rewrite !READ_BIT_testbit by lia. unfold PERM_SET, u8.
  rewrite Z.mod_pow2_bits_low by lia. unfold SET_BIT, CLEAR_BIT. rewrite Z.shiftl_1_l.
  destruct v.
  - rewrite Z.lor_spec, Z.pow2_bits_eqb by lia. rewrite (Z.eqb_sym y x).
    destruct (x =? y); [apply orb_true_r|apply orb_false_r].
  - rewrite Z.land_spec, Z.lnot_spec, Z.pow2_bits_eqb by lia. rewrite (Z.eqb_sym y x).
    destruct (x =? y); [apply andb_false_r|apply andb_true_r].
Qed.
