(* ===== verification/PageTable.v ===== *)
(** Page tables of x86_64, as data in physical memory.

    [page_entry_t] is the bit-field struct of x86_64/native_pagging.h with its
    64-bit encoding; [walk] is the translation the processor performs with the
    four levels of tables that start at the address in CR3; [tables_ok] says
    that a set of tables in memory forms one tree per address space.  The lemmas
    say what changing one entry does to every translation. *)
From S2P Require Import Prelude Machine.

(** * Bit fields *)

(** Fields packed from the low bits on: [ws] are the widths, [vs] the values. *)
Fixpoint pack (ws vs : list Z) : Z :=
  match ws, vs with
  | w :: ws', v :: vs' => v + 2 ^ w * pack ws' vs'
  | _, _ => 0
  end.

Fixpoint unpack (ws : list Z) (x : Z) : list Z :=
  match ws with
  | [] => []
  | w :: ws' => x mod 2 ^ w :: unpack ws' (x / 2 ^ w)
  end.

Definition fits (w v : Z) : Prop := 0 <= w /\ 0 <= v < 2 ^ w.

Lemma unpack_pack ws vs : Forall2 fits ws vs -> unpack ws (pack ws vs) = vs.
Proof.
  induction 1 as [|w v ws vs [Hw Hv] _ IH]; [done|]. cbn.
  rewrite (Z.mul_comm (2 ^ w)), Z_mod_plus_full, Z.mod_small by done.
  by rewrite Z.div_add, Z.div_small, Z.add_0_l, IH by lia.
Qed.

Definition total_width (ws : list Z) : Z := foldr Z.add 0 ws.

Lemma total_width_nonneg ws : Forall (fun w => 0 <= w) ws -> 0 <= total_width ws.
Proof. induction 1; cbn in *; [done|]. unfold total_width in *. lia. Qed.

Lemma pack_unpack ws x :
  Forall (fun w => 0 <= w) ws -> 0 <= x < 2 ^ total_width ws -> pack ws (unpack ws x) = x.
Proof.
  intros Hws. revert x. induction Hws as [|w ws Hw Hws IH]; intros x Hx; cbn in *; [lia|].
  pose proof (total_width_nonneg _ Hws). unfold total_width in *.
  assert (0 < 2 ^ w) by lia. rewrite Z.pow_add_r in Hx by lia.
  rewrite IH; [pose proof (Z.div_mod x (2 ^ w)); lia|].
  split; [apply Z.div_pos; lia|]. apply Z.div_lt_upper_bound; lia.
Qed.

Lemma pack_range ws vs : Forall2 fits ws vs -> 0 <= pack ws vs < 2 ^ total_width ws.
Proof.
  induction 1 as [|w v ws vs [Hw Hv] Hf IH]; cbn; [lia|].
  assert (0 <= total_width ws).
  { apply total_width_nonneg. clear IH. induction Hf as [|? ? ? ? []]; constructor; auto. }
  unfold total_width in *. rewrite Z.pow_add_r by lia. nia.
Qed.

Lemma unpack_fits ws x : Forall (fun w => 0 <= w) ws -> Forall2 fits ws (unpack ws x).
Proof.
  intros Hws. revert x. induction Hws as [|w ws Hw _ IH]; intros x; constructor; [|done].
  split; [done|]. apply Z.mod_pos_bound. lia.
Qed.

(** A field of type [bool]. *)
Definition z2b (x : Z) : bool := negb (x =? 0).

Lemma z2b_b2z b : z2b (Z.b2z b) = b.
Proof. by destruct b. Qed.

Lemma b2z_z2b x : 0 <= x < 2 -> Z.b2z (z2b x) = x.
Proof. intros Hx. assert (x = 0 \/ x = 1) as [->| ->] by lia; done. Qed.

Lemma fits_b2z b : fits 1 (Z.b2z b).
Proof. destruct b; split; cbn; lia. Qed.

(** * Page entries *)

Record page_entry_t := mk_pe {
  present : bool; writable : bool; user : bool; write_through : bool;
  cache_disable : bool; accessed : bool; dirty : bool; entry_or_pat : bool;
  pe_ignored4 : Z; addr_12_shifted : Z; pe_ignored3 : Z; executeDisable : bool }.

Definition page_entry_widths : list Z := [1; 1; 1; 1; 1; 1; 1; 1; 4; 48; 3; 1].

Definition encode (e : page_entry_t) : Z :=
  pack page_entry_widths
    [Z.b2z (present e); Z.b2z (writable e); Z.b2z (user e); Z.b2z (write_through e);
     Z.b2z (cache_disable e); Z.b2z (accessed e); Z.b2z (dirty e); Z.b2z (entry_or_pat e);
     pe_ignored4 e; addr_12_shifted e; pe_ignored3 e; Z.b2z (executeDisable e)].

Definition decode (x : Z) : page_entry_t :=
  match unpack page_entry_widths x with
  | [p; w; u; wt; cd; a; d; ps; i4; ad; i3; xd] =>
      mk_pe (z2b p) (z2b w) (z2b u) (z2b wt) (z2b cd) (z2b a) (z2b d) (z2b ps) i4 ad i3 (z2b xd)
  | _ => mk_pe false false false false false false false false 0 0 0 false
  end.

Definition entry_fits (e : page_entry_t) : Prop :=
  fits 4 (pe_ignored4 e) /\ fits 48 (addr_12_shifted e) /\ fits 3 (pe_ignored3 e).

(** Every value fits its width: flags do, other fields by hypothesis. *)
Ltac fits_all :=
  repeat (apply Forall2_cons; split; [first [apply fits_b2z | assumption]|]); apply Forall2_nil; done.

Lemma decode_encode_fits e : entry_fits e -> decode (encode e) = e.
Proof.
  intros (H4 & Ha & H3). unfold decode, encode. rewrite unpack_pack.
  - rewrite !z2b_b2z. by destruct e.
  - unfold page_entry_widths. fits_all.
Qed.

Lemma encode_range e : entry_fits e -> 0 <= encode e < 2 ^ 64.
Proof.
  intros (H4 & Ha & H3). change (2 ^ 64) with (2 ^ total_width page_entry_widths).
  apply pack_range. unfold page_entry_widths. fits_all.
Qed.

Lemma decode_fits x : entry_fits (decode x).
Proof.
  unfold entry_fits, decode. cbn [unpack page_entry_widths].
  cbn [pe_ignored4 addr_12_shifted pe_ignored3].
  split_and!; (split; [lia|apply Z.mod_pos_bound; lia]).
Qed.

Lemma encode_decode_word x : 0 <= x < 2 ^ 64 -> encode (decode x) = x.
Proof.
  intros Hx. unfold encode, decode. cbn [unpack page_entry_widths].
  cbn [present writable user write_through cache_disable accessed dirty entry_or_pat
    pe_ignored4 addr_12_shifted pe_ignored3 executeDisable].
  rewrite !b2z_z2b by (apply Z.mod_pos_bound; lia).
  apply (pack_unpack page_entry_widths); [repeat constructor; lia|exact Hx].
Qed.

Lemma decode_zero : decode 0 = mk_pe false false false false false false false false 0 0 0 false.
Proof. done. Qed.

(** * Words in memory *)

Lemma load64_store64 m a v : load64 (store64 m a v) a = u64 v.
Proof.
  unfold load64. rewrite (le_load_ext _ (fun i => byte_of v (i - a + 0))).
  - rewrite le_load_bytes by lia. change (2 ^ (8 * 0)) with 1. by rewrite Z.div_1_r.
  - intros i Hi. unfold store64. rewrite (proj2 (Z.leb_le _ _)), (proj2 (Z.ltb_lt _ _)) by lia.
    cbn. f_equal. lia.
Qed.

Lemma load64_store64_ne m a b v : b + 8 <= a \/ a + 8 <= b -> load64 (store64 m a v) b = load64 m b.
Proof.
  intros Hne. apply le_load_ext. intros i Hi. unfold store64.
  destruct (Z.leb_spec a i), (Z.ltb_spec i (a + 8)); cbn; done || lia.
Qed.

Lemma load64_ext m m' a : (forall i, a <= i < a + 8 -> m' i = m i) -> load64 m' a = load64 m a.
Proof. intros H. apply le_load_ext. intros i Hi. apply H. lia. Qed.

Lemma load64_zero m a : (forall i, a <= i < a + 8 -> m i = 0) -> load64 m a = 0.
Proof.
  intros Hz. unfold load64. rewrite (le_load_ext _ (fun _ => 0)); [done|].
  intros i Hi. apply Hz. lia.
Qed.

(** Entry [i] of the table at [b]. *)
Definition entry_addr (b i : Z) : Z := b + 8 * i.
Definition entry_at (m : Z -> Z) (b i : Z) : page_entry_t := decode (load64 m (entry_addr b i)).

Lemma entry_at_fits m b i : entry_fits (entry_at m b i).
Proof. apply decode_fits. Qed.

Lemma entry_at_addr m b i : 0 <= addr_12_shifted (entry_at m b i).
Proof. destruct (entry_at_fits m b i) as (_ & [_ [H _]] & _). exact H. Qed.

(** Entries of aligned tables are the same or do not overlap. *)
Lemma entry_addr_disjoint b c i j :
  b mod 4096 = 0 -> c mod 4096 = 0 -> 0 <= i < 512 -> 0 <= j < 512 -> (b, i) <> (c, j) ->
  entry_addr c j + 8 <= entry_addr b i \/ entry_addr b i + 8 <= entry_addr c j.
Proof.
  unfold entry_addr. intros Hb Hc Hi Hj Hne.
  pose proof (Z.div_mod b 4096). pose proof (Z.div_mod c 4096).
  destruct (Z.eq_dec b c) as [->|]; [|lia].
  destruct (Z.eq_dec i j) as [->|]; [done|lia].
Qed.

(** * Translation *)

(** The part of a virtual address that selects a table of level [l] (1 to 4),
    and the index into it. *)
Definition level_bits (l : nat) : Z := 12 + 9 * Z.of_nat l.
Definition prefix (l : nat) (va : Z) : Z := va / 2 ^ level_bits l.
Definition vindex (l : nat) (va : Z) : Z := prefix (l - 1) va mod 512.

(** Bits 12 to 51 of an entry: the frame of the next table or of the page. *)
Definition frame (e : page_entry_t) : Z := addr_12_shifted e mod 2 ^ 40 * 4096.

(** The processor's walk from the table [b] of level [l].  An entry of level 2
    or 3 with bit 7 set maps a large page; in level 4 the bit is reserved. *)
Fixpoint walk (m : Z -> Z) (l : nat) (b va : Z) : option Z :=
  match l with
  | O => None
  | S l' =>
      let e := entry_at m b (vindex l va) in
      if negb (present e) then None
      else match l' with
           | O => Some (frame e + va mod 4096)
           | S _ =>
               if entry_or_pat e then
                 if (4 <=? Z.of_nat l) then None
                 else Some (frame e / 2 ^ level_bits l' * 2 ^ level_bits l' + va mod 2 ^ level_bits l')
               else walk m l' (frame e) va
           end
  end.

Lemma walk_absent m l b va :
  present (entry_at m b (vindex (S l) va)) = false -> walk m (S l) b va = None.
Proof. intros E. cbn [walk]. by rewrite E. Qed.

Lemma vindex_range l va : 0 <= vindex l va < 512.
Proof. apply Z.mod_pos_bound. lia. Qed.

Lemma prefix_S l va : prefix l va = prefix (S l) va * 512 + vindex (S l) va.
Proof.
  unfold vindex. replace (S l - 1)%nat with l by lia.
  assert (prefix (S l) va = prefix l va / 512) as ->.
  { unfold prefix, level_bits. rewrite Z.div_div by lia. f_equal.
    change 512 with (2 ^ 9). rewrite <- Z.pow_add_r by lia. f_equal. lia. }
  pose proof (Z.div_mod (prefix l va) 512). lia.
Qed.

Lemma prefix_0 va : prefix 0 va = va / 4096.
Proof. done. Qed.

Lemma prefix_4 va : 0 <= va < 2 ^ 48 -> prefix 4 va = 0.
Proof. intros. apply Z.div_small. done. Qed.

(** Addresses with the same prefix have the same prefixes above. *)
Lemma prefix_up l k va va' : prefix l va = prefix l va' -> prefix (l + k) va = prefix (l + k) va'.
Proof.
  intros E. induction k as [|k IH]; [by rewrite Nat.add_0_r|].
  replace (l + S k)%nat with (S (l + k)) by lia.
  pose proof (prefix_S (l + k) va). pose proof (prefix_S (l + k) va').
  pose proof (vindex_range (S (l + k)) va). pose proof (vindex_range (S (l + k)) va'). lia.
Qed.

Lemma frame_small e : 0 <= addr_12_shifted e < 2 ^ 40 -> frame e = addr_12_shifted e * 4096.
Proof. intros. unfold frame. by rewrite Z.mod_small. Qed.

(** * Trees of tables *)

(** The root of the address space a table belongs to, its level, and the
    prefix of the addresses translated through it. *)
Record table := mk_table { t_root : Z; t_level : nat; t_prefix : Z }.

(** An entry above level 1 has no large page and, if present, leads to [t]. *)
Definition child_ok (T : gmap Z table) (e : page_entry_t) (t : table) : Prop :=
  entry_or_pat e = false /\
  (present e = true -> addr_12_shifted e < 2 ^ 40 /\ T !! frame e = Some t).

Record tables_ok (m : Z -> Z) (T : gmap Z table) (top : Z) : Prop := {
  to_base b t : T !! b = Some t -> 0 < b /\ b mod 4096 = 0 /\ b + 4096 <= top;
  to_level b t : T !! b = Some t -> (1 <= t_level t <= 4)%nat;
  to_root b t : T !! b = Some t -> T !! t_root t = Some (mk_table (t_root t) 4 0);
  to_child b r l pre i : T !! b = Some (mk_table r (S (S l)) pre) -> 0 <= i < 512 ->
    child_ok T (entry_at m b i) (mk_table r (S l) (pre * 512 + i));
  to_top : top <= 2 ^ 48 }.

(** [reach m r va l b]: the walk for [va] from the root [r] gets to the table [b]
    of level [l]. *)
Inductive reach (m : Z -> Z) (r va : Z) : nat -> Z -> Prop :=
  | reach_root : reach m r va 4 r
  | reach_child l b :
      reach m r va (S (S l)) b ->
      present (entry_at m b (vindex (S (S l)) va)) = true ->
      entry_or_pat (entry_at m b (vindex (S (S l)) va)) = false ->
      reach m r va (S l) (frame (entry_at m b (vindex (S (S l)) va))).

Lemma reach_walk m r va l b : reach m r va l b -> walk m 4 r va = walk m l b va.
Proof.
  induction 1 as [|l b _ IH Hp Hps]; [done|]. rewrite IH. cbn [walk]. by rewrite Hp, Hps.
Qed.

Section trees.
Context (m : Z -> Z) (T : gmap Z table) (top : Z).
Hypothesis Hok : tables_ok m T top.

(** The walk stays in the tables of its address space, at the right prefix. *)
Lemma reach_table r va l b :
  0 <= va < 2 ^ 48 -> T !! r = Some (mk_table r 4 0) -> reach m r va l b ->
  T !! b = Some (mk_table r l (prefix l va)).
Proof.
  intros Hva Hr. induction 1 as [|l b _ IH Hp Hps]; [by rewrite prefix_4|].
  destruct (to_child _ _ _ Hok _ _ _ _ _ IH (vindex_range (S (S l)) va)) as [_ E].
  destruct (E Hp) as [_ E'].
  rewrite E'. do 2 f_equal. by rewrite (prefix_S (S l)).
Qed.

(** Translations only depend on the entries of the tables. *)
Lemma walk_same m' c rc lc va :
  (forall c t j, T !! c = Some t -> 0 <= j < 512 -> entry_at m' c j = entry_at m c j) ->
  T !! c = Some (mk_table rc lc (prefix lc va)) -> walk m' lc c va = walk m lc c va.
Proof.
  intros Hm. revert c. induction lc as [|lc IH]; intros c Hc; [done|].
  cbn [walk]. erewrite Hm by (done || apply vindex_range).
  destruct (present _) eqn:Hp; [|done]. cbn [negb]. destruct lc as [|lc]; [done|].
  destruct (to_child _ _ _ Hok _ _ _ _ _ Hc (vindex_range (S (S lc)) va)) as [-> Hch].
  apply IH. destruct (Hch Hp) as [_ ->]. do 2 f_equal. by rewrite (prefix_S (S lc)).
Qed.

Lemma reach_same m' r va l b :
  (forall c t j, T !! c = Some t -> 0 <= j < 512 -> entry_at m' c j = entry_at m c j) ->
  0 <= va < 2 ^ 48 -> T !! r = Some (mk_table r 4 0) -> reach m r va l b -> reach m' r va l b.
Proof.
  intros Hm Hva Hr. induction 1 as [|l b Hreach IH Hp Hps]; [constructor|].
  pose proof (reach_table _ _ _ _ Hva Hr Hreach) as Hb.
  assert (entry_at m' b (vindex (S (S l)) va) = entry_at m b (vindex (S (S l)) va)) as E
    by (eapply Hm; [exact Hb|apply vindex_range]).
  rewrite <- E. apply reach_child; [done| |]; by rewrite E.
Qed.

(** Changing the entry [(b, i)] only matters to the addresses under it. *)
Section update.
Context (m' : Z -> Z) (b i r pre : Z) (l : nat).
Hypothesis Hb : T !! b = Some (mk_table r (S l) pre).
Hypothesis Hi : 0 <= i < 512.
Hypothesis Hm : forall c t j, T !! c = Some t -> 0 <= j < 512 -> (b, i) <> (c, j) ->
  entry_at m' c j = entry_at m c j.

Lemma walk_other c rc lc va :
  T !! c = Some (mk_table rc lc (prefix lc va)) ->
  rc <> r \/ prefix l va <> pre * 512 + i ->
  walk m' lc c va = walk m lc c va.
Proof.
  revert c. induction lc as [|lc IH]; intros c Hc Hne; [done|].
  assert (entry_at m' c (vindex (S lc) va) = entry_at m c (vindex (S lc) va)) as E.
  { eapply Hm; [done|apply vindex_range|]. intros [= <- Hv]. rewrite Hb in Hc.
    injection Hc as -> -> ->. destruct Hne as [|Hne]; [done|]. apply Hne.
    by rewrite (prefix_S lc), Hv. }
  cbn [walk]. rewrite E. destruct (present _) eqn:Hp; [|done]. cbn [negb].
  destruct lc as [|lc]; [done|].
  destruct (to_child _ _ _ Hok _ _ _ _ _ Hc (vindex_range (S (S lc)) va)) as [-> Hch].
  apply IH; [|done]. destruct (Hch Hp) as [_ ->]. do 2 f_equal. by rewrite (prefix_S (S lc)).
Qed.

(** The path to the table [b] itself is not touched. *)
Lemma reach_kept va lc c :
  0 <= va < 2 ^ 48 -> T !! r = Some (mk_table r 4 0) ->
  reach m r va lc c -> (S l <= lc)%nat -> reach m' r va lc c.
Proof.
  intros Hva Hr. induction 1 as [|lc c Hreach IH Hp Hps]; intros Hle; [constructor|].
  pose proof (reach_table _ _ _ _ Hva Hr Hreach) as Hc.
  assert (entry_at m' c (vindex (S (S lc)) va) = entry_at m c (vindex (S (S lc)) va)) as E.
  { eapply Hm; [exact Hc|apply vindex_range|]. intros [= <- _]. rewrite Hb in Hc.
    injection Hc as Hl. lia. }
  rewrite <- E. apply reach_child; [apply IH; lia| |]; by rewrite E.
Qed.
End update.
End trees.

(** An address with the same prefix goes the same way. *)
Lemma reach_same_prefix m r va va' l b :
  prefix l va = prefix l va' -> reach m r va l b -> reach m r va' l b.
Proof.
  intros Hpre Hr. induction Hr as [|l b Hr IH Hp Hps]; [constructor|].
  pose proof (prefix_up _ 1 _ _ Hpre) as E. rewrite Nat.add_1_r in E.
  assert (vindex (S (S l)) va = vindex (S (S l)) va') as Ev.
  { pose proof (prefix_S (S l) va). pose proof (prefix_S (S l) va'). lia. }
  rewrite Ev in *. apply reach_child; auto.
Qed.

(** ** Growing a tree *)

(** A new, empty table. *)
Lemma tables_ok_new m m' T top top' b t :
  tables_ok m T top -> top <= top' <= 2 ^ 48 ->
  (forall c u j, T !! c = Some u -> 0 <= j < 512 -> entry_at m' c j = entry_at m c j) ->
  T !! b = None -> 0 < b -> b mod 4096 = 0 -> b + 4096 <= top' ->
  (forall a, b <= a < b + 4096 -> m' a = 0) ->
  (1 <= t_level t <= 4)%nat ->
  (T !! t_root t = Some (mk_table (t_root t) 4 0) \/ t = mk_table b 4 0) ->
  tables_ok m' (<[b := t]> T) top'.
Proof.
  intros Hok Htop Hm Hb Hb0 Hal Hbt Hz Hl Hr. split.
  - intros c u [[<- <-]|[_ Hc]]%lookup_insert_Some; [done|].
    apply (to_base _ _ _ Hok) in Hc. lia.
  - intros c u [[<- <-]|[_ Hc]]%lookup_insert_Some; [done|]. by eapply to_level.
  - intros c u [[<- <-]|[_ Hc]]%lookup_insert_Some.
    + destruct Hr as [Hr| ->]; [|apply lookup_insert_eq].
      rewrite lookup_insert_ne; [done|congruence].
    + apply (to_root _ _ _ Hok) in Hc. rewrite lookup_insert_ne; [done|congruence].
  - intros c r l pre i [[<- ->]|[_ Hc]]%lookup_insert_Some Hi.
    + unfold entry_at. rewrite load64_zero; [done|].
      intros a Ha. apply Hz. unfold entry_addr in Ha. lia.
    + erewrite Hm by done. destruct (to_child _ _ _ Hok _ _ _ _ _ Hc Hi) as [? E].
      split; [done|]. intros Hp. destruct (E Hp) as [? E']. split; [done|].
      rewrite lookup_insert_ne; [done|congruence].
  - lia.
Qed.

(** Tables do not see what happens above the top of the heap. *)
Lemma entry_at_below m m' T top c t j :
  tables_ok m T top -> (forall a, a < top -> m' a = m a) -> T !! c = Some t -> 0 <= j < 512 ->
  entry_at m' c j = entry_at m c j.
Proof.
  intros Hok Hm Hc Hj. unfold entry_at. f_equal. apply load64_ext. intros a Ha. apply Hm.
  pose proof (to_base _ _ _ Hok _ _ Hc). unfold entry_addr in Ha. lia.
Qed.

Lemma tables_ok_grow m m' T top top' :
  tables_ok m T top -> (forall a, a < top -> m' a = m a) -> top <= top' <= 2 ^ 48 ->
  tables_ok m' T top'.
Proof.
  intros Hok Hm Htop. split; [|apply Hok|apply Hok| |lia].
  - intros b t Hb. apply (to_base _ _ _ Hok) in Hb. lia.
  - intros b r l pre i Hb Hi. erewrite entry_at_below by done. by eapply to_child.
Qed.

(** A zeroed table translates nothing. *)
Lemma walk_empty m l b va : (forall a, b <= a < b + 4096 -> m a = 0) -> walk m l b va = None.
Proof.
  intros Hz. destruct l as [|l]; [done|]. cbn [walk]. unfold entry_at. rewrite load64_zero; [done|].
  intros a Ha. apply Hz. pose proof (vindex_range (S l) va). unfold entry_addr in Ha. lia.
Qed.

(** Writing one entry. *)
Definition set_word (m : Z -> Z) (b i : Z) (e : page_entry_t) : Z -> Z :=
  store64 m (entry_addr b i) (encode e).

Lemma entry_at_set_word m b i e : entry_fits e -> entry_at (set_word m b i e) b i = e.
Proof.
  intros He. unfold entry_at, set_word. rewrite load64_store64.
  rewrite u64_small by (by apply encode_range). by apply decode_encode_fits.
Qed.

Lemma entry_at_set_word_ne m T top b t i e c u j :
  tables_ok m T top -> T !! b = Some t -> T !! c = Some u -> 0 <= i < 512 -> 0 <= j < 512 ->
  (b, i) <> (c, j) -> entry_at (set_word m b i e) c j = entry_at m c j.
Proof.
  intros Hok Hb Hc Hi Hj Hne. unfold entry_at, set_word. f_equal. apply load64_store64_ne.
  apply entry_addr_disjoint; try done; by eapply to_base.
Qed.

Lemma tables_ok_set m T top b t i e :
  tables_ok m T top -> T !! b = Some t -> 0 <= i < 512 -> entry_fits e ->
  (t_level t = 1%nat \/
    child_ok T e (mk_table (t_root t) (t_level t - 1) (t_prefix t * 512 + i))) ->
  tables_ok (set_word m b i e) T top.
Proof.
  intros Hok Hb Hi He Hch. split; [apply Hok|apply Hok|apply Hok| |apply Hok].
  intros c r l pre j Hc Hj.
  destruct (decide ((b, i) = (c, j))) as [[= <- <-]|Hne].
  - rewrite entry_at_set_word by done. rewrite Hb in Hc. injection Hc as ->. cbn in Hch.
    destruct Hch as [|E]; [lia|exact E].
  - erewrite entry_at_set_word_ne by done. by eapply to_child.
Qed.

Section set.
Context (m : Z -> Z) (T : gmap Z table) (top : Z) (b i r pre : Z) (l : nat) (e : page_entry_t).
Hypothesis Hok : tables_ok m T top.
Hypothesis Hb : T !! b = Some (mk_table r (S l) pre).
Hypothesis Hi : 0 <= i < 512.
Hypothesis He : entry_fits e.

(** Other addresses and other address spaces. *)
Lemma walk_set_other c rc va :
  0 <= va < 2 ^ 48 -> T !! c = Some (mk_table rc 4 0) ->
  rc <> r \/ prefix l va <> pre * 512 + i ->
  walk (set_word m b i e) 4 c va = walk m 4 c va.
Proof.
  intros Hva Hc Hne.
  eapply (walk_other m T top Hok _ b i r pre l Hb); [|by rewrite prefix_4|done].
  intros c' t j Hc' Hj Hbi. by eapply entry_at_set_word_ne.
Qed.

Lemma reach_set va lc c :
  0 <= va < 2 ^ 48 -> reach m r va lc c -> (S l <= lc)%nat -> reach (set_word m b i e) r va lc c.
Proof.
  intros Hva. eapply reach_kept; [done|exact Hb| |done|].
  - intros c' t j Hc' Hj Hbi. by eapply entry_at_set_word_ne.
  - by apply (to_root _ _ _ Hok) in Hb.
Qed.
End set.

(** * Claims *)


