(* ===== verification/NativePaging.v ===== *)
(** hal/src/x86_64/native_pagging.c: the x86_64 implementation of the interface
    of NativeVmem.v.

    A [native_page_table_t] owns a tree of tables in physical memory and a
    buffer from which new tables are cut.  [paging_inv] states that all address
    spaces of the kernel are disjoint trees; the specifications show that
    [native_vmem_set] makes the processor translate the page as asked and
    changes no other translation of any address space. *)
From S2P Require Import Prelude Machine Logic LinkedList NativeVmem PageTable.

(** * Definitions *)

Definition PAGE_TABLE_NUMBER_OF_ENTRIES : Z := 512.
Definition PAGE_TABLE_ENTRIES_ALIGNMENT : Z := 4096.
Definition PAGE_TABLE_NATIVE_SIZE_SMALL : Z := 4096.
Definition sizeof_page_entry_t : Z := 8.
Definition NATIVE_PAGETABLE_MEM_BUFFER_SIZE : Z :=
  10 * PAGE_TABLE_NUMBER_OF_ENTRIES * sizeof_page_entry_t.

Definition shifting_bits (level : Z) : Z := level * 9 + 12.

Definition index_for_level (level virtual_addr : Z) : Z :=
  let bits_min := shifting_bits (level - 1) in
  let bits_max := shifting_bits level in
  s32 (Z.shiftr (virtual_addr mod Z.shiftl 1 bits_max) bits_min).

(** [uint64_t : 48] shifted by 12. *)
Definition entry_target (e : page_entry_t) : Z := u64 (Z.shiftl (addr_12_shifted e) 12).

(** ** Dump *)

(** The lines [log_pagetable_entry] writes are collected in a list. *)
Definition accumulate_entries (level : Z) (acc : page_map_entry_t) (entry : page_entry_t)
    (vaddr : Z) (log : list page_map_entry_t) : bool * page_map_entry_t * list page_map_entry_t :=
  let paddr := entry_target entry in
  if pme_present acc &&
     ((pme_physical_addr acc ⊞ pme_size acc) =? paddr) &&
     ((pme_virtual_addr acc ⊞ pme_size acc) =? vaddr) &&
     eqb (PERM_IS_EXEC (pme_permission acc)) (negb (executeDisable entry)) &&
     eqb (PERM_IS_WRITE (pme_permission acc)) (writable entry) &&
     eqb (PERM_IS_KERNEL_MODE (pme_permission acc)) (negb (user entry))
  then
    (true,
     mk_pme (pme_virtual_addr acc) (pme_physical_addr acc)
       (pme_size acc ⊞ Z.shiftl 1 (shifting_bits (level - 1))) (pme_permission acc) (pme_present acc),
     log)
  else
    let log := if pme_present acc then log ++ [acc] else log in
    let perm := PERM_SET_KERNEL_MODE (pme_permission acc) (negb (user entry)) in
    let perm := PERM_SET_WRITE perm (writable entry) in
    let perm := PERM_SET_EXEC perm (negb (executeDisable entry)) in
    (false, mk_pme vaddr paddr (Z.shiftl 1 (shifting_bits (level - 1))) perm true, log).

(** One table: entries [index], ..., with [n] left; [sub] parses a table of the
    level below. *)
Fixpoint parse_entries_loop (m : Z -> Z) (level : nat)
    (sub : Z -> page_map_entry_t -> Z -> list page_map_entry_t -> page_map_entry_t * list page_map_entry_t)
    (entries : Z) (n : nat) (index : Z) (acc : page_map_entry_t) (base_virtual_addr : Z)
    (log : list page_map_entry_t) : page_map_entry_t * list page_map_entry_t :=
  match n with
  | O => (acc, log)
  | S n' =>
      let entry := entry_at m entries index in
      let '(acc, log) :=
        if present entry then
          let addr := entry_target entry in
          if (level =? 1)%nat || entry_or_pat entry then
            let '(_, acc, log) :=
              accumulate_entries (Z.of_nat level) acc entry (u64 (Z.shiftl base_virtual_addr 12)) log in
            (acc, log)
          else sub addr acc base_virtual_addr log
        else (acc, log) in
      parse_entries_loop m level sub entries n' (index + 1) acc
        (base_virtual_addr ⊞ Z.shiftl 1 (Z.of_nat (level - 1) * 9)) log
  end.

Fixpoint parse_entries (m : Z -> Z) (level : nat) (entries : Z) (acc : page_map_entry_t)
    (base_virtual_addr : Z) (log : list page_map_entry_t) : page_map_entry_t * list page_map_entry_t :=
  match level with
  | O => (acc, log)
  | S level' =>
      parse_entries_loop m level (parse_entries m level') entries
        (Z.to_nat PAGE_TABLE_NUMBER_OF_ENTRIES) 0 acc base_virtual_addr log
  end.

Definition parse_intel_memory (m : Z -> Z) (entries : Z) : list page_map_entry_t :=
  let '(acc, log) := parse_entries m 4 entries (mk_pme 0 0 0 0 false) 0 [] in
  if pme_present acc then log ++ [acc] else log.

(** ** Tables *)
Section code.
Context `{Kalloc}.

Definition get_current_page_entries : M Z := gets (fun s => cr3 (paging s)).

Definition native_vmem_dump (vmem : Z) : M (list page_map_entry_t) :=
  entries ← (if isnull vmem then get_current_page_entries
             else v ← load vmem; pt ← load (native_vmem v); mret (npt_entries pt));
  gets (fun s => parse_intel_memory (ram (mem s)) entries).

(** A new buffer: the branch of [allocated_aligned_memory] that calls [kalloc]. *)
Definition new_buffer (pt : Z) : M unit :=
  new_block ← kalloc NATIVE_PAGETABLE_MEM_BUFFER_SIZE;
  p ← load pt;
  linkedlist_append (npt_allocated_memory p) new_block;;
  update pt (fun p => mk_npt (npt_entries p) (npt_allocated_memory p) (mem_available_addr p)
    NATIVE_PAGETABLE_MEM_BUFFER_SIZE);;
  update pt (fun p => mk_npt (npt_entries p) (npt_allocated_memory p)
    (ALIGN new_block PAGE_TABLE_ENTRIES_ALIGNMENT) (mem_available_size p));;
  p ← load pt;
  if negb (mem_available_addr p =? new_block) then
    update pt (fun p => mk_npt (npt_entries p) (npt_allocated_memory p)
      (mem_available_addr p ⊞ PAGE_TABLE_ENTRIES_ALIGNMENT) (mem_available_size p));;
    update pt (fun p => mk_npt (npt_entries p) (npt_allocated_memory p) (mem_available_addr p)
      (mem_available_size p ⊟ (mem_available_addr p ⊟ new_block)))
  else mret tt.

Definition allocated_aligned_memory (pt size : Z) : M Z :=
  p ← load pt;
  (if mem_available_size p <? size then new_buffer pt else mret tt);;
  p ← load pt;
  let addr := mem_available_addr p in
  update pt (fun p => mk_npt (npt_entries p) (npt_allocated_memory p) (mem_available_addr p)
    (mem_available_size p ⊟ size));;
  update pt (fun p => mk_npt (npt_entries p) (npt_allocated_memory p)
    (mem_available_addr p ⊞ size) (mem_available_size p));;
  mret addr.

Definition create_entries (pt : Z) : M Z :=
  allocated_aligned_memory pt (sizeof_page_entry_t * PAGE_TABLE_NUMBER_OF_ENTRIES).

(** The bit-field assignments of [fill_entry_value], in order. *)
Definition set_present v e := mk_pe v (writable e) (user e) (write_through e) (cache_disable e)
  (accessed e) (dirty e) (entry_or_pat e) (pe_ignored4 e) (addr_12_shifted e) (pe_ignored3 e) (executeDisable e).
Definition set_writable v e := mk_pe (present e) v (user e) (write_through e) (cache_disable e)
  (accessed e) (dirty e) (entry_or_pat e) (pe_ignored4 e) (addr_12_shifted e) (pe_ignored3 e) (executeDisable e).
Definition set_user v e := mk_pe (present e) (writable e) v (write_through e) (cache_disable e)
  (accessed e) (dirty e) (entry_or_pat e) (pe_ignored4 e) (addr_12_shifted e) (pe_ignored3 e) (executeDisable e).
Definition set_addr_12_shifted v e := mk_pe (present e) (writable e) (user e) (write_through e) (cache_disable e)
  (accessed e) (dirty e) (entry_or_pat e) (pe_ignored4 e) v (pe_ignored3 e) (executeDisable e).
Definition set_executeDisable v e := mk_pe (present e) (writable e) (user e) (write_through e) (cache_disable e)
  (accessed e) (dirty e) (entry_or_pat e) (pe_ignored4 e) (addr_12_shifted e) (pe_ignored3 e) v.

Definition fill_entry (ptr : Z) (user code writable : bool) (e : page_entry_t) : page_entry_t :=
  let e := set_present true e in
  let e := set_addr_12_shifted (wrap 48 (Z.shiftr ptr 12)) e in
  let e := if user then set_user true e else e in
  let e := if writable then set_writable true e else e in
  let e := if negb code then set_executeDisable true e else e in
  let e := set_writable true e in
  let e := set_user true e in
  set_executeDisable false e.

(** [fill_entry_value(&entries[index], ...)] *)
Definition fill_entry_value (entries index ptr : Z) (user code writable : bool) : M unit :=
  modify (fun s => set_ram (set_word (ram (mem s)) entries index
    (fill_entry ptr user code writable (entry_at (ram (mem s)) entries index))) s).

Fixpoint set_entry (pt : Z) (level : nat) (entries virtual_addr physical_address : Z)
    (user code writable : bool) : M unit :=
  match level with
  | O => fault
  | S level' =>
      let index := index_for_level (Z.of_nat level) virtual_addr in
      entry ← gets (fun s => entry_at (ram (mem s)) entries index);
      if (level =? 1)%nat then
        fill_entry_value entries index physical_address user code writable
      else
        let entry_ptr := entry_target entry in
        entry_ptr ← (if negb (present entry) then
                       entry_ptr ← create_entries pt;
                       fill_entry_value entries index entry_ptr true true true;;
                       mret entry_ptr
                     else mret entry_ptr);
        set_entry pt level' entry_ptr virtual_addr physical_address user code writable
  end.

Definition x86_vmem_create (vmem : Z) : M bool :=
  pt ← NEW native_page_table_t;
  if isnull pt then mret false
  else
    l ← linkedlist_create;
    update pt (fun p => mk_npt (npt_entries p) l (mem_available_addr p) (mem_available_size p));;
    p ← load pt;
    if isnull (npt_allocated_memory p) then kfree pt;; mret false
    else
      update pt (fun p => mk_npt (npt_entries p) (npt_allocated_memory p) 0 (mem_available_size p));;
      update pt (fun p => mk_npt (npt_entries p) (npt_allocated_memory p) (mem_available_addr p) 0);;
      entries ← create_entries pt;
      update pt (fun p => mk_npt entries (npt_allocated_memory p) (mem_available_addr p) (mem_available_size p));;
      update vmem (fun v => mk_vmem (vmem_id v) pt (v_regions v) (v_map v) (next_start_address v));;
      mret true.

(** [for (i = 0; i < size / PAGE_TABLE_NATIVE_SIZE_SMALL; i++)], with [n] left. *)
Fixpoint vmem_set_loop (n : nat) (pt entries_l4 : Z) (entry : page_map_entry_t) : M unit :=
  match n with
  | O => mret tt
  | S n' =>
      set_entry pt 4 entries_l4 (pme_virtual_addr entry) (pme_physical_addr entry)
        (negb (PERM_IS_KERNEL_MODE (pme_permission entry)))
        (PERM_IS_EXEC (pme_permission entry)) (PERM_IS_WRITE (pme_permission entry));;
      vmem_set_loop n' pt entries_l4 entry
  end.

Definition x86_vmem_set (vmem : Z) (entry : page_map_entry_t) : M bool :=
  v ← load vmem;
  let pt := native_vmem v in
  if negb (pme_virtual_addr entry =? MEM_ALIGN (pme_virtual_addr entry)) ||
     negb (pme_physical_addr entry =? MEM_ALIGN (pme_physical_addr entry))
  then mret false
  else
    p ← load pt;
    let entries_l4 := npt_entries p in
    vmem_set_loop (Z.to_nat (pme_size entry / PAGE_TABLE_NATIVE_SIZE_SMALL)) pt entries_l4 entry;;
    mret true.

Definition x86_vmem_switch (vmem : Z) : M unit :=
  v ← load vmem;
  cur ← get_current_page_entries;
  p ← load (native_vmem v);
  if negb (cur =? npt_entries p) then modify (set_cr3 (npt_entries p)) else mret tt.

(** Reloading CR3 with its own value empties the TLB, which is not state here. *)
Definition x86_vmem_flush : M unit :=
  rax ← gets (fun s => cr3 (paging s)); modify (set_cr3 rax).

#[export] Instance x86_native_vmem : NativeVmem :=
  { native_vmem_create := x86_vmem_create; native_vmem_set := x86_vmem_set;
    native_vmem_switch := x86_vmem_switch; native_vmem_flush := x86_vmem_flush }.
End code.

(** ** Arithmetic of the code *)

Lemma index_for_level_vindex (l : nat) va :
  (1 <= l <= 4)%nat -> 0 <= va -> index_for_level (Z.of_nat l) va = vindex l va.
Proof.
  intros Hl Hva. unfold index_for_level, shifting_bits, vindex, prefix, level_bits.
  rewrite Z.shiftl_mul_pow2, Z.shiftr_div_pow2, Z.mul_1_l by lia.
  replace ((Z.of_nat l - 1) * 9 + 12) with (12 + 9 * Z.of_nat (l - 1)) by lia.
  replace (Z.of_nat l * 9 + 12) with ((12 + 9 * Z.of_nat (l - 1)) + 9) by lia.
  set (k := 12 + 9 * Z.of_nat (l - 1)). rewrite Z.pow_add_r by lia. change (2 ^ 9) with 512.
  rewrite Z.rem_mul_r, Z.mul_comm, Z.div_add by lia.
  rewrite (Z.div_small (va mod 2 ^ k)), Z.add_0_l by (apply Z.mod_pos_bound; lia).
  pose proof (Z.mod_pos_bound (va / 2 ^ k) 512 ltac:(lia)). unfold s32.
  rewrite Z.mod_small by lia. lia.
Qed.

Lemma entry_target_small e : 0 <= addr_12_shifted e < 2 ^ 40 -> entry_target e = frame e.
Proof.
  intros He. unfold entry_target. rewrite Z.shiftl_mul_pow2 by lia.
  rewrite frame_small by done. change (2 ^ 12) with 4096. apply u64_small. lia.
Qed.

Lemma fill_entry_fits ptr u c w e : entry_fits e -> entry_fits (fill_entry ptr u c w e).
Proof.
  intros (H4 & Ha & H3). unfold fill_entry. destruct u, c, w; cbn;
    (split_and!; [done|split; [lia|apply Z.mod_pos_bound; lia]|done]).
Qed.

(** Whatever permissions are asked for, the entry is present, for user mode,
    writable and executable. *)
Lemma fill_entry_result ptr u c w e :
  fill_entry ptr u c w e = mk_pe true true true (write_through e) (cache_disable e)
    (accessed e) (dirty e) (entry_or_pat e) (pe_ignored4 e) (wrap 48 (Z.shiftr ptr 12))
    (pe_ignored3 e) false.
Proof. by destruct u, c, w, e. Qed.

Lemma present_fill_entry ptr u c w e : present (fill_entry ptr u c w e) = true.
Proof. by rewrite fill_entry_result. Qed.

Lemma pat_fill_entry ptr u c w e : entry_or_pat (fill_entry ptr u c w e) = entry_or_pat e.
Proof. by rewrite fill_entry_result. Qed.

Lemma frame_fill_entry ptr u c w e :
  0 <= ptr < 2 ^ 52 -> ptr mod 4096 = 0 -> frame (fill_entry ptr u c w e) = ptr.
Proof.
  intros Hp Hal. rewrite fill_entry_result. unfold frame. cbn. unfold wrap.
  rewrite Z.shiftr_div_pow2 by lia. change (2 ^ 12) with 4096.
  assert (0 <= ptr / 4096 < 2 ^ 40).
  { split; [apply Z.div_pos; lia|apply Z.div_lt_upper_bound; lia]. }
  rewrite (Z.mod_small (ptr / 4096) (2 ^ 48)), Z.mod_small by lia.
  pose proof (Z.div_mod ptr 4096). lia.
Qed.

(** * Invariant *)

(** The buffer of a page-table object: zero, page aligned, allocated, and apart
    from every table. *)
Record buffer_ok (s : kstate) (T : gmap Z table) (L : gmap Z (list (Z * Z)))
    (pt : native_page_table_t) : Prop := {
  bo_list : is_Some (L !! npt_allocated_memory pt);
  bo_align : mem_available_addr pt mod 4096 = 0;
  bo_size : 0 <= mem_available_addr pt /\ 0 <= mem_available_size pt /\
    mem_available_addr pt + mem_available_size pt <= heap_top (mem s);
  bo_null : mem_available_size pt = 0 \/ 0 < mem_available_addr pt;
  bo_zero a : mem_available_addr pt <= a < mem_available_addr pt + mem_available_size pt ->
    ram (mem s) a = 0;
  bo_tables b t : T !! b = Some t ->
    b + 4096 <= mem_available_addr pt \/
    mem_available_addr pt + mem_available_size pt <= b }.

Definition apart (p q : native_page_table_t) : Prop :=
  npt_allocated_memory p <> npt_allocated_memory q /\
  (mem_available_addr p + mem_available_size p <= mem_available_addr q \/
   mem_available_addr q + mem_available_size q <= mem_available_addr p).

(** [P]: the page-table objects.  Their tables are [T]. *)
Record paging_inv (s : kstate) (T : gmap Z table) (L : gmap Z (list (Z * Z))) (P : gset Z) : Prop := {
  pi_tables : tables_ok (ram (mem s)) T (heap_top (mem s));
  pi_objs p : p ∈ P -> p <> 0 /\ exists pt, npts (paging s) !! p = Some pt /\ buffer_ok s T L pt;
  pi_apart p q x y : p ∈ P -> q ∈ P -> p <> q ->
    npts (paging s) !! p = Some x -> npts (paging s) !! q = Some y -> apart x y;
  pi_below : below native_page_table_t s }.

(** The root table of a page-table object. *)
Definition has_root (s : kstate) (T : gmap Z table) (p r : Z) : Prop :=
  (exists pt, npts (paging s) !! p = Some pt /\ npt_entries pt = r) /\ T !! r = Some (mk_table r 4 0).

(** Page-table objects keep their root table. *)
Definition roots_kept (N N' : gmap Z native_page_table_t) : Prop :=
  forall p pt, N !! p = Some pt -> exists pt', N' !! p = Some pt' /\ npt_entries pt' = npt_entries pt.

Lemma roots_kept_refl N : roots_kept N N.
Proof. intros p pt Hp. by exists pt. Qed.

Lemma roots_kept_trans N1 N2 N3 : roots_kept N1 N2 -> roots_kept N2 N3 -> roots_kept N1 N3.
Proof. intros H1 H2 p pt Hp. destruct (H1 _ _ Hp) as (pt1 & Hp1 & E1). destruct (H2 _ _ Hp1) as (pt2 & ? & ?). exists pt2. split; [done|congruence]. Qed.

Lemma roots_kept_insert N p pt :
  (forall pt0, N !! p = Some pt0 -> npt_entries pt = npt_entries pt0) -> roots_kept N (<[p := pt]> N).
Proof.
  intros Hp q pq Hq. destruct (decide (p = q)) as [<-|Hne]; [|rewrite lookup_insert_ne by done; by exists pq].
  rewrite lookup_insert_eq. exists pt. auto.
Qed.

(** What the paging code may change. *)
Definition only_paging (n : Z) (s s' : kstate) : Prop :=
  exists N Ls m', s' = set_npts N (set_lists Ls (set_mem m' s)) /\ grown n (mem s) m' /\ roots_kept (npts (paging s)) N.

Lemma only_paging_refl s : only_paging 0 s s.
Proof. exists (npts (paging s)), (lists s), (mem s). split; [by destruct s as [? ? ? ? [] ? ? ?]|]. split; [apply grown_refl|apply roots_kept_refl]. Qed.

Lemma only_paging_trans n1 n2 s1 s2 s3 :
  only_paging n1 s1 s2 -> only_paging n2 s2 s3 -> only_paging (n1 + n2) s1 s3.
Proof.
  intros (N1 & L1 & m1 & -> & Hq1 & Hk1) (N2 & L2 & m2 & -> & Hq2 & Hk2).
  exists N2, L2, m2. split; [done|]. split; [by eapply grown_trans|by eapply roots_kept_trans].
Qed.

Lemma only_paging_grown n s s' : only_paging n s s' -> grown n (mem s) (mem s').
Proof. by intros (N & L & m' & -> & Hg & _). Qed.

Lemma only_paging_avail n s s' :
  alloc_ok (mem s) -> only_paging n s s' -> alloc_ok (mem s') /\ avail s - n <= avail s'.
Proof.
  intros Hok Ho. pose proof (only_paging_grown _ _ _ Ho) as Hg. split; [eauto with kern|].
  eapply avail_grown_regions; [done|done|]. by destruct Ho as (N & L & m' & -> & _).
Qed.

Lemma only_lists_paging n s s' : only_lists n s s' -> only_paging n s s'.
Proof.
  intros (H & N & m' & -> & Hq). exists (npts (paging s)), (mk_lists H N), m'.
  split; [by destruct s as [? ? ? ? [] ? ? ?]|]. split; [apply Hq|apply roots_kept_refl].
Qed.

Lemma only_paging_ram n s s' m' :
  (forall a, heap_top (mem s') <= a -> m' a = ram (mem s') a) ->
  only_paging n s s' -> only_paging n s (set_ram m' s').
Proof.
  intros Hm (N & L & m1 & -> & Hg & Hk). eexists N, L, _. split; [reflexivity|]. split; [|done].
  replace n with (n + 0) by lia. eapply grown_trans; [exact Hg|].
  exact (grown_ram m' (set_npts N (set_lists L (set_mem m1 s))) Hm).
Qed.

(** An entry of a table is below the top of the heap. *)
Lemma set_word_above m T top b t i e a :
  tables_ok m T top -> T !! b = Some t -> 0 <= i < 512 -> top <= a -> set_word m b i e a = m a.
Proof.
  intros Ht Hb Hi Ha. pose proof (to_base _ _ _ Ht _ _ Hb). unfold set_word, store64, entry_addr.
  destruct (_ && _) eqn:E; [|done]. apply andb_true_iff in E as [?%Z.leb_le ?%Z.ltb_lt]. lia.
Qed.

(** Whole tables still available in the buffer. *)
Definition tables_left (pt : native_page_table_t) : Z := mem_available_size pt / 4096.

(** Memory needed to get [k] more tables. *)
Definition table_cost (pt : native_page_table_t) (k : Z) : Z :=
  if tables_left pt <? k then 40976 else 0.


(** ** Framing *)

(** Page-table objects are kept by changes elsewhere and by allocations. *)
Lemma buffer_ok_frame n s s' T L L' pt :
  grown n (mem s) (mem s') ->
  (forall a, mem_available_addr pt <= a < mem_available_addr pt + mem_available_size pt ->
     ram (mem s') a = ram (mem s) a) ->
  (is_Some (L !! npt_allocated_memory pt) -> is_Some (L' !! npt_allocated_memory pt)) ->
  buffer_ok s T L pt -> buffer_ok s' T L' pt.
Proof.
  intros Hg Hm HL [? ? Hs ? Hz Ht]. pose proof (gr_top _ _ _ Hg). pose proof (gr_pos _ _ _ Hg).
  split; auto; [lia|]. intros a Ha. rewrite Hm by done. auto.
Qed.

(** One object got a new buffer or a part of its old one. *)
Lemma paging_inv_object n s s' T T' L L' P p pt pt' :
  paging_inv s T L P -> p ∈ P -> npts (paging s) !! p = Some pt ->
  npts (paging s') = <[p := pt']> (npts (paging s)) ->
  npt_allocated_memory pt' = npt_allocated_memory pt ->
  grown n (mem s) (mem s') ->
  (forall a, a < heap_top (mem s) -> ram (mem s') a = ram (mem s) a) ->
  (forall l, is_Some (L !! l) -> is_Some (L' !! l)) ->
  tables_ok (ram (mem s')) T' (heap_top (mem s')) ->
  (forall q y b t, q ∈ P -> npts (paging s') !! q = Some y -> T' !! b = Some t ->
     b + 4096 <= mem_available_addr y \/ mem_available_addr y + mem_available_size y <= b) ->
  buffer_ok s' T L' pt' ->
  (mem_available_addr pt <= mem_available_addr pt' /\
     mem_available_addr pt' + mem_available_size pt' <= mem_available_addr pt + mem_available_size pt \/
   heap_top (mem s) <= mem_available_addr pt') ->
  paging_inv s' T' L' P.
Proof.
  intros [Ht Ho Ha Hb] Hp Hpt HN Hal Hg Hram HL HT' Hdisj Hbo Hfrom. split; [done| | |].
  - intros q Hq. split; [by apply Ho|]. destruct (decide (q = p)) as [->|Hne].
    + exists pt'. rewrite HN, lookup_insert_eq. split; [done|].
      destruct Hbo. split; auto. intros b t Hb'. eapply Hdisj; [exact Hp| |done].
      by rewrite HN, lookup_insert_eq.
    + destruct (Ho _ Hq) as (_ & y & Hy & Hby). exists y.
      assert (npts (paging s') !! q = Some y) as Hy' by (by rewrite HN, lookup_insert_ne).
      split; [done|]. destruct (buffer_ok_frame n s s' T L L' y Hg) as [? ? ? ? ? ?]; auto.
      { intros a Hra. apply Hram. pose proof (bo_size _ _ _ _ Hby). lia. }
      split; auto. intros b t Hb'. by eapply Hdisj.
  - assert (forall q y, q ∈ P -> q <> p -> npts (paging s) !! q = Some y -> apart pt' y) as Hpq.
    { intros q y Hq Hne Hy. destruct (Ha p q pt y) as [Hl Hr]; auto.
      destruct (Ho _ Hq) as (_ & y' & Hy' & Hby). assert (y' = y) as -> by congruence.
      split; [congruence|]. pose proof (bo_size _ _ _ _ Hby). pose proof (bo_size _ _ _ _ Hbo). lia. }
    intros q1 q2 x y H1 H2 Hne. rewrite HN.
    intros [[<- <-]|[Hn1 Hx]]%lookup_insert_Some [[<- <-]|[Hn2 Hy]]%lookup_insert_Some; [done|by eapply Hpq| |by eapply (Ha q1 q2)].
    destruct (Hpq q1 x) as [E1 E2]; auto. split; [congruence|]. tauto.
  - intros q y. change (heap s') with (npts (paging s')). rewrite HN.
    pose proof (gr_top _ _ _ Hg). pose proof (gr_pos _ _ _ Hg).
    intros [[<- _]|[_ Hy]]%lookup_insert_Some.
    + destruct (Hb _ _ Hpt). lia.
    + apply Hb in Hy. lia.
Qed.

(** Quiet allocations and changes of other lists keep everything. *)
Lemma paging_inv_quiet n s s' T L L' P :
  paging_inv s T L P -> quiet n (mem s) (mem s') -> npts (paging s') = npts (paging s) ->
  (forall l, is_Some (L !! l) -> is_Some (L' !! l)) -> heap_top (mem s') <= 2 ^ 48 ->
  paging_inv s' T L' P.
Proof.
  intros [Ht Ho Ha Hb] [Hg Hq] HN HL Htop. pose proof (gr_top _ _ _ Hg). pose proof (gr_pos _ _ _ Hg).
  split.
  - eapply tables_ok_grow; [exact Ht| |lia]. intros a Hra. apply Hq. lia.
  - intros p Hp. destruct (Ho _ Hp) as (? & pt & Hpt & Hbo). split; [done|]. exists pt.
    rewrite HN. split; [done|]. eapply (buffer_ok_frame n s s' T L L'); [done| |by auto|done].
    intros a Hra. apply Hq. pose proof (bo_size _ _ _ _ Hbo). lia.
  - intros p q x y. rewrite HN. apply Ha.
  - eapply below_grown; [done| |done]. done.
Qed.

Lemma walk_quiet n s s' T L P r va :
  paging_inv s T L P -> quiet n (mem s) (mem s') -> T !! r = Some (mk_table r 4 0) -> 0 <= va < 2 ^ 48 ->
  walk (ram (mem s')) 4 r va = walk (ram (mem s)) 4 r va.
Proof.
  intros Hi [Hg Hq] Hr Hva. eapply walk_same; [apply Hi| |by rewrite prefix_4].
  intros c t j Hc Hj. eapply entry_at_below; [apply Hi| |done|done]. intros a Ha. apply Hq. lia.
Qed.

(** A new object with an empty buffer. *)
Lemma paging_inv_add n s s' T L P p l ns :
  paging_inv s T L P -> grown n (mem s) (mem s') -> heap_top (mem s') <= 2 ^ 48 ->
  npts (paging s') = <[p := mk_npt 0 l 0 0]> (npts (paging s)) ->
  npts (paging s) !! p = None -> 0 < p < heap_top (mem s') -> L !! l = None ->
  (forall a, a < heap_top (mem s) -> ram (mem s') a = ram (mem s) a) ->
  paging_inv s' T (<[l := ns]> L) ({[p]} ∪ P).
Proof.
  intros Hi Hg Htop HN Hfr Hp HL Hram. pose proof (gr_top _ _ _ Hg). pose proof (gr_pos _ _ _ Hg).
  assert (p ∉ P) as HpP.
  { intros Hin. destruct (pi_objs _ _ _ _ Hi _ Hin) as (_ & x & Hx & _). congruence. }
  assert (forall q y, q ∈ P -> npts (paging s') !! q = Some y ->
    buffer_ok s T L y /\ npts (paging s) !! q = Some y) as Hold.
  { intros q y Hq. rewrite HN, lookup_insert_ne by congruence. intros Hy.
    destruct (pi_objs _ _ _ _ Hi _ Hq) as (_ & y' & Hy' & Hby). split; congruence. }
  assert (forall q y, q ∈ P -> npts (paging s') !! q = Some y -> apart (mk_npt 0 l 0 0) y) as Hap.
  { intros q y Hq Hy. destruct (Hold _ _ Hq Hy) as [Hby _]. split; cbn.
    - destruct (bo_list _ _ _ _ Hby) as [x Hx]. congruence.
    - pose proof (bo_size _ _ _ _ Hby). lia. }
  split.
  - eapply tables_ok_grow; [apply Hi|done|lia].
  - intros q [->%elem_of_singleton|Hq]%elem_of_union.
    + split; [lia|]. exists (mk_npt 0 l 0 0). rewrite HN, lookup_insert_eq. split; [done|].
      split; cbn; [rewrite lookup_insert_eq; eauto|done|lia|by left|lia|].
      intros b t Hb. apply (to_base _ _ _ (pi_tables _ _ _ _ Hi)) in Hb. lia.
    + destruct (pi_objs _ _ _ _ Hi _ Hq) as (? & y & Hy & Hby). split; [done|]. exists y.
      split; [rewrite HN, lookup_insert_ne by congruence; done|].
      eapply (buffer_ok_frame n s); [done| | |done].
      * intros a Ha. apply Hram. pose proof (bo_size _ _ _ _ Hby). lia.
      * intros [x Hx]. rewrite lookup_insert_ne; [by eauto|congruence].
  - intros q1 q2 x y [->%elem_of_singleton|H1]%elem_of_union [->%elem_of_singleton|H2]%elem_of_union Hne Hx Hy; [done| | |].
    + rewrite HN, lookup_insert_eq in Hx. injection Hx as <-. by eapply Hap.
    + rewrite HN, lookup_insert_eq in Hy. injection Hy as <-. destruct (Hap _ _ H1 Hx). split; [congruence|tauto].
    + eapply (pi_apart _ _ _ _ Hi q1 q2); auto; by apply Hold.
  - intros q y. change (heap s') with (npts (paging s')). rewrite HN.
    intros [[<- _]|[_ Hy]]%lookup_insert_Some; [lia|]. apply (pi_below _ _ _ _ Hi) in Hy. lia.
Qed.

(** Storing the root of an object. *)
Lemma paging_inv_entries s s' T L P p pt r :
  paging_inv s T L P -> npts (paging s) !! p = Some pt -> mem s' = mem s ->
  npts (paging s') =
    <[p := mk_npt r (npt_allocated_memory pt) (mem_available_addr pt) (mem_available_size pt)]> (npts (paging s)) ->
  paging_inv s' T L P.
Proof.
  intros [I1 I2 I3 I4] Hpt Hm HN. split; [by rewrite Hm| | |].
  - intros q Hq. destruct (I2 _ Hq) as (Hq0 & y & Hy & Hby). split; [done|]. rewrite HN.
    assert (forall z, npt_allocated_memory z = npt_allocated_memory y ->
      mem_available_addr z = mem_available_addr y -> mem_available_size z = mem_available_size y ->
      buffer_ok s' T L z) as Hz.
    { intros z E1 E2 E3. destruct Hby. split; rewrite ?E1, ?E2, ?E3, ?Hm; auto. }
    destruct (decide (q = p)) as [->|Hne].
    + eexists. rewrite lookup_insert_eq. split; [done|]. apply Hz; cbn; congruence.
    + exists y. rewrite lookup_insert_ne by done. auto.
  - intros q1 q2 x y H1 H2 Hne. rewrite HN.
    intros [[<- <-]|[Hn1 Hx]]%lookup_insert_Some [[<- <-]|[Hn2 Hy]]%lookup_insert_Some; [done| | |].
    + by destruct (I3 p q2 pt y) as [? ?].
    + by destruct (I3 q1 p x pt) as [? ?].
    + by eapply (I3 q1 q2).
  - intros q y. change (heap s') with (npts (paging s')). rewrite HN, Hm.
    intros [[<- _]|[_ Hy]]%lookup_insert_Some; [by eapply I4|by eapply I4].
Qed.

(** Rounding a block up to a page, as the code does. *)
Lemma align_block nb :
  0 < nb < 2 ^ 63 ->
  let a := if negb (ALIGN nb PAGE_TABLE_ENTRIES_ALIGNMENT =? nb)
           then ALIGN nb PAGE_TABLE_ENTRIES_ALIGNMENT ⊞ PAGE_TABLE_ENTRIES_ALIGNMENT
           else ALIGN nb PAGE_TABLE_ENTRIES_ALIGNMENT in
  a mod 4096 = 0 /\ nb <= a < nb + 4096.
Proof.
  intros Hnb. change (ALIGN nb PAGE_TABLE_ENTRIES_ALIGNMENT) with (MEM_ALIGN nb).
  pose proof (MEM_ALIGN_spec nb) as [Hm Hr]. unfold PAGE_TABLE_ENTRIES_ALIGNMENT.
  destruct (Z.eqb_spec (MEM_ALIGN nb) nb) as [E|E]; cbn [negb]; [lia|].
  rewrite u64_small by lia. split; [|lia].
  rewrite <- (Z.mul_1_l 4096) at 1. by rewrite Z_mod_plus_full.
Qed.

(** What [create_entries] gives: a zeroed table [b] apart from everything, ready
    to be any table of any address space. *)
Definition table_created (s : kstate) (T : gmap Z table) (L : gmap Z (list (Z * Z))) (P : gset Z)
    (p : Z) (pt : native_page_table_t) (b : Z) (s' : kstate) : Prop :=
  exists ns' pt',
    let L' := <[npt_allocated_memory pt := ns']> L in
    only_paging (table_cost pt 1) s s' /\ lists_inv s' L' /\
    npts (paging s') = <[p := pt']> (npts (paging s)) /\
    npt_entries pt' = npt_entries pt /\ npt_allocated_memory pt' = npt_allocated_memory pt /\
    (if tables_left pt <? 1 then 8 else tables_left pt - 1) <= tables_left pt' /\
    (forall a, a < heap_top (mem s) -> ram (mem s') a = ram (mem s) a) /\
    T !! b = None /\ 0 < b /\ b mod 4096 = 0 /\ b + 4096 <= heap_top (mem s') /\
    (forall a, b <= a < b + 4096 -> ram (mem s') a = 0) /\
    forall t, (1 <= t_level t <= 4)%nat ->
      (T !! t_root t = Some (mk_table (t_root t) 4 0) \/ t = mk_table b 4 0) ->
      paging_inv s' (<[b := t]> T) L' P.

Section tables.
Context `{K : Kalloc} `{!GoodAlloc K}.

Lemma new_buffer_spec s L p pt ns :
  lists_inv s L -> alloc_ok (mem s) -> 40976 <= avail s ->
  npts (paging s) !! p = Some pt -> L !! npt_allocated_memory pt = Some ns ->
  wp (new_buffer p) (fun _ s' => exists ns' addr size,
    only_paging 40976 s s' /\ lists_inv s' (<[npt_allocated_memory pt := ns']> L) /\
    npts (paging s') = <[p := mk_npt (npt_entries pt) (npt_allocated_memory pt) addr size]> (npts (paging s)) /\
    (forall a, a < heap_top (mem s) -> ram (mem s') a = ram (mem s) a) /\
    (forall a, addr <= a < addr + size -> ram (mem s') a = 0) /\
    addr mod 4096 = 0 /\ heap_top (mem s) <= addr /\ 36864 <= size /\
    addr + size = heap_top (mem s) + 40960) s.
Proof.
  intros Hli Hok Ha Hpt Hns. unfold new_buffer.
  change NATIVE_PAGETABLE_MEM_BUFFER_SIZE with 40960.
  pose proof (heap_top_pos _ Hok) as Hpos.
  eapply wp_call; [apply wp_kalloc; [done|lia]|]. intros nb s1 (-> & m1 & -> & Hq1 & Hz1).
  pose proof (gr_top _ _ _ (q_grown _ _ _ Hq1)) as Et1.
  assert (heap_top (mem s) + 40976 <= 2 ^ 62) as Htop by (unfold avail in Ha; lia).
  wstep. eapply wpx_load; [exact Hpt|].
  assert (only_lists 40960 s (set_mem m1 s)) as Ho1.
  { exists (lls (lists s)), (nodes (lists s)), m1. split; [by destruct s as [? [] ? ? ? ? ? ?]|done]. }
  destruct (only_lists_avail _ _ _ Hok Ho1) as [Hok1 Ha1].
  eapply wpx_call.
  { eapply linkedlist_append_spec; [|exact Hok1|exact Hns|lia].
    apply (lists_inv_grown 40960 s); [done|apply Hq1| |done]. cbn. lia. }
  intros _ s2 (_ & Ho2 & Hli2). cbn [mem set_mem] in Hli2.
  pose proof (only_lists_quiet _ _ _ Ho2) as Hq2. cbn [mem set_mem] in Hq2.
  assert (paging s2 = paging s) as Ep2 by (by destruct Ho2 as (? & ? & ? & -> & _)).
  set (nb := heap_top (mem s)) in *.
  pose proof (align_block nb ltac:(lia)) as Hal. cbv zeta in Hal.
  wstep. eapply wpx_update; [cbn; rewrite Ep2; exact Hpt|].
  wstep. eapply wpx_update; [cbn; apply lookup_insert_eq|].
  wstep. eapply wpx_load; [cbn; apply lookup_insert_eq|]. cbn [mem_available_addr].
  cbn [npt_entries npt_allocated_memory mem_available_addr mem_available_size].
  set (base := ALIGN nb PAGE_TABLE_ENTRIES_ALIGNMENT) in *.
  assert (forall addr size N s', s' = set_npts N s2 ->
    N = <[p := mk_npt (npt_entries pt) (npt_allocated_memory pt) addr size]> (npts (paging s)) ->
    addr mod 4096 = 0 -> nb <= addr < nb + 4096 -> size = nb + 40960 - addr ->
    exists ns' addr size,
    only_paging 40976 s s' /\ lists_inv s' (<[npt_allocated_memory pt := ns']> L) /\
    npts (paging s') = <[p := mk_npt (npt_entries pt) (npt_allocated_memory pt) addr size]> (npts (paging s)) /\
    (forall a, a < nb -> ram (mem s') a = ram (mem s) a) /\
    (forall a, addr <= a < addr + size -> ram (mem s') a = 0) /\
    addr mod 4096 = 0 /\ nb <= addr /\ 36864 <= size /\ addr + size = nb + 40960) as Hfinal.
  { intros addr size N s' -> -> Hm Hr ->. eexists _, addr, _. split_and!.
    - destruct Ho2 as (H & N' & m2 & -> & _). eexists _, (mk_lists H N'), m2. split; [reflexivity|].
      split; [apply (grown_trans 40960 16 _ m1); [apply Hq1|apply Hq2]|].
      apply roots_kept_insert. intros pt0 Hpt0. by assert (pt0 = pt) as -> by congruence.
    - eapply lists_inv_frame; [| |exact Hli2]; done.
    - done.
    - intros a Hra. change (mem (set_npts _ s2)) with (mem s2).
      rewrite (q_ram _ _ _ Hq2) by lia. apply (q_ram _ _ _ Hq1). lia.
    - intros a Hra. change (mem (set_npts _ s2)) with (mem s2).
      rewrite (q_ram _ _ _ Hq2) by lia. apply Hz1. lia.
    - done.
    - lia.
    - lia.
    - lia. }
  destruct (negb (base =? nb)) eqn:Eb.
  - wstep. eapply wpx_update; [cbn; apply lookup_insert_eq|].
    eapply wpx_update; [cbn; apply lookup_insert_eq|].
    cbn [npt_entries npt_allocated_memory mem_available_addr mem_available_size].
    eapply (Hfinal (base ⊞ PAGE_TABLE_ENTRIES_ALIGNMENT)); [reflexivity| |apply Hal|apply Hal|reflexivity].
    cbn. rewrite !insert_insert_eq, Ep2. do 2 f_equal.
    destruct Hal as [_ Hal]. rewrite (u64_small (u64 _ - nb)) by lia. rewrite u64_small by lia. lia.
  - wstep. eapply (Hfinal base); [reflexivity| |apply Hal|apply Hal|reflexivity].
    cbn. rewrite !insert_insert_eq, Ep2. do 2 f_equal. zbool. lia.
Qed.
(** Cutting a table off a buffer that has one. *)
Lemma cut_table_spec n s s1 T L L1 P p pt pt1 :
  paging_inv s T L P -> p ∈ P -> npts (paging s) !! p = Some pt ->
  only_paging n s s1 -> (forall l, is_Some (L !! l) -> is_Some (L1 !! l)) ->
  npts (paging s1) = <[p := pt1]> (npts (paging s)) ->
  npt_allocated_memory pt1 = npt_allocated_memory pt ->
  (forall a, a < heap_top (mem s) -> ram (mem s1) a = ram (mem s) a) ->
  buffer_ok s1 T L1 pt1 -> 4096 <= mem_available_size pt1 ->
  (pt1 = pt \/ heap_top (mem s) <= mem_available_addr pt1) ->
  heap_top (mem s1) <= 2 ^ 48 ->
  let b := mem_available_addr pt1 in
  let pt2 := mk_npt (npt_entries pt1) (npt_allocated_memory pt1) (b + 4096) (mem_available_size pt1 - 4096) in
  let s2 := set_npts (<[p := pt2]> (npts (paging s))) s1 in
  T !! b = None /\ 0 < b /\ b mod 4096 = 0 /\ b + 4096 <= heap_top (mem s2) /\
  (forall a, b <= a < b + 4096 -> ram (mem s2) a = 0) /\
  forall t, (1 <= t_level t <= 4)%nat ->
    (T !! t_root t = Some (mk_table (t_root t) 4 0) \/ t = mk_table b 4 0) ->
    paging_inv s2 (<[b := t]> T) L1 P.
Proof.
  intros Hi Hp Hpt Ho HL HN Hal Hram Hbo Hsz Hfrom Htop b pt2 s2.
  pose proof (only_paging_grown _ _ _ Ho) as Hg. pose proof (gr_top _ _ _ Hg). pose proof (gr_pos _ _ _ Hg).
  destruct Hbo as [Hbl Hba Hbs Hbn Hbz Hbt].
  assert (T !! b = None) as HTb.
  { destruct (T !! b) eqn:E; [|done]. apply Hbt in E. unfold b in *. lia. }
  split_and!; [done|unfold b; lia|done|change (mem s2) with (mem s1); unfold b; lia| |].
  { intros a Ha. apply Hbz. unfold b in *. lia. }
  intros t Hl Hr.
  assert (tables_ok (ram (mem s1)) (<[b := t]> T) (heap_top (mem s1))) as Htok.
  { apply (tables_ok_new (ram (mem s)) _ T (heap_top (mem s))); auto; try (unfold b in *; lia).
    - apply Hi.
    - intros c u j Hc Hj. eapply entry_at_below; [apply Hi|done|done|done].
    - intros a Ha. apply Hbz. unfold b in *. lia. }
  eapply (paging_inv_object n s s2 T _ L L1 P p pt pt2); try done.
  - intros q y c u Hq. change (npts (paging s2)) with (<[p := pt2]> (npts (paging s))).
    intros [[<- <-]|[Hne Hy]]%lookup_insert_Some [[<- <-]|[Hnb Hc]]%lookup_insert_Some; cbn.
    + left. lia.
    + destruct (Hbt _ _ Hc); unfold b; lia.
    + destruct (pi_objs _ _ _ _ Hi _ Hq) as (_ & y' & Hy' & Hby).
      assert (y' = y) as -> by congruence. pose proof (bo_size _ _ _ _ Hby).
      destruct Hfrom as [->|Hnew]; [|unfold b; lia].
      destruct (pi_apart _ _ _ _ Hi p q pt y) as [_ Hap]; auto. unfold b. lia.
    + destruct (pi_objs _ _ _ _ Hi _ Hq) as (_ & y' & Hy' & Hby).
      assert (y' = y) as -> by congruence. by eapply bo_tables.
  - split; cbn; [done| |lia|lia| |].
    + unfold b. rewrite <- (Z.mul_1_l 4096), Z_mod_plus_full. done.
    + intros a Ha. apply Hbz. unfold b in *. lia.
    + intros c u Hc. destruct (Hbt _ _ Hc); unfold b; lia.
  - cbn. destruct Hfrom as [->|Hnew]; unfold b; lia.
Qed.

Lemma create_entries_spec s T L P p pt :
  lists_inv s L -> alloc_ok (mem s) -> paging_inv s T L P -> p ∈ P ->
  npts (paging s) !! p = Some pt ->
  table_cost pt 1 <= avail s -> heap_top (mem s) + table_cost pt 1 <= 2 ^ 48 ->
  wp (create_entries p) (table_created s T L P p pt) s.
Proof.
  intros Hli Hok Hi Hp Hpt Ha Htop.
  destruct (pi_objs _ _ _ _ Hi _ Hp) as (_ & pt0 & Hpt0 & Hbo).
  assert (pt0 = pt) as -> by congruence. destruct (bo_list _ _ _ _ Hbo) as [ns Hns].
  pose proof (bo_size _ _ _ _ Hbo) as Hbs. pose proof (li_space _ _ Hli) as Hsp.
  assert (forall n s1 ns1 pt1, only_paging n s s1 -> n = table_cost pt 1 ->
    lists_inv s1 (<[npt_allocated_memory pt := ns1]> L) ->
    npts (paging s1) = <[p := pt1]> (npts (paging s)) ->
    npt_entries pt1 = npt_entries pt -> npt_allocated_memory pt1 = npt_allocated_memory pt ->
    (if tables_left pt <? 1 then 9 else tables_left pt) <= tables_left pt1 ->
    (forall a, a < heap_top (mem s) -> ram (mem s1) a = ram (mem s) a) ->
    buffer_ok s1 T (<[npt_allocated_memory pt := ns1]> L) pt1 -> 4096 <= mem_available_size pt1 ->
    (pt1 = pt \/ heap_top (mem s) <= mem_available_addr pt1) ->
    wpx (p0 ← load p; update p (fun p => mk_npt (npt_entries p) (npt_allocated_memory p)
        (mem_available_addr p) (mem_available_size p ⊟ (sizeof_page_entry_t * PAGE_TABLE_NUMBER_OF_ENTRIES)));;
      update p (fun p => mk_npt (npt_entries p) (npt_allocated_memory p)
        (mem_available_addr p ⊞ (sizeof_page_entry_t * PAGE_TABLE_NUMBER_OF_ENTRIES)) (mem_available_size p));;
      mret (mem_available_addr p0)) (table_created s T L P p pt) (fun _ _ => False) s1) as Hcut.
  { intros n s1 ns1 pt1 Ho En Hl1 HN He Hal Htl Hram Hb1 Hsz Hfrom.
    pose proof (only_paging_grown _ _ _ Ho) as Hg. pose proof (gr_top _ _ _ Hg).
    change (sizeof_page_entry_t * PAGE_TABLE_NUMBER_OF_ENTRIES) with 4096.
    assert (npts (paging s1) !! p = Some pt1) as Hpt1 by (by rewrite HN, lookup_insert_eq).
    pose proof (bo_size _ _ _ _ Hb1) as Hbs1. pose proof (li_space _ _ Hl1) as Hsp1.
    wstep. eapply wpx_load; [exact Hpt1|]. wstep. eapply wpx_update; [exact Hpt1|].
    wstep. eapply wpx_update; [cbn; apply lookup_insert_eq|]. wstep.
    cbn [npt_entries npt_allocated_memory mem_available_addr mem_available_size].
    rewrite !u64_small by lia.
    red. exists ns1, (mk_npt (npt_entries pt1) (npt_allocated_memory pt1)
      (mem_available_addr pt1 + 4096) (mem_available_size pt1 - 4096)). cbv zeta.
    destruct (cut_table_spec n s s1 T L (<[npt_allocated_memory pt := ns1]> L) P p pt pt1)
      as (H1 & H2 & H3 & H4 & H5 & H6); auto; [|lia|].
    { intros l Hl. destruct (decide (npt_allocated_memory pt = l)) as [<-|];
        [rewrite lookup_insert_eq; eauto|by rewrite lookup_insert_ne]. }
    match goal with |- context [only_paging _ s ?x] => set (s2 := x) end.
    assert (s2 = set_npts (<[p := mk_npt (npt_entries pt1) (npt_allocated_memory pt1)
      (mem_available_addr pt1 + 4096) (mem_available_size pt1 - 4096)]> (npts (paging s))) s1) as Es2.
    { unfold s2. cbn. by rewrite insert_insert_eq, HN, insert_insert_eq. }
    rewrite Es2. split_and!; try done.
    - destruct Ho as (N & Ls & m' & -> & Hgr & _). eexists _, Ls, m'. subst n. split; [reflexivity|]. split; [done|].
      apply roots_kept_insert. intros y Hy. assert (y = pt) as -> by congruence. exact He.
    - by apply (lists_inv_frame s1).
    - unfold tables_left in *. cbn.
      replace (mem_available_size pt1 - 4096) with (mem_available_size pt1 + (-1) * 4096) by lia.
      rewrite Z_div_plus_full by lia. destruct (_ <? 1); lia. }
  unfold create_entries, allocated_aligned_memory.
  change (sizeof_page_entry_t * PAGE_TABLE_NUMBER_OF_ENTRIES) with 4096 in *.
  wstep. eapply wpx_load; [exact Hpt|].
  assert ((tables_left pt <? 1) = (mem_available_size pt <? 4096)) as Etl.
  { unfold tables_left. pose proof (Z.div_mod (mem_available_size pt) 4096).
    pose proof (Z.mod_pos_bound (mem_available_size pt) 4096).
    destruct (Z.ltb_spec (mem_available_size pt / 4096) 1), (Z.ltb_spec (mem_available_size pt) 4096); done || lia. }
  unfold table_created, table_cost in *. rewrite Etl in *.
  destruct (Z.ltb_spec (mem_available_size pt) 4096) as [Hlt|Hge].
  - eapply wpx_call; [by eapply new_buffer_spec|].
    intros _ s1 (ns1 & addr & size & Ho & Hl1 & HN & Hram & Hz & Hm & Hge & Hsz & Hend).
    pose proof (only_paging_grown _ _ _ Ho) as Hg. pose proof (gr_top _ _ _ Hg).
    eapply Hcut; [exact Ho|done|exact Hl1|exact HN|done|done| |done| |cbn; lia|cbn; lia].
    + unfold tables_left. cbn. apply Z.div_le_lower_bound; lia.
    + split; cbn; [rewrite lookup_insert_eq; eauto|done|lia|lia|done|].
      intros b t Hb. apply (to_base _ _ _ (pi_tables _ _ _ _ Hi)) in Hb. lia.
  - wstep. wstep. eapply (Hcut 0 s ns pt); [apply only_paging_refl|done| |by rewrite insert_id|done|done|done|done| |done|by left].
    + by rewrite insert_id.
    + by rewrite insert_id.
Qed.
End tables.

(** ** Setting entries *)

(** Writing an entry of a table keeps every buffer. *)
Lemma paging_inv_set_word s T L P b t i e :
  paging_inv s T L P -> T !! b = Some t -> 0 <= i < 512 -> entry_fits e ->
  (t_level t = 1%nat \/
    child_ok T e (mk_table (t_root t) (t_level t - 1) (t_prefix t * 512 + i))) ->
  paging_inv (set_ram (set_word (ram (mem s)) b i e) s) T L P.
Proof.
  intros [Ht Ho Ha Hb] Hbt Hi He Hch. split; [by eapply tables_ok_set| |done|done].
  intros p Hp. destruct (Ho _ Hp) as (? & pt & Hpt & Hbo). split; [done|]. exists pt. split; [done|].
  destruct Hbo as [? ? ? ? Hz Hd]. split; auto. intros a Hra. cbn. unfold set_word, store64, entry_addr.
  destruct (Hd _ _ Hbt); destruct (Z.leb_spec (b + 8 * i) a), (Z.ltb_spec a (b + 8 * i + 8)); cbn; auto; lia.
Qed.

(** The effect of [set_entry], translations apart. *)
Record paging_step (n : Z) (s : kstate) (T : gmap Z table) (L : gmap Z (list (Z * Z))) (P : gset Z)
    (p : Z) (pt : native_page_table_t) (s' : kstate) (T' : gmap Z table) (L' : gmap Z (list (Z * Z)))
    (pt' : native_page_table_t) : Prop := {
  ps_only : only_paging n s s';
  ps_lists : lists_inv s' L';
  ps_other l : l <> npt_allocated_memory pt -> L' !! l = L !! l;
  ps_kept l : is_Some (L !! l) -> is_Some (L' !! l);
  ps_tables : T ⊆ T';
  ps_inv : paging_inv s' T' L' P;
  ps_objs : npts (paging s') = <[p := pt']> (npts (paging s));
  ps_root : npt_entries pt' = npt_entries pt;
  ps_mem : npt_allocated_memory pt' = npt_allocated_memory pt;
  ps_ram a : a < heap_top (mem s) -> (forall c t, T' !! c = Some t -> ~ (c <= a < c + 4096)) ->
    ram (mem s') a = ram (mem s) a }.

Lemma paging_step_refl s T L P p pt :
  lists_inv s L -> paging_inv s T L P -> npts (paging s) !! p = Some pt ->
  paging_step 0 s T L P p pt s T L pt.
Proof. intros. split; auto; [apply only_paging_refl|by rewrite insert_id]. Qed.

Lemma paging_step_trans n1 n2 s1 T1 L1 P p pt1 s2 T2 L2 pt2 s3 T3 L3 pt3 :
  paging_step n1 s1 T1 L1 P p pt1 s2 T2 L2 pt2 ->
  paging_step n2 s2 T2 L2 P p pt2 s3 T3 L3 pt3 ->
  paging_step (n1 + n2) s1 T1 L1 P p pt1 s3 T3 L3 pt3.
Proof.
  intros [O1 A1 B1 C1 D1 E1 F1 G1 H1 R1] [O2 A2 B2 C2 D2 E2 F2 G2 H2 R2]. split; auto.
  - by eapply only_paging_trans.
  - intros l Hl. rewrite B2, B1 by congruence. done.
  - by etrans.
  - rewrite F2, F1. by rewrite insert_insert_eq.
  - congruence.
  - congruence.
  - intros a Ha Hd. pose proof (gr_top _ _ _ (only_paging_grown _ _ _ O1)).
    pose proof (gr_pos _ _ _ (only_paging_grown _ _ _ O1)).
    rewrite R2, R1; auto; [|lia]. intros c t Hc. apply (Hd c t). by eapply lookup_weaken.
Qed.

Lemma paging_step_set_word s T L P p pt b t i e :
  lists_inv s L -> paging_inv s T L P -> npts (paging s) !! p = Some pt ->
  T !! b = Some t -> 0 <= i < 512 -> entry_fits e ->
  (t_level t = 1%nat \/
    child_ok T e (mk_table (t_root t) (t_level t - 1) (t_prefix t * 512 + i))) ->
  paging_step 0 s T L P p pt (set_ram (set_word (ram (mem s)) b i e) s) T L pt.
Proof.
  intros Hl Hi Hpt Hb Hir He Hch. split; auto.
  - apply only_paging_ram; [|apply only_paging_refl]. intros a Ha. eapply set_word_above; [apply Hi|done|done|done].
  - eapply (lists_inv_grown 0 s); [done| |apply Hl|done]. apply grown_ram.
    intros a Ha. eapply set_word_above; [apply Hi|done|done|done].
  - by eapply paging_inv_set_word.
  - by rewrite insert_id.
  - intros a _ Hd. cbn. unfold set_word, store64, entry_addr. specialize (Hd _ _ Hb).
    destruct (Z.leb_spec (b + 8 * i) a), (Z.ltb_spec a (b + 8 * i + 8)); cbn; auto; lia.
Qed.

(** The child of a fresh entry. *)
Lemma child_ok_fill T b1 t u c w e :
  T !! b1 = Some t -> 0 <= b1 < 2 ^ 48 -> b1 mod 4096 = 0 -> entry_or_pat e = false ->
  child_ok T (fill_entry b1 u c w e) t.
Proof.
  intros Hb Hr Hal Hps. split.
  - by rewrite fill_entry_result.
  - intros _. rewrite frame_fill_entry by lia. split; [|done].
    rewrite fill_entry_result. cbn. unfold wrap. rewrite Z.shiftr_div_pow2 by lia.
    assert (b1 / 2 ^ 12 < 2 ^ 36) by (apply Z.div_lt_upper_bound; lia).
    assert (0 <= b1 / 2 ^ 12) by (apply Z.div_pos; lia).
    rewrite Z.mod_small by lia. lia.
Qed.

Lemma prefix_same_page l va va' : va / 4096 = va' / 4096 -> prefix l va = prefix l va'.
Proof. rewrite <- !prefix_0. intros E. apply (prefix_up 0 l) in E. done. Qed.

(** All translations of all address spaces but those of [bad] are kept. *)
Definition translations_kept (bad : Z -> Z -> Prop) (m m' : Z -> Z) (T : gmap Z table) : Prop :=
  forall r va, T !! r = Some (mk_table r 4 0) -> 0 <= va < 2 ^ 48 -> ~ bad r va ->
    walk m' 4 r va = walk m 4 r va.

Lemma tables_left_nonneg s T L pt : buffer_ok s T L pt -> 0 <= tables_left pt.
Proof. intros Hb. pose proof (bo_size _ _ _ _ Hb). unfold tables_left. apply Z.div_pos; lia. Qed.

Section set_entry.
Context `{K : Kalloc} `{!GoodAlloc K}.
Context (P : gset Z) (p r va : Z).
Hypothesis Hp : p ∈ P.
Hypothesis Hva : 0 <= va < 2 ^ 48.

(** The table of the level below, created when it is missing. *)
Lemma descend_spec s T L pt b l :
  lists_inv s L -> alloc_ok (mem s) -> paging_inv s T L P ->
  npts (paging s) !! p = Some pt -> T !! r = Some (mk_table r 4 0) ->
  reach (ram (mem s)) r va (S (S l)) b ->
  table_cost pt (Z.of_nat (S l)) <= avail s ->
  heap_top (mem s) + table_cost pt (Z.of_nat (S l)) <= 2 ^ 48 ->
  let e := entry_at (ram (mem s)) b (vindex (S (S l)) va) in
  wp (if negb (present e) then
        entry_ptr ← create_entries p;
        fill_entry_value b (vindex (S (S l)) va) entry_ptr true true true;;
        mret entry_ptr
      else mret (entry_target e))
    (fun b1 s' => exists n T' L' pt', paging_step n s T L P p pt s' T' L' pt' /\
      n + table_cost pt' (Z.of_nat l) <= table_cost pt (Z.of_nat (S l)) /\
      reach (ram (mem s')) r va (S l) b1 /\
      translations_kept (fun _ _ => False) (ram (mem s)) (ram (mem s')) T) s.
Proof.
  intros Hli Hok Hi Hpt Hr Hreach Ha Htop e.
  pose proof (pi_tables _ _ _ _ Hi) as Hto.
  pose proof (reach_table _ _ _ Hto _ _ _ _ Hva Hr Hreach) as Hb.
  pose proof (vindex_range (S (S l)) va) as Hix. set (ix := vindex (S (S l)) va) in *.
  destruct (to_child _ _ _ Hto _ _ _ _ _ Hb Hix) as [Hps Hch]. fold e in Hps, Hch.
  destruct (pi_objs _ _ _ _ Hi _ Hp) as (_ & pt0 & Hpt0 & Hbo).
  assert (pt0 = pt) as -> by congruence. pose proof (tables_left_nonneg _ _ _ _ Hbo) as Htl0.
  destruct (present e) eqn:Hpr; cbn [negb].
  { wstep. destruct (Hch eq_refl) as [Hsm HT].
    exists 0, T, L, pt. split; [by apply paging_step_refl|]. split; [|split; [|done]].
    - unfold table_cost. destruct (Z.ltb_spec (tables_left pt) (Z.of_nat l)),
        (Z.ltb_spec (tables_left pt) (Z.of_nat (S l))); lia.
    - rewrite entry_target_small. { by apply reach_child. }
      split; [apply entry_at_addr|done]. }
  assert (table_cost pt 1 <= table_cost pt (Z.of_nat (S l))) as Hc1.
  { unfold table_cost. destruct (Z.ltb_spec (tables_left pt) 1),
      (Z.ltb_spec (tables_left pt) (Z.of_nat (S l))); lia. }
  eapply wp_call; [eapply create_entries_spec; try done; lia|].
  intros b1 s1 (ns1 & pt1 & Ho & Hl1 & HN & He1 & Hm1 & Htl & Hram & HTb & Hb1 & Hal & Htop1 & Hz & Hinv).
  pose proof (reach_table _ _ _ Hto _ _ _ _ Hva Hr Hreach) as Hbt.
  set (t1 := mk_table r (S l) (prefix (S (S l)) va * 512 + ix)).
  pose proof (to_level _ _ _ Hto _ _ Hbt) as Hlev. cbn in Hlev.
  specialize (Hinv t1 ltac:(cbn; lia) (or_introl Hr)).
  set (L1 := <[npt_allocated_memory pt := ns1]> L) in *.
  assert (forall c t j, T !! c = Some t -> 0 <= j < 512 ->
    entry_at (ram (mem s1)) c j = entry_at (ram (mem s)) c j) as Hent.
  { intros c t j Hc Hj. by eapply entry_at_below. }
  assert (paging_step (table_cost pt 1) s T L P p pt s1 (<[b1 := t1]> T) L1 pt1) as Hstep1.
  { split; auto; unfold L1.
    - intros x Hx. by rewrite lookup_insert_ne.
    - intros x Hx. destruct (decide (npt_allocated_memory pt = x)) as [<-|];
        [rewrite lookup_insert_eq; eauto|by rewrite lookup_insert_ne].
    - by apply insert_subseteq. }
  assert (reach (ram (mem s1)) r va (S (S l)) b) as Hreach1 by (by eapply reach_same).
  assert (entry_at (ram (mem s1)) b ix = e) as He by (by eapply Hent).
  pose proof (pi_tables _ _ _ _ Hinv) as Hto1.
  assert ((<[b1 := t1]> T) !! b = Some (mk_table r (S (S l)) (prefix (S (S l)) va))) as Hb'.
  { rewrite lookup_insert_ne; [done|congruence]. }
  assert (npts (paging s1) !! p = Some pt1) as Hpt1 by (by rewrite HN, lookup_insert_eq).
  assert (child_ok (<[b1 := t1]> T) (fill_entry b1 true true true e) t1) as Hcok.
  { apply child_ok_fill; [apply lookup_insert_eq| |done|done].
    pose proof (to_top _ _ _ Hto1). lia. }
  wstep. unfold fill_entry_value. wstep. wstep. rewrite He.
  assert (entry_fits (fill_entry b1 true true true e)) as Hfit by apply fill_entry_fits, entry_at_fits.
  assert (paging_step 0 s1 (<[b1 := t1]> T) L1 P p pt1
    (set_ram (set_word (ram (mem s1)) b ix (fill_entry b1 true true true e)) s1)
    (<[b1 := t1]> T) L1 pt1) as Hstep2.
  { eapply paging_step_set_word; try done. by right. }
  eexists _, _, _, pt1. split; [by eapply paging_step_trans|].
  assert (frame (fill_entry b1 true true true e) = b1) as Hfr.
  { apply frame_fill_entry; [|done]. pose proof (to_top _ _ _ Hto1). lia. }
  cbn [mem set_ram set_mem ram].
  assert (reach (set_word (ram (mem s1)) b ix (fill_entry b1 true true true e)) r va (S l) b1) as Hreach2.
  { pose proof (entry_at_set_word (ram (mem s1)) b ix _ Hfit) as Eset.
    assert (reach (set_word (ram (mem s1)) b ix (fill_entry b1 true true true e)) r va (S (S l)) b) as Hup
      by (eapply reach_set; [exact Hto1|exact Hb'|done|done|done|lia]).
    pose proof (reach_child _ _ _ _ _ Hup) as Hc. fold ix in Hc. rewrite Eset, Hfr in Hc.
    apply Hc; [apply present_fill_entry|by rewrite pat_fill_entry]. }
  split; [|split; [done|]].
  - rewrite Z.add_0_r. unfold table_cost in *. destruct (Z.ltb_spec (tables_left pt) 1).
    + destruct (Z.ltb_spec (tables_left pt1) (Z.of_nat l)),
        (Z.ltb_spec (tables_left pt) (Z.of_nat (S l))); lia.
    + destruct (Z.ltb_spec (tables_left pt1) (Z.of_nat l)),
        (Z.ltb_spec (tables_left pt) (Z.of_nat (S l))); lia.
  - intros r' va' Hr' Hva' _.
    assert (walk (ram (mem s1)) 4 r' va' = walk (ram (mem s)) 4 r' va') as Hw1.
    { eapply walk_same; [exact Hto|exact Hent|by rewrite prefix_4]. }
    destruct (decide (r' = r /\ prefix (S l) va' = prefix (S (S l)) va * 512 + ix)) as [[-> Hpx]|Hne].
    + assert (prefix (S l) va = prefix (S l) va') as Hsame by (rewrite (prefix_S (S l) va), Hpx; done).
      pose proof (prefix_up _ 1 _ _ Hsame) as Hup. rewrite Nat.add_1_r in Hup.
      assert (vindex (S (S l)) va' = ix) as Hvi.
      { pose proof (prefix_S (S l) va'). pose proof (prefix_S (S l) va). unfold ix. lia. }
      rewrite (reach_walk _ _ _ _ _ (reach_same_prefix _ _ _ _ _ _ Hup Hreach)).
      rewrite (reach_walk _ _ _ _ _ (reach_same_prefix _ _ _ _ _ _ Hsame Hreach2)).
      transitivity (@None Z).
      * apply walk_absent. erewrite entry_at_set_word_ne; [|exact Hto1|exact Hb'|apply lookup_insert_eq|done|apply vindex_range|congruence].
        unfold entry_at. rewrite load64_zero; [done|]. intros a Haa. apply Hz.
        pose proof (vindex_range (S l) va'). unfold entry_addr in Haa. lia.
      * symmetry. apply walk_absent. rewrite Hvi. exact Hpr.
    + rewrite <- Hw1. eapply walk_set_other; [exact Hto1|exact Hb'|done|done| |].
      * rewrite lookup_insert_ne; [done|congruence].
      * destruct (decide (r' = r)); [right|by left]. intros E. by apply Hne.
Qed.
Definition same_page (r' va' : Z) : Prop := r' = r /\ va' / 4096 = va / 4096.

Lemma set_entry_spec l : forall s T L pt b pa u c w,
  lists_inv s L -> alloc_ok (mem s) -> paging_inv s T L P ->
  npts (paging s) !! p = Some pt -> T !! r = Some (mk_table r 4 0) ->
  reach (ram (mem s)) r va (S l) b ->
  table_cost pt (Z.of_nat l) <= avail s ->
  heap_top (mem s) + table_cost pt (Z.of_nat l) <= 2 ^ 48 ->
  0 <= pa < 2 ^ 48 -> pa mod 4096 = 0 ->
  wp (set_entry p (S l) b va pa u c w) (fun _ s' => exists n T' L' pt',
    paging_step n s T L P p pt s' T' L' pt' /\ n <= table_cost pt (Z.of_nat l) /\
    translations_kept same_page (ram (mem s)) (ram (mem s')) T /\
    forall va', va' / 4096 = va / 4096 -> walk (ram (mem s')) 4 r va' = Some (pa + va' mod 4096)) s.
Proof.
  induction l as [|l IH]; intros s T L pt b pa u c w Hli Hok Hi Hpt Hr Hreach Ha Htop Hpa Hal;
    pose proof (pi_tables _ _ _ _ Hi) as Hto;
    pose proof (reach_table _ _ _ Hto _ _ _ _ Hva Hr Hreach) as Hb;
    pose proof (to_level _ _ _ Hto _ _ Hb) as Hlev; cbn [t_level] in Hlev;
    unfold set_entry; fold set_entry; rewrite index_for_level_vindex by lia.
  - wstep. wstep. cbn [Nat.eqb]. unfold fill_entry_value. wstep.
    pose proof (vindex_range 1 va) as Hix. set (ix := vindex 1 va) in *.
    set (e := fill_entry pa u c w (entry_at (ram (mem s)) b ix)).
    assert (entry_fits e) as Hfit by apply fill_entry_fits, entry_at_fits.
    assert (paging_step 0 s T L P p pt (set_ram (set_word (ram (mem s)) b ix e) s) T L pt) as Hstep.
    { eapply paging_step_set_word; try done. by left. }
    exists 0, T, L, pt. split; [done|]. split; [unfold table_cost; destruct (_ <? _); lia|].
    cbn [mem set_ram set_mem ram]. split.
    + intros r' va' Hr' Hva' Hne. eapply walk_set_other; [exact Hto|exact Hb|done|done|done|].
      destruct (decide (r' = r)) as [->|]; [right|by left]. intros E. apply Hne. split; [done|].
      rewrite <- !prefix_0, (prefix_S 0 va), E. done.
    + intros va' Hpg.
      assert (reach (set_word (ram (mem s)) b ix e) r va 1 b) as Hreach'.
      { eapply reach_set; [exact Hto|exact Hb|done|done|done|lia]. }
      pose proof (prefix_same_page 1 _ _ Hpg) as Hp1.
      rewrite (reach_walk _ _ _ _ _ (reach_same_prefix _ _ _ _ _ _ (eq_sym Hp1) Hreach')).
      assert (vindex 1 va' = ix) as Hvi.
      { pose proof (prefix_S 0 va). pose proof (prefix_S 0 va'). rewrite prefix_0 in *. unfold ix. lia. }
      cbn [walk]. rewrite Hvi, entry_at_set_word by done. unfold e at 1. rewrite fill_entry_result.
      cbn [present negb]. unfold e. by rewrite frame_fill_entry by lia.
  - wstep. wstep. cbn [Nat.eqb]. eapply wpx_call; [by eapply descend_spec|].
    intros b1 s1 (n1 & T1 & L1 & pt1 & Hst1 & Hn1 & Hreach1 & Hk1).
    destruct (only_paging_avail _ _ _ Hok (ps_only _ _ _ _ _ _ _ _ _ _ _ Hst1)) as [Hok1 Ha1].
    pose proof (gr_top _ _ _ (only_paging_grown _ _ _ (ps_only _ _ _ _ _ _ _ _ _ _ _ Hst1))).
    pose proof (gr_pos _ _ _ (only_paging_grown _ _ _ (ps_only _ _ _ _ _ _ _ _ _ _ _ Hst1))).
    apply wp_wpx. eapply wp_mono.
    { eapply (IH s1 T1 L1 pt1 b1); [apply Hst1|done|apply Hst1| | |exact Hreach1|lia|lia|done|done].
      - rewrite (ps_objs _ _ _ _ _ _ _ _ _ _ _ Hst1). apply lookup_insert_eq.
      - eapply lookup_weaken; [exact Hr|apply Hst1]. }
    intros _ s2 (n2 & T2 & L2 & pt2 & Hst2 & Hn2 & Hk2 & Hw2).
    exists (n1 + n2), T2, L2, pt2. split; [by eapply paging_step_trans|]. split; [lia|]. split; [|done].
    intros r' va' Hr' Hva' Hne. rewrite Hk2; [by apply Hk1; auto| |done|done].
    eapply lookup_weaken; [exact Hr'|apply Hst1].
Qed.
End set_entry.

(** ** The operations of the interface *)
Section ops.
Context `{K : Kalloc} `{!GoodAlloc K}.

Lemma x86_vmem_set_spec s T L P v vm pt e :
  lists_inv s L -> alloc_ok (mem s) -> paging_inv s T L P ->
  vmems (Machine.vm s) !! v = Some vm -> native_vmem vm ∈ P ->
  npts (paging s) !! native_vmem vm = Some pt ->
  T !! npt_entries pt = Some (mk_table (npt_entries pt) 4 0) ->
  0 <= pme_virtual_addr e < 2 ^ 48 -> pme_virtual_addr e mod 4096 = 0 ->
  0 <= pme_physical_addr e < 2 ^ 48 -> pme_physical_addr e mod 4096 = 0 ->
  pme_size e / 4096 = 1 ->
  table_cost pt 3 <= avail s -> heap_top (mem s) + table_cost pt 3 <= 2 ^ 48 ->
  wp (x86_vmem_set v e) (fun ok s' => ok = true /\ exists n T' L' pt',
    paging_step n s T L P (native_vmem vm) pt s' T' L' pt' /\ n <= table_cost pt 3 /\
    translations_kept (same_page (npt_entries pt) (pme_virtual_addr e)) (ram (mem s)) (ram (mem s')) T /\
    forall va, va / 4096 = pme_virtual_addr e / 4096 ->
      walk (ram (mem s')) 4 (npt_entries pt) va = Some (pme_physical_addr e + va mod 4096)) s.
Proof.
  intros Hli Hok Hi Hv HP Hpt HT Hva Hvm Hpa Hpm Hsz Hc Htop.
  unfold x86_vmem_set. wstep. eapply wpx_load; [exact Hv|].
  rewrite (proj2 (MEM_ALIGN_fix _)), (proj2 (MEM_ALIGN_fix (pme_physical_addr e))), !Z.eqb_refl by done.
  cbn [negb orb]. wstep. eapply wpx_load; [exact Hpt|].
  change PAGE_TABLE_NATIVE_SIZE_SMALL with 4096. rewrite Hsz. change (Z.to_nat 1) with 1%nat.
  cbn [vmem_set_loop]. wstep. wstep.
  eapply wpx_mono; [eapply (set_entry_spec P _ _ _ HP Hva 3); try done; constructor| |done].
  intros u s' H. do 2 wstep. done.
Qed.

Lemma x86_vmem_set_unaligned s v vm e :
  vmems (Machine.vm s) !! v = Some vm ->
  pme_virtual_addr e mod 4096 <> 0 \/ pme_physical_addr e mod 4096 <> 0 ->
  wp (x86_vmem_set v e) (fun ok s' => ok = false /\ s' = s) s.
Proof.
  intros Hv Hne. unfold x86_vmem_set. wstep. eapply wpx_load; [exact Hv|].
  assert (negb (pme_virtual_addr e =? MEM_ALIGN (pme_virtual_addr e)) ||
    negb (pme_physical_addr e =? MEM_ALIGN (pme_physical_addr e)) = true) as ->; [|by wstep].
  apply orb_true_iff. rewrite !negb_true_iff, !Z.eqb_neq.
  pose proof (MEM_ALIGN_fix (pme_virtual_addr e)). pose proof (MEM_ALIGN_fix (pme_physical_addr e)).
  destruct Hne; [left|right]; intros E; symmetry in E; naive_solver.
Qed.

(** A new, empty address space. *)
Lemma x86_vmem_create_spec s T L P v vm :
  lists_inv s L -> alloc_ok (mem s) -> paging_inv s T L P ->
  vmems (Machine.vm s) !! v = Some vm ->
  41024 <= avail s -> heap_top (mem s) + 41024 <= 2 ^ 48 ->
  wp (x86_vmem_create v) (fun ok s' => ok = true /\ exists s1 p r l ns pt,
    (p ∉ P) /\ (L !! l = None) /\ only_paging 41024 s s1 /\
    s' = set_vmems (<[v := mk_vmem (vmem_id vm) p (v_regions vm) (v_map vm) (next_start_address vm)]>
           (vmems (Machine.vm s))) s1 /\
    lists_inv s' (<[l := ns]> L) /\ paging_inv s' (<[r := mk_table r 4 0]> T) (<[l := ns]> L) ({[p]} ∪ P) /\
    npts (paging s') = <[p := pt]> (npts (paging s)) /\ npt_entries pt = r /\ npt_allocated_memory pt = l /\
    (T !! r = None) /\
    (forall a, a < heap_top (mem s) -> ram (mem s') a = ram (mem s) a) /\
    translations_kept (fun _ _ => False) (ram (mem s)) (ram (mem s')) T /\
    forall va, walk (ram (mem s')) 4 r va = None) s.
Proof.
  intros Hli Hok Hi Hv Ha Htop. unfold x86_vmem_create. pose proof (heap_top_pos _ Hok) as Hpos.
  eapply wp_call; [apply (wp_NEW native_page_table_t); [done|cbn; lia]|].
  intros p s1 (-> & m1 & -> & Hq1). cbn in Hq1. pose proof (gr_top _ _ _ (q_grown _ _ _ Hq1)) as Et1.
  pose proof (below_top_fresh _ (pi_below _ _ _ _ Hi)) as Hfr. cbn in Hfr.
  set (p := heap_top (mem s)) in *. nonnull p. cbn [heap set_heap native_page_table_t_struct].
  match goal with |- wp _ _ ?x => set (s1 := x) end.
  assert (only_paging 32 s s1) as Ho1.
  { exists (<[p := zeroed]> (npts (paging s))), (lists s), m1. split; [done|]. split; [apply Hq1|].
    apply roots_kept_insert. intros pt0 Hpt0. congruence. }
  destruct (only_paging_avail _ _ _ Hok Ho1) as [Hok1 Ha1].
  assert (lists_inv s1 L) as Hli1.
  { apply (lists_inv_grown 32 s); [done|apply Hq1|cbn; lia|done]. }
  eapply wp_call; [by eapply linkedlist_create_spec; [|done|lia]|].
  intros l s2 (-> & HLl & Ho2 & Hli2). change (heap_top (mem s1)) with (heap_top m1) in *.
  pose proof (only_lists_quiet _ _ _ Ho2) as Hq2. pose proof (gr_top _ _ _ (q_grown _ _ _ Hq2)) as Et2.
  change (heap_top (mem s1)) with (heap_top m1) in Et2.
  set (l := heap_top m1) in *. assert (paging s2 = paging s1) as Ep2 by (by destruct Ho2 as (? & ? & ? & -> & _)).
  wstep. eapply wpx_update; [cbn; rewrite Ep2; apply lookup_insert_eq|].
  wstep. eapply wpx_load; [cbn; apply lookup_insert_eq|]. cbn [npt_allocated_memory].
  nonnull l. wstep. eapply wpx_update; [cbn; apply lookup_insert_eq|].
  wstep. eapply wpx_update; [cbn; apply lookup_insert_eq|].
  cbn [npt_entries npt_allocated_memory mem_available_addr mem_available_size].
  match goal with |- wpx _ _ _ ?x => set (s3 := x) end.
  assert (npts (paging s3) = <[p := mk_npt 0 l 0 0]> (npts (paging s))) as EN3.
  { cbn. by rewrite !insert_insert_eq, Ep2; cbn; rewrite insert_insert_eq. }
  assert (mem s3 = mem s2) as Em3 by done.
  assert (Machine.vm s3 = Machine.vm s) as Ev3 by (by destruct Ho2 as (? & ? & ? & -> & _)).
  assert (only_paging 48 s s3) as Ho3.
  { apply (only_paging_trans 32 16 _ s1); [done|].
    destruct Ho2 as (H & N & m' & E2 & Hq). exists (npts (paging s3)), (mk_lists H N), m'.
    unfold s3. rewrite E2. split; [done|]. split; [apply Hq|]. rewrite <- E2. fold s3. rewrite EN3.
    intros q pq. change (npts (paging s1)) with (<[p := zeroed]> (npts (paging s))). destruct (decide (p = q)) as [<-|Hne].
    - rewrite !lookup_insert_eq. intros [= <-]. by eexists.
    - rewrite !lookup_insert_ne by done. intros Hq'. by exists pq. }
  destruct (only_paging_avail _ _ _ Hok Ho3) as [Hok3 Ha3].
  assert (forall a, a < p -> ram (mem s3) a = ram (mem s) a) as Hram3.
  { intros a Haa. rewrite Em3, (q_ram _ _ _ Hq2) by (change (heap_top (mem s1)) with l; lia).
    apply (q_ram _ _ _ Hq1). unfold p in *. lia. }
  assert (p ∉ P) as HpP.
  { intros Hin. destruct (pi_objs _ _ _ _ Hi _ Hin) as (_ & x & Hx & _). congruence. }
  assert (heap_top (mem s3) = p + 48) as Et3 by (rewrite Em3; lia).
  set (L2 := <[l := []]> L) in *.
  assert (paging_inv s3 T L2 ({[p]} ∪ P)) as Hi3.
  { eapply (paging_inv_add 48 s); try done; [by apply only_paging_grown|lia|lia]. }
  assert (lists_inv s3 L2) as Hli3 by (by apply (lists_inv_frame s2)).
  eapply wpx_call.
  { eapply (create_entries_spec s3 T L2 ({[p]} ∪ P) p (mk_npt 0 l 0 0)); [done|done|done|set_solver| | |].
    - by rewrite EN3, lookup_insert_eq.
    - change (table_cost _ 1) with 40976. lia.
    - change (table_cost _ 1) with 40976. lia. }
  intros r s4 (ns & pt4 & Ho4 & Hli4 & EN4 & He4 & Hm4 & _ & Hram4 & HTr & Hr0 & Hral & Hrtop & Hz & Hinv).
  change (table_cost _ 1) with 40976 in Ho4. cbn [npt_allocated_memory] in *.
  pose proof (gr_top _ _ _ (only_paging_grown _ _ _ Ho4)) as Et4.
  specialize (Hinv (mk_table r 4 0) ltac:(cbn; lia) (or_intror eq_refl)).
  unfold L2 in Hli4, Hinv. rewrite insert_insert_eq in Hli4, Hinv.
  wstep. eapply wpx_update; [cbn; rewrite EN4; apply lookup_insert_eq|].
  assert (Machine.vm s4 = Machine.vm s) as Ev4.
  { destruct Ho4 as (? & ? & ? & -> & _). by rewrite <- Ev3. }
  wstep. eapply wpx_update; [cbn; rewrite Ev4; exact Hv|]. wstep. split; [done|].
  cbn [heap set_heap vmem_t_struct native_page_table_t_struct].
  set (pt := mk_npt r (npt_allocated_memory pt4) (mem_available_addr pt4) (mem_available_size pt4)).
  match goal with |- context [set_npts ?N s4] => set (s5 := set_npts N s4) in * end.
  assert (npts (paging s5) = <[p := pt]> (npts (paging s))) as EN5.
  { cbn. by rewrite EN4, EN3, !insert_insert_eq. }
  assert (only_paging 41024 s s5) as Ho5.
  { destruct Ho3 as (N3 & Ls3 & m3 & E3 & Hg3 & _). destruct Ho4 as (N & Ls & m' & E4 & Hq & _). exists (npts (paging s5)), Ls, m'.
    split; [unfold s5; rewrite E4, E3; done|]. split.
    - apply (grown_trans 48 40976 _ (mem s3)); [by rewrite E3|done].
    - rewrite EN5. apply roots_kept_insert. intros pt0 Hpt0. congruence. }
  exists s5, p, r, l, ns, pt. change (mem (set_vmems _ s5)) with (mem s4).
  change (npts (paging (set_vmems _ s5))) with (npts (paging s5)).
  assert (forall a, a < p -> ram (mem s4) a = ram (mem s) a) as Hram.
  { intros a Haa. rewrite Hram4 by lia. by apply Hram3. }
  split_and!; try done.
  - change (vmems (Machine.vm s5)) with (vmems (Machine.vm s4)). by rewrite Ev4.
  - apply (lists_inv_frame s4); done.
  - eapply (paging_inv_entries s4); [exact Hinv|by rewrite EN4, lookup_insert_eq|done|].
    change (npts (paging (set_vmems _ s5))) with (npts (paging s5)).
    by rewrite EN5, EN4, EN3, !insert_insert_eq.
  - intros r' va' Hr' Hva' _. pose proof (pi_tables _ _ _ _ Hi) as Hto.
    eapply walk_same; [exact Hto| |by rewrite prefix_4].
    intros c t j Hc Hj. by eapply entry_at_below.
  - intros va. by apply walk_empty.
Qed.
End ops.

(** * Claims *)

(** C2: [native_vmem_set] makes the processor translate the page as asked.  For
    an aligned page, an aligned frame below 2^48 and one page, it returns true;
    afterwards every address of the page is translated to the same offset in the
    frame, and no other address of this address space, and no address of any
    other address space, changes its translation.  The tables still form
    disjoint trees, no memory outside tables changes, and no list but the one
    that records the table buffers of this address space. *)
Theorem native_vmem_set_maps `{K : Kalloc} `{!GoodAlloc K} s T L P v vm pt e :
  lists_inv s L -> alloc_ok (mem s) -> paging_inv s T L P ->
  vmems (Machine.vm s) !! v = Some vm -> native_vmem vm ∈ P ->
  npts (paging s) !! native_vmem vm = Some pt ->
  T !! npt_entries pt = Some (mk_table (npt_entries pt) 4 0) ->
  0 <= pme_virtual_addr e < 2 ^ 48 -> pme_virtual_addr e mod 4096 = 0 ->
  0 <= pme_physical_addr e < 2 ^ 48 -> pme_physical_addr e mod 4096 = 0 ->
  pme_size e / 4096 = 1 ->
  table_cost pt 3 <= avail s -> heap_top (mem s) + table_cost pt 3 <= 2 ^ 48 ->
  exists s' n T' L' pt', native_vmem_set v e s = Ret true s' /\
    paging_step n s T L P (native_vmem vm) pt s' T' L' pt' /\ n <= table_cost pt 3 /\
    (forall va, va / 4096 = pme_virtual_addr e / 4096 ->
      walk (ram (mem s')) 4 (npt_entries pt) va = Some (pme_physical_addr e + va mod 4096)) /\
    (forall r va, T !! r = Some (mk_table r 4 0) -> 0 <= va < 2 ^ 48 ->
      r <> npt_entries pt \/ va / 4096 <> pme_virtual_addr e / 4096 ->
      walk (ram (mem s')) 4 r va = walk (ram (mem s)) 4 r va).
Proof.
  intros H1 H2 H3 H4 H5 H6 H7 H8 H9 H10 H11 H12 H13 H14.
  destruct (wp_inv _ _ _ (x86_vmem_set_spec s T L P v vm pt e H1 H2 H3 H4 H5 H6 H7 H8 H9 H10 H11 H12 H13 H14))
    as (ok & s' & E & -> & n & T' & L' & pt' & Hst & Hn & Hk & Hw).
  exists s', n, T', L', pt'. split_and!; try done. intros r va Hr Hva Hne.
  apply Hk; [done|done|]. unfold same_page. naive_solver.
Qed.

(** A machine with one virtual memory object, and its address space. *)
Definition v_example : Z := 1500000.
Definition s_pg0 : kstate := set_vmems {[v_example := zeroed]} state0.
Definition s_pg : kstate := run (x86_vmem_create (H := bump_alloc) v_example) s_pg0.
Definition e_example : page_map_entry_t := mk_pme 2097152 67108864 4096 0 true.

Lemma s_pg0_inv : lists_inv s_pg0 ∅ /\ paging_inv s_pg0 ∅ ∅ ∅.
Proof.
  split.
  - split; [split; intros *; rewrite lookup_empty; done| | |vm_compute; split; congruence];
      intros p v; cbn; by rewrite lookup_empty.
  - split; [split| | |].
    all: try (intros *; rewrite lookup_empty; done).
    + vm_compute. congruence.
    + intros p Hp. set_solver.
    + intros p q x y Hp. set_solver.
    + intros p v. cbn. by rewrite lookup_empty.
Qed.

Lemma s_pg_created : exists L P T pt,
  lists_inv s_pg L /\ paging_inv s_pg T L P /\ npt_entries pt = 1581056 /\
  T !! npt_entries pt = Some (mk_table (npt_entries pt) 4 0) /\
  npts (paging s_pg) !! 1576960 = Some pt /\ 1576960 ∈ P.
Proof.
  destruct s_pg0_inv as [H1 H2].
  destruct (wp_run _ _ _ (x86_vmem_create_spec (K := bump_alloc) s_pg0 ∅ ∅ ∅ v_example zeroed
    H1 state0_alloc_ok H2 ltac:(done) ltac:(vm_compute; congruence) ltac:(vm_compute; congruence)))
    as (ok & _ & _ & s1 & p & r & l & ns & pt & _ & _ & _ & Es & Hl & Hi & HN & Hr & _ & _ & _).
  change (run (x86_vmem_create v_example) s_pg0) with s_pg in *.
  assert (p = 1576960) as ->.
  { assert (default zeroed (vmems (Machine.vm s_pg) !! v_example) = mk_vmem 0 p 0 0 0) as E.
    { rewrite Es. cbn. by rewrite lookup_insert_eq. }
    assert (native_vmem (default zeroed (vmems (Machine.vm s_pg) !! v_example)) = 1576960) as E'
      by (by vm_compute).
    by rewrite E in E'. }
  assert (npts (paging s_pg) !! 1576960 = Some pt) as Hpt by (by rewrite HN, lookup_insert_eq).
  assert (r = 1581056) as Er.
  { assert (npt_entries (default zeroed (npts (paging s_pg) !! 1576960)) = 1581056) as E'
      by (by vm_compute). rewrite Hpt in E'. cbn in E'. congruence. }
  exists (<[l := ns]> ∅), ({[1576960]} ∪ ∅), (<[r := mk_table r 4 0]> ∅), pt.
  split; [done|]. split; [done|]. split; [congruence|].
  split; [by rewrite Hr, lookup_insert_eq|]. split; [done|set_solver].
Qed.

Lemma native_vmem_set_maps_witness : exists T L P pt s' n T' L' pt',
  native_vmem_set (NativeVmem := x86_native_vmem (H := bump_alloc)) v_example e_example s_pg = Ret true s' /\
  paging_step n s_pg T L P 1576960 pt s' T' L' pt' /\ n <= table_cost pt 3 /\
  (forall va, va / 4096 = 2097152 / 4096 ->
    walk (ram (mem s')) 4 (npt_entries pt) va = Some (67108864 + va mod 4096)) /\
  (forall r va, T !! r = Some (mk_table r 4 0) -> 0 <= va < 2 ^ 48 ->
    r <> npt_entries pt \/ va / 4096 <> 2097152 / 4096 ->
    walk (ram (mem s')) 4 r va = walk (ram (mem s_pg)) 4 r va).
Proof.
  destruct s_pg_created as (L & P & T & pt & Hl & Hi & Er & HT & Hpt & HP).
  assert (table_cost pt 3 <= 40976) as Hc by (unfold table_cost; destruct (_ <? _); lia).
  exists T, L, P, pt.
  refine (native_vmem_set_maps (K := bump_alloc) s_pg T L P v_example (mk_vmem 0 1576960 0 0 0) pt
    e_example Hl _ Hi _ HP Hpt HT _ _ _ _ _ _ _).
  - split; [vm_compute; split; congruence|]. vm_compute. congruence.
  - vm_compute. reflexivity.
  - vm_compute. split; congruence.
  - reflexivity.
  - vm_compute. split; congruence.
  - reflexivity.
  - reflexivity.
  - transitivity 40976; [done|]. vm_compute. congruence.
  - assert (heap_top (mem s_pg) = 1617984) as -> by (by vm_compute). lia.
Defined.

(** The same on the processor: the page is mapped, its neighbour is not. *)
Example s_pg_walk :
  let s' := run (native_vmem_set (NativeVmem := x86_native_vmem (H := bump_alloc)) v_example e_example) s_pg in
  walk (ram (mem s')) 4 1581056 2097169 = Some 67108881 /\
  walk (ram (mem s')) 4 1581056 2101248 = None.
Proof. split; vm_compute; reflexivity. Qed.

(** C16: [native_vmem_create] gives a virtual memory object an empty address
    space of its own: no address is translated through the new root, the tables
    of all other address spaces and their translations are untouched. *)
Theorem native_vmem_create_empty `{K : Kalloc} `{!GoodAlloc K} s T L P v vm :
  lists_inv s L -> alloc_ok (mem s) -> paging_inv s T L P ->
  vmems (Machine.vm s) !! v = Some vm ->
  41024 <= avail s -> heap_top (mem s) + 41024 <= 2 ^ 48 ->
  exists s' p r l ns pt, native_vmem_create v s = Ret true s' /\
    (p ∉ P) /\ (T !! r = None) /\
    vmems (Machine.vm s') =
      <[v := mk_vmem (vmem_id vm) p (v_regions vm) (v_map vm) (next_start_address vm)]> (vmems (Machine.vm s)) /\
    npts (paging s') = <[p := pt]> (npts (paging s)) /\ npt_entries pt = r /\
    lists_inv s' (<[l := ns]> L) /\
    paging_inv s' (<[r := mk_table r 4 0]> T) (<[l := ns]> L) ({[p]} ∪ P) /\
    (forall va, walk (ram (mem s')) 4 r va = None) /\
    (forall r' va, T !! r' = Some (mk_table r' 4 0) -> 0 <= va < 2 ^ 48 ->
      walk (ram (mem s')) 4 r' va = walk (ram (mem s)) 4 r' va).
Proof.
  intros H1 H2 H3 H4 H5 H6.
  destruct (wp_inv _ _ _ (x86_vmem_create_spec s T L P v vm H1 H2 H3 H4 H5 H6))
    as (ok & s' & E & -> & s1 & p & r & l & ns & pt & Hp & _ & _ & -> & Hl & Hi & HN & Hr & _ & HT & _ & Hk & Hw).
  eexists _, p, r, l, ns, pt. split; [exact E|]. split_and!; try done.
  intros r' va Hr' Hva. apply Hk; auto.
Qed.

Lemma native_vmem_create_empty_witness : exists s' p r l ns pt,
  native_vmem_create (NativeVmem := x86_native_vmem (H := bump_alloc)) v_example s_pg0 = Ret true s' /\
  (p ∉ (∅ : gset Z)) /\ ((∅ : gmap Z table) !! r = None) /\
  vmems (Machine.vm s') = <[v_example := mk_vmem 0 p 0 0 0]> {[v_example := zeroed]} /\
  npts (paging s') = <[p := pt]> ∅ /\ npt_entries pt = r /\
  lists_inv s' (<[l := ns]> ∅) /\
  paging_inv s' (<[r := mk_table r 4 0]> ∅) (<[l := ns]> ∅) ({[p]} ∪ ∅) /\
  (forall va, walk (ram (mem s')) 4 r va = None) /\
  (forall r' va, (∅ : gmap Z table) !! r' = Some (mk_table r' 4 0) -> 0 <= va < 2 ^ 48 ->
    walk (ram (mem s')) 4 r' va = walk (ram (mem s_pg0)) 4 r' va).
Proof.
  refine (native_vmem_create_empty (K := bump_alloc) s_pg0 ∅ ∅ ∅ v_example zeroed
    (proj1 s_pg0_inv) state0_alloc_ok (proj2 s_pg0_inv) _ _ _).
  - reflexivity.
  - vm_compute. congruence.
  - vm_compute. congruence.
Defined.

(** [native_vmem_set] rejects a virtual or physical address that is not
    page aligned: it returns false and changes nothing. *)
Theorem native_vmem_set_rejects_unaligned `{Kalloc} s v vm e :
  vmems (Machine.vm s) !! v = Some vm ->
  pme_virtual_addr e mod 4096 <> 0 \/ pme_physical_addr e mod 4096 <> 0 ->
  x86_vmem_set v e s = Ret false s.
Proof.
  intros H1 H2. destruct (wp_inv _ _ _ (x86_vmem_set_unaligned s v vm e H1 H2)) as (ok & s' & E & -> & ->).
  exact E.
Qed.

Lemma native_vmem_set_rejects_unaligned_witness :
  x86_vmem_set (H := bump_alloc) v_example
    (mk_pme 2097153 67108864 4096 0 true) s_pg0 = Ret false s_pg0.
Proof.
  apply (native_vmem_set_rejects_unaligned (H := bump_alloc) s_pg0 v_example zeroed).
  - reflexivity.
  - left. vm_compute. congruence.
Defined.

(** The permissions asked for are ignored.  Whatever [user], [code] and
    [writable] say, [fill_entry_value] leaves an entry that is open to user mode,
    writable and executable; only presence and the frame depend on the call. *)
Theorem fill_entry_ignores_permissions ptr user code writable e :
  let e' := fill_entry ptr user code writable e in
  e' = fill_entry ptr false false false e /\
  PageTable.user e' = true /\ PageTable.writable e' = true /\ executeDisable e' = false.
Proof. cbv zeta. by rewrite !fill_entry_result. Qed.

(** [native_vmem_set] maps one page only.  Asked for 8192 bytes, it sets the
    first page twice; the second page stays unmapped. *)
Theorem native_vmem_set_one_page_only :
  let e := mk_pme 2097152 67108864 8192 0 true in
  let s' := run (native_vmem_set (NativeVmem := x86_native_vmem (H := bump_alloc)) v_example e) s_pg in
  result (native_vmem_set (NativeVmem := x86_native_vmem (H := bump_alloc)) v_example e) s_pg = Some true /\
  walk (ram (mem s')) 4 1581056 2097152 = Some 67108864 /\
  walk (ram (mem s')) 4 1581056 (2097152 + 4096) = None.
Proof. split_and!; vm_compute; reflexivity. Qed.
