(* ===== verification/Vmem.v ===== *)
(** core/src/vmem/services.c: virtual memory areas.

    A [vmem_t] keeps the list of its regions, the list of its page maps (the
    software view) and a page table made through the hardware interface (the
    hardware view). *)
From S2P Require Import Prelude Machine Logic LinkedList IdMapper NativeVmem.

(** * Definitions *)
Section code.
Context `{Kalloc} `{NativeVmem} `{Layout}.

Definition vmem_get_kernel : M Z := gets (fun s => kernel_vmem (vm s)).

Definition vmem_get (vmem_id : Z) : M Z := id_mapper_get a_vmem_id_mapper vmem_id.

Definition vmem_destroy (vmem : Z) : M unit :=
  if isnull vmem then mret tt
  else
    v ← load vmem; linkedlist_destroy (v_regions v);;
    v ← load vmem; linkedlist_destroy (v_map v);;
    kfree vmem.

(** The [page_map_entry_t] of a page of a region. *)
Definition page_map_entry (r : vmem_region_t) (paddr vaddr : Z) : page_map_entry_t :=
  let permission := 0 in
  let permission := PERM_SET_KERNEL_MODE permission (negb (r_user r)) in
  let permission := PERM_SET_WRITE permission (r_writable r) in
  let permission := PERM_SET_EXEC permission (r_executable r) in
  let permission := PERM_SET_READ permission true in
  mk_pme vaddr paddr SYSTEM_PAGE_SIZE permission true.

Definition vmem_notify_change (vmem region paddr vaddr : Z) : M bool :=
  map ← NEW vmem_map_t;
  if isnull map then mret false
  else
    update map (fun m => mk_map (map_virtual_addr m) paddr (map_region m));;
    update map (fun m => mk_map vaddr (map_physical_addr m) (map_region m));;
    update map (fun m => mk_map (map_virtual_addr m) (map_physical_addr m) region);;
    v ← load vmem;
    ok ← linkedlist_append (v_map v) map;
    if negb ok then mret false
    else
      m ← load map;
      r ← load (map_region m);
      native_vmem_set vmem (page_map_entry r paddr vaddr);;
      mret true.

Definition vmem_get_physical_address (vmem vaddr : Z) : M Z :=
  let aligned := MEM_ALIGN vaddr in
  let shifting := vaddr ⊟ aligned in
  v ← load vmem;
  r ← while_linkedlist_iter (v_map v) tt (fun map _ =>
    m ← load map;
    if map_virtual_addr m =? aligned then mret (inr (map_physical_addr m ⊞ shifting))
    else mret (inl tt));
  match r with
  | inr paddr => mret paddr
  | inl _ => mret 0
  end.

(** [error:] of [vmem_attach] *)
Definition vmem_attach_error (vmem vmem_region : Z) : M bool :=
  v ← load vmem; linkedlist_remove_element (v_regions v) vmem_region;;
  r ← load vmem_region; linkedlist_remove_element (r_attached r) vmem;;
  mret false.

Definition vmem_attach (vmem vmem_region : Z) : M bool :=
  if isnull vmem || isnull vmem_region then mret false
  else
    v ← load vmem;
    i ← linkedlist_find (v_regions v) vmem_region;
    if negb (i =? -1) then mret true
    else
      v ← load vmem;
      ok ← linkedlist_append (v_regions v) vmem_region;
      if negb ok then vmem_attach_error vmem vmem_region
      else
        r ← load vmem_region;
        ok ← linkedlist_append (r_attached r) vmem;
        if negb ok then vmem_attach_error vmem vmem_region
        else
          r ← load vmem_region;
          res ← while_linkedlist_iter (r_pages r) (r_start r) (fun paddr vaddr =>
            ok ← vmem_notify_change vmem vmem_region paddr vaddr;
            if negb ok then mret (inr tt)
            else mret (inl (vaddr ⊞ SYSTEM_PAGE_SIZE)));
          match res with
          | inr _ => vmem_attach_error vmem vmem_region
          | inl _ => mret true
          end.

Definition vmem_create : M Z :=
  vmem ← NEW vmem_t;
  if isnull vmem then mret NULL
  else
    update vmem (fun v => mk_vmem (vmem_id v) (native_vmem v) (v_regions v) (v_map v) REGION_ADDRESS_INCREMENT);;
    l ← linkedlist_create;
    update vmem (fun v => mk_vmem (vmem_id v) (native_vmem v) l (v_map v) (next_start_address v));;
    l ← linkedlist_create;
    update vmem (fun v => mk_vmem (vmem_id v) (native_vmem v) (v_regions v) l (next_start_address v));;
    ok ← native_vmem_create vmem;
    let error := vmem_destroy vmem;; mret NULL in
    if negb ok then error
    else
      kernel_vmem ← vmem_get_kernel;
      attached ← (if isnull kernel_vmem then mret (inl tt)
                  else
                    kv ← load kernel_vmem;
                    while_linkedlist_iter (v_regions kv) tt (fun vmem_region _ =>
                      ok ← vmem_attach vmem vmem_region;
                      if negb ok then mret (inr tt) else mret (inl tt)));
      match attached with
      | inr _ => error
      | inl _ =>
          id ← id_mapper_add a_vmem_id_mapper vmem;
          update vmem (fun v => mk_vmem id (native_vmem v) (v_regions v) (v_map v) (next_start_address v));;
          v ← load vmem;
          if isnull (vmem_id v) then error else mret vmem
      end.

Definition vmem_initialize : M bool :=
  m ← id_mapper_create a_vmem_id_mapper;
  if isnull m then mret false
  else
    v ← vmem_create;
    modify (set_kernel_vmem v);;
    mret true.
End code.
