(* ===== verification/Region.v ===== *)
(** core/src/vmem/region_services.c: regions of virtual memory.

    A region is a range of virtual addresses backed by a list of physical pages,
    attached to virtual memory areas.  The virtual address of page [i] is
    [start + i * 4096] in every area. *)
From S2P Require Import Prelude Machine Logic LinkedList IdMapper Pmem NativeVmem Vmem.

(** * Definitions *)
Section code.
Context `{Kalloc} `{NativeVmem} `{Layout}.

Definition vmem_region_initialize : M bool :=
  m ← id_mapper_create a_vmem_region_mapper;
  mret (negb (isnull m)).

Definition vmem_region_current_size (vmem_region : Z) : M Z :=
  if isnull vmem_region then mret 0 else r ← load vmem_region; mret (r_size r).

(** [vmem_region->size = v] and [vmem_region->allocated_size = v] *)
Definition set_r_size (v : Z) (r : vmem_region_t) : vmem_region_t :=
  mk_region (vmem_region_id r) (r_attached r) (r_name r) (r_start r) v (allocated_size r)
    (r_user r) (r_writable r) (r_executable r) (r_pages r).
Definition set_allocated_size (v : Z) (r : vmem_region_t) : vmem_region_t :=
  mk_region (vmem_region_id r) (r_attached r) (r_name r) (r_start r) (r_size r) v
    (r_user r) (r_writable r) (r_executable r) (r_pages r).

Definition vmem_region_assoc_physical_address (vmem_region paddr : Z) : M Z :=
  r ← load vmem_region;
  let vaddr := r_start r ⊞ allocated_size r in
  update vmem_region (fun r => set_allocated_size (allocated_size r ⊞ SYSTEM_PAGE_SIZE) r);;
  r ← load vmem_region;
  linkedlist_append (r_pages r) paddr;;
  r ← load vmem_region;
  res ← while_linkedlist_iter (r_attached r) tt (fun vmem _ =>
    ok ← vmem_notify_change vmem vmem_region paddr vaddr;
    if negb ok then mret (inr 0) else mret (inl tt));
  match res with
  | inr v => mret v
  | inl _ => mret vaddr
  end.

Definition flush_if_required : M unit := native_vmem_flush.

(** [while (remaining > 0)]; for a multiple of the page size, as the caller has
    checked, [remaining / SYSTEM_PAGE_SIZE] iterations.  [inr] leaves the function. *)
Fixpoint map_physical_loop (fuel : nat) (vmem_region physical_start_addr paddr remaining returning_addr : Z) :
    M (Z + Z) :=
  match fuel with
  | O => out_of_fuel
  | S fuel' =>
      if negb (0 <? remaining) then mret (inl returning_addr)
      else
        vaddr ← vmem_region_assoc_physical_address vmem_region paddr;
        if isnull vaddr then mret (inr 0)
        else
          let returning_addr := if paddr =? physical_start_addr then vaddr else returning_addr in
          update vmem_region (fun r => set_r_size (allocated_size r) r);;
          map_physical_loop fuel' vmem_region physical_start_addr (paddr ⊞ SYSTEM_PAGE_SIZE)
            (remaining ⊟ SYSTEM_PAGE_SIZE) returning_addr
  end.

(** Iterations of a loop that counts [n] bytes down by pages, and one test. *)
Definition page_fuel (n : Z) : nat := S (Z.to_nat (n / SYSTEM_PAGE_SIZE)).

Definition vmem_region_map_physical_address (vmem_region physical_start_addr size : Z) : M Z :=
  if isnull vmem_region then mret 0
  else if negb (physical_start_addr =? MEM_ALIGN physical_start_addr) || negb (size =? MEM_ALIGN size)
  then mret 0
  else
    res ← map_physical_loop (page_fuel size) vmem_region physical_start_addr physical_start_addr size 0;
    match res with
    | inr v => mret v
    | inl returning_addr => flush_if_required;; mret returning_addr
    end.

Definition find_next_memory_address (vmem : Z) : M Z :=
  v ← load vmem;
  let addr := next_start_address v in
  update vmem (fun v => mk_vmem (vmem_id v) (native_vmem v) (v_regions v) (v_map v)
    (next_start_address v ⊞ REGION_ADDRESS_INCREMENT));;
  mret addr.

(** [while (remain_space > 0)]; true when [pmem_allocate] failed. *)
Fixpoint resize_loop (fuel : nat) (vmem_region remain_space : Z) : M bool :=
  match fuel with
  | O => out_of_fuel
  | S fuel' =>
      if negb (0 <? remain_space) then mret false
      else
        paddr ← pmem_allocate;
        if isnull paddr then mret true
        else
          vmem_region_assoc_physical_address vmem_region paddr;;
          resize_loop fuel' vmem_region (remain_space ⊟ SYSTEM_PAGE_SIZE)
  end.

Definition vmem_region_resize (vmem_region new_size : Z) : M bool :=
  if isnull vmem_region then mret false
  else
    let new_allocated_size := ALIGN_NEXT new_size SYSTEM_PAGE_SIZE in
    r ← load vmem_region;
    failure ← (if new_allocated_size <? allocated_size r
               then update vmem_region (set_r_size new_size);; mret false
               else
                 let remain_space := new_allocated_size ⊟ allocated_size r in
                 resize_loop (page_fuel remain_space) vmem_region remain_space);
    r ← load vmem_region;
    (if new_size <=? allocated_size r then update vmem_region (set_r_size new_size) else mret tt);;
    flush_if_required;;
    mret (negb failure).

(** [error:] of [vmem_region_create] *)
Definition vmem_region_create_error (vmem_region : Z) : M Z :=
  r ← load vmem_region; linkedlist_destroy (r_attached r);;
  r ← load vmem_region; linkedlist_destroy (r_pages r);;
  kfree vmem_region;;
  mret NULL.

Definition vmem_region_create (vmem : Z) (name : cstring) (start size : Z)
    (user writable executable : bool) : M Z :=
  match name with
  | None => mret NULL
  | Some _ =>
    if isnull vmem then mret NULL
    else
      start ← (if start =? 0 then find_next_memory_address vmem else mret start);
      if negb (MEM_ALIGN start =? start) then mret NULL
      else
        vmem_region ← NEW vmem_region_t;
        if isnull vmem_region then mret NULL
        else
          update vmem_region (fun r => mk_region (vmem_region_id r) (r_attached r) name start 0 0
            user writable executable (r_pages r));;
          l ← linkedlist_create;
          update vmem_region (fun r => mk_region (vmem_region_id r) (r_attached r) (r_name r) (r_start r)
            (r_size r) (allocated_size r) (r_user r) (r_writable r) (r_executable r) l);;
          l ← linkedlist_create;
          update vmem_region (fun r => mk_region (vmem_region_id r) l (r_name r) (r_start r)
            (r_size r) (allocated_size r) (r_user r) (r_writable r) (r_executable r) (r_pages r));;
          ok ← vmem_attach vmem vmem_region;
          if negb ok then vmem_region_create_error vmem_region
          else
            ok ← vmem_region_resize vmem_region size;
            if negb ok then vmem_region_create_error vmem_region
            else
              id ← id_mapper_add a_vmem_region_mapper vmem_region;
              update vmem_region (fun r => mk_region id (r_attached r) (r_name r) (r_start r)
                (r_size r) (allocated_size r) (r_user r) (r_writable r) (r_executable r) (r_pages r));;
              r ← load vmem_region;
              if isnull (vmem_region_id r) then vmem_region_create_error vmem_region
              else mret vmem_region
  end.
End code.
