(* ===== verification/VmInv.v ===== *)
(** The invariant of virtual memory: what the lists of regions, maps, pages and
    attachments mean, and that the page tables agree with them.

    [vm_inv s G]: in state [s], the kernel's lists, id mappers, page tables,
    virtual memory areas and regions are those of the ghost state [G]; in every
    area the translation of the processor is exactly the list of maps, and every
    page of a region is mapped in every area the region is attached to. *)
From S2P Require Import Prelude Machine Logic LinkedList IdMapper NativeVmem PageTable NativePaging Vmem.

(** * Ghost state *)

(** The one use of every list. *)
Inductive role :=
  | RRegions (vmem : Z) | RMap (vmem : Z) | RAttached (region : Z) | RPages (region : Z)
  | RBuffers (pt : Z) | RMapper (mapper : Z) | ROther.

Record vghost := mk_vg { vg_regions : list Z; vg_maps : list vmem_map_t }.
Record rghost := mk_rg { rg_attached : list Z; rg_pages : list Z }.

Record ghost := mk_ghost {
  gL : gmap Z (list (Z * Z)); gRo : gmap Z role; gT : gmap Z table; gP : gset Z;
  gI : gmap Z idm; gV : gmap Z vghost; gR : gmap Z rghost }.

(** The translation a list of maps stands for; the code takes the first match. *)
Fixpoint lookup_map (ms : list vmem_map_t) (va : Z) : option Z :=
  match ms with
  | [] => None
  | m :: ms' =>
      if map_virtual_addr m =? va / 4096 * 4096
      then Some (map_physical_addr m + va mod 4096) else lookup_map ms' va
  end.

Definition page_ok (a : Z) : Prop := 0 <= a < 2 ^ 48 /\ a mod 4096 = 0.
Definition map_ok (m : vmem_map_t) : Prop := page_ok (map_virtual_addr m) /\ page_ok (map_physical_addr m).

(** The list [l] has the role [ro] and the values [xs]. *)
Definition role_list (G : ghost) (l : Z) (ro : role) (xs : list Z) : Prop :=
  gRo G !! l = Some ro /\ exists ns, gL G !! l = Some ns /\ values ns = xs.

(** Lists that are not those of virtual memory are kept. *)
Definition others_kept (G G' : ghost) : Prop :=
  forall l, gRo G !! l = Some ROther -> gRo G' !! l = Some ROther /\ gL G' !! l = gL G !! l.

Lemma others_kept_refl G : others_kept G G.
Proof. intros l Hl. done. Qed.

Lemma others_kept_trans G1 G2 G3 : others_kept G1 G2 -> others_kept G2 G3 -> others_kept G1 G3.
Proof. intros H1 H2 l Hl. destruct (H1 l Hl) as [Hl2 E2]. destruct (H2 l Hl2) as [? ?]. split; [done|congruence]. Qed.

Record vmem_repr (s : kstate) (G : ghost) (v : Z) (g : vghost)
    (vm : vmem_t) (pt : native_page_table_t) : Prop := {
  vr_ptr : v <> 0;
  vr_vm : vmems (Machine.vm s) !! v = Some vm;
  vr_pt : npts (paging s) !! native_vmem vm = Some pt;
  vr_P : native_vmem vm ∈ gP G;
  vr_root : gT G !! npt_entries pt = Some (mk_table (npt_entries pt) 4 0);
  vr_regions : role_list G (v_regions vm) (RRegions v) (vg_regions g);
  vr_map : exists ps, role_list G (v_map vm) (RMap v) ps /\
    Forall2 (fun p m => p <> 0 /\ maps (Machine.vm s) !! p = Some m) ps (vg_maps g);
  vr_maps : Forall map_ok (vg_maps g);
  vr_nodup : NoDup (map_virtual_addr <$> vg_maps g);
  vr_agree va : 0 <= va < 2 ^ 48 -> walk (ram (mem s)) 4 (npt_entries pt) va = lookup_map (vg_maps g) va }.

Record region_repr (s : kstate) (G : ghost) (r : Z) (g : rghost) (R : vmem_region_t) : Prop := {
  rr_ptr : r <> 0;
  rr_R : regions (Machine.vm s) !! r = Some R;
  rr_attached : role_list G (r_attached R) (RAttached r) (rg_attached g);
  rr_nodup : NoDup (rg_attached g);
  rr_pages : role_list G (r_pages R) (RPages r) (rg_pages g);
  rr_paddrs : Forall (fun p => page_ok p /\ p <> 0) (rg_pages g);
  rr_alloc : allocated_size R = 4096 * Z.of_nat (length (rg_pages g));
  rr_start : page_ok (r_start R) /\ 0 < r_start R;
  rr_end : r_start R + allocated_size R <= 2 ^ 48;
  rr_size : 0 <= r_size R <= allocated_size R;
  rr_maps v i p : v ∈ rg_attached g -> rg_pages g !! i = Some p ->
    exists gv, gV G !! v = Some gv /\ mk_map (r_start R + 4096 * Z.of_nat i) p r ∈ vg_maps gv;
  rr_known v : v ∈ rg_attached g -> v <> 0 /\ is_Some (gV G !! v) }.

Record vm_inv (s : kstate) (G : ghost) : Prop := {
  vi_lists : lists_inv s (gL G);
  vi_roles l ro : gRo G !! l = Some ro -> is_Some (gL G !! l);
  vi_ids : ids_inv s (gL G) (gI G);
  vi_mappers p g : gI G !! p = Some g -> gRo G !! g_list g = Some (RMapper p);
  vi_paging : paging_inv s (gT G) (gL G) (gP G);
  vi_buffers p pt : p ∈ gP G -> npts (paging s) !! p = Some pt ->
    gRo G !! npt_allocated_memory pt = Some (RBuffers p);
  vi_alloc : alloc_ok (mem s);
  vi_vmems v g : gV G !! v = Some g -> exists vm pt, vmem_repr s G v g vm pt;
  vi_spaces v w g h vm1 vm2 pt1 pt2 : v <> w ->
    gV G !! v = Some g -> gV G !! w = Some h ->
    vmems (Machine.vm s) !! v = Some vm1 -> vmems (Machine.vm s) !! w = Some vm2 ->
    npts (paging s) !! native_vmem vm1 = Some pt1 -> npts (paging s) !! native_vmem vm2 = Some pt2 ->
    native_vmem vm1 <> native_vmem vm2 /\ npt_entries pt1 <> npt_entries pt2;
  vi_regions r g : gR G !! r = Some g -> exists R, region_repr s G r g R;
  vi_below_v : below vmem_t s;
  vi_below_r : below vmem_region_t s;
  vi_below_m : below vmem_map_t s }.

(** ** Lookups in maps *)

Lemma lookup_map_app ms m va :
  lookup_map (ms ++ [m]) va =
    match lookup_map ms va with
    | Some x => Some x
    | None => if map_virtual_addr m =? va / 4096 * 4096 then Some (map_physical_addr m + va mod 4096) else None
    end.
Proof. induction ms as [|x ms IH]; cbn; [done|]. rewrite IH. by destruct (map_virtual_addr x =? _). Qed.

Lemma lookup_map_None ms va :
  va / 4096 * 4096 ∉ map_virtual_addr <$> ms -> lookup_map ms va = None.
Proof.
  induction ms as [|m ms IH]; [done|]. rewrite fmap_cons. intros [Hne Hn]%not_elem_of_cons. cbn.
  destruct (Z.eqb_spec (map_virtual_addr m) (va / 4096 * 4096)) as [E|]; [by destruct Hne|auto].
Qed.

Lemma lookup_map_Some ms m va :
  NoDup (map_virtual_addr <$> ms) -> m ∈ ms -> map_virtual_addr m = va / 4096 * 4096 ->
  lookup_map ms va = Some (map_physical_addr m + va mod 4096).
Proof.
  induction ms as [|x ms IH]; [set_solver|]. rewrite fmap_cons.
  intros [Hn Hd]%NoDup_cons [->|Hm]%elem_of_cons Ev; cbn.
  - by rewrite Ev, Z.eqb_refl.
  - destruct (Z.eqb_spec (map_virtual_addr x) (va / 4096 * 4096)) as [E|]; [|auto].
    destruct Hn. rewrite E, <- Ev. apply list_elem_of_fmap. eauto.
Qed.

Lemma page_base va a : a mod 4096 = 0 -> va / 4096 = a / 4096 <-> va / 4096 * 4096 = a.
Proof. intros Ha. pose proof (Z.div_mod a 4096). lia. Qed.

(** ** Framing *)

Lemma role_list_frame G G' l ro xs :
  gRo G ⊆ gRo G' -> gL G' !! l = gL G !! l -> role_list G l ro xs -> role_list G' l ro xs.
Proof.
  intros Hro HL [Hr (ns & Hns & Hv)]. split; [by eapply lookup_weaken|]. exists ns. by rewrite HL.
Qed.

(** An area that nothing happened to. *)
Lemma vmem_repr_frame s s' G G' v g vm pt :
  vmem_repr s G v g vm pt ->
  vmems (Machine.vm s') !! v = vmems (Machine.vm s) !! v ->
  (exists pt', npts (paging s') !! native_vmem vm = Some pt' /\ npt_entries pt' = npt_entries pt) ->
  maps (Machine.vm s) ⊆ maps (Machine.vm s') ->
  gP G ⊆ gP G' -> gT G ⊆ gT G' -> gRo G ⊆ gRo G' ->
  (forall l, gRo G !! l = Some (RRegions v) \/ gRo G !! l = Some (RMap v) -> gL G' !! l = gL G !! l) ->
  (forall va, 0 <= va < 2 ^ 48 ->
     walk (ram (mem s')) 4 (npt_entries pt) va = walk (ram (mem s)) 4 (npt_entries pt) va) ->
  exists pt', vmem_repr s' G' v g vm pt' /\ npt_entries pt' = npt_entries pt.
Proof.
  intros [] Hv (pt' & Hpt' & He) Hm HP HT Hro HL Hw. exists pt'. split; [|done]. split; auto.
  - by rewrite Hv.
  - rewrite He. by eapply lookup_weaken.
  - eapply role_list_frame; [done| |done]. apply HL. left. apply vr_regions0.
  - destruct vr_map0 as (ps & Hps & Hf). exists ps. split.
    + eapply role_list_frame; [done| |done]. apply HL. right. apply Hps.
    + eapply Forall2_impl; [done|]. intros p m [? Hp]. split; [done|]. by eapply lookup_weaken.
  - intros va Hva. by rewrite He, Hw, vr_agree0.
Qed.

(** A region that nothing happened to; areas may have got more maps. *)
Lemma region_repr_frame s s' G G' r g R :
  region_repr s G r g R ->
  regions (Machine.vm s') !! r = regions (Machine.vm s) !! r ->
  gRo G ⊆ gRo G' ->
  (forall l, gRo G !! l = Some (RAttached r) \/ gRo G !! l = Some (RPages r) -> gL G' !! l = gL G !! l) ->
  (forall v gv, gV G !! v = Some gv -> exists gv', gV G' !! v = Some gv' /\ vg_maps gv ⊆ vg_maps gv') ->
  region_repr s' G' r g R.
Proof.
  intros [] HR Hro HL HV. split; auto.
  - by rewrite HR.
  - eapply role_list_frame; [done| |done]. apply HL. left. apply rr_attached0.
  - eapply role_list_frame; [done| |done]. apply HL. right. apply rr_pages0.
  - intros v i p Hv Hp. destruct (rr_maps0 v i p Hv Hp) as (gv & Hgv & Hin).
    destruct (HV _ _ Hgv) as (gv' & Hgv' & Hsub). exists gv'. split; [done|]. by apply Hsub.
  - intros v Hv. destruct (rr_known0 v Hv) as [? [gv Hgv]]. split; [done|].
    destruct (HV _ _ Hgv) as (gv' & Hgv' & _). eauto.
Qed.

(** ** Taking a region out of the invariant and putting it back *)

Definition with_R (h : gmap Z rghost) (G : ghost) : ghost :=
  mk_ghost (gL G) (gRo G) (gT G) (gP G) (gI G) (gV G) h.
Definition with_L (h : gmap Z (list (Z * Z))) (G : ghost) : ghost :=
  mk_ghost h (gRo G) (gT G) (gP G) (gI G) (gV G) (gR G).

Lemma vm_inv_with_R s G h :
  vm_inv s G -> (forall r g, h !! r = Some g -> exists R, region_repr s G r g R) -> vm_inv s (with_R h G).
Proof.
  intros Hi Hh. destruct Hi. split; try done.
  - intros v g Hv. destruct (vi_vmems0 _ _ Hv) as (vm & pt & []). exists vm, pt. by split.
  - intros r g Hr. destruct (Hh _ _ Hr) as (R & []). exists R. by split.
Qed.

Lemma vm_inv_drop s G r : vm_inv s G -> vm_inv s (with_R (delete r (gR G)) G).
Proof.
  intros Hi. apply vm_inv_with_R; [done|]. intros r' g [_ Hr]%lookup_delete_Some. by eapply vi_regions.
Qed.

Lemma vm_inv_put s G r g R h :
  vm_inv s (with_R h G) -> h !! r = None -> region_repr s G r g R -> vm_inv s (with_R (<[r := g]> h) G).
Proof.
  intros Hi Hh HR. change (with_R (<[r := g]> h) G) with (with_R (<[r := g]> h) (with_R h G)).
  apply vm_inv_with_R; [done|]. intros r' g' [[<- <-]|[_ Hr]]%lookup_insert_Some.
  - exists R. by destruct HR; split.
  - by eapply (vi_regions _ _ Hi).
Qed.

(** A region out of the invariant may be rewritten. *)
Lemma vm_inv_set_region s G r R :
  vm_inv s G -> gR G !! r = None -> is_Some (regions (Machine.vm s) !! r) ->
  vm_inv (set_regions (<[r := R]> (regions (Machine.vm s))) s) G.
Proof.
  intros [] Hr [R0 HR0]. split; try done.
  - apply (lists_inv_frame s); done.
  - eapply (ids_inv_frame 0 s); [done|apply grown_refl|done|done].
  - destruct vi_paging0 as [? Hobj ? ?]. split; try done. intros p Hp.
    destruct (Hobj _ Hp) as (? & pt & ? & []). split; [done|]. exists pt. split; [done|]. by split.
  - intros v g Hv. destruct (vi_vmems0 _ _ Hv) as (vm & pt & []). exists vm, pt. by split.
  - intros r' g Hr'. destruct (vi_regions0 _ _ Hr') as (R' & []). exists R'. split; try done.
    cbn. rewrite lookup_insert_ne; [done|congruence].
  - intros q x. cbn. intros [[<- _]|[_ Hx]]%lookup_insert_Some.
    + by apply (vi_below_r0 _ _ HR0).
    + by apply (vi_below_r0 _ _ Hx).
Qed.

(** Rewriting a list whose owner is not in the invariant. *)
Lemma vm_inv_set_list n s s' G l ns :
  vm_inv s G -> only_lists n s s' -> lists_inv s' (<[l := ns]> (gL G)) -> heap_top (mem s') <= 2 ^ 48 ->
  (forall m, gRo G !! l <> Some (RMapper m)) ->
  (forall v, is_Some (gV G !! v) -> gRo G !! l <> Some (RRegions v) /\ gRo G !! l <> Some (RMap v)) ->
  (forall r, is_Some (gR G !! r) -> gRo G !! l <> Some (RAttached r) /\ gRo G !! l <> Some (RPages r)) ->
  vm_inv s' (with_L (<[l := ns]> (gL G)) G).
Proof.
  intros Hi Ho Hl Htop HM HV HR. pose proof (only_lists_quiet _ _ _ Ho) as Hq.
  pose proof (q_grown _ _ _ Hq) as Hg.
  assert (ids s' = ids s /\ Machine.vm s' = Machine.vm s /\ paging s' = paging s) as (Eids & Evm & Ep)
    by (by destruct Ho as (? & ? & ? & -> & _)).
  assert (forall l', is_Some (gL G !! l') -> is_Some ((<[l := ns]> (gL G)) !! l')) as HL.
  { intros l' Hl'. destruct (decide (l = l')) as [<-|]; [rewrite lookup_insert_eq; eauto|by rewrite lookup_insert_ne]. }
  split; cbn [with_L gL gRo gT gP gI gV gR].
  - done.
  - intros l' ro Hro. apply HL. by eapply vi_roles.
  - eapply ids_inv_frame; [exact Eids|exact Hg| |apply Hi]. intros p g Hp.
    apply lookup_insert_ne. intros ->. apply (HM p). by eapply vi_mappers.
  - apply Hi.
  - eapply (paging_inv_quiet n s); [apply Hi|done|by rewrite Ep|done|done].
  - rewrite Ep. apply Hi.
  - eapply grown_alloc_ok; [done|apply Hi].
  - intros v g Hv. destruct (vi_vmems _ _ Hi _ _ Hv) as (vm & pt & Hr).
    edestruct (vmem_repr_frame s s' G (with_L (<[l := ns]> (gL G)) G)) as (pt3 & Hr3 & _);
      [exact Hr|by rewrite Evm| |by rewrite Evm|reflexivity|reflexivity|reflexivity| | |].
    + exists pt. rewrite Ep. split; [apply Hr|done].
    + intros l' Hro. cbn. apply lookup_insert_ne. intros <-. destruct (HV v); [eauto|]. tauto.
    + intros va Hva. eapply (walk_quiet n s); [apply Hi|done|apply Hr|done].
    + exists vm, pt3. exact Hr3.
  - rewrite Evm, Ep. apply Hi.
  - intros r g Hr. destruct (vi_regions _ _ Hi _ _ Hr) as (R & HRr). exists R.
    eapply (region_repr_frame s s' G); [exact HRr|by rewrite Evm|reflexivity| |].
    + intros l' Hro. cbn. apply lookup_insert_ne. intros <-. destruct (HR r); [eauto|]. tauto.
    + intros v gv Hgv. exists gv. split; [exact Hgv|done].
  - eapply below_grown; [done| |apply Hi]. cbn. by rewrite Evm.
  - eapply below_grown; [done| |apply Hi]. cbn. by rewrite Evm.
  - eapply below_grown; [done| |apply Hi]. cbn. by rewrite Evm.
Qed.

(** The invariant does not depend on physical pages, tasks or the page-table base. *)
Lemma vm_inv_ext s s' G :
  mem s' = mem s -> lists s' = lists s -> ids s' = ids s -> Machine.vm s' = Machine.vm s ->
  npts (paging s') = npts (paging s) -> vm_inv s G -> vm_inv s' G.
Proof.
  intros Em El Ei Ev En Hi.
  assert (quiet 0 (mem s) (mem s')) as Hq by (rewrite Em; apply quiet_refl).
  split.
  - apply (lists_inv_frame s); [done|done|apply Hi].
  - apply Hi.
  - eapply (ids_inv_frame 0 s); [done|apply Hq|done|apply Hi].
  - apply Hi.
  - eapply (paging_inv_quiet 0 s); [apply Hi|done|done|done|].
    rewrite Em. apply (vi_paging _ _ Hi).
  - rewrite En. apply Hi.
  - rewrite Em. apply Hi.
  - intros v g Hv. destruct (vi_vmems _ _ Hi _ _ Hv) as (vm & pt & []). exists vm, pt.
    split; rewrite ?Ev, ?En, ?Em; done.
  - rewrite Ev, En. apply Hi.
  - intros r g Hr. destruct (vi_regions _ _ Hi _ _ Hr) as (R & []). exists R. split; rewrite ?Ev; done.
  - eapply below_grown; [apply Hq| |apply Hi]. cbn. by rewrite Ev.
  - eapply below_grown; [apply Hq| |apply Hi]. cbn. by rewrite Ev.
  - eapply below_grown; [apply Hq| |apply Hi]. cbn. by rewrite Ev.
Qed.

(** Rewriting the list of regions of an area. *)
Lemma vm_inv_set_regions n s s' G v g vm pt ns :
  vm_inv s G -> gV G !! v = Some g -> vmem_repr s G v g vm pt ->
  only_lists n s s' -> lists_inv s' (<[v_regions vm := ns]> (gL G)) -> heap_top (mem s') <= 2 ^ 48 ->
  vm_inv s' (mk_ghost (<[v_regions vm := ns]> (gL G)) (gRo G) (gT G) (gP G) (gI G)
    (<[v := mk_vg (values ns) (vg_maps g)]> (gV G)) (gR G)).
Proof.
  intros Hi Hv Hr Ho Hl Htop. destruct (vr_regions _ _ _ _ _ _ Hr) as [Hro _].
  (* take the area out, rewrite its list, put it back *)
  set (G0 := mk_ghost (gL G) (gRo G) (gT G) (gP G) (gI G) (delete v (gV G)) ∅).
  assert (vm_inv s G0) as Hi0.
  { destruct Hi. split; try done; cbn [G0 gV].
    - intros w h [_ Hw]%lookup_delete_Some. destruct (vi_vmems0 _ _ Hw) as (x & y & []). exists x, y. by split.
    - intros v1 v2 h1 h2 x1 x2 y1 y2 Hne [_ H1]%lookup_delete_Some [_ H2]%lookup_delete_Some.
      by eapply (vi_spaces0 v1 v2). }
  assert (vm_inv s' (with_L (<[v_regions vm := ns]> (gL G)) G0)) as Hi1.
  { apply (vm_inv_set_list n s s' G0); try done; cbn; [congruence| |].
    - intros w Hw. rewrite Hro. split; [|done]. intros [= <-]. rewrite lookup_delete_eq in Hw. by destruct Hw.
    - intros r Hr'. rewrite lookup_empty in Hr'. by destruct Hr'. }
  pose proof (only_lists_quiet _ _ _ Ho) as Hq.
  assert (Machine.vm s' = Machine.vm s /\ paging s' = paging s) as (Evm & Ep)
    by (by destruct Ho as (? & ? & ? & -> & _)).
  destruct Hi1 as [F1 F2 F3 F4 F5 F6 F7 F8 F9 F10 F11 F12 F13].
  split; [exact F1|exact F2|exact F3|exact F4|exact F5|exact F6|exact F7| | | |exact F11|exact F12|exact F13];
    cbn [gV gR gL gRo gT gP gI].
  - intros w h [[<- <-]|[Hne Hw]]%lookup_insert_Some.
    + exists vm, pt. destruct Hr as [V1 V2 V3 V4 V5 V6 V7 V8 V9 V10].
      split; rewrite ?Evm, ?Ep;
        [exact V1|exact V2|exact V3|exact V4|exact V5| | |exact V8|exact V9|].
      * split; [exact Hro|]. exists ns. split; [apply lookup_insert_eq|reflexivity].
      * destruct V7 as (ps & Hps & Hf). exists ps. split; [|exact Hf].
        apply (role_list_frame G); [reflexivity| |exact Hps]. cbn. apply lookup_insert_ne.
        destruct Hps as [Hrom _]. intros E. rewrite E in Hro. congruence.
      * intros va Hva. cbn [vg_maps]. rewrite <- V10 by exact Hva.
        eapply (walk_quiet n s); [apply Hi|exact Hq|exact V5|exact Hva].
    + assert (delete v (gV G) !! w = Some h) as Hw' by (by rewrite lookup_delete_ne).
      destruct (F8 w h Hw') as (x & y & []). exists x, y. by split.
  - intros v1 v2 h1 h2 x1 x2 y1 y2 Hne H1 H2. rewrite Evm, Ep. intros.
    assert (forall w h, (<[v := mk_vg (values ns) (vg_maps g)]> (gV G)) !! w = Some h ->
      exists h', gV G !! w = Some h') as HV.
    { intros w h [[<- _]|[_ ?]]%lookup_insert_Some; eauto. }
    destruct (HV _ _ H1) as [h1' H1']. destruct (HV _ _ H2) as [h2' H2'].
    by eapply (vi_spaces _ _ Hi v1 v2).
  - intros r h Hrg. destruct (vi_regions _ _ Hi _ _ Hrg) as (R & HR). exists R.
    eapply (region_repr_frame s s' G); [exact HR|by rewrite Evm|reflexivity| |]; cbn.
    + intros l' Hrl. apply lookup_insert_ne. intros <-. destruct Hrl; congruence.
    + intros w h' Hw. destruct (decide (v = w)) as [<-|Hne].
      * eexists. rewrite lookup_insert_eq. split; [done|]. cbn. by assert (h' = g) as -> by congruence.
      * exists h'. by rewrite lookup_insert_ne.
Qed.
