(* ===== verification/VmemSpec.v ===== *)
(** Specifications of vmem/services.c against [vm_inv]: the software view (the
    list of maps) and the hardware view (the page tables) never disagree. *)
From S2P Require Import Prelude Machine Logic LinkedList IdMapper NativeVmem PageTable NativePaging Vmem VmInv.

(** What an operation on maps may change: the map store, the lists, page-table
    objects, and memory. *)
Definition only_maps (n : Z) (s s' : kstate) : Prop :=
  exists Mp N Ls m', s' = set_maps Mp (set_npts N (set_lists Ls (set_mem m' s))) /\ grown n (mem s) m' /\
    roots_kept (npts (paging s)) N.

Lemma only_maps_refl s : only_maps 0 s s.
Proof.
  exists (maps (Machine.vm s)), (npts (paging s)), (lists s), (mem s).
  split; [by destruct s as [? ? ? [] [] ? ? ?]|]. split; [apply grown_refl|apply roots_kept_refl].
Qed.

Lemma only_maps_trans n1 n2 s1 s2 s3 :
  only_maps n1 s1 s2 -> only_maps n2 s2 s3 -> only_maps (n1 + n2) s1 s3.
Proof.
  intros (M1 & N1 & L1 & m1 & -> & Hq1 & Hk1) (M2 & N2 & L2 & m2 & -> & Hq2 & Hk2).
  exists M2, N2, L2, m2. split; [done|]. split; [by eapply grown_trans|by eapply roots_kept_trans].
Qed.

Lemma only_maps_grown n s s' : only_maps n s s' -> grown n (mem s) (mem s').
Proof. by intros (Mp & N & L & m' & -> & Hg & _). Qed.

Lemma only_maps_avail n s s' :
  alloc_ok (mem s) -> only_maps n s s' -> alloc_ok (mem s') /\ avail s - n <= avail s'.
Proof.
  intros Hok Ho. pose proof (only_maps_grown _ _ _ Ho) as Hg. split; [eauto with kern|].
  eapply avail_grown_regions; [done|done|]. by destruct Ho as (Mp & N & L & m' & -> & _).
Qed.

Lemma only_paging_maps n s s' : only_paging n s s' -> only_maps n s s'.
Proof.
  intros (N & L & m' & -> & Hg). exists (maps (Machine.vm s)), N, L, m'.
  split; [by destruct s as [? ? ? [] [] ? ? ?]|done].
Qed.

(** * Reading the software view *)

Lemma vmem_get_physical_address_spec s G v g va :
  vm_inv s G -> gV G !! v = Some g -> 0 <= va < 2 ^ 48 ->
  wp (vmem_get_physical_address v va)
    (fun r s' => r = default 0 (lookup_map (vg_maps g) va) /\ s' = s) s.
Proof.
  intros Hi Hv Hva. destruct (vi_vmems _ _ Hi _ _ Hv) as (vm & pt & Hr).
  destruct (vr_map _ _ _ _ _ _ Hr) as (ps & [Hro (ns & Hns & Evs)] & Hf). subst ps.
  unfold vmem_get_physical_address. rewrite MEM_ALIGN_div.
  assert (u64 (va - va / 4096 * 4096) = va mod 4096) as ->.
  { pose proof (Z.div_mod va 4096). pose proof (Z.mod_pos_bound va 4096). rewrite u64_small; lia. }
  wstep. eapply wpx_load; [apply Hr|].
  assert (upto_null (values ns) = values ns) as Hup.
  { apply upto_null_all. eapply Forall2_Forall_l; [exact Hf|]. apply Forall_true. by intros m q [? _]. }
  eapply wpx_call.
  { eapply (wp_while_linkedlist_iter (v_map vm) ns _
      (fun done _ s' => s' = s /\ lookup_map (vg_maps g) va = lookup_map (drop (length done) (vg_maps g)) va)
      (fun r s' => s' = s /\ match r with
         | inl _ => lookup_map (vg_maps g) va = None
         | inr x => lookup_map (vg_maps g) va = Some x end)).
    - intros done _ s' [-> _]. eapply inv_is_list; [apply Hi|done].
    - intros done p _ s' [rest Hpre] Hp [-> Hd]. rewrite Hup in Hpre.
      assert (values ns !! length done = Some p) as Hlk
        by (rewrite Hpre, <- app_assoc; apply list_lookup_middle; done).
      destruct (Forall2_lookup_l _ _ _ _ _ Hf Hlk) as (m & Hm & _ & Em).
      wstep. eapply wpx_load; [exact Em|].
      rewrite (drop_S _ _ _ Hm) in Hd. cbn [lookup_map] in Hd.
      destruct (map_virtual_addr m =? va / 4096 * 4096) eqn:Eq; wstep; (split; [done|]).
      + rewrite Hd. f_equal. symmetry. apply u64_small.
        pose proof (vr_maps _ _ _ _ _ _ Hr) as Hok. rewrite Forall_forall in Hok.
        destruct (Hok m) as [_ [? _]]; [by eapply list_elem_of_lookup_2|].
        pose proof (Z.mod_pos_bound va 4096). lia.
      + by rewrite length_app, Nat.add_1_r.
    - intros _ s' [-> Hd]. split; [done|]. rewrite Hd, Hup, (Forall2_length _ _ _ Hf).
      by rewrite drop_all.
    - split; [done|]. by rewrite drop_0. }
  intros [[]|x] s' [-> Hx]; wstep; by rewrite Hx.
Qed.

(** * Changing one map *)
Section notify.
Context `{K : Kalloc} `{!GoodAlloc K}.

(** Memory needed by one [vmem_notify_change]. *)
Definition notify_cost : Z := 41016.

(** Everything but the maps of [v] is as before. *)
Record maps_step (n : Z) (s : kstate) (G : ghost) (v : Z) (g : vghost) (s' : kstate) (G' : ghost) : Prop := {
  ms_only : only_maps n s s';
  ms_inv : vm_inv s' G';
  ms_V : gV G' = <[v := g]> (gV G);
  ms_R : gR G' = gR G;
  ms_I : gI G' = gI G;
  ms_Ro : gRo G' = gRo G;
  ms_L l : (forall p, gRo G !! l <> Some (RBuffers p)) -> gRo G !! l <> Some (RMap v) ->
    gL G' !! l = gL G !! l }.

(** The state and the lists after the map was appended and the table changed. *)
Lemma vm_inv_new_map n s G v g vm pt s' T' L' q r pa va :
  vm_inv s G -> gV G !! v = Some g -> vmem_repr s G v g vm pt ->
  page_ok va -> page_ok pa -> va ∉ map_virtual_addr <$> vg_maps g ->
  only_maps n s s' -> maps (Machine.vm s') = <[q := mk_map va pa r]> (maps (Machine.vm s)) ->
  maps (Machine.vm s) !! q = None -> 0 < q < heap_top (mem s') ->
  lists_inv s' L' -> paging_inv s' T' L' (gP G) -> gT G ⊆ T' ->
  (forall l, is_Some (gL G !! l) -> is_Some (L' !! l)) ->
  (forall l, l <> v_map vm -> l <> npt_allocated_memory pt -> L' !! l = gL G !! l) ->
  (exists ns a, gL G !! v_map vm = Some ns /\ L' !! v_map vm = Some (ns ++ [(a, q)])) ->
  (exists pt', npts (paging s') = <[native_vmem vm := pt']> (npts (paging s)) /\
     npt_entries pt' = npt_entries pt /\ npt_allocated_memory pt' = npt_allocated_memory pt) ->
  translations_kept (same_page (npt_entries pt) va) (ram (mem s)) (ram (mem s')) (gT G) ->
  (forall va', va' / 4096 = va / 4096 -> walk (ram (mem s')) 4 (npt_entries pt) va' = Some (pa + va' mod 4096)) ->
  vm_inv s' (mk_ghost L' (gRo G) T' (gP G) (gI G)
    (<[v := mk_vg (vg_regions g) (vg_maps g ++ [mk_map va pa r])]> (gV G)) (gR G)).
Proof.
  intros Hi Hv Hr Hva Hpa Hfresh Ho Hmaps Hq Hq0 Hl Hpg HT HL HLo (ns & a & Hns & Hns') (pt' & HN & He & Hb) Hk Hw.
  pose proof (only_maps_grown _ _ _ Ho) as Hg. pose proof (gr_top _ _ _ Hg). pose proof (gr_pos _ _ _ Hg).
  assert (ids s' = ids s /\ vmems (Machine.vm s') = vmems (Machine.vm s) /\
    regions (Machine.vm s') = regions (Machine.vm s)) as (Eids & Evm & Erg).
  { by destruct Ho as (? & ? & ? & ? & -> & _). }
  destruct (vr_map _ _ _ _ _ _ Hr) as (ps & [Hrom (ns0 & Hns0 & Evs)] & Hf).
  assert (ns0 = ns) as -> by congruence.
  pose proof (vi_buffers _ _ Hi _ _ (vr_P _ _ _ _ _ _ Hr) (vr_pt _ _ _ _ _ _ Hr)) as Hrob.
  assert (forall l ro, gRo G !! l = Some ro -> ro <> RMap v -> ro <> RBuffers (native_vmem vm) ->
    L' !! l = gL G !! l) as HLro by (intros l ro Hro H1 H2; apply HLo; congruence).
  assert (maps (Machine.vm s) ⊆ maps (Machine.vm s')) as Hsub by (rewrite Hmaps; by apply insert_subseteq).
  assert (forall w h vm2 pt2, w <> v -> gV G !! w = Some h -> vmem_repr s G w h vm2 pt2 ->
    native_vmem vm2 <> native_vmem vm /\ npt_entries pt2 <> npt_entries pt) as Hother.
  { intros w h vm2 pt2 Hne Hh Hr2. eapply (vi_spaces _ _ Hi w v); try done; first [apply Hr2|apply Hr]. }
  match goal with |- vm_inv s' ?x => set (G' := x) end.
  split; cbn [G' gL gRo gT gP gI gV gR].
  - done.
  - intros l ro Hro. apply HL. by eapply vi_roles.
  - eapply ids_inv_frame; [exact Eids|exact Hg| |apply Hi]. intros p gi Hp.
    eapply HLro; [by eapply vi_mappers|done|done].
  - apply Hi.
  - done.
  - intros p x Hp. rewrite HN. intros [[<- <-]|[_ Hx]]%lookup_insert_Some.
    + by rewrite Hb.
    + by eapply vi_buffers.
  - eapply grown_alloc_ok; [done|apply Hi].
  - intros w h [[<- <-]|[Hne Hh]]%lookup_insert_Some.
    + exists vm, pt'. split; cbn [vg_regions vg_maps gP gT]; try apply Hr.
      * by rewrite Evm; apply Hr.
      * by rewrite HN, lookup_insert_eq.
      * rewrite He. eapply lookup_weaken; [apply Hr|done].
      * eapply role_list_frame; [| |apply Hr]; [done|]. cbn.
        eapply HLro; [apply Hr|done|done].
      * exists (ps ++ [q]). split.
        -- split; [done|]. exists (ns ++ [(a, q)]). split; [done|]. unfold values. rewrite fmap_app.
           cbn. by rewrite <- Evs.
        -- apply Forall2_app.
           ++ eapply Forall2_impl; [done|]. intros p m [? Hp]. split; [done|]. by eapply lookup_weaken.
           ++ repeat constructor; [lia|]. by rewrite Hmaps, lookup_insert_eq.
      * apply Forall_app. split; [apply Hr|]. apply Forall_singleton. done.
      * rewrite fmap_app. apply NoDup_app. split_and!; [apply Hr| |apply NoDup_singleton].
        intros x Hx. cbn. intros ->%list_elem_of_singleton. done.
      * intros va' Hva'. rewrite He, lookup_map_app. cbn [map_virtual_addr map_physical_addr].
        destruct (decide (va' / 4096 = va / 4096)) as [Heq|Hneq].
        -- rewrite Hw by done. assert (va' / 4096 * 4096 = va) as Eb by (apply page_base; [apply Hva|done]).
           rewrite lookup_map_None by (by rewrite Eb). by rewrite Eb, Z.eqb_refl.
        -- rewrite Hk; [|apply Hr|done|by intros [_ ?]]. rewrite (vr_agree _ _ _ _ _ _ Hr) by done.
           assert (va' / 4096 * 4096 <> va) as Eb by (rewrite <- page_base; [done|apply Hva]).
           rewrite (proj2 (Z.eqb_neq va _)) by congruence. by destruct (lookup_map _ _).
    + destruct (vi_vmems _ _ Hi _ _ Hh) as (vm2 & pt2 & Hr2).
      destruct (Hother w h vm2 pt2) as [Hn1 Hn2]; auto.
      edestruct (vmem_repr_frame s s' G G') as (pt3 & Hr3 & _); [exact Hr2|by rewrite Evm| |exact Hsub| | | | | |].
      * exists pt2. split; [|done]. rewrite HN, lookup_insert_ne by done. apply Hr2.
      * reflexivity.
      * exact HT.
      * reflexivity.
      * intros l [Hro|Hro]; eapply HLro; try exact Hro; congruence.
      * intros va' Hva'. apply Hk; [apply Hr2|done|]. intros [? _]. congruence.
      * exists vm2, pt3. exact Hr3.
  - intros w1 w2 h1 h2 x1 x2 y1 y2 Hne H1 H2. rewrite Evm, HN. intros Hx1 Hx2 Hy1 Hy2.
    assert (forall w h, (<[v := mk_vg (vg_regions g) (vg_maps g ++ [mk_map va pa r])]> (gV G)) !! w = Some h ->
      exists h', gV G !! w = Some h') as HV.
    { intros w h [[<- _]|[_ ?]]%lookup_insert_Some; eauto. }
    destruct (HV _ _ H1) as [h1' H1']. destruct (HV _ _ H2) as [h2' H2'].
    assert (forall x y, (<[native_vmem vm := pt']> (npts (paging s))) !! native_vmem x = Some y ->
      exists y', npts (paging s) !! native_vmem x = Some y' /\ npt_entries y' = npt_entries y) as HNx.
    { intros x y [[E <-]|[_ ?]]%lookup_insert_Some; [|eauto]. exists pt. rewrite <- E. split; [apply Hr|done]. }
    destruct (HNx _ _ Hy1) as (y1' & Hy1' & <-). destruct (HNx _ _ Hy2) as (y2' & Hy2' & <-).
    by eapply (vi_spaces _ _ Hi w1 w2).
  - intros r0 g0 Hr0. destruct (vi_regions _ _ Hi _ _ Hr0) as (R & HR). exists R.
    eapply (region_repr_frame s s' G G'); [exact HR|by rewrite Erg|reflexivity| |].
    + intros l [Hro|Hro]; eapply HLro; try exact Hro; congruence.
    + intros w h Hh. destruct (decide (w = v)) as [->|Hne].
      * eexists. split; [apply lookup_insert_eq|]. assert (h = g) as -> by congruence.
        intros x Hx. apply elem_of_app. by left.
      * exists h. split; [cbn; by rewrite lookup_insert_ne|done].
  - eapply below_grown; [done| |apply Hi]. done.
  - eapply below_grown; [done| |apply Hi]. done.
  - intros p m. change (heap s') with (maps (Machine.vm s')). rewrite Hmaps.
    intros [[<- _]|[_ Hm]]%lookup_insert_Some; [done|]. apply (vi_below_m _ _ Hi) in Hm. lia.
Qed.

Lemma table_cost_bound pt k : 0 <= table_cost pt k <= 40976.
Proof. unfold table_cost. destruct (_ <? _); lia. Qed.

Lemma vmem_notify_change_spec s G v g r R pa va :
  vm_inv s G -> gV G !! v = Some g -> regions (Machine.vm s) !! r = Some R ->
  page_ok va -> page_ok pa -> va ∉ map_virtual_addr <$> vg_maps g ->
  notify_cost <= avail s -> heap_top (mem s) + notify_cost <= 2 ^ 48 ->
  wp (vmem_notify_change v r pa va) (fun ok s' => ok = true /\ exists n G', n <= notify_cost /\
    maps_step n s G v (mk_vg (vg_regions g) (vg_maps g ++ [mk_map va pa r])) s' G') s.
Proof.
  intros Hi Hv HR Hva Hpa Hfresh Ha Htop. unfold notify_cost in *.
  pose proof (vi_alloc _ _ Hi) as Hok. pose proof (heap_top_pos _ Hok) as Hpos.
  destruct (vi_vmems _ _ Hi _ _ Hv) as (vm & pt & Hr).
  destruct (vr_map _ _ _ _ _ _ Hr) as (ps & [Hrom (ns & Hns & Evs)] & Hf).
  unfold vmem_notify_change.
  eapply wp_call; [apply (wp_NEW vmem_map_t); [done|cbn; lia]|].
  intros q s1 (-> & m1 & -> & Hq1). cbn in Hq1. pose proof (gr_top _ _ _ (q_grown _ _ _ Hq1)) as Et1.
  pose proof (below_top_fresh _ (vi_below_m _ _ Hi)) as Hfr. cbn in Hfr.
  set (q := heap_top (mem s)) in *. nonnull q. cbn [heap set_heap vmem_map_t_struct].
  wstep. eapply wpx_update; [cbn; apply lookup_insert_eq|].
  wstep. eapply wpx_update; [cbn; apply lookup_insert_eq|].
  wstep. eapply wpx_update; [cbn; apply lookup_insert_eq|].
  cbn [map_virtual_addr map_physical_addr map_region].
  match goal with |- wpx _ _ _ ?x => set (s1 := x) end.
  assert (maps (Machine.vm s1) = <[q := mk_map va pa r]> (maps (Machine.vm s))) as Em1.
  { cbn. by rewrite !insert_insert_eq. }
  assert (only_maps 24 s s1) as Ho1.
  { exists (maps (Machine.vm s1)), (npts (paging s)), (lists s), m1. split; [|split; [apply Hq1|apply roots_kept_refl]].
    by destruct s as [? ? ? [] [] ? ? ?]. }
  destruct (only_maps_avail _ _ _ Hok Ho1) as [Hok1 Ha1].
  assert (lists_inv s1 (gL G)) as Hl1.
  { apply (lists_inv_grown 24 s); [done|apply Hq1|cbn; lia|apply Hi]. }
  wstep. eapply wpx_load; [apply Hr|].
  eapply wpx_call; [eapply linkedlist_append_spec; [exact Hl1|done|exact Hns|lia]|].
  intros ok s2 (-> & Ho2 & Hl2). cbn [negb].
  pose proof (only_lists_quiet _ _ _ Ho2) as Hq2. change (mem s1) with m1 in *.
  assert (quiet 40 (mem s) (mem s2)) as Hq by (by apply (quiet_trans 24 16 _ m1)).
  assert (Machine.vm s2 = Machine.vm s1 /\ paging s2 = paging s1) as [Ev2 Ep2]
    by (by destruct Ho2 as (? & ? & ? & -> & _)).
  change (paging s1) with (paging s) in Ep2.
  destruct (only_lists_avail 16 s1 s2 Hok1 Ho2) as [Hok2 Ha2].
  pose proof (gr_top _ _ _ (q_grown _ _ _ Hq)) as Et2.
  wstep. eapply wpx_load; [cbn; rewrite Ev2, Em1; apply lookup_insert_eq|]. cbn [map_region].
  wstep. eapply wpx_load; [cbn; rewrite Ev2; exact HR|].
  set (L2 := <[v_map vm := ns ++ [(heap_top m1, q)]]> (gL G)) in *.
  assert (forall l, is_Some (gL G !! l) -> is_Some (L2 !! l)) as HL2.
  { intros l Hl. unfold L2. destruct (decide (v_map vm = l)) as [<-|];
      [rewrite lookup_insert_eq; eauto|by rewrite lookup_insert_ne]. }
  assert (paging_inv s2 (gT G) L2 (gP G)) as Hp2.
  { eapply (paging_inv_quiet 40 s); [apply Hi|done|by rewrite Ep2|done|lia]. }
  pose proof (table_cost_bound pt 3) as Hc.
  eapply wpx_call.
  { eapply (x86_vmem_set_spec s2 (gT G) L2 (gP G) v vm pt (page_map_entry R pa va));
      [exact Hl2|exact Hok2|exact Hp2|rewrite Ev2; apply Hr|apply Hr|rewrite Ep2; apply Hr|apply Hr
      |apply Hva|apply Hva|apply Hpa|apply Hpa|done|lia|lia]. }
  intros ok s3 (_ & n & T' & L' & pt' & Hst & Hn & Hk & Hw). cbn [pme_virtual_addr pme_physical_addr page_map_entry] in Hk, Hw.
  wstep. split; [done|].
  assert (only_maps (40 + n) s s3) as Ho3.
  { apply (only_maps_trans 40 n _ s2); [|by apply only_paging_maps, Hst].
    apply (only_maps_trans 24 16 _ s1); [done|]. by apply only_paging_maps, only_lists_paging. }
  assert (maps (Machine.vm s3) = <[q := mk_map va pa r]> (maps (Machine.vm s))) as Em3.
  { destruct (ps_only _ _ _ _ _ _ _ _ _ _ _ Hst) as (? & ? & ? & -> & _). by rewrite <- Em1, <- Ev2. }
  pose proof (vi_buffers _ _ Hi _ _ (vr_P _ _ _ _ _ _ Hr) (vr_pt _ _ _ _ _ _ Hr)) as Hrob.
  assert (v_map vm <> npt_allocated_memory pt) as Hvb by (intros E; rewrite <- E in Hrob; congruence).
  assert (vm_inv s3 (mk_ghost L' (gRo G) T' (gP G) (gI G)
    (<[v := mk_vg (vg_regions g) (vg_maps g ++ [mk_map va pa r])]> (gV G)) (gR G))) as Hinv.
  { eapply (vm_inv_new_map (40 + n) s G v g vm pt s3 T' L' q); try done; try apply Hst.
    - pose proof (gr_top _ _ _ (only_maps_grown _ _ _ Ho3)). pose proof (gr_pos _ _ _ (only_maps_grown _ _ _ Ho3)).
      pose proof (gr_pos _ _ _ (only_paging_grown _ _ _ (ps_only _ _ _ _ _ _ _ _ _ _ _ Hst))).
      unfold q. lia.
    - intros l Hl. apply (ps_kept _ _ _ _ _ _ _ _ _ _ _ Hst). by apply HL2.
    - intros l H1 H2. rewrite (ps_other _ _ _ _ _ _ _ _ _ _ _ Hst) by done.
      unfold L2. by rewrite lookup_insert_ne.
    - exists ns, (heap_top m1). split; [done|]. rewrite (ps_other _ _ _ _ _ _ _ _ _ _ _ Hst) by done.
      unfold L2. by rewrite lookup_insert_eq.
    - exists pt'. rewrite <- Ep2. split_and!; apply Hst.
    - intros r' va' Hr' Hva' Hne. rewrite Hk by done. by eapply (walk_quiet 40 s); [apply Hi|..]. }
  exists (40 + n), (mk_ghost L' (gRo G) T' (gP G) (gI G)
    (<[v := mk_vg (vg_regions g) (vg_maps g ++ [mk_map va pa r])]> (gV G)) (gR G)). split; [lia|].
  split; try done. cbn. intros l H1 H2. rewrite (ps_other _ _ _ _ _ _ _ _ _ _ _ Hst).
  - unfold L2. rewrite lookup_insert_ne; [done|]. intros <-. congruence.
  - intros ->. by eapply H1.
Qed.
End notify.
