(* ===== verification/RegionSpec.v ===== *)
(** Specifications of vmem/region_services.c against [vm_inv]: a region that
    grows is mapped, page by page, in every area it is attached to. *)
From S2P Require Import Prelude Machine Logic LinkedList IdMapper Pmem NativeVmem PageTable NativePaging Vmem Region VmInv VmemSpec.

(** What an operation on regions may change. *)
Definition only_regions (n : Z) (s s' : kstate) : Prop :=
  exists Rg Mp N Ls m', s' = set_regions Rg (set_maps Mp (set_npts N (set_lists Ls (set_mem m' s)))) /\
    grown n (mem s) m' /\ roots_kept (npts (paging s)) N.

Lemma only_regions_grown n s s' : only_regions n s s' -> grown n (mem s) (mem s').
Proof. by intros (Rg & Mp & N & L & m' & -> & Hg & _). Qed.

Lemma only_regions_trans n1 n2 s1 s2 s3 :
  only_regions n1 s1 s2 -> only_regions n2 s2 s3 -> only_regions (n1 + n2) s1 s3.
Proof.
  intros (R1 & M1 & N1 & L1 & m1 & -> & Hq1 & Hk1) (R2 & M2 & N2 & L2 & m2 & -> & Hq2 & Hk2).
  exists R2, M2, N2, L2, m2. split; [done|]. split; [by eapply grown_trans|by eapply roots_kept_trans].
Qed.

Lemma only_maps_regions n s s' : only_maps n s s' -> only_regions n s s'.
Proof.
  intros (Mp & N & L & m' & -> & Hg). exists (regions (Machine.vm s)), Mp, N, L, m'.
  split; [by destruct s as [? ? ? [] [] ? ? ?]|done].
Qed.

Lemma only_regions_set s Rg : only_regions 0 s (set_regions Rg s).
Proof.
  exists Rg, (maps (Machine.vm s)), (npts (paging s)), (lists s), (mem s).
  split; [by destruct s as [? ? ? [] [] ? ? ?]|]. split; [apply grown_refl|apply roots_kept_refl].
Qed.

(** Room left when the region [r] did not shrink. *)
Lemma avail_set_region n s s' r R R' :
  alloc_ok (mem s) -> grown n (mem s) (mem s') -> regions (Machine.vm s) !! r = Some R ->
  regions (Machine.vm s') = <[r := R']> (regions (Machine.vm s)) -> allocated_size R <= allocated_size R' ->
  avail s - n <= avail s'.
Proof.
  intros [_ Hok] Hg HR HR' Hle. eapply avail_grown; [done| |].
  2: { unfold kernel_data_region_ok. rewrite (gr_data _ _ _ Hg), HR'.
       intros [->|H%bool_decide_eq_true]%orb_true_iff; [done|]. apply orb_true_iff. right. apply bool_decide_eq_true.
       destruct (decide (r = kernel_data_vmem_region (mem s))) as [<-|Hne]; [by rewrite lookup_insert_eq|by rewrite lookup_insert_ne]. }
  intros Hin.
  unfold kernel_data_current_size. rewrite (gr_data _ _ _ Hg), HR'.
  destruct (isnull (kernel_data_vmem_region (mem s))) eqn:E.
  - apply isnull_true in E. by apply Hok in Hin.
  - destruct (decide (r = kernel_data_vmem_region (mem s))) as [<-|Hne].
    + by rewrite HR, lookup_insert_eq.
    + by rewrite lookup_insert_ne.
Qed.

(** ** The areas of a region *)

Definition vg_add (ms : list vmem_map_t) (g : vghost) : vghost := mk_vg (vg_regions g) (vg_maps g ++ ms).

(** The areas [vs] got the maps [ms]. *)
Definition maps_added (vs : list Z) (ms : list vmem_map_t) (V V' : gmap Z vghost) : Prop :=
  forall v, V' !! v = (fun g => if bool_decide (v ∈ vs) then vg_add ms g else g) <$> V !! v.

Lemma maps_added_trans vs ms1 ms2 V1 V2 V3 :
  maps_added vs ms1 V1 V2 -> maps_added vs ms2 V2 V3 -> maps_added vs (ms1 ++ ms2) V1 V3.
Proof.
  intros H1 H2 v. rewrite H2, H1. destruct (V1 !! v); [|done]. cbn. f_equal.
  case_bool_decide; [|done]. unfold vg_add. cbn. by rewrite app_assoc.
Qed.

Lemma maps_added_none vs V : maps_added vs [] V V.
Proof.
  intros v. destruct (V !! v) as [[rs ms]|]; [|done]. cbn. f_equal. case_bool_decide; [|done].
  unfold vg_add. cbn. by rewrite app_nil_r.
Qed.

Lemma maps_added_nil ms V : maps_added [] ms V V.
Proof.
  intros v. rewrite bool_decide_eq_false_2 by apply not_elem_of_nil. by destruct (V !! v).
Qed.

Lemma maps_added_snoc vs v ms V V' g :
  maps_added vs ms V V' -> (v ∉ vs) -> V !! v = Some g ->
  V' !! v = Some g /\ maps_added (vs ++ [v]) ms V (<[v := vg_add ms g]> V').
Proof.
  intros Ha Hv Hg. pose proof (Ha v) as Ev. rewrite Hg, bool_decide_eq_false_2 in Ev by done.
  split; [done|]. intros w. destruct (decide (v = w)) as [<-|Hne].
  - rewrite lookup_insert_eq, Hg, bool_decide_eq_true_2; [done|]. apply elem_of_app. right. by constructor.
  - rewrite lookup_insert_ne, Ha by done. destruct (V !! w); [|done]. cbn. f_equal.
    erewrite bool_decide_ext; [done|]. rewrite elem_of_app, list_elem_of_singleton. naive_solver.
Qed.

Section assoc.
Context `{K : Kalloc} `{!GoodAlloc K}.

(** Mapping one page in every area of the list. *)
Lemma notify_all_spec s G r R l ns vs pa va :
  vm_inv s G -> regions (Machine.vm s) !! r = Some R ->
  gRo G !! l = Some (RAttached r) -> gL G !! l = Some ns -> values ns = vs -> NoDup vs ->
  (forall v, v ∈ vs -> v <> 0 /\ exists g, gV G !! v = Some g /\ va ∉ map_virtual_addr <$> vg_maps g) ->
  page_ok va -> page_ok pa ->
  notify_cost * Z.of_nat (length vs) <= avail s ->
  heap_top (mem s) + notify_cost * Z.of_nat (length vs) <= 2 ^ 48 ->
  wp (while_linkedlist_iter l tt (fun vmem _ =>
        ok ← vmem_notify_change vmem r pa va;
        if negb ok then mret (inr 0) else mret (inl tt)))
    (fun res s' => res = inl tt /\ exists n G', n <= notify_cost * Z.of_nat (length vs) /\
      only_maps n s s' /\ vm_inv s' G' /\ maps_added vs [mk_map va pa r] (gV G) (gV G') /\
      gR G' = gR G /\ gI G' = gI G /\ gRo G' = gRo G /\
      (forall l, (forall p, gRo G !! l <> Some (RBuffers p)) -> (forall v, gRo G !! l <> Some (RMap v)) ->
         gL G' !! l = gL G !! l)) s.
Proof.
  intros Hi HR Hro Hns Evs Hnd Hvs Hva Hpa Ha Htop.
  assert (upto_null (values ns) = vs) as Hup.
  { rewrite Evs. apply upto_null_all, Forall_forall. intros v Hv. by apply Hvs. }
  eapply wp_mono.
  { eapply (wp_while_linkedlist_iter l ns _
      (fun done _ s' => exists n G', n <= notify_cost * Z.of_nat (length done) /\
        only_maps n s s' /\ vm_inv s' G' /\ maps_added done [mk_map va pa r] (gV G) (gV G') /\
        gR G' = gR G /\ gI G' = gI G /\ gRo G' = gRo G /\
        (forall l, (forall p, gRo G !! l <> Some (RBuffers p)) -> (forall v, gRo G !! l <> Some (RMap v)) ->
           gL G' !! l = gL G !! l))
      (fun res s' => res = inl tt /\ exists n G', n <= notify_cost * Z.of_nat (length vs) /\
        only_maps n s s' /\ vm_inv s' G' /\ maps_added vs [mk_map va pa r] (gV G) (gV G') /\
        gR G' = gR G /\ gI G' = gI G /\ gRo G' = gRo G /\
        (forall l, (forall p, gRo G !! l <> Some (RBuffers p)) -> (forall v, gRo G !! l <> Some (RMap v)) ->
           gL G' !! l = gL G !! l))).
    - intros done _ s' (n & G' & _ & _ & Hi' & _ & _ & _ & _ & HL). eapply inv_is_list; [apply Hi'|].
      rewrite HL; [done|congruence|congruence].
    - intros done v _ s' [rest Hpre] Hv0 (n & G' & Hn & Ho & Hi' & Hadd & ER & EI & ERo & HL).
      rewrite Hup, <- app_assoc in Hpre. cbn in Hpre.
      assert (v ∈ vs) as Hin by (rewrite Hpre; set_solver).
      assert (v ∉ done) as Hnd'.
      { rewrite Hpre in Hnd. apply NoDup_app in Hnd as (_ & Hd & _). intros Hx. apply (Hd _ Hx). by constructor. }
      destruct (Hvs v Hin) as (_ & g & Hg & Hfr).
      destruct (maps_added_snoc _ _ _ _ _ _ Hadd Hnd' Hg) as [Hg' Hadd'].
      destruct (only_maps_avail _ _ _ (vi_alloc _ _ Hi) Ho) as [_ Hav].
      pose proof (gr_top _ _ _ (only_maps_grown _ _ _ Ho)) as Et.
      assert (Z.of_nat (length done) + 1 <= Z.of_nat (length vs)) as Hlen
        by (rewrite Hpre, length_app; cbn; lia).
      unfold notify_cost in *. eapply wp_call.
      { eapply vmem_notify_change_spec; [exact Hi'|exact Hg'| |done|done|done| |]; unfold notify_cost; try lia.
        destruct Ho as (? & ? & ? & ? & -> & _). exact HR. }
      intros ok s2 (-> & n2 & G2 & Hn2 & Hst). cbn [negb]. wstep. exists (n + n2), G2.
      unfold notify_cost in *. split_and!.
      + rewrite length_app. cbn. lia.
      + eapply only_maps_trans; [exact Ho|apply Hst].
      + apply Hst.
      + rewrite (ms_V _ _ _ _ _ _ _ Hst). exact Hadd'.
      + by rewrite (ms_R _ _ _ _ _ _ _ Hst).
      + by rewrite (ms_I _ _ _ _ _ _ _ Hst).
      + by rewrite (ms_Ro _ _ _ _ _ _ _ Hst).
      + intros l' H1 H2. rewrite (ms_L _ _ _ _ _ _ _ Hst); rewrite ?ERo; auto.
    - intros [] s' H. rewrite Hup in H. split; [done|exact H].
    - exists 0, G. split_and!; [cbn; lia|apply only_maps_refl|done|apply maps_added_nil|done|done|done|done]. }
  done.
Qed.

(** The region [r] got the page [pa], at [va] in all its areas. *)
Record page_added (n : Z) (s : kstate) (G : ghost) (r : Z) (g : rghost) (R : vmem_region_t) (pa : Z)
    (s' : kstate) (G' : ghost) : Prop := {
  pa_only : only_regions n s s';
  pa_inv : vm_inv s' G';
  pa_regions : regions (Machine.vm s') =
    <[r := set_allocated_size (allocated_size R + 4096) R]> (regions (Machine.vm s));
  pa_R : gR G' = <[r := mk_rg (rg_attached g) (rg_pages g ++ [pa])]> (gR G);
  pa_V : maps_added (rg_attached g) [mk_map (r_start R + allocated_size R) pa r] (gV G) (gV G');
  pa_I : gI G' = gI G;
  pa_Ro : gRo G' = gRo G;
  pa_O : others_kept G G' }.

(** Room to map one more page: free addresses and memory. *)
Definition page_room (s : kstate) (G : ghost) (g : rghost) (R : vmem_region_t) : Prop :=
  r_start R + allocated_size R + 4096 <= 2 ^ 48 /\
  forall v gv, v ∈ rg_attached g -> gV G !! v = Some gv ->
    r_start R + allocated_size R ∉ map_virtual_addr <$> vg_maps gv.

Definition assoc_cost (g : rghost) : Z := 16 + notify_cost * Z.of_nat (length (rg_attached g)).

(** The region after the page was mapped everywhere. *)
Lemma region_repr_grown s G r g R s' G' pa :
  region_repr s G r g R -> page_ok pa -> pa <> 0 -> r_start R + allocated_size R + 4096 <= 2 ^ 48 ->
  regions (Machine.vm s') !! r = Some (set_allocated_size (allocated_size R + 4096) R) ->
  gRo G' = gRo G -> gL G' !! r_attached R = gL G !! r_attached R ->
  (exists ns a, gL G !! r_pages R = Some ns /\ gL G' !! r_pages R = Some (ns ++ [(a, pa)])) ->
  maps_added (rg_attached g) [mk_map (r_start R + allocated_size R) pa r] (gV G) (gV G') ->
  region_repr s' G' r (mk_rg (rg_attached g) (rg_pages g ++ [pa])) (set_allocated_size (allocated_size R + 4096) R).
Proof.
  intros HR Hpa Hpa0 Hend HR' HRo HLa (ns & a & Hns & Hns') Hadd.
  assert (forall v gv, gV G !! v = Some gv -> exists gv', gV G' !! v = Some gv' /\ vg_maps gv ⊆ vg_maps gv' /\
    (v ∈ rg_attached g -> mk_map (r_start R + allocated_size R) pa r ∈ vg_maps gv')) as HV.
  { intros v gv Hv. rewrite (Hadd v), Hv. cbn. eexists. split; [done|].
    destruct (bool_decide_reflect (v ∈ rg_attached g)); cbn; [|split; [done|intros; contradiction]].
    split; [intros x Hx|intros _]; apply elem_of_app; [by left|right; by constructor]. }
  split; cbn [rg_attached rg_pages set_allocated_size r_attached r_pages allocated_size r_start r_size].
  - apply HR.
  - done.
  - eapply (role_list_frame G); [by rewrite HRo|exact HLa|apply HR].
  - apply HR.
  - destruct (rr_pages _ _ _ _ _ HR) as [Hro (ns0 & Hns0 & Evs)]. assert (ns0 = ns) as -> by congruence.
    split; [by rewrite HRo|]. exists (ns ++ [(a, pa)]). split; [done|].
    unfold values in *. by rewrite fmap_app, Evs.
  - apply Forall_app. split; [apply HR|]. by apply Forall_singleton.
  - rewrite length_app. cbn. pose proof (rr_alloc _ _ _ _ _ HR). lia.
  - apply HR.
  - lia.
  - pose proof (rr_size _ _ _ _ _ HR). lia.
  - intros v i p Hv [Hi|[-> ->]]%lookup_app_snoc.
    + destruct (rr_maps _ _ _ _ _ HR v i p Hv Hi) as (gv & Hgv & Hin).
      destruct (HV _ _ Hgv) as (gv' & Hgv' & Hsub & _). exists gv'. split; [done|]. by apply Hsub.
    + destruct (rr_known _ _ _ _ _ HR v Hv) as [_ [gv Hgv]].
      destruct (HV _ _ Hgv) as (gv' & Hgv' & _ & Hin). exists gv'. split; [done|].
      rewrite <- (rr_alloc _ _ _ _ _ HR). auto.
  - intros v Hv. destruct (rr_known _ _ _ _ _ HR v Hv) as [? [gv Hgv]]. split; [done|].
    destruct (HV _ _ Hgv) as (gv' & Hgv' & _). eauto.
Qed.

Lemma vmem_region_assoc_spec s G r g R pa :
  vm_inv s G -> gR G !! r = Some g -> region_repr s G r g R ->
  page_ok pa -> pa <> 0 -> page_room s G g R ->
  assoc_cost g <= avail s -> heap_top (mem s) + assoc_cost g <= 2 ^ 48 ->
  wp (vmem_region_assoc_physical_address r pa) (fun va s' => va = r_start R + allocated_size R /\
    exists n G', n <= assoc_cost g /\ page_added n s G r g R pa s' G') s.
Proof.
  intros Hi Hg HR Hpa Hpa0 [Hend Hfree] Ha Htop. unfold assoc_cost in *.
  pose proof (rr_alloc _ _ _ _ _ HR) as Hal. pose proof (rr_start _ _ _ _ _ HR) as [[Hst Hsta] Hst0].
  pose proof (vi_alloc _ _ Hi) as Hok.
  unfold vmem_region_assoc_physical_address. kconst.
  wstep. eapply wpx_load; [apply HR|]. rewrite (u64_small (r_start R + allocated_size R)) by lia.
  wstep. eapply wpx_update; [apply HR|]. rewrite (u64_small (allocated_size R + 4096)) by lia.
  cbn [heap set_heap vmem_region_t_struct].
  set (R1 := set_allocated_size (allocated_size R + 4096) R).
  match goal with |- wpx _ _ _ ?x => set (s1 := x) end.
  set (G1 := with_R (delete r (gR G)) G).
  assert (vm_inv s1 G1) as Hi1.
  { apply vm_inv_set_region; [by apply vm_inv_drop|apply lookup_delete_eq|]. exists R. apply HR. }
  assert (avail s <= avail s1) as Ha1.
  { pose proof (avail_set_region 0 s s1 r R R1 Hok (grown_refl _) (rr_R _ _ _ _ _ HR) eq_refl) as Hx.
    cbn in Hx. lia. }
  assert (regions (Machine.vm s1) !! r = Some R1) as HR1 by (cbn; apply lookup_insert_eq).
  wstep. eapply wpx_load; [exact HR1|].
  destruct (rr_pages _ _ _ _ _ HR) as [Hrop (nsp & Hnsp & Evp)].
  destruct (rr_attached _ _ _ _ _ HR) as [Hroa (nsa & Hnsa & Eva)].
  eapply wpx_call.
  { eapply linkedlist_append_spec; [apply Hi1|apply Hi1|exact Hnsp|]. unfold notify_cost in *. lia. }
  intros ok s2 (-> & Ho2 & Hl2). change (gL G1) with (gL G) in Hl2.
  set (L2 := <[r_pages R1 := nsp ++ [(heap_top (mem s1), pa)]]> (gL G)) in *.
  pose proof (only_lists_quiet _ _ _ Ho2) as Hq2. pose proof (gr_top _ _ _ (q_grown _ _ _ Hq2)) as Et2.
  change (mem s1) with (mem s) in Et2.
  destruct (only_lists_avail _ _ _ (vi_alloc _ _ Hi1) Ho2) as [_ Ha2].
  assert (vm_inv s2 (with_L L2 G1)) as Hi2.
  { apply (vm_inv_set_list 16 s1 s2 G1); try done; cbn; [unfold notify_cost in *; lia|congruence| |].
    - intros v _. split; congruence.
    - intros r' Hr'. split; [congruence|]. intros E. rewrite Hrop in E. injection E as <-.
      rewrite lookup_delete_eq in Hr'. by destruct Hr'. }
  assert (Machine.vm s2 = Machine.vm s1) as Ev2 by (by destruct Ho2 as (? & ? & ? & -> & _)).
  wstep. eapply wpx_load; [cbn; rewrite Ev2; exact HR1|].
  assert (r_pages R <> r_attached R) as Hne by (intros E; rewrite E in Hrop; congruence).
  eapply wpx_call.
  { eapply (notify_all_spec s2 (with_L L2 G1) r R1 (r_attached R) nsa (rg_attached g) pa (r_start R + allocated_size R));
      try done; cbn.
    - rewrite Ev2. exact HR1.
    - unfold L2. by rewrite lookup_insert_ne.
    - apply HR.
    - intros v Hv. destruct (rr_known _ _ _ _ _ HR v Hv) as [? [gv Hgv]]. split; [done|].
      exists gv. split; [done|]. by eapply Hfree.
    - split; [lia|]. rewrite Hal, Z.add_mod, (Z.mul_comm 4096), Z_mod_mult, Hsta by lia. done.
    - unfold notify_cost in *. lia.
    - unfold notify_cost in *. lia. }
  intros res s3 (-> & n & G3 & Hn & Ho3 & Hi3 & Hadd & ER3 & EI3 & ERo3 & HL3). wstep. split; [done|].
  set (g' := mk_rg (rg_attached g) (rg_pages g ++ [pa])).
  assert (region_repr s3 G3 r g' R1) as HR3.
  { eapply (region_repr_grown s G); try done.
    - destruct Ho3 as (? & ? & ? & ? & -> & _). cbn. by rewrite Ev2.
    - rewrite HL3; cbn; [unfold L2; by rewrite lookup_insert_ne|congruence|congruence].
    - exists nsp, (heap_top (mem s1)). split; [done|].
      rewrite HL3; cbn; [unfold L2; by rewrite lookup_insert_eq|congruence|congruence]. }
  exists (16 + n), (with_R (<[r := g']> (delete r (gR G))) G3). split; [unfold notify_cost in *; lia|].
  split; cbn; try done.
  - apply (only_regions_trans 0 (16 + n) _ s1); [apply only_regions_set|].
    apply (only_regions_trans 16 n _ s2); [|by apply only_maps_regions].
    by apply only_maps_regions, only_paging_maps, only_lists_paging.
  - eapply vm_inv_put; [|apply lookup_delete_eq|exact HR3].
    change (gR (with_L L2 G1)) with (delete r (gR G)) in ER3. rewrite <- ER3. by destruct G3.
  - destruct Ho3 as (? & ? & ? & ? & -> & _). cbn. by rewrite Ev2.
  - by rewrite insert_delete_eq.
  - intros l Hl. cbn in ERo3, HL3. cbn. rewrite ERo3, HL3 by congruence. split; [done|]. unfold L2. apply lookup_insert_ne.
    intros <-. change (r_pages R1) with (r_pages R) in Hl. congruence.
Qed.
End assoc.

(** * Many pages *)

(** The maps of consecutive pages from the address [base] on. *)
Fixpoint region_maps (r base : Z) (ps : list Z) : list vmem_map_t :=
  match ps with
  | [] => []
  | p :: ps' => mk_map base p r :: region_maps r (base + 4096) ps'
  end.

Lemma region_maps_app r base ps1 ps2 :
  region_maps r base (ps1 ++ ps2) =
    region_maps r base ps1 ++ region_maps r (base + 4096 * Z.of_nat (length ps1)) ps2.
Proof.
  revert base. induction ps1 as [|p ps1 IH]; intros base; cbn [region_maps app length].
  - f_equal. lia.
  - rewrite IH. do 3 f_equal. lia.
Qed.

Lemma region_maps_vaddr r base ps m :
  m ∈ region_maps r base ps ->
  base <= map_virtual_addr m < base + 4096 * Z.of_nat (length ps) /\ (map_virtual_addr m - base) mod 4096 = 0.
Proof.
  revert base. induction ps as [|p ps IH]; intros base; cbn [region_maps length]; [set_solver|].
  intros [->|Hm]%elem_of_cons.
  - cbn. rewrite Z.sub_diag. split; [lia|done].
  - apply IH in Hm as [? Hm]. split; [lia|].
    replace (map_virtual_addr m - base) with (map_virtual_addr m - (base + 4096) + 1 * 4096) by lia.
    by rewrite Z_mod_plus_full.
Qed.

Definition only_grow (n : Z) (s s' : kstate) : Prop := exists pm s1, s' = set_pmem pm s1 /\ only_regions n s s1.

Lemma only_grow_grown n s s' : only_grow n s s' -> grown n (mem s) (mem s').
Proof. intros (pm & s1 & -> & Ho). by apply only_regions_grown in Ho. Qed.

Lemma only_grow_trans n1 n2 s1 s2 s3 : only_grow n1 s1 s2 -> only_grow n2 s2 s3 -> only_grow (n1 + n2) s1 s3.
Proof.
  intros (pm1 & t1 & -> & (R1 & M1 & N1 & L1 & m1 & -> & Hq1 & Hk1)) (pm2 & t2 & -> & (R2 & M2 & N2 & L2 & m2 & -> & Hq2 & Hk2)).
  exists pm2, (set_regions R2 (set_maps M2 (set_npts N2 (set_lists L2 (set_mem m2 s1))))).
  split; [done|]. exists R2, M2, N2, L2, m2. split; [done|]. split; [by eapply grown_trans|by eapply roots_kept_trans].
Qed.

Lemma only_grow_set s Rg : only_grow 0 s (set_regions Rg s).
Proof. exists (pmem s), (set_regions Rg s). split; [by destruct s|]. apply only_regions_set. Qed.

Lemma only_grow_pmem s pm : only_grow 0 s (set_pmem pm s).
Proof.
  exists pm, s. split; [done|]. pose proof (only_regions_set s (regions (Machine.vm s))) as Ho.
  by destruct s as [? ? ? [] ? ? ? ?].
Qed.

(** The region [r] got the pages [ps]; [R'] is the region after. *)
Record pages_added (n : Z) (s : kstate) (G : ghost) (r : Z) (g : rghost) (R : vmem_region_t) (ps : list Z)
    (s' : kstate) (G' : ghost) (R' : vmem_region_t) : Prop := {
  pg_only : only_grow n s s';
  pg_inv : vm_inv s' G';
  pg_regions : regions (Machine.vm s') = <[r := R']> (regions (Machine.vm s));
  pg_new : R' = set_r_size (r_size R') (set_allocated_size (allocated_size R + 4096 * Z.of_nat (length ps)) R);
  pg_R : gR G' = <[r := mk_rg (rg_attached g) (rg_pages g ++ ps)]> (gR G);
  pg_V : maps_added (rg_attached g) (region_maps r (r_start R + allocated_size R) ps) (gV G) (gV G');
  pg_I : gI G' = gI G;
  pg_Ro : gRo G' = gRo G;
  pg_O : others_kept G G' }.

Lemma pages_added_refl s G r g R :
  vm_inv s G -> gR G !! r = Some g -> regions (Machine.vm s) !! r = Some R -> pages_added 0 s G r g R [] s G R.
Proof.
  intros Hi Hg HR. split; try done.
  - assert (s = set_pmem (pmem s) s) as E by (by destruct s). rewrite E at 2. apply only_grow_pmem.
  - by rewrite insert_id.
  - destruct R. unfold set_r_size, set_allocated_size. cbn. f_equal. lia.
  - destruct g. cbn in *. by rewrite app_nil_r, insert_id.
  - apply maps_added_none.
Qed.

Lemma pages_added_trans n1 n2 s G r g R ps1 s1 G1 R1 ps2 s2 G2 R2 :
  pages_added n1 s G r g R ps1 s1 G1 R1 ->
  pages_added n2 s1 G1 r (mk_rg (rg_attached g) (rg_pages g ++ ps1)) R1 ps2 s2 G2 R2 ->
  pages_added (n1 + n2) s G r g R (ps1 ++ ps2) s2 G2 R2.
Proof.
  intros [A1 B1 C1 D1 E1 F1 H1 I1 J1] [A2 B2 C2 D2 E2 F2 H2 I2 J2]. split; try congruence.
  - by eapply only_grow_trans.
  - by rewrite C2, C1, insert_insert_eq.
  - rewrite D2, D1, length_app. unfold set_r_size, set_allocated_size. cbn. f_equal. lia.
  - rewrite E2, E1, insert_insert_eq. cbn. by rewrite app_assoc.
  - rewrite region_maps_app. eapply maps_added_trans; [exact F1|].
    cbn in F2. rewrite D1 in F2. cbn in F2. by rewrite Z.add_assoc in F2.
  - by eapply others_kept_trans.
Qed.

(** Every region of the invariant is the one in the store. *)
Lemma region_repr_at s G r g R :
  vm_inv s G -> gR G !! r = Some g -> regions (Machine.vm s) !! r = Some R -> region_repr s G r g R.
Proof.
  intros Hi Hg HR. destruct (vi_regions _ _ Hi _ _ Hg) as (R' & H').
  pose proof (rr_R _ _ _ _ _ H'). by assert (R' = R) as -> by congruence.
Qed.

(** Addresses for [k] more pages are free in every area of the region. *)
Definition region_room (k : Z) (G : ghost) (g : rghost) (R : vmem_region_t) : Prop :=
  r_start R + allocated_size R + 4096 * k <= 2 ^ 48 /\
  forall v gv i, v ∈ rg_attached g -> gV G !! v = Some gv -> 0 <= i < k ->
    r_start R + allocated_size R + 4096 * i ∉ map_virtual_addr <$> vg_maps gv.

Lemma region_room_page s k G g R : 0 < k -> region_room k G g R -> page_room s G g R.
Proof.
  intros Hk [He Hf]. split; [lia|]. intros v gv Hv Hgv.
  specialize (Hf v gv 0 Hv Hgv ltac:(lia)). by rewrite Z.mul_0_r, Z.add_0_r in Hf.
Qed.

Lemma region_room_next n s k G r g R pa s' G' R' :
  region_room k G g R -> pages_added n s G r g R [pa] s' G' R' ->
  region_room (k - 1) G' (mk_rg (rg_attached g) (rg_pages g ++ [pa])) R'.
Proof.
  intros [He Hf] Hp. pose proof (pg_new _ _ _ _ _ _ _ _ _ _ Hp) as E.
  rewrite E. unfold set_r_size, set_allocated_size, region_room. cbn [r_start allocated_size rg_attached length].
  split; [lia|]. intros v gv i Hv Hgv Hi. rewrite (pg_V _ _ _ _ _ _ _ _ _ _ Hp v) in Hgv.
  destruct (gV G !! v) as [gv0|] eqn:Hgv0; [|done]. cbn in Hgv. injection Hgv as <-.
  rewrite bool_decide_eq_true_2 by done. cbn. rewrite fmap_app, not_elem_of_app. split.
  - specialize (Hf v gv0 (i + 1) Hv Hgv0 ltac:(lia)).
    match goal with |- ?x ∉ _ => replace x with (r_start R + allocated_size R + 4096 * (i + 1)) by lia end. done.
  - cbn. intros Hx%list_elem_of_singleton. lia.
Qed.

(** Physical pages taken from the free ones: [ps] are their addresses. *)
Record taken (pm : pmem_t) (ps : list Z) (pm' : pmem_t) : Prop := {
  tk_ok : pmem_ok pm';
  tk_total : total_memory pm' = total_memory pm;
  tk_nodup : NoDup ps;
  tk_free p : p ∈ ps -> p mod 4096 = 0 /\ 67108864 <= p < total_memory pm /\
    page_at pm (p / 4096) = Some PAGE_TYPE_FREE;
  tk_after q : page_at pm' q = if bool_decide (q * 4096 ∈ ps) then Some PAGE_TYPE_USER else page_at pm q }.

Lemma taken_nil pm : pmem_ok pm -> taken pm [] pm.
Proof.
  intros Hok. split; [done|done|constructor|by intros p ?%elem_of_nil|].
  intros q. rewrite bool_decide_eq_false_2; [done|]. apply not_elem_of_nil.
Qed.

Lemma taken_cons pm p pm1 ps pm2 :
  pmem_ok pm -> 16384 <= p < total_of_pages pm -> page_at pm p = Some PAGE_TYPE_FREE ->
  pm1 = mark p PAGE_TYPE_USER pm -> taken pm1 ps pm2 -> taken pm (p * 4096 :: ps) pm2.
Proof.
  intros Hok Hp Ep -> [A B C D E]. cbn in B.
  assert (p * 4096 ∉ ps) as Hn.
  { intros Hin. destruct (D _ Hin) as (_ & _ & Hf). rewrite page_of_addr, page_at_mark, Z.eqb_refl, Ep in Hf by lia.
    done. }
  split; [done|done|by constructor| |].
  - intros x [->|Hx]%elem_of_cons.
    + rewrite page_of_addr. split; [apply Z.mod_mul; lia|]. split; [|done].
      destruct Hok as [_ Ht _ _]. pose proof (Z.mul_div_le (total_memory pm) 4096). lia.
    + destruct (D _ Hx) as (Hm & Hr & Hf). split; [done|]. split; [done|].
      rewrite page_at_mark in Hf by lia. destruct (Z.eqb_spec (x / 4096) p) as [Ex|]; [|done].
      destruct Hn. replace (p * 4096) with x; [done|]. pose proof (Z.div_mod x 4096). lia.
  - intros q. rewrite E, page_at_mark by lia.
    destruct (bool_decide_reflect (q * 4096 ∈ ps)) as [Hin|Hin].
    { rewrite bool_decide_eq_true_2; [done|]. by constructor. }
    destruct (Z.eqb_spec q p) as [->|Hne].
    + rewrite bool_decide_eq_true_2 by (by constructor). by rewrite Ep.
    + rewrite bool_decide_eq_false_2; [done|]. intros [?|?]%elem_of_cons; [lia|done].
Qed.

Lemma page_added_pages n s pm G r g R pa s' G' :
  page_added n (set_pmem pm s) G r g R pa s' G' ->
  pages_added n s G r g R [pa] s' G' (set_allocated_size (allocated_size R + 4096) R).
Proof.
  intros [A B C D E F H I]. split; try done.
  replace n with (0 + n) by lia. eapply only_grow_trans; [apply (only_grow_pmem s pm)|].
  exists (pmem s'), s'. split; [by destruct s'|done].
Qed.

Section resize.
Context `{K : Kalloc} `{!GoodAlloc K}.

Lemma resize_loop_spec k : forall s G r g R,
  vm_inv s G -> gR G !! r = Some g -> regions (Machine.vm s) !! r = Some R ->
  pmem_ok (pmem s) -> total_memory (pmem s) <= 2 ^ 48 -> region_room (Z.of_nat k) G g R ->
  assoc_cost g * Z.of_nat k <= avail s -> heap_top (mem s) + assoc_cost g * Z.of_nat k <= 2 ^ 48 ->
  wp (resize_loop (S k) r (4096 * Z.of_nat k)) (fun failed s' => exists n ps G' R',
    n <= assoc_cost g * Z.of_nat k /\ pages_added n s G r g R ps s' G' R' /\ r_size R' = r_size R /\
    taken (pmem s) ps (pmem s') /\
    ((failed = false /\ length ps = k) \/
     (failed = true /\ (length ps < k)%nat /\
      forall q, first_user_page <= q -> page_at (pmem s') q <> Some PAGE_TYPE_FREE))) s.
Proof.
  induction k as [|k IH]; intros s G r g R Hi Hg HR Hpm Htot Hroom Ha Htop.
  { cbn [resize_loop]. change (negb (0 <? 4096 * Z.of_nat 0)) with true. cbv iota. wstep.
    exists 0, [], G, R. split_and!; try done; [lia|by apply pages_added_refl|by apply taken_nil|by left]. }
  assert (0 <= assoc_cost g) as Hc by (unfold assoc_cost, notify_cost; lia).
  unfold resize_loop; fold resize_loop. rewrite (proj2 (Z.ltb_lt 0 _)) by lia. cbn [negb].
  eapply wp_call; [by apply pmem_allocate_spec|].
  intros pa s1 [(-> & -> & Hnone)|(p & -> & Hp & Ep & _ & ->)]; unfold first_user_page in *.
  { isnullp 0. wstep. exists 0, [], G, R.
    split_and!; try done; [lia|by apply pages_added_refl|by apply taken_nil|]. right.
    split_and!; try done. cbn. lia. }
  nonnull (p * 4096). set (s1 := set_pmem _ s).
  assert (vm_inv s1 G) as Hi1 by (by apply (vm_inv_ext s)).
  assert (p * 4096 < 2 ^ 48) as Hpb.
  { destruct Hpm as [_ Ht _ _]. pose proof (Z.mul_div_le (total_memory (pmem s)) 4096). lia. }
  eapply wp_call.
  { eapply (vmem_region_assoc_spec s1 G r g R); [done|done|by apply region_repr_at| |lia
      |eapply (region_room_page s1 (Z.of_nat (S k))); [lia|done]|change (avail s1) with (avail s); nia
      |change (mem s1) with (mem s); nia].
    split; [lia|apply Z.mod_mul; lia]. }
  intros va s2 (_ & n1 & G2 & Hn1 & Hadd). pose proof (page_added_pages _ _ _ _ _ _ _ _ _ _ Hadd) as Hpg.
  set (R2 := set_allocated_size (allocated_size R + 4096) R) in *.
  set (g2 := mk_rg (rg_attached g) (rg_pages g ++ [p * 4096])).
  pose proof (gr_top _ _ _ (only_grow_grown _ _ _ (pg_only _ _ _ _ _ _ _ _ _ _ Hpg))) as Et2.
  assert (avail s - n1 <= avail s2) as Ha2.
  { eapply (avail_set_region n1 s s2 r R R2); [apply Hi|by apply only_grow_grown, Hpg|done|apply Hpg|cbn; lia]. }
  assert (pmem s2 = mark p PAGE_TYPE_USER (pmem s)) as Epm.
  { destruct (pa_only _ _ _ _ _ _ _ _ _ Hadd) as (? & ? & ? & ? & ? & -> & _). done. }
  assert (4096 * Z.of_nat (S k) ⊟ SYSTEM_PAGE_SIZE = 4096 * Z.of_nat k) as ->.
  { kconst. assert (4096 * Z.of_nat (S k) <= 2 ^ 48).
    { destruct Hroom as [Hend _]. pose proof (rr_start _ _ _ _ _ (region_repr_at _ _ _ _ _ Hi Hg HR)) as [[? _] _].
      pose proof (rr_alloc _ _ _ _ _ (region_repr_at _ _ _ _ _ Hi Hg HR)). lia. }
    rewrite u64_small; lia. }
  eapply wp_mono.
  { eapply (IH s2 G2 r g2 R2); [apply Hpg|by rewrite (pg_R _ _ _ _ _ _ _ _ _ _ Hpg), lookup_insert_eq
      |by rewrite (pg_regions _ _ _ _ _ _ _ _ _ _ Hpg), lookup_insert_eq
      |rewrite Epm; apply mark_ok; auto|by rewrite Epm| | |].
    - replace (Z.of_nat k) with (Z.of_nat (S k) - 1) by lia. by eapply region_room_next.
    - change (assoc_cost g2) with (assoc_cost g). lia.
    - change (assoc_cost g2) with (assoc_cost g). lia. }
  intros failed s3 (n2 & ps & G3 & R3 & Hn2 & Hpg3 & Hsz & Htk & Hres).
  change (assoc_cost g2) with (assoc_cost g) in Hn2.
  exists (n1 + n2), (p * 4096 :: ps), G3, R3. split_and!; [lia| |done| |].
  - by apply (pages_added_trans n1 n2 s G r g R [p * 4096] s2 G2 R2 ps).
  - eapply taken_cons; [done|exact Hp|exact Ep|exact Epm|exact Htk].
  - cbn [length]. destruct Hres as [[-> ->]|(-> & ? & ?)]; [by left|right]. split_and!; [done|lia|done].
Qed.

(** Storing a size that fits. *)
Lemma vm_inv_set_size s G r g R sz :
  vm_inv s G -> gR G !! r = Some g -> regions (Machine.vm s) !! r = Some R -> 0 <= sz <= allocated_size R ->
  vm_inv (set_regions (<[r := set_r_size sz R]> (regions (Machine.vm s))) s) G.
Proof.
  intros Hi Hg HR Hsz. pose proof (region_repr_at _ _ _ _ _ Hi Hg HR) as [].
  set (s' := set_regions _ s).
  assert (vm_inv s' (with_R (delete r (gR G)) G)) as Hi'.
  { apply vm_inv_set_region; [by apply vm_inv_drop|apply lookup_delete_eq|by exists R]. }
  assert (region_repr s' G r g (set_r_size sz R)) as HR'.
  { split; try done. cbn. apply lookup_insert_eq. }
  pose proof (vm_inv_put _ _ _ _ _ _ Hi' (lookup_delete_eq _ _) HR') as Hp.
  rewrite insert_delete_id in Hp by done. by destruct G.
Qed.

Lemma pages_added_size n s G r g R ps s' G' R' sz :
  pages_added n s G r g R ps s' G' R' -> 0 <= sz <= allocated_size R' ->
  pages_added n s G r g R ps (set_regions (<[r := set_r_size sz R']> (regions (Machine.vm s'))) s') G'
    (set_r_size sz R').
Proof.
  intros [A B C D E F H I J] Hsz. split; try done.
  - replace n with (n + 0) by lia. eapply only_grow_trans; [exact A|apply only_grow_set].
  - eapply (vm_inv_set_size s' G' r); [done|by rewrite E, lookup_insert_eq|by rewrite C, lookup_insert_eq|done].
  - cbn. by rewrite C, insert_insert_eq.
  - rewrite D. done.
Qed.

Lemma set_cr3_id s : set_cr3 (cr3 (paging s)) s = s.
Proof. by destruct s as [? ? ? ? [] ? ? ?]. Qed.

(** Pages that [vmem_region_resize] adds when there are enough. *)
Definition missing_pages (R : vmem_region_t) (new_size : Z) : Z :=
  ((new_size + 4095) / 4096 * 4096 - allocated_size R) / 4096.

Lemma allocated_pages s G r g R :
  region_repr s G r g R -> 0 <= allocated_size R <= 2 ^ 48 /\ allocated_size R mod 4096 = 0.
Proof.
  intros HR. pose proof (rr_alloc _ _ _ _ _ HR) as Ha. pose proof (rr_end _ _ _ _ _ HR).
  pose proof (rr_start _ _ _ _ _ HR) as [[? _] _]. split; [lia|]. rewrite Ha, Z.mul_comm. apply Z.mod_mul. lia.
Qed.

Lemma vmem_region_resize_shrink_spec s G r g R new_size :
  vm_inv s G -> gR G !! r = Some g -> regions (Machine.vm s) !! r = Some R ->
  0 <= new_size < 2 ^ 64 - 4096 -> (new_size + 4095) / 4096 * 4096 < allocated_size R ->
  wp (vmem_region_resize r new_size) (fun ok s' => ok = true /\
    s' = set_regions (<[r := set_r_size new_size R]> (regions (Machine.vm s))) s /\ vm_inv s' G) s.
Proof.
  intros Hi Hg HR Hn Hlt. pose proof (region_repr_at _ _ _ _ _ Hi Hg HR) as HRr.
  pose proof (rr_ptr _ _ _ _ _ HRr) as Hr0. unfold vmem_region_resize. nonnull r.
  rewrite ALIGN_NEXT_page by done.
  wstep. eapply wpx_load; [exact HR|]. rewrite (proj2 (Z.ltb_lt _ _)) by done.
  wstep. wstep. eapply wpx_update; [exact HR|]. wstep.
  wstep. eapply wpx_load; [cbn; apply lookup_insert_eq|].
  assert (new_size <= allocated_size R) as Hle.
  { pose proof (Z.div_mod (new_size + 4095) 4096). pose proof (Z.mod_pos_bound (new_size + 4095) 4096). lia. }
  rewrite (proj2 (Z.leb_le _ _)) by done.
  wstep. eapply wpx_update; [cbn; apply lookup_insert_eq|].
  cbn [heap set_heap vmem_region_t_struct]. change (set_r_size new_size (set_r_size new_size R)) with (set_r_size new_size R).
  unfold flush_if_required. cbn [native_vmem_flush x86_native_vmem]. unfold x86_vmem_flush.
  do 4 wstep. rewrite set_cr3_id. wstep. split; [done|].
  assert (set_regions (<[r := set_r_size new_size R]> (regions (Machine.vm (set_regions
    (<[r := set_r_size new_size R]> (regions (Machine.vm s))) s)))) (set_regions
    (<[r := set_r_size new_size R]> (regions (Machine.vm s))) s) =
    set_regions (<[r := set_r_size new_size R]> (regions (Machine.vm s))) s) as ->.
  { cbn. by rewrite insert_insert_eq. }
  split; [done|]. eapply vm_inv_set_size; [done|done|done|lia].
Qed.

Lemma vmem_region_resize_grow_spec s G r g R new_size :
  vm_inv s G -> gR G !! r = Some g -> regions (Machine.vm s) !! r = Some R ->
  pmem_ok (pmem s) -> total_memory (pmem s) <= 2 ^ 48 ->
  0 <= new_size < 2 ^ 64 - 4096 -> allocated_size R <= (new_size + 4095) / 4096 * 4096 ->
  let k := missing_pages R new_size in
  region_room k G g R ->
  assoc_cost g * k <= avail s -> heap_top (mem s) + assoc_cost g * k <= 2 ^ 48 ->
  wp (vmem_region_resize r new_size) (fun ok s' => exists n ps G' R',
    n <= assoc_cost g * k /\ pages_added n s G r g R ps s' G' R' /\ taken (pmem s) ps (pmem s') /\
    ((ok = true /\ Z.of_nat (length ps) = k /\ r_size R' = new_size) \/
     (ok = false /\ Z.of_nat (length ps) < k /\ r_size R' = r_size R /\
      forall q, first_user_page <= q -> page_at (pmem s') q <> Some PAGE_TYPE_FREE))) s.
Proof.
  intros Hi Hg HR Hpm Htot Hn Hle k Hroom Ha Htop. pose proof (region_repr_at _ _ _ _ _ Hi Hg HR) as HRr.
  pose proof (rr_ptr _ _ _ _ _ HRr) as Hr0. destruct (allocated_pages _ _ _ _ _ HRr) as [Hal Ham].
  unfold vmem_region_resize. nonnull r. rewrite ALIGN_NEXT_page by done.
  set (na := (new_size + 4095) / 4096 * 4096) in *.
  assert (na - allocated_size R = 4096 * k) as Ek.
  { assert ((na - allocated_size R) mod 4096 = 0) as Hm.
    { unfold na. by rewrite Zminus_mod, Ham, Z.mod_mul by lia. }
    unfold k, missing_pages. fold na. pose proof (Z.div_mod (na - allocated_size R) 4096). lia. }
  assert (new_size <= na < new_size + 4096) as Hna.
  { unfold na. pose proof (Z.div_mod (new_size + 4095) 4096). pose proof (Z.mod_pos_bound (new_size + 4095) 4096). lia. }
  wstep. eapply wpx_load; [exact HR|]. rewrite (proj2 (Z.ltb_ge _ _)) by done.
  rewrite u64_small by lia. rewrite Ek.
  assert (page_fuel (4096 * k) = S (Z.to_nat k)) as ->.
  { unfold page_fuel. kconst. by rewrite Z.mul_comm, Z.div_mul by lia. }
  replace (4096 * k) with (4096 * Z.of_nat (Z.to_nat k)) by lia.
  eapply wpx_call; [eapply resize_loop_spec; try done; rewrite ?Z2Nat.id by lia; done|].
  intros failed s1 (n & ps & G1 & R1 & Hn1 & Hpg & Hsz & Htk & Hres). rewrite Z2Nat.id in Hn1 by lia.
  pose proof (pg_new _ _ _ _ _ _ _ _ _ _ Hpg) as ER1.
  assert (allocated_size R1 = allocated_size R + 4096 * Z.of_nat (length ps)) as Eal by (rewrite ER1; done).
  assert (regions (Machine.vm s1) !! r = Some R1) as HR1 by (by rewrite (pg_regions _ _ _ _ _ _ _ _ _ _ Hpg), lookup_insert_eq).
  wstep. eapply wpx_load; [exact HR1|].
  destruct Hres as [[-> Hlen]|(-> & Hlen & Hnone)].
  - rewrite (proj2 (Z.leb_le _ _)) by lia. wstep. eapply wpx_update; [exact HR1|].
    cbn [heap set_heap vmem_region_t_struct].
    unfold flush_if_required. cbn [native_vmem_flush x86_native_vmem]. unfold x86_vmem_flush.
    do 4 wstep. rewrite set_cr3_id. wstep.
    eexists n, ps, G1, _. split; [done|]. split; [eapply pages_added_size; [exact Hpg|lia]|].
    split; [done|]. left. split_and!; [done|lia|done].
  - rewrite (proj2 (Z.leb_gt _ _)) by lia. wstep. wstep.
    unfold flush_if_required. cbn [native_vmem_flush x86_native_vmem]. unfold x86_vmem_flush.
    do 4 wstep. rewrite set_cr3_id. wstep.
    exists n, ps, G1, R1. split_and!; [done|done|done|]. right. split_and!; [done|lia|done|done].
Qed.
End resize.
