(* ===== verification/VmStep.v ===== *)
(** Steps of the virtual memory services that neither add an area or a region to
    the invariant nor change one that is in it, and [vmem_attach]: attaching a
    region to an area maps all its pages there. *)
From S2P Require Import Prelude Machine Logic LinkedList IdMapper Pmem NativeVmem PageTable NativePaging Vmem Region VmInv VmemSpec RegionSpec.

(** * Steps beside the invariant *)

(** Two views of one area: the id and the next start address do not matter. *)
Definition same_area (x y : vmem_t) : Prop :=
  native_vmem y = native_vmem x /\ v_regions y = v_regions x /\ v_map y = v_map x.

(** The role belongs to an area or a region of the invariant. *)
Definition owned (G : ghost) (ro : role) : Prop :=
  match ro with
  | RRegions v | RMap v => is_Some (gV G !! v)
  | RAttached r | RPages r => is_Some (gR G !! r)
  | _ => False
  end.

Record vm_step (n : Z) (s : kstate) (G : ghost) (s' : kstate) (G' : ghost) : Prop := {
  vs_grown : grown n (mem s) (mem s');
  vs_lists : lists_inv s' (gL G');
  vs_roles l ro : gRo G' !! l = Some ro -> is_Some (gL G' !! l);
  vs_ids : ids_inv s' (gL G') (gI G');
  vs_mappers p g : gI G' !! p = Some g -> gRo G' !! g_list g = Some (RMapper p);
  vs_paging : paging_inv s' (gT G') (gL G') (gP G');
  vs_buffers p pt : p ∈ gP G' -> npts (paging s') !! p = Some pt ->
    gRo G' !! npt_allocated_memory pt = Some (RBuffers p);
  vs_Ro : gRo G ⊆ gRo G';
  vs_T : gT G ⊆ gT G';
  vs_P : gP G ⊆ gP G';
  vs_V : gV G' = gV G;
  vs_R : gR G' = gR G;
  vs_kept l ro : gRo G !! l = Some ro -> owned G ro -> gL G' !! l = gL G !! l;
  vs_vmems v vm : is_Some (gV G !! v) -> vmems (Machine.vm s) !! v = Some vm ->
    exists vm', vmems (Machine.vm s') !! v = Some vm' /\ same_area vm vm';
  vs_regions r : is_Some (gR G !! r) -> regions (Machine.vm s') !! r = regions (Machine.vm s) !! r;
  vs_maps : maps (Machine.vm s) ⊆ maps (Machine.vm s');
  vs_npts p : p ∈ gP G -> npts (paging s') !! p = npts (paging s) !! p;
  vs_walk : translations_kept (fun _ _ => False) (ram (mem s)) (ram (mem s')) (gT G);
  vs_below_v : below vmem_t s';
  vs_below_r : below vmem_region_t s';
  vs_below_m : below vmem_map_t s' }.

Lemma vm_inv_step n s G s' G' : vm_inv s G -> vm_step n s G s' G' -> vm_inv s' G'.
Proof.
  intros Hi Hs. split; try apply Hs.
  - eapply grown_alloc_ok; [apply Hs|apply Hi].
  - intros v g. rewrite (vs_V _ _ _ _ _ Hs). intros Hv. destruct (vi_vmems _ _ Hi _ _ Hv) as (vm & pt & Hr).
    destruct (vs_vmems _ _ _ _ _ Hs v vm) as (vm' & Hvm' & En & Er & Em); [eauto|apply Hr|].
    exists vm', pt. destruct Hr as [V1 V2 V3 V4 V5 V6 V7 V8 V9 V10].
    split; rewrite ?En, ?Er, ?Em; [exact V1|exact Hvm'| | | | | |exact V8|exact V9|].
    + by rewrite (vs_npts _ _ _ _ _ Hs).
    + by apply (vs_P _ _ _ _ _ Hs).
    + eapply lookup_weaken; [exact V5|apply Hs].
    + eapply (role_list_frame G); [apply Hs| |exact V6].
      destruct V6 as [V6 _]. eapply (vs_kept _ _ _ _ _ Hs); [exact V6|exists g; exact Hv].
    + destruct V7 as (ps & Hps & Hf). exists ps. split.
      * eapply (role_list_frame G); [apply Hs| |exact Hps].
        destruct Hps as [Hps _]. eapply (vs_kept _ _ _ _ _ Hs); [exact Hps|exists g; exact Hv].
      * eapply Forall2_impl; [exact Hf|]. intros p m [? Hp]. split; [done|].
        eapply lookup_weaken; [exact Hp|apply Hs].
    + intros va Hva. rewrite <- V10 by done. apply (vs_walk _ _ _ _ _ Hs); [exact V5|exact Hva|by intros []].
  - intros v w g h vm1 vm2 pt1 pt2 Hne. rewrite (vs_V _ _ _ _ _ Hs). intros Hv Hw Hx1 Hx2 Hy1 Hy2.
    assert (forall v g vm pt, gV G !! v = Some g -> vmems (Machine.vm s') !! v = Some vm ->
      npts (paging s') !! native_vmem vm = Some pt -> exists vm0, vmems (Machine.vm s) !! v = Some vm0 /\
      native_vmem vm0 = native_vmem vm /\ npts (paging s) !! native_vmem vm0 = Some pt) as Hback.
    { intros x gx vmx ptx Hx Hvmx Hptx. destruct (vi_vmems _ _ Hi _ _ Hx) as (vm0 & pt0 & Hr).
      destruct (vs_vmems _ _ _ _ _ Hs x vm0) as (vm' & Hvm' & En & _); [eauto|apply Hr|].
      exists vm0. assert (vm' = vmx) as -> by congruence. split; [apply Hr|]. split; [done|].
      rewrite <- (vs_npts _ _ _ _ _ Hs); [congruence|apply Hr]. }
    destruct (Hback v g vm1 pt1) as (x1 & ? & E1 & ?); [done..|].
    destruct (Hback w h vm2 pt2) as (x2 & ? & E2 & ?); [done..|].
    rewrite <- E1, <- E2. by eapply (vi_spaces _ _ Hi v w).
  - intros r g. rewrite (vs_R _ _ _ _ _ Hs). intros Hr. destruct (vi_regions _ _ Hi _ _ Hr) as (R & HR). exists R.
    eapply (region_repr_frame s s' G); [exact HR|apply (vs_regions _ _ _ _ _ Hs); eauto|apply Hs| |].
    + intros l [Hl|Hl]; (eapply (vs_kept _ _ _ _ _ Hs); [exact Hl|exists g; exact Hr]).
    + intros v gv Hgv. rewrite (vs_V _ _ _ _ _ Hs). eauto.
Qed.

(** Room left when no region shrank. *)
Lemma avail_region_ok s : alloc_ok (mem s) -> 0 <= avail s -> kernel_data_region_ok s = true.
Proof.
  intros [Hst Hok] Ha. destruct (kernel_data_region_ok s) eqn:Ek; [done|]. unfold avail in Ha. rewrite Ek in Ha.
  unfold kernel_data_region_ok in Ek. apply orb_false_iff in Ek as [En Hn%bool_decide_eq_false].
  apply eq_None_not_Some in Hn. unfold kernel_data_current_size in Ha. rewrite En, Hn in Ha.
  change KERNEL_MEMORY_PAGE_RESERVE with 40960 in Ha. destruct (mem_allocator_initialised (mem s)); lia.
Qed.

Lemma avail_regions_kept n s s' :
  alloc_ok (mem s) -> 0 <= avail s -> grown n (mem s) (mem s') ->
  (forall r R, regions (Machine.vm s) !! r = Some R ->
     exists R', regions (Machine.vm s') !! r = Some R' /\ allocated_size R <= allocated_size R') ->
  avail s - n <= avail s'.
Proof.
  intros Hok Ha Hg Hr. pose proof (avail_region_ok s Hok Ha) as Ek.
  unfold kernel_data_region_ok in Ek. apply orb_true_iff in Ek.
  eapply avail_grown; [exact Hg| |]; unfold kernel_data_current_size, kernel_data_region_ok; rewrite (gr_data _ _ _ Hg).
  - intros Hin. destruct (isnull (kernel_data_vmem_region (mem s))) eqn:En; [apply isnull_true in En; by apply Hok in Hin|].
    destruct Ek as [?|[R HR]%bool_decide_eq_true]; [done|].
    destruct (Hr _ _ HR) as (R' & HR' & Hle). by rewrite HR, HR'.
  - intros _. apply orb_true_iff. destruct Ek as [->|[R HR]%bool_decide_eq_true]; [by left|right].
    apply bool_decide_eq_true. destruct (Hr _ _ HR) as (R' & HR' & _). eauto.
Qed.

(** Steps that leave the page tables alone. *)
Lemma vm_inv_quiet n s s' G L' Ro' I' :
  vm_inv s G -> quiet n (mem s) (mem s') -> heap_top (mem s') <= 2 ^ 48 ->
  npts (paging s') = npts (paging s) ->
  lists_inv s' L' -> ids_inv s' L' I' -> gRo G ⊆ Ro' ->
  (forall l ro, Ro' !! l = Some ro -> is_Some (L' !! l)) ->
  (forall l, is_Some (gL G !! l) -> is_Some (L' !! l)) ->
  (forall p g, I' !! p = Some g -> Ro' !! g_list g = Some (RMapper p)) ->
  (forall l ro, gRo G !! l = Some ro -> owned G ro -> L' !! l = gL G !! l) ->
  (forall v vm, is_Some (gV G !! v) -> vmems (Machine.vm s) !! v = Some vm ->
    exists vm', vmems (Machine.vm s') !! v = Some vm' /\ same_area vm vm') ->
  (forall r, is_Some (gR G !! r) -> regions (Machine.vm s') !! r = regions (Machine.vm s) !! r) ->
  maps (Machine.vm s') = maps (Machine.vm s) -> below vmem_t s' -> below vmem_region_t s' ->
  vm_inv s' (mk_ghost L' Ro' (gT G) (gP G) I' (gV G) (gR G)).
Proof.
  intros Hi Hq Htop HN HL HI HRo Hroles HLL HM Hk Hv Hr Hmaps Hbv Hbr.
  eapply (vm_inv_step n s G); [done|]. split; cbn; try done; try apply Hq.
  - eapply (paging_inv_quiet n s); [apply Hi|done|done|done|done].
  - intros p pt Hp Hpt. rewrite HN in Hpt. eapply lookup_weaken; [by eapply (vi_buffers _ _ Hi)|done].
  - by rewrite Hmaps.
  - intros p _. by rewrite HN.
  - intros r va Hr' Hva _. by eapply (walk_quiet n s); [apply Hi|..].
  - eapply below_grown; [apply Hq| |apply Hi]. exact Hmaps.
Qed.

Lemma same_area_refl x : same_area x x.
Proof. done. Qed.

Lemma is_Some_insert_kept {A} (m : gmap Z A) k x l : is_Some (m !! l) -> is_Some (<[k := x]> m !! l).
Proof. intros H. destruct (decide (k = l)) as [->|]; [rewrite lookup_insert_eq; eauto|by rewrite lookup_insert_ne]. Qed.

(** A new list, to be used for [ro]. *)
Definition with_list (l : Z) (ro : role) (ns : list (Z * Z)) (G : ghost) : ghost :=
  mk_ghost (<[l := ns]> (gL G)) (<[l := ro]> (gRo G)) (gT G) (gP G) (gI G) (gV G) (gR G).

Lemma vm_inv_new_list n s s' G l ro ns :
  vm_inv s G -> only_lists n s s' -> heap_top (mem s') <= 2 ^ 48 -> gL G !! l = None ->
  lists_inv s' (<[l := ns]> (gL G)) -> vm_inv s' (with_list l ro ns G).
Proof.
  intros Hi Ho Htop Hl HL. pose proof (only_lists_quiet _ _ _ Ho) as Hq.
  assert (ids s' = ids s /\ Machine.vm s' = Machine.vm s /\ paging s' = paging s) as (Ei & Ev & Ep)
    by (by destruct Ho as (? & ? & ? & -> & _)).
  assert (gRo G !! l = None) as Hro.
  { destruct (gRo G !! l) eqn:E; [|done]. apply (vi_roles _ _ Hi) in E as [? E]. congruence. }
  apply (vm_inv_quiet n s s' G); try done; rewrite ?Ev, ?Ep; try done.
  - eapply ids_inv_frame; [exact Ei|apply Hq| |apply Hi]. intros p g Hp. apply lookup_insert_ne.
    intros ->. apply (vi_mappers _ _ Hi) in Hp. congruence.
  - by apply insert_subseteq.
  - intros l' ro'. intros [[<- _]|[_ E]]%lookup_insert_Some; [rewrite lookup_insert_eq; eauto|].
    apply is_Some_insert_kept. by eapply vi_roles.
  - intros l'. apply is_Some_insert_kept.
  - intros p g Hp. apply (vi_mappers _ _ Hi) in Hp. rewrite lookup_insert_ne; [done|congruence].
  - intros l' ro' E _. apply lookup_insert_ne. congruence.
  - intros v vm _ Hv. exists vm. split; [exact Hv|apply same_area_refl].
  - eapply below_grown; [apply Hq| |apply Hi]. cbn. by rewrite Ev.
  - eapply below_grown; [apply Hq| |apply Hi]. cbn. by rewrite Ev.
Qed.

(** An entry was added to the mapper [p]. *)
Definition with_ids (l : Z) (ns : list (Z * Z)) (I : gmap Z idm) (G : ghost) : ghost :=
  mk_ghost (<[l := ns]> (gL G)) (gRo G) (gT G) (gP G) I (gV G) (gR G).

Lemma vm_inv_ids n s s' G p g g' ns :
  vm_inv s G -> gI G !! p = Some g -> only_ids n s s' -> heap_top (mem s') <= 2 ^ 48 -> g_list g' = g_list g ->
  lists_inv s' (<[g_list g := ns]> (gL G)) -> ids_inv s' (<[g_list g := ns]> (gL G)) (<[p := g']> (gI G)) ->
  vm_inv s' (with_ids (g_list g) ns (<[p := g']> (gI G)) G).
Proof.
  intros Hi Hp Ho Htop Hg HL HI. pose proof (only_ids_quiet _ _ _ Ho) as Hq.
  assert (Machine.vm s' = Machine.vm s /\ paging s' = paging s) as (Ev & Ep)
    by (by destruct Ho as (? & ? & ? & -> & _)).
  pose proof (vi_mappers _ _ Hi _ _ Hp) as Hro.
  apply (vm_inv_quiet n s s' G); try done; rewrite ?Ev, ?Ep; try done.
  - intros l ro E. apply is_Some_insert_kept. by eapply vi_roles.
  - intros l. apply is_Some_insert_kept.
  - intros q h [[<- <-]|[_ E]]%lookup_insert_Some; [by rewrite Hg|]. by apply (vi_mappers _ _ Hi).
  - intros l ro E Hw. apply lookup_insert_ne. intros <-. rewrite Hro in E. injection E as <-. done.
  - intros v vm _ Hv. exists vm. split; [exact Hv|apply same_area_refl].
  - eapply below_grown; [apply Hq| |apply Hi]. cbn. by rewrite Ev.
  - eapply below_grown; [apply Hq| |apply Hi]. cbn. by rewrite Ev.
Qed.

(** The objects of areas and regions outside the invariant, and the parts of the
    areas the invariant does not speak about, may change. *)
Lemma vm_inv_objects n s s' G :
  vm_inv s G -> quiet n (mem s) (mem s') -> heap_top (mem s') <= 2 ^ 48 ->
  lists s' = lists s -> ids s' = ids s -> npts (paging s') = npts (paging s) ->
  maps (Machine.vm s') = maps (Machine.vm s) ->
  (forall v vm, is_Some (gV G !! v) -> vmems (Machine.vm s) !! v = Some vm ->
    exists vm', vmems (Machine.vm s') !! v = Some vm' /\ same_area vm vm') ->
  (forall r, is_Some (gR G !! r) -> regions (Machine.vm s') !! r = regions (Machine.vm s) !! r) ->
  below vmem_t s' -> below vmem_region_t s' -> vm_inv s' G.
Proof.
  intros Hi Hq Htop Hl Hid HN Hm Hv Hr Hbv Hbr.
  assert (vm_inv s' (mk_ghost (gL G) (gRo G) (gT G) (gP G) (gI G) (gV G) (gR G))); [|by destruct G].
  apply (vm_inv_quiet n s s' G); try done.
  - eapply lists_inv_grown; [done|apply Hq|lia|apply Hi].
  - eapply ids_inv_frame; [done|apply Hq|done|apply Hi].
  - apply (vi_roles _ _ Hi).
  - apply (vi_mappers _ _ Hi).
Qed.

(** * Attaching a region *)

(** The maps of a region are free addresses of the area. *)
Definition attach_room (g : vghost) (R : vmem_region_t) (ps : list Z) : Prop :=
  forall i, (i < length ps)%nat -> r_start R + 4096 * Z.of_nat i ∉ map_virtual_addr <$> vg_maps g.

Definition attach_cost (ps : list Z) : Z := 32 + notify_cost * Z.of_nat (length ps).

Lemma region_maps_lookup r base ps i p :
  ps !! i = Some p -> mk_map (base + 4096 * Z.of_nat i) p r ∈ region_maps r base ps.
Proof.
  revert base i. induction ps as [|q ps IH]; intros base i; [done|]. destruct i as [|i]; cbn [region_maps lookup].
  - intros [= ->]. replace (base + 4096 * Z.of_nat 0) with base by lia. by constructor.
  - intros Hi. apply elem_of_cons. right. replace (base + 4096 * Z.of_nat (S i)) with (base + 4096 + 4096 * Z.of_nat i) by lia.
    by apply IH.
Qed.

Lemma upto_null_sub x xs : x ∈ upto_null xs -> x ∈ xs.
Proof.
  induction xs as [|y ys IH]; cbn; [done|]. destruct (isnull y); [by intros ?%elem_of_nil|].
  rewrite !elem_of_cons. naive_solver.
Qed.

(** The region after it was attached to [v]. *)
Lemma region_repr_attached s G r h R s' G' v g rs :
  region_repr s G r h R -> (v ∉ rg_attached h) -> v <> 0 -> regions (Machine.vm s') !! r = Some R ->
  role_list G' (r_attached R) (RAttached r) (rg_attached h ++ [v]) ->
  role_list G' (r_pages R) (RPages r) (rg_pages h) -> gV G !! v = Some g ->
  gV G' = <[v := mk_vg rs (vg_maps g ++ region_maps r (r_start R) (rg_pages h))]> (gV G) ->
  region_repr s' G' r (mk_rg (rg_attached h ++ [v]) (rg_pages h)) R.
Proof.
  intros HR Hv Hv0 HR' Ha Hp Hg HV.
  assert (forall w gw, gV G !! w = Some gw -> exists gw', gV G' !! w = Some gw' /\ vg_maps gw ⊆ vg_maps gw') as Hw.
  { intros w gw Hgw. rewrite HV. destruct (decide (v = w)) as [<-|].
    - rewrite lookup_insert_eq. eexists. split; [done|]. assert (gw = g) as -> by congruence.
      intros x Hx. cbn. set_solver.
    - rewrite lookup_insert_ne by done. eauto. }
  split; cbn [rg_attached rg_pages]; try done; try apply HR.
  - apply NoDup_app. split_and!; [apply HR|set_solver|apply NoDup_singleton].
  - intros w i p [Hin| ->%list_elem_of_singleton]%elem_of_app Hi.
    + destruct (rr_maps _ _ _ _ _ HR w i p Hin Hi) as (gw & Hgw & Hm).
      destruct (Hw _ _ Hgw) as (gw' & Hgw' & Hsub). eauto.
    + rewrite HV, lookup_insert_eq. eexists. split; [done|]. cbn. apply elem_of_app. right. by apply region_maps_lookup.
  - intros w [Hin| ->%list_elem_of_singleton]%elem_of_app.
    + destruct (rr_known _ _ _ _ _ HR w Hin) as [? [gw Hgw]]. destruct (Hw _ _ Hgw) as (gw' & ? & _). eauto.
    + rewrite HV, lookup_insert_eq. eauto.
Qed.

Section attach.
Context `{K : Kalloc} `{!GoodAlloc K}.

(** Mapping the pages of a region one behind the other. *)
Lemma attach_pages_spec s G v g r R l ns ps :
  vm_inv s G -> gV G !! v = Some g -> regions (Machine.vm s) !! r = Some R ->
  gRo G !! l = Some (RPages r) -> gL G !! l = Some ns -> values ns = ps ->
  Forall (fun p => page_ok p /\ p <> 0) ps -> page_ok (r_start R) ->
  r_start R + 4096 * Z.of_nat (length ps) <= 2 ^ 48 -> attach_room g R ps ->
  notify_cost * Z.of_nat (length ps) <= avail s ->
  heap_top (mem s) + notify_cost * Z.of_nat (length ps) <= 2 ^ 48 ->
  wp (while_linkedlist_iter l (r_start R) (fun paddr vaddr =>
        ok ← vmem_notify_change v r paddr vaddr;
        if negb ok then mret (inr tt) else mret (inl (vaddr ⊞ SYSTEM_PAGE_SIZE))))
    (fun res s' => (exists va, res = inl va) /\ exists n G', n <= notify_cost * Z.of_nat (length ps) /\
      maps_step n s G v (vg_add (region_maps r (r_start R) ps) g) s' G') s.
Proof.
  intros Hi Hv HR Hro Hns Evs Hps [Hst Hsta] Hend Hroom Ha Htop.
  assert (upto_null (values ns) = ps) as Hup.
  { rewrite Evs. apply upto_null_all. eapply Forall_impl; [exact Hps|]. by intros p [_ ?]. }
  eapply (wp_while_linkedlist_iter l ns _ (fun done va s' => va = r_start R + 4096 * Z.of_nat (length done) /\
      exists n G', n <= notify_cost * Z.of_nat (length done) /\
      maps_step n s G v (vg_add (region_maps r (r_start R) done) g) s' G')).
  - intros done va s' (_ & n & G' & _ & Hms). eapply inv_is_list; [apply Hms|].
    rewrite (ms_L _ _ _ _ _ _ _ Hms); [exact Hns|congruence|congruence].
  - intros done p va s' [rest Hpre] Hp0 (-> & n & G' & Hn & Hms). rewrite Hup, <- app_assoc in Hpre. cbn in Hpre.
    assert (page_ok p) as Hp by (rewrite Forall_forall in Hps; apply Hps; rewrite Hpre; set_solver).
    assert (Z.of_nat (length done) + 1 <= Z.of_nat (length ps)) as Hlen by (rewrite Hpre, length_app; cbn; lia).
    set (va := r_start R + 4096 * Z.of_nat (length done)).
    assert (page_ok va) as Hva.
    { unfold va. split; [lia|]. rewrite Z.add_mod, (Z.mul_comm 4096), Z_mod_mult, Hsta by lia. done. }
    assert (va ∉ map_virtual_addr <$> vg_maps (vg_add (region_maps r (r_start R) done) g)) as Hfr.
    { cbn. rewrite fmap_app, not_elem_of_app. split; [apply Hroom; lia|].
      intros (m & E & Hm)%list_elem_of_fmap. apply region_maps_vaddr in Hm. unfold va in E. lia. }
    destruct (only_maps_avail _ _ _ (vi_alloc _ _ Hi) (ms_only _ _ _ _ _ _ _ Hms)) as [_ Hav].
    pose proof (gr_top _ _ _ (only_maps_grown _ _ _ (ms_only _ _ _ _ _ _ _ Hms))) as Et.
    unfold notify_cost in *. eapply wp_call.
    { eapply (vmem_notify_change_spec s' G' v _ r R p va); [apply Hms| | |exact Hva|exact Hp|exact Hfr| |];
        unfold notify_cost; try lia.
      - rewrite (ms_V _ _ _ _ _ _ _ Hms). apply lookup_insert_eq.
      - destruct (ms_only _ _ _ _ _ _ _ Hms) as (? & ? & ? & ? & -> & _). exact HR. }
    intros ok s2 (-> & n2 & G2 & Hn2 & Hms2). cbn [negb]. wstep. split.
    { kconst. rewrite length_app; cbn [length]; unfold va; rewrite u64_small; lia. }
    exists (n + n2), G2. unfold notify_cost in *. split; [rewrite length_app; cbn; lia|].
    destruct Hms as [A1 B1 C1 D1 E1 F1 H1], Hms2 as [A2 B2 C2 D2 E2 F2 H2]. split; try congruence.
    + by eapply only_maps_trans.
    + rewrite C2, C1, insert_insert_eq. f_equal. unfold vg_add. cbn. f_equal.
      rewrite <- app_assoc. f_equal. by rewrite region_maps_app.
    + intros l' Hb Hm. rewrite H2, H1; rewrite ?F1; auto.
  - intros va s' (-> & n & G' & Hn & Hms). rewrite Hup in *. split; [eauto|]. exists n, G'. done.
  - split; [cbn; lia|]. exists 0, G. split; [cbn; lia|]. split; try done; [apply only_maps_refl|].
    unfold vg_add. cbn. rewrite app_nil_r. destruct g. by rewrite insert_id.
Qed.

(** [v] got the region [r], with all its pages. *)
Record attached (n : Z) (s : kstate) (G : ghost) (v : Z) (g : vghost) (r : Z) (h : rghost) (R : vmem_region_t)
    (s' : kstate) (G' : ghost) : Prop := {
  at_only : only_maps n s s';
  at_inv : vm_inv s' G';
  at_V : gV G' = <[v := mk_vg (vg_regions g ++ [r]) (vg_maps g ++ region_maps r (r_start R) (rg_pages h))]> (gV G);
  at_R : gR G' = <[r := mk_rg (rg_attached h ++ [v]) (rg_pages h)]> (gR G);
  at_I : gI G' = gI G;
  at_Ro : gRo G' = gRo G;
  at_L l w : gRo G !! l = Some (RRegions w) -> w <> v -> gL G' !! l = gL G !! l;
  at_O : others_kept G G' }.

Lemma vmem_attach_spec s G v g r h R :
  vm_inv s G -> gV G !! v = Some g -> gR G !! r = Some h -> regions (Machine.vm s) !! r = Some R ->
  (r ∉ vg_regions g) -> (v ∉ rg_attached h) -> Z.of_nat (length (vg_regions g)) < 2 ^ 31 ->
  attach_room g R (rg_pages h) ->
  attach_cost (rg_pages h) <= avail s -> heap_top (mem s) + attach_cost (rg_pages h) <= 2 ^ 48 ->
  wp (vmem_attach v r) (fun ok s' => ok = true /\ exists n G', n <= attach_cost (rg_pages h) /\
    attached n s G v g r h R s' G') s.
Proof.
  intros Hi Hv Hh HR Hnr Hnv Hlen Hroom Ha Htop. unfold attach_cost in *.
  pose proof (region_repr_at _ _ _ _ _ Hi Hh HR) as HRr. pose proof (vi_alloc _ _ Hi) as Hok.
  destruct (vi_vmems _ _ Hi _ _ Hv) as (vm & pt & Hr).
  destruct (vr_regions _ _ _ _ _ _ Hr) as [Hror (nsr & Hnsr & Evr)].
  destruct (rr_pages _ _ _ _ _ HRr) as [Hrop (nsp & Hnsp & Evp)].
  destruct (rr_attached _ _ _ _ _ HRr) as [Hroa (nsa & Hnsa & Eva)].
  pose proof (vr_ptr _ _ _ _ _ _ Hr) as Hv0. pose proof (rr_ptr _ _ _ _ _ HRr) as Hr0.
  assert (0 <= notify_cost * Z.of_nat (length (rg_pages h))) as Hc by (unfold notify_cost; lia).
  unfold vmem_attach. nonnull v. nonnull r. cbn [orb].
  wstep. eapply wpx_load; [apply Hr|].
  eapply wpx_call; [eapply linkedlist_find_spec; [apply Hi|exact Hnsr|]|].
  { replace (length nsr) with (length (vg_regions g)); [done|]. rewrite <- Evr. apply length_fmap. }
  intros i s0 (-> & Hfind).
  assert (i = -1) as ->.
  { destruct Hfind as [[-> _]|(j & _ & Hj & _)]; [done|]. destruct Hnr. rewrite <- Evr.
    apply list_elem_of_lookup_2 in Hj. by apply upto_null_sub in Hj. }
  change (negb (-1 =? -1)) with false. cbv iota.
  wstep. eapply wpx_load; [apply Hr|].
  eapply wpx_call; [eapply linkedlist_append_spec; [apply Hi|done|exact Hnsr|lia]|].
  intros ok s1 (-> & Ho1 & Hl1). cbn [negb].
  pose proof (gr_top _ _ _ (q_grown _ _ _ (only_lists_quiet _ _ _ Ho1))) as Et1.
  destruct (only_lists_avail _ _ _ Hok Ho1) as [Hok1 Ha1].
  set (ns1 := nsr ++ [(heap_top (mem s), r)]) in *.
  assert (values ns1 = vg_regions g ++ [r]) as Ev1 by (unfold ns1, values in *; by rewrite fmap_app, Evr).
  pose proof (vm_inv_set_regions _ _ _ _ _ _ _ _ ns1 Hi Hv Hr Ho1 Hl1 ltac:(lia)) as Hi1. rewrite Ev1 in Hi1.
  match type of Hi1 with vm_inv _ ?x => set (G1 := x) in * end.
  assert (Machine.vm s1 = Machine.vm s) as Evm1 by (by destruct Ho1 as (? & ? & ? & -> & _)).
  assert (gL G1 !! r_attached R = Some nsa) as Hnsa1.
  { cbn. rewrite lookup_insert_ne; [done|]. intros E. rewrite E in Hror. congruence. }
  wstep. eapply wpx_load; [cbn; rewrite Evm1; exact HR|].
  eapply wpx_call; [eapply linkedlist_append_spec; [apply Hi1|done|exact Hnsa1|lia]|].
  intros ok s2 (-> & Ho2 & Hl2). cbn [negb].
  pose proof (gr_top _ _ _ (q_grown _ _ _ (only_lists_quiet _ _ _ Ho2))) as Et2.
  destruct (only_lists_avail _ _ _ Hok1 Ho2) as [Hok2 Ha2].
  set (nsa2 := nsa ++ [(heap_top (mem s1), v)]) in *.
  set (G2 := with_L (<[r_attached R := nsa2]> (gL G1)) (with_R (delete r (gR G)) G1)).
  assert (vm_inv s2 G2) as Hi2.
  { apply (vm_inv_set_list 16 s1 s2 (with_R (delete r (gR G)) G1)); try done; cbn; try congruence; try lia.
    - change (gR G) with (gR G1). by apply vm_inv_drop.
    - intros w _. split; congruence.
    - intros r' Hr'. rewrite Hroa. split; [|done]. intros [= <-]. rewrite lookup_delete_eq in Hr'. by destruct Hr'. }
  assert (Machine.vm s2 = Machine.vm s) as Evm2 by (rewrite <- Evm1; by destruct Ho2 as (? & ? & ? & -> & _)).
  assert (gL G2 !! r_pages R = Some nsp) as Hnsp2.
  { cbn. rewrite !lookup_insert_ne; [done| |]; intros E; [rewrite E in Hror|rewrite E in Hroa]; congruence. }
  wstep. eapply wpx_load; [cbn; rewrite Evm2; exact HR|].
  eapply wpx_call.
  { eapply (attach_pages_spec s2 G2 v (mk_vg (vg_regions g ++ [r]) (vg_maps g)) r R (r_pages R) nsp (rg_pages h));
      try done; cbn; try (rewrite Evm2; exact HR); try apply lookup_insert_eq; try apply HRr; try lia.
    rewrite <- (rr_alloc _ _ _ _ _ HRr). apply HRr. }
  intros res s3 ([va ->] & n & G3 & Hn & Hms). wstep. split; [done|].
  exists (32 + n), (with_R (<[r := mk_rg (rg_attached h ++ [v]) (rg_pages h)]> (delete r (gR G))) G3).
  split; [lia|]. destruct Hms as [A B C D E F H]. split; cbn.
  - change 32 with (16 + 16). rewrite <- Z.add_assoc. apply (only_maps_trans _ _ _ s1); [by apply only_paging_maps, only_lists_paging|].
    apply (only_maps_trans _ _ _ s2); [by apply only_paging_maps, only_lists_paging|done].
  - eapply (vm_inv_put s3 G3 r _ R); [|apply lookup_delete_eq|].
    + change (delete r (gR G)) with (gR G2). rewrite <- D. by destruct G3.
    + eapply (region_repr_attached s G); try done.
      * destruct A as (? & ? & ? & ? & -> & _). cbn. rewrite Evm2. exact HR.
      * split; [by rewrite F|]. exists nsa2. rewrite H; cbn; [|congruence|congruence].
        rewrite lookup_insert_eq. split; [done|]. unfold nsa2, values in *. by rewrite fmap_app, Eva.
      * split; [by rewrite F|]. exists nsp. rewrite H; cbn in *; [done|congruence|congruence].
      * rewrite C. cbn. by rewrite insert_insert_eq.
  - rewrite C. cbn. by rewrite insert_insert_eq.
  - by rewrite insert_delete_eq.
  - done.
  - done.
  - intros l w Hl Hw. rewrite H; cbn; [|congruence|congruence]. rewrite !lookup_insert_ne; [done| |]; intros <-; congruence.
  - intros l Hl. cbn. rewrite F, H; cbn; [|congruence|congruence]. split; [done|].
    rewrite !lookup_insert_ne; [done| |]; intros <-; congruence.
Qed.
End attach.
