(* ===== verification/VmCreate.v ===== *)
(** Creating regions and areas: [vmem_region_create] and [vmem_create] against
    [vm_inv], and what the processor sees after them. *)
From S2P Require Import Prelude Machine Logic LinkedList IdMapper Pmem NativeVmem PageTable NativePaging Vmem Region VmInv VmemSpec RegionSpec VmStep.

(** * Areas and regions know each other *)

Record linked (G : ghost) : Prop := {
  lk_nodup v g : gV G !! v = Some g -> NoDup (vg_regions g);
  lk_region v g r : gV G !! v = Some g -> r ∈ vg_regions g ->
    exists h, gR G !! r = Some h /\ v ∈ rg_attached h;
  lk_area r h v : gR G !! r = Some h -> v ∈ rg_attached h ->
    exists g, gV G !! v = Some g /\ r ∈ vg_regions g }.

(** The areas and regions of the invariant are below the top of the heap. *)
Lemma area_below s G v : vm_inv s G -> is_Some (gV G !! v) -> v < heap_top (mem s).
Proof.
  intros Hi [g Hg]. destruct (vi_vmems _ _ Hi _ _ Hg) as (vm & pt & Hr).
  pose proof (vi_below_v _ _ Hi _ _ (vr_vm _ _ _ _ _ _ Hr)). lia.
Qed.

Lemma region_below s G r : vm_inv s G -> is_Some (gR G !! r) -> r < heap_top (mem s).
Proof.
  intros Hi [g Hg]. destruct (vi_regions _ _ Hi _ _ Hg) as (R & HR).
  pose proof (vi_below_r _ _ Hi _ _ (rr_R _ _ _ _ _ HR)). lia.
Qed.

Lemma linked_attach G G' v g ms r h :
  linked G -> gV G !! v = Some g -> gR G !! r = Some h -> (r ∉ vg_regions g) ->
  gV G' = <[v := mk_vg (vg_regions g ++ [r]) ms]> (gV G) ->
  gR G' = <[r := mk_rg (rg_attached h ++ [v]) (rg_pages h)]> (gR G) -> linked G'.
Proof.
  intros [A B C] Hg Hh Hn HV HR. split; rewrite ?HV, ?HR.
  - intros w gw [[<- <-]|[_ Hw]]%lookup_insert_Some; [|by eapply A].
    cbn. apply NoDup_app. split_and!; [by eapply A|set_solver|apply NoDup_singleton].
  - intros w gw x Hw Hx. destruct (decide (r = x)) as [<-|Hne].
    + rewrite lookup_insert_eq. eexists. split; [done|]. cbn. rewrite elem_of_app, list_elem_of_singleton.
      apply lookup_insert_Some in Hw as [[<- _]|[_ Hw]]; [by right|left].
      destruct (B _ _ _ Hw Hx) as (h' & Hh' & ?). congruence.
    + rewrite lookup_insert_ne by done. apply lookup_insert_Some in Hw as [[<- <-]|[_ Hw]]; [|by eapply B].
      cbn in Hx. eapply B; [exact Hg|set_solver].
  - intros x hx w Hx Hw. destruct (decide (v = w)) as [<-|Hne].
    + rewrite lookup_insert_eq. eexists. split; [done|]. cbn. rewrite elem_of_app, list_elem_of_singleton.
      apply lookup_insert_Some in Hx as [[<- _]|[_ Hx]]; [by right|left].
      destruct (C _ _ _ Hx Hw) as (g' & Hg' & ?). congruence.
    + rewrite lookup_insert_ne by done. apply lookup_insert_Some in Hx as [[<- <-]|[_ Hx]]; [|by eapply C].
      cbn in Hw. eapply C; [exact Hh|set_solver].
Qed.

Lemma linked_pages G G' r h ms ps :
  linked G -> gR G !! r = Some h -> maps_added (rg_attached h) ms (gV G) (gV G') ->
  gR G' = <[r := mk_rg (rg_attached h) ps]> (gR G) -> linked G'.
Proof.
  intros [A B C] Hh HV HR.
  assert (forall v g', gV G' !! v = Some g' -> exists g, gV G !! v = Some g /\ vg_regions g' = vg_regions g) as Hback.
  { intros v g'. rewrite HV. destruct (gV G !! v) as [g|]; [|done]. cbn. intros [= <-]. exists g.
    split; [done|]. by case_bool_decide. }
  assert (forall v g, gV G !! v = Some g -> exists g', gV G' !! v = Some g' /\ vg_regions g' = vg_regions g) as Hfwd.
  { intros v g Hg. rewrite HV, Hg. cbn. eexists. split; [done|]. by case_bool_decide. }
  split; rewrite ?HR.
  - intros v g' (g & Hg & ->)%Hback. by eapply A.
  - intros v g' x (g & Hg & ->)%Hback Hx. destruct (B _ _ _ Hg Hx) as (hx & Hhx & Hin).
    destruct (decide (r = x)) as [<-|]; [|rewrite lookup_insert_ne; eauto].
    rewrite lookup_insert_eq. eexists. split; [done|]. cbn. congruence.
  - intros x hx v Hx Hv. assert (exists h0, gR G !! x = Some h0 /\ v ∈ rg_attached h0) as (h0 & Hh0 & Hv0).
    { apply lookup_insert_Some in Hx as [[<- <-]|[_ Hx]]; eauto. }
    destruct (C _ _ _ Hh0 Hv0) as (g & Hg & Hin). destruct (Hfwd _ _ Hg) as (g' & Hg' & E). exists g'. by rewrite E.
Qed.

(** ** A new region *)

(** An object for a region that is not in the invariant. *)
Lemma vm_inv_fresh_region n s m' G R :
  vm_inv s G -> quiet n (mem s) m' -> 0 < n -> heap_top m' <= 2 ^ 48 ->
  vm_inv (set_regions (<[heap_top (mem s) := R]> (regions (Machine.vm s))) (set_mem m' s)) G /\
  gR G !! heap_top (mem s) = None.
Proof.
  intros Hi Hq Hn Htop.
  assert (gR G !! heap_top (mem s) = None) as Hf.
  { apply eq_None_not_Some. intros Hs. apply (region_below s G) in Hs; [lia|done]. }
  split; [|done]. pose proof (gr_top _ _ _ (q_grown _ _ _ Hq)) as Et.
  pose proof (heap_top_pos _ (vi_alloc _ _ Hi)) as Hpos.
  apply (vm_inv_objects n s); try done.
  - intros v vm _ Hv. exists vm. split; [done|apply same_area_refl].
  - intros r Hr. cbn. apply lookup_insert_ne. intros <-. rewrite Hf in Hr. by destruct Hr.
  - eapply (below_grown n s); [apply Hq|done|apply Hi].
  - intros p x. cbn. intros [[<- _]|[_ Hx]]%lookup_insert_Some; [lia|]. pose proof (vi_below_r _ _ Hi _ _ Hx). lia.
Qed.

Lemma region_repr_empty s G r R :
  r <> 0 -> regions (Machine.vm s) !! r = Some R -> page_ok (r_start R) -> 0 < r_start R ->
  r_size R = 0 -> allocated_size R = 0 ->
  role_list G (r_attached R) (RAttached r) [] -> role_list G (r_pages R) (RPages r) [] ->
  region_repr s G r (mk_rg [] []) R.
Proof.
  intros Hr HR Hp Hst Hs Ha Hla Hlp. split; cbn; try done; try lia.
  all: try by constructor.
  all: try by intros; exfalso; eapply not_elem_of_nil.
  destruct Hp. lia.
Qed.

(** A region may get its id. *)
Definition set_region_id (id : Z) (r : vmem_region_t) : vmem_region_t :=
  mk_region id (r_attached r) (r_name r) (r_start r) (r_size r) (allocated_size r)
    (r_user r) (r_writable r) (r_executable r) (r_pages r).

Lemma vm_inv_set_region_id s G r g R id :
  vm_inv s G -> gR G !! r = Some g -> regions (Machine.vm s) !! r = Some R ->
  vm_inv (set_regions (<[r := set_region_id id R]> (regions (Machine.vm s))) s) G.
Proof.
  intros Hi Hg HR. pose proof (region_repr_at _ _ _ _ _ Hi Hg HR) as HRr.
  set (s' := set_regions _ s).
  assert (vm_inv s' (with_R (delete r (gR G)) G)) as Hi'.
  { apply vm_inv_set_region; [by apply vm_inv_drop|apply lookup_delete_eq|by exists R]. }
  assert (region_repr s' G r g (set_region_id id R)) as HR'.
  { destruct HRr. split; try done. cbn. apply lookup_insert_eq. }
  pose proof (vm_inv_put _ _ _ _ _ _ Hi' (lookup_delete_eq _ _) HR') as Hp.
  rewrite insert_delete_id in Hp by done. by destruct G.
Qed.

(** The root table [native_vmem_switch] loads for an area. *)
Definition root_of (s : kstate) (v : Z) : option Z :=
  vm ← vmems (Machine.vm s) !! v; npt_entries <$> npts (paging s) !! native_vmem vm.

Lemma root_of_kept s s' v b :
  (forall vm, vmems (Machine.vm s) !! v = Some vm -> exists vm', vmems (Machine.vm s') !! v = Some vm' /\ native_vmem vm' = native_vmem vm) ->
  roots_kept (npts (paging s)) (npts (paging s')) -> root_of s v = Some b -> root_of s' v = Some b.
Proof.
  unfold root_of. intros Hv Hk. destruct (vmems (Machine.vm s) !! v) as [vm|]; [|done]. destruct (Hv vm eq_refl) as (vm' & -> & E).
  cbn. rewrite E. destruct (npts (paging s) !! native_vmem vm) as [pt|] eqn:Hpt; [|done]. destruct (Hk _ _ Hpt) as (pt' & -> & E').
  cbn. by rewrite E'.
Qed.

(** New lists, and the lists of id mappers. *)
Lemma others_kept_list s G l ro ns : vm_inv s G -> gL G !! l = None -> others_kept G (with_list l ro ns G).
Proof.
  intros Hi Hl x Hx. pose proof (vi_roles _ _ Hi _ _ Hx) as [? ?]. cbn. rewrite !lookup_insert_ne by congruence. done.
Qed.

Lemma others_kept_ids s G l p ns I : vm_inv s G -> gRo G !! l = Some (RMapper p) -> others_kept G (with_ids l ns I G).
Proof. intros Hi Hl x Hx. cbn. rewrite lookup_insert_ne by congruence. done. Qed.

(** What the services of virtual memory leave alone. *)
Record vm_frame (n : Z) (s s' : kstate) : Prop := {
  vf_grown : grown n (mem s) (mem s');
  vf_sched : sched s' = sched s;
  vf_boot : boot s' = boot s;
  vf_cr3 : cr3 (paging s') = cr3 (paging s);
  vf_kernel : kernel_vmem (Machine.vm s') = kernel_vmem (Machine.vm s);
  vf_roots v b : root_of s v = Some b -> root_of s' v = Some b }.

Lemma vm_frame_trans n1 n2 s1 s2 s3 : vm_frame n1 s1 s2 -> vm_frame n2 s2 s3 -> vm_frame (n1 + n2) s1 s3.
Proof. intros [] []. split; try congruence; [by eapply grown_trans|auto]. Qed.

Lemma vm_frame_lists n s s' : only_lists n s s' -> vm_frame n s s'.
Proof. intros (H & N & m' & -> & Hq). split; try done. apply Hq. Qed.
Lemma vm_frame_ids n s s' : only_ids n s s' -> vm_frame n s s'.
Proof. intros (I & N & m' & -> & Hq). split; try done. apply Hq. Qed.
Lemma vm_frame_maps n s s' : only_maps n s s' -> vm_frame n s s'.
Proof.
  intros (Mp & N & L & m' & -> & Hq & Hk). split; try done. intros v b. apply root_of_kept; [|done]. intros vm Hv. by exists vm.
Qed.
Lemma vm_frame_grow n s s' : only_grow n s s' -> vm_frame n s s'.
Proof.
  intros (pm & s1 & -> & (Rg & Mp & N & L & m' & -> & Hq & Hk)). split; try done. intros v b. apply root_of_kept; [|done].
  intros vm Hv. by exists vm.
Qed.
Lemma vm_frame_regions s Rg : vm_frame 0 s (set_regions Rg s).
Proof. split; try done. apply grown_refl. Qed.
Lemma vm_frame_vmem s v vm :
  (forall vm0, vmems (Machine.vm s) !! v = Some vm0 -> native_vmem vm = native_vmem vm0) ->
  vm_frame 0 s (set_vmems (<[v := vm]> (vmems (Machine.vm s))) s).
Proof.
  intros Hv. split; try done; [apply grown_refl|]. intros w b. apply root_of_kept; [|apply roots_kept_refl]. intros vw Hw. cbn.
  destruct (decide (v = w)) as [<-|Hne]; [rewrite lookup_insert_eq|rewrite lookup_insert_ne by done]; eauto.
Qed.

(** The last step of a chain that rewrites an area. *)
Ltac frame_vmem := apply vm_frame_vmem; intros ? ?; simplify_eq/=; congruence.

(** * [vmem_region_create] *)
Section region_create.
Context `{K : Kalloc} `{!GoodAlloc K} `{Y : Layout}.

(** Memory needed for a region of [k] pages in one area. *)
Definition region_cost (k : Z) : Z := 160 + (16 + notify_cost) * k.

(** A region [r] of [k] pages was made at [base] in the area [v]. *)
Record region_created (n : Z) (s : kstate) (G : ghost) (v : Z) (g : vghost) (r base size : Z) (ps : list Z)
    (s' : kstate) (G' : ghost) (R' : vmem_region_t) : Prop := {
  rc_frame : vm_frame n s s';
  rc_inv : vm_inv s' G';
  rc_linked : linked G';
  rc_fresh : gR G !! r = None;
  rc_V : gV G' = <[v := mk_vg (vg_regions g ++ [r]) (vg_maps g ++ region_maps r base ps)]> (gV G);
  rc_R : gR G' = <[r := mk_rg [v] ps]> (gR G);
  rc_store : regions (Machine.vm s') = <[r := R']> (regions (Machine.vm s));
  rc_start : r_start R' = base /\ r_size R' = size;
  rc_I p : p <> a_vmem_region_mapper -> gI G' !! p = gI G !! p;
  rc_id gi : gI G !! a_vmem_region_mapper = Some gi ->
    vmem_region_id R' = g_next gi /\ gI G' !! a_vmem_region_mapper =
      Some (mk_gidm (g_list gi) (g_next gi + 1) (g_entries gi ++ [(g_next gi, r)]));
  rc_taken : taken (pmem s) ps (pmem s');
  rc_O : others_kept G G' }.

Lemma vm_inv_find_next s G v vm x :
  vm_inv s G -> vmems (Machine.vm s) !! v = Some vm ->
  vm_inv (set_vmems (<[v := mk_vmem (vmem_id vm) (native_vmem vm) (v_regions vm) (v_map vm) x]>
    (vmems (Machine.vm s))) s) G.
Proof.
  intros Hi Hv. apply (vm_inv_objects 0 s); try done.
  - apply quiet_refl.
  - apply (vi_paging _ _ Hi).
  - intros w vm' _ Hw. cbn. destruct (decide (v = w)) as [<-|Hne].
    + rewrite lookup_insert_eq. eexists. split; [done|]. by assert (vm' = vm) as -> by congruence.
    + rewrite lookup_insert_ne by done. exists vm'. split; [done|apply same_area_refl].
  - intros p y. cbn. intros [[<- _]|[_ Hx]]%lookup_insert_Some; [by eapply (vi_below_v _ _ Hi)|by apply (vi_below_v _ _ Hi) in Hx].
  - apply (vi_below_r _ _ Hi).
Qed.

(** The tail of [vmem_region_create], from [vmem_attach] on. *)
Definition region_create_tail (vmem vmem_region size : Z) : M Z :=
  ok ← vmem_attach vmem vmem_region;
  if negb ok then vmem_region_create_error vmem_region
  else
    ok ← vmem_region_resize vmem_region size;
    if negb ok then vmem_region_create_error vmem_region
    else
      id ← id_mapper_add a_vmem_region_mapper vmem_region;
      update vmem_region (set_region_id id);;
      r ← load vmem_region;
      if isnull (vmem_region_id r) then vmem_region_create_error vmem_region
      else mret vmem_region.

(** Failing keeps the state but for the log of released blocks. *)
Lemma region_create_error_spec s G r g R :
  vm_inv s G -> gR G !! r = Some g -> regions (Machine.vm s) !! r = Some R ->
  wp (vmem_region_create_error r) (fun x s' => x = 0 /\ pmem s' = pmem s) s.
Proof.
  intros Hi Hg HR. pose proof (region_repr_at _ _ _ _ _ Hi Hg HR) as HRr.
  destruct (rr_pages _ _ _ _ _ HRr) as [_ (nsp & Hnsp & _)].
  destruct (rr_attached _ _ _ _ _ HRr) as [_ (nsa & Hnsa & _)].
  unfold vmem_region_create_error. wstep. eapply wpx_load; [exact HR|].
  eapply wpx_call; [eapply linkedlist_destroy_spec; [apply Hi|exact Hnsa]|]. intros ? s1 ->.
  wstep. eapply wpx_load; [exact HR|].
  eapply wpx_call; [eapply linkedlist_destroy_spec; [|exact Hnsp]|].
  { eapply (lists_inv_grown 0 s); [done|apply quiet_kfreed|cbn|apply Hi].
    change (heap_top _) with (heap_top (mem s)) . apply (vi_lists _ _ Hi). }
  intros ? s2 ->. wstep. wstep. wstep. done.
Qed.

Lemma region_create_tail_spec s G v g r R size gi :
  vm_inv s G -> linked G -> gV G !! v = Some g -> gR G !! r = Some (mk_rg [] []) ->
  regions (Machine.vm s) !! r = Some R -> gI G !! a_vmem_region_mapper = Some gi -> 0 < g_next gi < 2 ^ 64 - 1 ->
  Z.of_nat (length (vg_regions g)) < 2 ^ 31 ->
  pmem_ok (pmem s) -> total_memory (pmem s) <= 2 ^ 48 -> 0 <= size < 2 ^ 64 - 4096 ->
  let k := (size + 4095) / 4096 in
  r_start R + 4096 * k <= 2 ^ 48 ->
  (forall i, 0 <= i < k -> r_start R + 4096 * i ∉ map_virtual_addr <$> vg_maps g) ->
  64 + (16 + notify_cost) * k <= avail s -> heap_top (mem s) + 64 + (16 + notify_cost) * k <= 2 ^ 48 ->
  wp (region_create_tail v r size) (fun x s' =>
    (x = r /\ exists n G' R' ps, n <= 64 + (16 + notify_cost) * k /\ Z.of_nat (length ps) = k /\
       vm_frame n s s' /\ vm_inv s' G' /\ linked G' /\
       gV G' = <[v := mk_vg (vg_regions g ++ [r]) (vg_maps g ++ region_maps r (r_start R) ps)]> (gV G) /\
       gR G' = <[r := mk_rg [v] ps]> (gR G) /\
       gI G' = <[a_vmem_region_mapper := mk_gidm (g_list gi) (g_next gi + 1) (g_entries gi ++ [(g_next gi, r)])]> (gI G) /\
       regions (Machine.vm s') = <[r := R']> (regions (Machine.vm s)) /\
       r_start R' = r_start R /\ r_size R' = size /\ vmem_region_id R' = g_next gi /\
       taken (pmem s) ps (pmem s') /\ others_kept G G') \/
    (x = 0 /\ 0 < k /\ forall q, first_user_page <= q -> page_at (pmem s') q <> Some PAGE_TYPE_FREE)) s.
Proof.
  intros Hi Hlk Hv Hh HR HI Hnext Hlen Hpm Htot Hsz k Hend Hfree Ha Htop.
  assert (0 <= k) as Hk by (unfold k; apply Z.div_pos; lia).
  assert (0 <= (16 + notify_cost) * k) as Hc by (unfold notify_cost; lia).
  pose proof (region_repr_at _ _ _ _ _ Hi Hh HR) as HRr. pose proof (rr_ptr _ _ _ _ _ HRr) as Hr0.
  assert (allocated_size R = 0) as Hal by (by rewrite (rr_alloc _ _ _ _ _ HRr)).
  assert (r ∉ vg_regions g) as Hnr.
  { intros Hin. destruct (lk_region _ Hlk _ _ _ Hv Hin) as (h & Hh' & Hin'). assert (h = mk_rg [] []) as -> by congruence.
    by apply elem_of_nil in Hin'. }
  unfold region_create_tail. eapply wp_call.
  { eapply (vmem_attach_spec s G v g r (mk_rg [] []) R); try done; unfold attach_cost; cbn; try lia; [set_solver|intros i Hi'; cbn in Hi'; lia]. }
  unfold attach_cost. cbn [rg_pages length Z.of_nat]. intros ok s1 (-> & n1 & G1 & Hn1 & Hat). cbn [negb].
  rewrite Z.mul_0_r, Z.add_0_r in Hn1.
  pose proof (gr_top _ _ _ (only_maps_grown _ _ _ (at_only _ _ _ _ _ _ _ _ _ _ Hat))) as Et1.
  destruct (only_maps_avail _ _ _ (vi_alloc _ _ Hi) (at_only _ _ _ _ _ _ _ _ _ _ Hat)) as [Hok1 Ha1].
  assert (regions (Machine.vm s1) = regions (Machine.vm s) /\ pmem s1 = pmem s) as [Er1 Ep1].
  { by destruct (at_only _ _ _ _ _ _ _ _ _ _ Hat) as (? & ? & ? & ? & -> & _). }
  pose proof (at_R _ _ _ _ _ _ _ _ _ _ Hat) as HR1. pose proof (at_V _ _ _ _ _ _ _ _ _ _ Hat) as HV1. cbn in HR1, HV1.
  rewrite app_nil_r in HV1.
  assert (linked G1) as Hlk1 by (by eapply (linked_attach G G1 v g _ r (mk_rg [] [])); [| | | |exact HV1|exact HR1]).
  assert (missing_pages R size = k) as Emp.
  { unfold missing_pages. rewrite Hal, Z.sub_0_r. by rewrite Z.div_mul by lia. }
  assert (assoc_cost (mk_rg [v] []) = 16 + notify_cost) as Eac by (unfold assoc_cost; cbn [rg_attached length]; lia).
  eapply wp_call.
  { eapply (vmem_region_resize_grow_spec s1 G1 r (mk_rg [v] []) R size); try done.
    - apply Hat.
    - by rewrite HR1, lookup_insert_eq.
    - by rewrite Er1.
    - by rewrite Ep1.
    - by rewrite Ep1.
    - fold k. lia.
    - rewrite Emp. unfold region_room. rewrite Hal. split; [lia|]. cbn. intros w gw i ->%list_elem_of_singleton.
      rewrite HV1, lookup_insert_eq. intros [= <-] Hi'. cbn. rewrite Z.add_0_r. by apply Hfree.
    - rewrite Emp, Eac. lia.
    - rewrite Emp, Eac. lia. }
  rewrite Emp, Eac. intros ok s2 (n2 & ps & G2 & R2 & Hn2 & Hpg & Htk & Hres). rewrite Ep1 in Htk.
  pose proof (pg_regions _ _ _ _ _ _ _ _ _ _ Hpg) as HS2. rewrite Er1 in HS2.
  pose proof (pg_R _ _ _ _ _ _ _ _ _ _ Hpg) as HR2. rewrite HR1, insert_insert_eq in HR2. cbn in HR2.
  assert (gR G2 !! r = Some (mk_rg [v] ps)) as Hh2 by (by rewrite HR2, lookup_insert_eq).
  assert (regions (Machine.vm s2) !! r = Some R2) as HS2r by (by rewrite HS2, lookup_insert_eq).
  pose proof (pg_inv _ _ _ _ _ _ _ _ _ _ Hpg) as Hi2.
  destruct Hres as [(-> & Hlps & Hsz2)|(-> & Hlps & _ & Hnone)]; cbn [negb].
  2: { eapply wp_mono; [by eapply region_create_error_spec|]. intros x s3 [-> Ep]. right. split; [done|]. split; [lia|]. by rewrite Ep. }
  pose proof (only_grow_grown _ _ _ (pg_only _ _ _ _ _ _ _ _ _ _ Hpg)) as Hg2. pose proof (gr_top _ _ _ Hg2) as Et2.
  assert (gV G2 = <[v := mk_vg (vg_regions g ++ [r]) (vg_maps g ++ region_maps r (r_start R) ps)]> (gV G)) as HV2.
  { apply map_eq. intros w. rewrite (pg_V _ _ _ _ _ _ _ _ _ _ Hpg w), HV1, Hal, Z.add_0_r. cbn [rg_attached].
    destruct (decide (v = w)) as [<-|Hne].
    - rewrite !lookup_insert_eq. cbn. by rewrite bool_decide_eq_true_2 by (by constructor).
    - rewrite !lookup_insert_ne by done. rewrite bool_decide_eq_false_2 by (by intros ?%list_elem_of_singleton).
      by destruct (gV G !! w). }
  assert (gI G2 !! a_vmem_region_mapper = Some gi) as HI2.
  { by rewrite (pg_I _ _ _ _ _ _ _ _ _ _ Hpg), (at_I _ _ _ _ _ _ _ _ _ _ Hat). }
  assert (avail s1 - n2 <= avail s2) as Ha2.
  { eapply (avail_set_region n2 s1 s2 r R R2); [done|done|by rewrite Er1|by rewrite Er1|].
    rewrite (pg_new _ _ _ _ _ _ _ _ _ _ Hpg). cbn. lia. }
  eapply wp_call; [eapply (id_mapper_add_spec s2 (gL G2) (gI G2)); [apply Hi2|apply Hi2|exact HI2|apply Hi2|lia|done|done]|].
  intros id s3 (-> & Ho3 & ns & Hl3 & Hi3).
  pose proof (gr_top _ _ _ (q_grown _ _ _ (only_ids_quiet _ _ _ Ho3))) as Et3.
  set (gi' := mk_gidm (g_list gi) (g_next gi + 1) (g_entries gi ++ [(g_next gi, r)])) in *.
  pose proof (vm_inv_ids 32 s2 s3 G2 a_vmem_region_mapper gi gi' ns Hi2 HI2 Ho3 ltac:(lia) eq_refl Hl3 Hi3) as Hi3'.
  assert (Machine.vm s3 = Machine.vm s2 /\ pmem s3 = pmem s2) as [Ev3 Ep3] by (by destruct Ho3 as (? & ? & ? & -> & _)).
  assert (regions (Machine.vm s3) !! r = Some R2) as HS3 by (by rewrite Ev3).
  wstep. eapply wpx_update; [exact HS3|]. wstep. eapply wpx_load; [cbn; apply lookup_insert_eq|].
  cbn [set_region_id vmem_region_id]. nonnull (g_next gi). wstep. left. split; [done|].
  exists (n1 + n2 + 32 + 0), (with_ids (g_list gi) ns (<[a_vmem_region_mapper := gi']> (gI G2)) G2), (set_region_id (g_next gi) R2), ps.
  split_and!; try done; cbn; try lia.
  - apply (vm_frame_trans _ _ _ s3); [|apply vm_frame_regions]. apply (vm_frame_trans _ _ _ s2); [|by apply vm_frame_ids].
    apply (vm_frame_trans _ _ _ s1); [apply vm_frame_maps, Hat|apply vm_frame_grow, Hpg].
  - by apply (vm_inv_set_region_id s3 _ r (mk_rg [v] ps)).
  - apply (linked_pages G1 _ r (mk_rg [v] []) (region_maps r (r_start R + allocated_size R) ps) ps); [done|by rewrite HR1, lookup_insert_eq|apply Hpg|].
    cbn. by rewrite HR2, HR1, insert_insert_eq.
  - by rewrite (pg_I _ _ _ _ _ _ _ _ _ _ Hpg), (at_I _ _ _ _ _ _ _ _ _ _ Hat).
  - by rewrite Ev3, HS2, insert_insert_eq.
  - rewrite (pg_new _ _ _ _ _ _ _ _ _ _ Hpg). done.
  - by rewrite Ep3.
  - eapply others_kept_trans; [apply Hat|]. eapply others_kept_trans; [apply Hpg|]. eapply (others_kept_ids s2); [done|by eapply (vi_mappers _ _ Hi2)].
Qed.

(** Where the region starts. *)
Definition create_base (vm : vmem_t) (start : Z) : Z := if start =? 0 then next_start_address vm else start.

(** The object and its lists. *)
Lemma vm_inv_new_region s G r R la lp :
  vm_inv s G -> linked G -> r <> 0 -> gR G !! r = None -> regions (Machine.vm s) !! r = Some R ->
  page_ok (r_start R) -> 0 < r_start R -> r_size R = 0 -> allocated_size R = 0 -> r_attached R = la -> r_pages R = lp ->
  gRo G !! la = Some (RAttached r) -> gL G !! la = Some [] -> gRo G !! lp = Some (RPages r) -> gL G !! lp = Some [] ->
  let G' := with_R (<[r := mk_rg [] []]> (gR G)) G in vm_inv s G' /\ linked G'.
Proof.
  intros Hi [A B C] Hr0 Hf HR Hp Hst Hsz Hal <- <- Ha Hla Hpp Hlp G'. split.
  - assert (vm_inv s (with_R (gR G) G)) as Hi' by (by destruct G).
    eapply (vm_inv_put _ _ _ _ _ _ Hi' Hf). apply region_repr_empty; try done; split; eauto.
  - split; cbn.
    + exact A.
    + intros v g x Hv Hx. destruct (B _ _ _ Hv Hx) as (h & Hh & ?). exists h. by rewrite lookup_insert_ne by congruence.
    + intros x h v [[<- <-]|[_ Hx]]%lookup_insert_Some Hin; [by apply elem_of_nil in Hin|by eapply C].
Qed.

(** The middle of [vmem_region_create]: the fields and the two lists. *)
Lemma wp_region_lists (k : M Z) Q s G r base name user writable executable :
  vm_inv s G -> linked G -> r <> 0 -> gR G !! r = None -> regions (Machine.vm s) !! r = Some zeroed ->
  page_ok base -> 0 < base -> 32 <= avail s -> heap_top (mem s) + 32 <= 2 ^ 48 ->
  (forall s' G' R, vm_inv s' G' -> linked G' -> gV G' = gV G -> gI G' = gI G ->
     gR G' = <[r := mk_rg [] []]> (gR G) -> regions (Machine.vm s') = <[r := R]> (regions (Machine.vm s)) ->
     r_start R = base -> pmem s' = pmem s -> vm_frame 32 s s' -> avail s - 32 <= avail s' -> others_kept G G' -> wp k Q s') ->
  wp (update r (fun r => mk_region (vmem_region_id r) (r_attached r) name base 0 0 user writable executable (r_pages r));;
      l ← linkedlist_create;
      update r (fun r => mk_region (vmem_region_id r) (r_attached r) (r_name r) (r_start r)
        (r_size r) (allocated_size r) (r_user r) (r_writable r) (r_executable r) l);;
      l ← linkedlist_create;
      update r (fun r => mk_region (vmem_region_id r) l (r_name r) (r_start r)
        (r_size r) (allocated_size r) (r_user r) (r_writable r) (r_executable r) (r_pages r));;
      k) Q s.
Proof.
  intros Hi Hlk Hr0 Hf HR Hb Hb0 Ha Htop Hk.
  assert (forall s G R, vm_inv s G -> gR G !! r = None -> regions (Machine.vm s) !! r = Some R ->
    allocated_size R = 0 -> forall R', allocated_size R' = 0 ->
    let s' := set_regions (<[r := R']> (regions (Machine.vm s))) s in vm_inv s' G /\ avail s <= avail s') as Hset.
  { clear. intros s G R Hi Hf HR HR0 R' HR'0 s'. split; [apply vm_inv_set_region; [done|done|by exists R]|].
    pose proof (avail_set_region 0 s s' r R R' (vi_alloc _ _ Hi) (grown_refl _) HR eq_refl). lia. }
  wstep. eapply wpx_update; [exact HR|]. cbn [heap set_heap vmem_region_t_struct].
  match goal with |- context [<[r := ?x]> (regions (Machine.vm s))] => destruct (Hset s G _ Hi Hf HR eq_refl x eq_refl) as [Hi1 Ha1] end.
  match goal with |- wpx _ _ _ ?x => set (s1 := x) in * end.
  eapply wpx_call; [eapply (linkedlist_create_spec s1 (gL G)); [apply Hi1|apply Hi1|lia]|].
  intros ? s2 (-> & Hnl2 & Ho2 & Hl2). change (mem s1) with (mem s) in *. set (lp := heap_top (mem s)) in *.
  pose proof (gr_top _ _ _ (q_grown _ _ _ (only_lists_quiet _ _ _ Ho2))) as Et2. change (mem s1) with (mem s) in Et2.
  destruct (only_lists_avail _ _ _ (vi_alloc _ _ Hi1) Ho2) as [Hok2 Ha2].
  pose proof (vm_inv_new_list 16 s1 s2 G lp (RPages r) [] Hi1 Ho2 ltac:(lia) Hnl2 Hl2) as Hi2.
  assert (Machine.vm s2 = Machine.vm s1) as Ev2 by (by destruct Ho2 as (? & ? & ? & -> & _)).
  assert (regions (Machine.vm s2) !! r = regions (Machine.vm s1) !! r) as HR2 by (by rewrite Ev2).
  cbn in HR2. rewrite lookup_insert_eq in HR2.
  wstep. eapply wpx_update; [exact HR2|]. cbn [heap set_heap vmem_region_t_struct].
  match goal with |- context [<[r := ?x]> (regions (Machine.vm s2))] => destruct (Hset s2 _ _ Hi2 Hf HR2 eq_refl x eq_refl) as [Hi3 Ha3] end.
  match goal with |- wpx _ _ _ ?x => set (s3 := x) in * end.
  eapply wpx_call; [eapply (linkedlist_create_spec s3); [apply Hi3|apply Hi3|lia]|].
  intros ? s4 (-> & Hnl4 & Ho4 & Hl4). change (mem s3) with (mem s2) in *. set (la := heap_top (mem s2)) in *.
  pose proof (gr_top _ _ _ (q_grown _ _ _ (only_lists_quiet _ _ _ Ho4))) as Et4. change (mem s3) with (mem s2) in Et4.
  destruct (only_lists_avail _ _ _ (vi_alloc _ _ Hi3) Ho4) as [Hok4 Ha4].
  pose proof (vm_inv_new_list 16 s3 s4 _ la (RAttached r) [] Hi3 Ho4 ltac:(lia) Hnl4 Hl4) as Hi4.
  assert (Machine.vm s4 = Machine.vm s3) as Ev4 by (by destruct Ho4 as (? & ? & ? & -> & _)).
  assert (regions (Machine.vm s4) !! r = regions (Machine.vm s3) !! r) as HR4 by (by rewrite Ev4).
  cbn in HR4. rewrite lookup_insert_eq in HR4.
  wstep. eapply wpx_update; [exact HR4|]. cbn [heap set_heap vmem_region_t_struct].
  match goal with |- context [<[r := ?x]> (regions (Machine.vm s4))] =>
    destruct (Hset s4 _ _ Hi4 Hf HR4 eq_refl x eq_refl) as [Hi5 Ha5]; set (R := x) in * end.
  match goal with |- wpx _ _ _ ?x => set (s5 := x) in * end.
  assert (lp <> la) as Hne by lia.
  destruct (vm_inv_new_region s5 _ r R la lp Hi5) as [Hi6 Hlk6]; try done; cbn; try (rewrite lookup_insert_eq; done);
    try (rewrite lookup_insert_ne by done; rewrite lookup_insert_eq; done).
  { by destruct Hlk; split. }
  eapply (Hk s5 _ R Hi6 Hlk6); try done.
  - cbn. rewrite Ev4. cbn. rewrite Ev2. cbn. by rewrite !insert_insert_eq.
  - change (pmem s5) with (pmem s4). destruct Ho4 as (? & ? & ? & -> & _). cbn. by destruct Ho2 as (? & ? & ? & -> & _).
  - change 32 with (0 + 16 + 0 + 16 + 0). apply (vm_frame_trans _ _ _ s4); [|apply vm_frame_regions].
    apply (vm_frame_trans _ _ _ s3); [|by apply vm_frame_lists]. apply (vm_frame_trans _ _ _ s2); [|apply vm_frame_regions].
    apply (vm_frame_trans _ _ _ s1); [apply vm_frame_regions|by apply vm_frame_lists].
  - lia.
  - eapply (others_kept_trans _ (with_list lp (RPages r) [] G)); [by apply (others_kept_list s1)|].
    eapply (others_kept_trans _ (with_list la (RAttached r) [] (with_list lp (RPages r) [] G))); [by apply (others_kept_list s3)|].
    intros l Hl. done.
Qed.

Lemma vmem_region_create_spec s G v g vm name start size user writable executable gi :
  vm_inv s G -> linked G -> gV G !! v = Some g -> vmems (Machine.vm s) !! v = Some vm ->
  gI G !! a_vmem_region_mapper = Some gi -> 0 < g_next gi < 2 ^ 64 - 1 ->
  Z.of_nat (length (vg_regions g)) < 2 ^ 31 ->
  pmem_ok (pmem s) -> total_memory (pmem s) <= 2 ^ 48 -> 0 <= size < 2 ^ 64 - 4096 ->
  let base := create_base vm start in let k := (size + 4095) / 4096 in
  page_ok base -> 0 < base -> base + 4096 * k <= 2 ^ 48 ->
  (forall i, 0 <= i < k -> base + 4096 * i ∉ map_virtual_addr <$> vg_maps g) ->
  region_cost k <= avail s -> heap_top (mem s) + region_cost k <= 2 ^ 48 ->
  wp (vmem_region_create v (Some name) start size user writable executable) (fun r s' =>
    (r = heap_top (mem s) /\ exists n G' R' ps, n <= region_cost k /\ Z.of_nat (length ps) = k /\
       region_created n s G v g r base size ps s' G' R') \/
    (r = 0 /\ 0 < k /\ forall q, first_user_page <= q -> page_at (pmem s') q <> Some PAGE_TYPE_FREE)) s.
Proof.
  intros Hi Hlk Hv Hvm HI Hnext Hlen Hpm Htot Hsz base k Hb Hb0 Hend Hfree Ha Htop. unfold region_cost in *.
  assert (0 <= k) as Hk by (unfold k; apply Z.div_pos; lia).
  assert (0 <= (16 + notify_cost) * k) as Hc by (unfold notify_cost; lia).
  destruct (vi_vmems _ _ Hi _ _ Hv) as (vm' & pt & Hr). assert (vm' = vm) as -> by (pose proof (vr_vm _ _ _ _ _ _ Hr); congruence).
  pose proof (vr_ptr _ _ _ _ _ _ Hr) as Hv0. unfold vmem_region_create. nonnull v.
  (* the start address *)
  eapply (wp_call _ _ (fun st s1 => st = base /\ vm_inv s1 G /\ vm_frame 0 s s1 /\ avail s1 = avail s /\
    mem s1 = mem s /\ regions (Machine.vm s1) = regions (Machine.vm s) /\ pmem s1 = pmem s)).
  { unfold base, create_base in *. destruct (start =? 0).
    - unfold find_next_memory_address. wstep. eapply wpx_load; [exact Hvm|]. wstep. eapply wpx_update; [exact Hvm|]. wstep.
      split_and!; try done; [by apply vm_inv_find_next|frame_vmem].
    - wstep. split_and!; try done. replace s with (set_regions (regions (Machine.vm s)) s) at 2; [apply vm_frame_regions|].
      by destruct s as [? ? ? [] ? ? ? ?]. }
  intros ? s1 (-> & Hi1 & Hf1 & Ea1 & Em1 & Er1 & Ep1).
  rewrite (proj2 (MEM_ALIGN_fix base)) by (destruct Hb; done || lia). rewrite Z.eqb_refl. cbn [negb].
  (* the object *)
  eapply wp_call; [apply (wp_NEW vmem_region_t); [apply Hi1|cbn; lia]|].
  intros r s2 (-> & m2 & -> & Hq2). cbn in Hq2. rewrite Em1 in *. pose proof (gr_top _ _ _ (q_grown _ _ _ Hq2)) as Et2.
  pose proof (heap_top_pos _ (vi_alloc _ _ Hi)) as Hpos. set (r := heap_top (mem s)) in *. nonnull r.
  cbn [heap set_heap vmem_region_t_struct].
  destruct (vm_inv_fresh_region 64 s1 m2 G zeroed Hi1) as [Hi2 Hf]; [by rewrite Em1|lia|lia|].
  rewrite Em1 in Hi2, Hf. fold r in Hi2, Hf. change (regions (Machine.vm (set_mem m2 s1))) with (regions (Machine.vm s1)).
  set (s2 := set_regions _ (set_mem m2 s1)) in *.
  assert (avail s - 64 <= avail s2) as Ha2.
  { rewrite <- Ea1. eapply (avail_regions_kept 64 s1 s2); [apply Hi1|lia|rewrite Em1; apply Hq2|].
    intros r' R' HR'. exists R'. split; [|lia]. cbn. rewrite lookup_insert_ne; [done|].
    intros <-. pose proof (vi_below_r _ _ Hi1 _ _ HR') as Hb'. rewrite Em1 in Hb'. fold r in Hb'. lia. }
  assert (vm_frame 64 s s2) as Hf2 by (split; try apply Hf1; apply Hq2).
  eapply (wp_region_lists _ _ s2 G); try done; [lia|cbn; apply lookup_insert_eq|lia|change (mem s2) with m2; lia|].
  intros s3 G3 R3 Hi3 Hlk3 HV3 HI3 HR3 Er3 Est3 Ep3 Hf3 Ha3 Hot3. change (pmem s2) with (pmem s1) in Ep3. rewrite Ep1 in Ep3.
  pose proof (gr_top _ _ _ (vf_grown _ _ _ Hf3)) as Et3. change (mem s2) with m2 in Et3.
  change (wp (region_create_tail v r size) (fun x s' => (x = r /\ exists n G' R' ps, n <= 160 + (16 + notify_cost) * k /\
    Z.of_nat (length ps) = k /\ region_created n s G v g x base size ps s' G' R') \/
    (x = 0 /\ 0 < k /\ forall q, first_user_page <= q -> page_at (pmem s') q <> Some PAGE_TYPE_FREE)) s3).
  eapply wp_mono.
  { eapply (region_create_tail_spec s3 G3 v g r R3 size gi); try done; rewrite ?Ep3, ?Est3, ?HI3, ?HV3; try done; fold k; try lia.
    - by rewrite HR3, lookup_insert_eq.
    - by rewrite Er3, lookup_insert_eq. }
  cbn beta. rewrite Est3, Ep3. fold k.
  intros x s4 [(-> & n & G' & R' & ps & Hn & Hps & Hfr & Hi4 & Hlk4 & HV4 & HR4 & HI4 & Er4 & Est & Esz & Eid & Htk & Hot4)|(-> & Hnone)].
  2: { right. done. }
  left. split; [done|]. exists (64 + 32 + n), G', R', ps. split; [lia|]. split; [done|]. split; try done.
  - apply (vm_frame_trans _ _ _ s3); [|done]. by apply (vm_frame_trans _ _ _ s2).
  - by rewrite HV4, HV3.
  - by rewrite HR4, HR3, insert_insert_eq.
  - rewrite Er4, Er3, insert_insert_eq. cbn. by rewrite insert_insert_eq, Er1.
  - intros p Hp. by rewrite HI4, HI3, lookup_insert_ne.
  - intros gi0 Hgi0. assert (gi0 = gi) as -> by congruence. by rewrite HI4, lookup_insert_eq.
  - by eapply others_kept_trans.
Qed.
End region_create.

(** * [vmem_create] *)

Definition with_V (h : gmap Z vghost) (G : ghost) : ghost :=
  mk_ghost (gL G) (gRo G) (gT G) (gP G) (gI G) h (gR G).

(** An object for an area that is not in the invariant may be rewritten. *)
Lemma vm_inv_set_vmem n s m' G v vm :
  vm_inv s G -> quiet n (mem s) m' -> heap_top m' <= 2 ^ 48 -> gV G !! v = None -> 0 < v < heap_top m' ->
  vm_inv (set_vmems (<[v := vm]> (vmems (Machine.vm s))) (set_mem m' s)) G.
Proof.
  intros Hi Hq Htop Hv Hb. pose proof (gr_top _ _ _ (q_grown _ _ _ Hq)) as Et. pose proof (gr_pos _ _ _ (q_grown _ _ _ Hq)).
  apply (vm_inv_objects n s); try done.
  - intros w vm' Hw Hvm'. exists vm'. split; [|apply same_area_refl]. cbn. rewrite lookup_insert_ne; [done|].
    intros <-. rewrite Hv in Hw. by destruct Hw.
  - intros p x. cbn. intros [[<- _]|[_ Hx]]%lookup_insert_Some; [done|]. pose proof (vi_below_v _ _ Hi _ _ Hx). lia.
  - eapply (below_grown n s); [apply Hq|done|apply Hi].
Qed.

(** An area joins the invariant. *)
Lemma vm_inv_add_area s G v g vm pt :
  vm_inv s G -> gV G !! v = None -> vmem_repr s G v g vm pt ->
  (forall w h vm' pt', gV G !! w = Some h -> vmem_repr s G w h vm' pt' ->
     native_vmem vm' <> native_vmem vm /\ npt_entries pt' <> npt_entries pt) ->
  vm_inv s (with_V (<[v := g]> (gV G)) G).
Proof.
  intros Hi Hv Hr Hsep. destruct Hi as [F1 F2 F3 F4 F5 F6 F7 F8 F9 F10 F11 F12 F13].
  split; cbn [with_V gV gR gL gRo gT gP gI]; try done.
  - intros w h [[<- <-]|[Hne Hw]]%lookup_insert_Some.
    + exists vm, pt. by destruct Hr; split.
    + destruct (F8 _ _ Hw) as (x & y & []). exists x, y. by split.
  - assert (forall w h x y, gV G !! w = Some h -> vmems (Machine.vm s) !! w = Some x ->
      npts (paging s) !! native_vmem x = Some y -> native_vmem x <> native_vmem vm /\ npt_entries y <> npt_entries pt) as Hs.
    { intros w h x y Hw Hx Hy. destruct (F8 _ _ Hw) as (x' & y' & Hr').
      pose proof (vr_vm _ _ _ _ _ _ Hr'). assert (x' = x) as -> by congruence.
      pose proof (vr_pt _ _ _ _ _ _ Hr'). assert (y' = y) as -> by congruence. by eapply Hsep. }
    assert (forall x y, vmems (Machine.vm s) !! v = Some x -> npts (paging s) !! native_vmem x = Some y ->
      x = vm /\ y = pt) as Hown.
    { intros x y Hx Hy. pose proof (vr_vm _ _ _ _ _ _ Hr). assert (x = vm) as -> by congruence.
      pose proof (vr_pt _ _ _ _ _ _ Hr). split; congruence. }
    intros w1 w2 h1 h2 x1 x2 y1 y2 Hne H1 H2 Hx1 Hx2 Hy1 Hy2.
    apply lookup_insert_Some in H1 as [[<- <-]|[Hn1 H1]], H2 as [[<- <-]|[Hn2 H2]]; try done.
    + destruct (Hown _ _ Hx1 Hy1) as [-> ->]. destruct (Hs _ _ _ _ H2 Hx2 Hy2). auto.
    + destruct (Hown _ _ Hx2 Hy2) as [-> ->]. destruct (Hs _ _ _ _ H1 Hx1 Hy1). auto.
    + by eapply (F9 w1 w2).
  - intros r h Hrg. destruct (F10 _ _ Hrg) as (R & HR). exists R.
    eapply (region_repr_frame s s G); [exact HR|done|done|done|].
    intros w gw Hgw. exists gw. split; [|done]. cbn. rewrite lookup_insert_ne; [done|congruence].
Qed.

Section area_create.
Context `{K : Kalloc} `{!GoodAlloc K} `{Y : Layout}.

(** What [native_vmem_create] adds: a page-table object [p] with its list of
    buffers [l] and its root [r]. *)
Definition with_space (l : Z) (ns : list (Z * Z)) (p r : Z) (G : ghost) : ghost :=
  mk_ghost (<[l := ns]> (gL G)) (<[l := RBuffers p]> (gRo G)) (<[r := mk_table r 4 0]> (gT G))
    ({[p]} ∪ gP G) (gI G) (gV G) (gR G).

Lemma vm_step_new_space n s s' G v vm vm' l ns p r pt :
  vm_inv s G -> gV G !! v = None -> vmems (Machine.vm s) !! v = Some vm ->
  grown n (mem s) (mem s') -> ids s' = ids s ->
  Machine.vm s' = Machine.vm (set_vmems (<[v := vm']> (vmems (Machine.vm s))) s) ->
  gL G !! l = None -> (p ∉ gP G) -> gT G !! r = None -> npt_allocated_memory pt = l ->
  npts (paging s') = <[p := pt]> (npts (paging s)) ->
  lists_inv s' (<[l := ns]> (gL G)) ->
  paging_inv s' (<[r := mk_table r 4 0]> (gT G)) (<[l := ns]> (gL G)) ({[p]} ∪ gP G) ->
  translations_kept (fun _ _ => False) (ram (mem s)) (ram (mem s')) (gT G) ->
  vm_step n s G s' (with_space l ns p r G).
Proof.
  intros Hi Hv Hvm Hg Ei Ev Hl Hp HT Emem HN Hl' Hp' Hk.
  assert (gRo G !! l = None) as Hrol.
  { destruct (gRo G !! l) eqn:E; [|done]. apply (vi_roles _ _ Hi) in E as [? E]. congruence. }
  split; cbn [with_space gL gRo gT gP gI gV gR]; try done.
  - intros l' ro [[<- _]|[_ E]]%lookup_insert_Some; [rewrite lookup_insert_eq; eauto|].
    apply is_Some_insert_kept. by eapply vi_roles.
  - eapply ids_inv_frame; [exact Ei|exact Hg| |apply Hi]. intros q g Hq. apply lookup_insert_ne.
    intros ->. apply (vi_mappers _ _ Hi) in Hq. congruence.
  - intros q g Hq. apply (vi_mappers _ _ Hi) in Hq. rewrite lookup_insert_ne; [done|congruence].
  - intros q x Hq. rewrite HN. intros [[<- <-]|[Hne Hx]]%lookup_insert_Some; [by rewrite Emem, lookup_insert_eq|].
    rewrite lookup_insert_ne; [eapply (vi_buffers _ _ Hi); [set_solver|done]|].
    intros ->. assert (q ∈ gP G) as Hq' by set_solver. pose proof (vi_buffers _ _ Hi _ _ Hq' Hx). congruence.
  - by apply insert_subseteq.
  - by apply insert_subseteq.
  - set_solver.
  - intros l' ro E _. apply lookup_insert_ne. congruence.
  - intros w x Hwx Hx. exists x. split; [|apply same_area_refl]. rewrite Ev. cbn. rewrite lookup_insert_ne; [done|].
    intros <-. rewrite Hv in Hwx. by destruct Hwx.
  - intros q _. by rewrite Ev.
  - by rewrite Ev.
  - intros q Hq. rewrite HN, lookup_insert_ne; [done|]. set_solver.
  - intros q x. cbn. rewrite Ev, (gr_top _ _ _ Hg). pose proof (gr_pos _ _ _ Hg).
    cbn. intros [[<- _]|[_ Hx]]%lookup_insert_Some; [apply (vi_below_v _ _ Hi) in Hvm|apply (vi_below_v _ _ Hi) in Hx]; lia.
  - eapply (below_grown n s); [done| |apply Hi]. cbn. by rewrite Ev.
  - eapply (below_grown n s); [done| |apply Hi]. cbn. by rewrite Ev.
Qed.

(** The new area, empty, beside the others. *)
Lemma vm_inv_new_area n s s' G v vm vm' l ns p r pt :
  vm_inv s G -> vm_step n s G s' (with_space l ns p r G) -> gV G !! v = None -> v <> 0 ->
  Machine.vm s' = Machine.vm (set_vmems (<[v := vm']> (vmems (Machine.vm s))) s) ->
  npts (paging s') = <[p := pt]> (npts (paging s)) -> npt_entries pt = r -> gL G !! l = None ->
  (p ∉ gP G) -> gT G !! r = None ->
  vm' = mk_vmem (vmem_id vm) p (v_regions vm) (v_map vm) (next_start_address vm) ->
  gRo G !! v_regions vm = Some (RRegions v) -> gL G !! v_regions vm = Some [] ->
  gRo G !! v_map vm = Some (RMap v) -> gL G !! v_map vm = Some [] ->
  (forall va, walk (ram (mem s')) 4 r va = None) ->
  vm_inv s' (with_V (<[v := mk_vg [] []]> (gV G)) (with_space l ns p r G)).
Proof.
  intros Hi Hst Hv Hv0 Ev HN Ert Hl Hp HT Evm' Hror Hlr Hrom Hlm Hw.
  pose proof (vm_inv_step _ _ _ _ _ Hi Hst) as Hi1. change (gV G) with (gV (with_space l ns p r G)).
  assert (gRo G !! l = None) as Hrol.
  { destruct (gRo G !! l) eqn:E; [|done]. apply (vi_roles _ _ Hi) in E as [? E]. congruence. }
  apply (vm_inv_add_area s' _ v (mk_vg [] []) vm' pt Hi1); [done| |].
  - subst vm'. split; cbn [vg_regions vg_maps native_vmem v_regions v_map].
    + exact Hv0.
    + rewrite Ev. cbn. apply lookup_insert_eq.
    + by rewrite HN, lookup_insert_eq.
    + cbn. apply elem_of_union_l, elem_of_singleton. reflexivity.
    + cbn. by rewrite Ert, lookup_insert_eq.
    + split; cbn; [rewrite lookup_insert_ne; [done|congruence]|]. exists [].
      rewrite lookup_insert_ne; [done|congruence].
    + exists []. split; [|constructor]. split; cbn; [rewrite lookup_insert_ne; [done|congruence]|].
      exists []. rewrite lookup_insert_ne; [done|congruence].
    + constructor.
    + constructor.
    + intros va _. cbn [vg_maps lookup_map]. rewrite Ert. exact (Hw va).
  - intros w h x y Hwv Hrw. change (gV (with_space l ns p r G)) with (gV G) in Hwv.
    destruct (vi_vmems _ _ Hi w h Hwv) as (x0 & y0 & Hr0).
    pose proof (vr_vm _ _ _ _ _ _ Hrw) as Hx. rewrite Ev in Hx. cbn in Hx.
    rewrite lookup_insert_ne in Hx by congruence. pose proof (vr_vm _ _ _ _ _ _ Hr0). assert (x0 = x) as -> by congruence.
    pose proof (vr_P _ _ _ _ _ _ Hr0) as HP0. pose proof (vr_pt _ _ _ _ _ _ Hrw) as Hy. rewrite HN in Hy.
    assert (native_vmem x <> p) as Hne by congruence. rewrite lookup_insert_ne in Hy by done.
    pose proof (vr_pt _ _ _ _ _ _ Hr0). assert (y0 = y) as -> by congruence. subst vm'. split; [done|].
    pose proof (vr_root _ _ _ _ _ _ Hr0). congruence.
Qed.

Lemma linked_new_area G G' v :
  linked G -> gV G !! v = None -> gV G' = <[v := mk_vg [] []]> (gV G) -> gR G' = gR G -> linked G'.
Proof.
  intros [A B C] Hv HV HR. split; rewrite ?HV, ?HR.
  - intros w g [[<- <-]|[_ Hw']]%lookup_insert_Some; [constructor|by eapply A].
  - intros w g x [[<- <-]|[_ Hw']]%lookup_insert_Some Hx; [by apply elem_of_nil in Hx|by eapply B].
  - intros x h w Hx Hin. destruct (C _ _ _ Hx Hin) as (g & Hg' & ?). exists g. rewrite lookup_insert_ne; [done|congruence].
Qed.

(** The page table of a new area. *)
Lemma native_create_spec s G v vm :
  vm_inv s G -> linked G -> gV G !! v = None -> v <> 0 -> vmems (Machine.vm s) !! v = Some vm -> native_vmem vm = 0 ->
  gRo G !! v_regions vm = Some (RRegions v) -> gL G !! v_regions vm = Some [] ->
  gRo G !! v_map vm = Some (RMap v) -> gL G !! v_map vm = Some [] ->
  41024 <= avail s -> heap_top (mem s) + 41024 <= 2 ^ 48 ->
  wp (x86_vmem_create v) (fun ok s' => ok = true /\ exists G' vm', vm_inv s' G' /\ linked G' /\
    gV G' = <[v := mk_vg [] []]> (gV G) /\ gR G' = gR G /\ gI G' = gI G /\
    vmems (Machine.vm s') = <[v := vm']> (vmems (Machine.vm s)) /\ next_start_address vm' = next_start_address vm /\
    regions (Machine.vm s') = regions (Machine.vm s) /\ pmem s' = pmem s /\ vm_frame 41024 s s' /\ others_kept G G') s.
Proof.
  intros Hi Hlk Hv Hv0 Hvm Hvn Hror Hlr Hrom Hlm Ha Htop.
  eapply wp_mono; [apply (x86_vmem_create_spec s (gT G) (gL G) (gP G) v vm); try done; apply Hi|].
  intros ok s' (-> & s1 & p & r & l & ns & pt & Hp & Hl & Ho & Es' & Hl' & Hp' & HN & Ert & Emem & HT & Hram & Hk & Hw).
  split; [done|].
  set (vm' := mk_vmem (vmem_id vm) p (v_regions vm) (v_map vm) (next_start_address vm)) in *.
  destruct Ho as (N & Ls & m' & Es1 & Hg & Hrk).
  assert (mem s' = m') as Em by (by subst s' s1). rewrite <- Em in Hg.
  assert (ids s' = ids s) as Ei by (by subst s' s1).
  assert (Machine.vm s' = Machine.vm (set_vmems (<[v := vm']> (vmems (Machine.vm s))) s)) as Ev by (by subst s' s1).
  pose proof (vm_step_new_space 41024 s s' G v vm vm' l ns p r pt Hi Hv Hvm Hg Ei Ev Hl Hp HT Emem HN Hl' Hp' Hk) as Hst.
  exists (with_V (<[v := mk_vg [] []]> (gV G)) (with_space l ns p r G)), vm'.
  split; [by eapply (vm_inv_new_area 41024 s s' G v vm vm')|].
  split; [by eapply (linked_new_area G)|]. split; [done|]. split; [done|]. split; [done|].
  rewrite Ev. split; [done|]. split; [done|]. split; [done|].
  split; [by subst s' s1|]. split.
  2: { intros x Hx. destruct (vi_roles _ _ Hi _ _ Hx) as [y Hy]. cbn. by rewrite !lookup_insert_ne by congruence. }
  split; [exact Hg|by subst s' s1..|by rewrite Ev|].
  intros w b Hrw. destruct (decide (v = w)) as [<-|Hne].
  - exfalso. unfold root_of in Hrw. rewrite Hvm in Hrw. cbn in Hrw. rewrite Hvn in Hrw.
    destruct (npts (paging s) !! 0) as [pt0|] eqn:E0; [|done]. pose proof (pi_below _ _ _ _ (vi_paging _ _ Hi) _ _ E0). lia.
  - revert Hrw. apply root_of_kept; [|by subst s' s1]. intros vw Hvw. rewrite Ev. cbn. rewrite lookup_insert_ne by done. by exists vw.
Qed.

(** ** Attaching the regions of the kernel *)

Definition pages_of (G : ghost) (r : Z) : list Z := default [] (rg_pages <$> gR G !! r).
Definition start_of (s : kstate) (r : Z) : Z := default 0 (r_start <$> regions (Machine.vm s) !! r).

(** The maps of the regions [rs], and the memory needed to attach them. *)
Definition area_maps (s : kstate) (G : ghost) (rs : list Z) : list vmem_map_t :=
  concat ((fun r => region_maps r (start_of s r) (pages_of G r)) <$> rs).
Definition attach_costs (G : ghost) (rs : list Z) : Z := foldr (fun r c => attach_cost (pages_of G r) + c) 0 rs.

Lemma attach_costs_app G rs1 rs2 : attach_costs G (rs1 ++ rs2) = attach_costs G rs1 + attach_costs G rs2.
Proof. unfold attach_costs. induction rs1 as [|r rs IH]; cbn [foldr app]; [lia|]. rewrite IH. lia. Qed.

Lemma attach_costs_pos G rs : 0 <= attach_costs G rs.
Proof.
  unfold attach_costs. induction rs as [|r rs IH]; cbn [foldr]; [lia|].
  assert (0 <= attach_cost (pages_of G r)) by (unfold attach_cost, notify_cost; lia). lia.
Qed.

Lemma area_maps_snoc s G rs r : area_maps s G (rs ++ [r]) = area_maps s G rs ++ region_maps r (start_of s r) (pages_of G r).
Proof. unfold area_maps. rewrite fmap_app, concat_app. cbn. by rewrite app_nil_r. Qed.

Lemma region_maps_elem r base ps m :
  m ∈ region_maps r base ps -> exists i p, ps !! i = Some p /\ m = mk_map (base + 4096 * Z.of_nat i) p r.
Proof.
  revert base. induction ps as [|q ps IH]; intros base; cbn [region_maps]; [by intros ?%elem_of_nil|].
  intros [->|Hm]%elem_of_cons.
  - exists 0%nat, q. split; [done|]. f_equal. lia.
  - destruct (IH _ Hm) as (i & p & Hi & ->). exists (S i), p. split; [done|]. f_equal. lia.
Qed.

Lemma nodup_fmap_inj {A} (f : A -> Z) xs x y : NoDup (f <$> xs) -> x ∈ xs -> y ∈ xs -> f x = f y -> x = y.
Proof.
  intros Hn [i Hi]%list_elem_of_lookup [j Hj]%list_elem_of_lookup E.
  assert (i = j) as ->; [|congruence]. eapply NoDup_lookup; [exact Hn| |].
  - by rewrite list_lookup_fmap, Hi.
  - by rewrite list_lookup_fmap, Hj, E.
Qed.

(** Regions of one area do not overlap. *)
Lemma area_room s G kv gk done r h R :
  vm_inv s G -> linked G -> gV G !! kv = Some gk -> NoDup (done ++ [r]) -> (forall x, x ∈ done ++ [r] -> x ∈ vg_regions gk) ->
  gR G !! r = Some h -> regions (Machine.vm s) !! r = Some R ->
  attach_room (mk_vg done (area_maps s G done)) R (rg_pages h).
Proof.
  intros Hi Hlk Hk Hnd Hsub Hh HR i Hlt. cbn.
  destruct (lookup_lt_is_Some_2 _ _ Hlt) as [p Hp].
  assert (forall x hx Rx j q, x ∈ done ++ [r] -> gR G !! x = Some hx -> regions (Machine.vm s) !! x = Some Rx ->
    rg_pages hx !! j = Some q -> mk_map (r_start Rx + 4096 * Z.of_nat j) q x ∈ vg_maps gk) as Hin.
  { intros x hx Rx j q Hx Hhx HRx Hq. pose proof (region_repr_at _ _ _ _ _ Hi Hhx HRx) as Hr.
    destruct (lk_region _ Hlk _ _ _ Hk (Hsub _ Hx)) as (h' & Hh' & Hat). assert (h' = hx) as -> by congruence.
    destruct (rr_maps _ _ _ _ _ Hr _ _ _ Hat Hq) as (g' & Hg' & Hm). congruence. }
  destruct (vi_vmems _ _ Hi _ _ Hk) as (kvm & kpt & Hkr).
  intros (m & E & Hm)%list_elem_of_fmap. apply list_elem_of_In, in_concat in Hm as (ms & Hms & Hm).
  apply list_elem_of_In in Hm, Hms. apply list_elem_of_fmap in Hms as (x & -> & Hx).
  assert (x ∈ done ++ [r]) as Hx' by set_solver.
  destruct (lk_region _ Hlk _ _ _ Hk (Hsub _ Hx')) as (hx & Hhx & _).
  destruct (vi_regions _ _ Hi _ _ Hhx) as (Rx & HRx). pose proof (rr_R _ _ _ _ _ HRx) as HRx'.
  unfold start_of, pages_of in Hm. rewrite Hhx, HRx' in Hm. cbn in Hm.
  destruct (region_maps_elem _ _ _ _ Hm) as (j & q & Hq & ->). cbn in E.
  pose proof (Hin x hx Rx j q Hx' Hhx HRx' Hq) as H1.
  pose proof (Hin r h R i p ltac:(set_solver) Hh HR Hp) as H2.
  pose proof (nodup_fmap_inj _ _ _ _ (vr_nodup _ _ _ _ _ _ Hkr) H2 H1 E) as Em. injection Em as _ _ <-.
  apply NoDup_app in Hnd as (_ & Hd & _). apply (Hd r Hx). by constructor.
Qed.

(** The area [v] got the regions [rs]. *)
Record regions_attached (n : Z) (s : kstate) (G : ghost) (v : Z) (rs : list Z) (s' : kstate) (G' : ghost) : Prop := {
  ra_only : only_maps n s s';
  ra_inv : vm_inv s' G';
  ra_linked : linked G';
  ra_V : gV G' = <[v := mk_vg rs (area_maps s G rs)]> (gV G);
  ra_R r : gR G' !! r = (fun h => if bool_decide (r ∈ rs) then mk_rg (rg_attached h ++ [v]) (rg_pages h) else h) <$> gR G !! r;
  ra_I : gI G' = gI G;
  ra_Ro : gRo G' = gRo G;
  ra_L l w : gRo G !! l = Some (RRegions w) -> w <> v -> gL G' !! l = gL G !! l;
  ra_O : others_kept G G' }.

Lemma regions_attached_nil s G v :
  vm_inv s G -> linked G -> gV G !! v = Some (mk_vg [] []) -> regions_attached 0 s G v [] s G.
Proof.
  intros Hi Hlk Hv. split; try done.
  - apply only_maps_refl.
  - by rewrite insert_id.
  - intros r. rewrite bool_decide_eq_false_2 by apply not_elem_of_nil. by destruct (gR G !! r).
Qed.

Lemma regions_attached_snoc n n2 s G v rs s1 G1 r h R s2 G2 :
  regions_attached n s G v rs s1 G1 -> gR G !! r = Some h -> regions (Machine.vm s) !! r = Some R -> (r ∉ rs) ->
  attached n2 s1 G1 v (mk_vg rs (area_maps s G rs)) r h R s2 G2 ->
  regions_attached (n + n2) s G v (rs ++ [r]) s2 G2.
Proof.
  intros [A B C D E F H I J] Hh HR Hr [A2 B2 C2 D2 E2 F2 H2 I2].
  assert (gV G1 !! v = Some (mk_vg rs (area_maps s G rs))) as Hv1 by (by rewrite D, lookup_insert_eq).
  assert (gR G1 !! r = Some h) as Hh1 by (by rewrite E, Hh, bool_decide_eq_false_2).
  assert (area_maps s G (rs ++ [r]) = area_maps s G rs ++ region_maps r (r_start R) (rg_pages h)) as Em.
  { rewrite area_maps_snoc. unfold start_of, pages_of. by rewrite HR, Hh. }
  split; try congruence.
  - by eapply only_maps_trans.
  - by eapply (linked_attach G1 G2 v _ _ r h); [| | | |exact C2|exact D2].
  - rewrite C2, D, insert_insert_eq. cbn. by rewrite Em.
  - intros x. rewrite D2. destruct (decide (r = x)) as [<-|Hne].
    + rewrite lookup_insert_eq, Hh. cbn. rewrite bool_decide_eq_true_2; [done|]. apply elem_of_app. right. by constructor.
    + rewrite lookup_insert_ne, E by done. destruct (gR G !! x); [|done]. cbn. f_equal.
      erewrite bool_decide_ext; [done|]. rewrite elem_of_app, list_elem_of_singleton. naive_solver.
  - intros l w Hl Hw. rewrite (H2 l w), (I l w); [done|done|done|by rewrite H|done].
  - by eapply others_kept_trans.
Qed.

Lemma attach_regions_spec s G kv gk kvm v :
  vm_inv s G -> linked G -> gV G !! kv = Some gk -> vmems (Machine.vm s) !! kv = Some kvm ->
  gV G !! v = Some (mk_vg [] []) -> kv <> v -> Z.of_nat (length (vg_regions gk)) < 2 ^ 31 ->
  attach_costs G (vg_regions gk) <= avail s -> heap_top (mem s) + attach_costs G (vg_regions gk) <= 2 ^ 48 ->
  wp (while_linkedlist_iter (v_regions kvm) tt (fun vmem_region _ =>
        ok ← vmem_attach v vmem_region; if negb ok then mret (inr tt) else mret (inl tt)))
    (fun res s' => res = inl tt /\ exists n G', n <= attach_costs G (vg_regions gk) /\
      regions_attached n s G v (vg_regions gk) s' G') s.
Proof.
  intros Hi Hlk Hk Hkvm Hv Hne Hlen Ha Htop. set (rs := vg_regions gk) in *.
  destruct (vi_vmems _ _ Hi _ _ Hk) as (kvm' & kpt & Hkr).
  assert (kvm' = kvm) as -> by (pose proof (vr_vm _ _ _ _ _ _ Hkr); congruence).
  destruct (vr_regions _ _ _ _ _ _ Hkr) as [Hro (ns & Hns & Evs)]. fold rs in Evs.
  assert (forall r, r ∈ rs -> r <> 0 /\ exists h R, gR G !! r = Some h /\ regions (Machine.vm s) !! r = Some R /\
    (v ∉ rg_attached h)) as Hrs.
  { intros r Hr. destruct (lk_region _ Hlk _ _ _ Hk Hr) as (h & Hh & _). destruct (vi_regions _ _ Hi _ _ Hh) as (R & HR).
    split; [apply HR|]. exists h, R. split_and!; [done|apply HR|]. intros Hin.
    destruct (lk_area _ Hlk _ _ _ Hh Hin) as (g' & Hg' & Hx). assert (g' = mk_vg [] []) as -> by congruence.
    by apply elem_of_nil in Hx. }
  assert (upto_null (values ns) = rs) as Hup.
  { rewrite Evs. apply upto_null_all, Forall_forall. intros r Hr. by apply Hrs. }
  eapply (wp_while_linkedlist_iter (v_regions kvm) ns _ (fun done _ s' => exists n G',
    n <= attach_costs G done /\ regions_attached n s G v done s' G')).
  - intros done _ s' (n & G' & _ & Hra). eapply inv_is_list; [apply Hra|].
    by rewrite (ra_L _ _ _ _ _ _ _ Hra _ kv).
  - intros done r _ s' [rest Hpre] Hr0 (n & G' & Hn & Hra). rewrite Hup in Hpre.
    assert (r ∈ rs) as Hin by (rewrite Hpre; set_solver).
    destruct (Hrs r Hin) as (_ & h & R & Hh & HR & Hnv).
    pose proof (lk_nodup _ Hlk _ _ Hk) as Hnd. fold rs in Hnd. rewrite Hpre in Hnd. apply NoDup_app in Hnd as (Hnd & _ & _).
    assert (r ∉ done) as Hnr.
    { apply NoDup_app in Hnd as (_ & Hd & _). intros Hx. apply (Hd _ Hx). by constructor. }
    assert (regions (Machine.vm s') = regions (Machine.vm s)) as Er.
    { by destruct (ra_only _ _ _ _ _ _ _ Hra) as (? & ? & ? & ? & -> & _). }
    destruct (only_maps_avail _ _ _ (vi_alloc _ _ Hi) (ra_only _ _ _ _ _ _ _ Hra)) as [_ Hav].
    pose proof (gr_top _ _ _ (only_maps_grown _ _ _ (ra_only _ _ _ _ _ _ _ Hra))) as Et.
    assert (attach_costs G (done ++ [r]) = attach_costs G done + attach_cost (rg_pages h)) as Ec.
    { rewrite attach_costs_app. unfold attach_costs at 2. cbn [foldr]. unfold pages_of. rewrite Hh. cbn. lia. }
    assert (attach_costs G done + attach_cost (rg_pages h) <= attach_costs G rs) as Hle.
    { rewrite <- Ec, Hpre, (attach_costs_app _ (done ++ [r])). pose proof (attach_costs_pos G rest). lia. }
    assert (Z.of_nat (length done) < 2 ^ 31) as Hlen'.
    { rewrite Hpre, !length_app in Hlen. lia. }
    eapply wp_call.
    { eapply (vmem_attach_spec s' G' v (mk_vg done (area_maps s G done)) r h R); try lia; try done.
      - apply Hra.
      - by rewrite (ra_V _ _ _ _ _ _ _ Hra), lookup_insert_eq.
      - by rewrite (ra_R _ _ _ _ _ _ _ Hra), Hh, bool_decide_eq_false_2.
      - by rewrite Er.
      - eapply (area_room s G kv gk); try done. intros x Hx. change (x ∈ rs). rewrite Hpre. set_solver. }
    intros ok s2 (-> & n2 & G2 & Hn2 & Hat). cbn [negb]. wstep. exists (n + n2), G2. split; [lia|].
    by eapply regions_attached_snoc.
  - intros [] s' H. rewrite Hup in H. done.
  - exists 0, G. split; [done|]. by apply regions_attached_nil.
Qed.

(** ** The object of the area *)

(** The start of [vmem_create]: the fields and the two lists. *)
Lemma wp_area_lists (k : M Z) Q s G v :
  vm_inv s G -> linked G -> v <> 0 -> gV G !! v = None -> vmems (Machine.vm s) !! v = Some zeroed ->
  32 <= avail s -> heap_top (mem s) + 32 <= 2 ^ 48 ->
  (forall s' G' vm, vm_inv s' G' -> linked G' -> gV G' = gV G -> gI G' = gI G -> gR G' = gR G ->
     vmems (Machine.vm s') = <[v := vm]> (vmems (Machine.vm s)) -> next_start_address vm = REGION_ADDRESS_INCREMENT -> native_vmem vm = 0 ->
     gRo G' !! v_regions vm = Some (RRegions v) -> gL G' !! v_regions vm = Some [] ->
     gRo G' !! v_map vm = Some (RMap v) -> gL G' !! v_map vm = Some [] ->
     regions (Machine.vm s') = regions (Machine.vm s) -> pmem s' = pmem s -> vm_frame 32 s s' -> others_kept G G' -> wp k Q s') ->
  wp (update v (fun v => mk_vmem (vmem_id v) (native_vmem v) (v_regions v) (v_map v) REGION_ADDRESS_INCREMENT);;
      l ← linkedlist_create;
      update v (fun v => mk_vmem (vmem_id v) (native_vmem v) l (v_map v) (next_start_address v));;
      l ← linkedlist_create;
      update v (fun v => mk_vmem (vmem_id v) (native_vmem v) (v_regions v) l (next_start_address v));;
      k) Q s.
Proof.
  intros Hi Hlk Hv0 Hf Hvm Ha Htop Hk.
  assert (forall s G vm, vm_inv s G -> gV G !! v = None -> vmems (Machine.vm s) !! v = Some vm ->
    forall vm', vm_inv (set_vmems (<[v := vm']> (vmems (Machine.vm s))) s) G) as Hset.
  { clear. intros s G vm Hi Hf Hvm vm'. pose proof (vm_inv_set_vmem 0 s (mem s) G v vm' Hi (quiet_refl _)) as Hx.
    replace (set_mem (mem s) s) with s in Hx by (by destruct s). apply Hx; [|done|by eapply (vi_below_v _ _ Hi)].
    apply (vi_paging _ _ Hi). }
  wstep. eapply wpx_update; [exact Hvm|]. cbn [heap set_heap vmem_t_struct].
  match goal with |- context [<[v := ?x]> (vmems (Machine.vm s))] => pose proof (Hset s G _ Hi Hf Hvm x) as Hi1 end.
  match goal with |- wpx _ _ _ ?x => set (s1 := x) in * end. change (avail s) with (avail s1) in Ha.
  eapply wpx_call; [eapply (linkedlist_create_spec s1 (gL G)); [apply Hi1|apply Hi1|lia]|].
  intros ? s2 (-> & Hnl2 & Ho2 & Hl2). change (mem s1) with (mem s) in *. set (lr := heap_top (mem s)) in *.
  pose proof (gr_top _ _ _ (q_grown _ _ _ (only_lists_quiet _ _ _ Ho2))) as Et2. change (mem s1) with (mem s) in Et2.
  destruct (only_lists_avail _ _ _ (vi_alloc _ _ Hi1) Ho2) as [Hok2 Ha2].
  pose proof (vm_inv_new_list 16 s1 s2 G lr (RRegions v) [] Hi1 Ho2 ltac:(lia) Hnl2 Hl2) as Hi2.
  assert (Machine.vm s2 = Machine.vm s1) as Ev2 by (by destruct Ho2 as (? & ? & ? & -> & _)).
  assert (vmems (Machine.vm s2) !! v = vmems (Machine.vm s1) !! v) as HR2 by (by rewrite Ev2).
  cbn in HR2. rewrite lookup_insert_eq in HR2.
  wstep. eapply wpx_update; [exact HR2|]. cbn [heap set_heap vmem_t_struct].
  match goal with |- context [<[v := ?x]> (vmems (Machine.vm s2))] => pose proof (Hset s2 _ _ Hi2 Hf HR2 x) as Hi3 end.
  match goal with |- wpx _ _ _ ?x => set (s3 := x) in * end. change (avail s2) with (avail s3) in Ha2.
  eapply wpx_call; [eapply (linkedlist_create_spec s3); [apply Hi3|apply Hi3|lia]|].
  intros ? s4 (-> & Hnl4 & Ho4 & Hl4). change (mem s3) with (mem s2) in *. set (lm := heap_top (mem s2)) in *.
  pose proof (gr_top _ _ _ (q_grown _ _ _ (only_lists_quiet _ _ _ Ho4))) as Et4. change (mem s3) with (mem s2) in Et4.
  pose proof (vm_inv_new_list 16 s3 s4 _ lm (RMap v) [] Hi3 Ho4 ltac:(lia) Hnl4 Hl4) as Hi4.
  assert (Machine.vm s4 = Machine.vm s3) as Ev4 by (by destruct Ho4 as (? & ? & ? & -> & _)).
  assert (vmems (Machine.vm s4) !! v = vmems (Machine.vm s3) !! v) as HR4 by (by rewrite Ev4).
  cbn in HR4. rewrite lookup_insert_eq in HR4.
  wstep. eapply wpx_update; [exact HR4|]. cbn [heap set_heap vmem_t_struct].
  match goal with |- context [<[v := ?x]> (vmems (Machine.vm s4))] =>
    pose proof (Hset s4 _ _ Hi4 Hf HR4 x) as Hi5; set (vm := x) in * end.
  match goal with |- wpx _ _ _ ?x => set (s5 := x) in * end.
  assert (lr <> lm) as Hne by lia.
  eapply (Hk s5 _ vm Hi5); try done; cbn; try (rewrite lookup_insert_eq; done);
    try (rewrite lookup_insert_ne by done; rewrite lookup_insert_eq; done).
  - by destruct Hlk; split.
  - rewrite Ev4. cbn. rewrite Ev2. cbn. by rewrite !insert_insert_eq.
  - rewrite Ev4. cbn. by rewrite Ev2.
  - destruct Ho4 as (? & ? & ? & -> & _). cbn. by destruct Ho2 as (? & ? & ? & -> & _).
  - change 32 with (0 + 16 + 0 + 16 + 0). apply (vm_frame_trans _ _ _ s4); [|frame_vmem].
    apply (vm_frame_trans _ _ _ s3); [|by apply vm_frame_lists]. apply (vm_frame_trans _ _ _ s2); [|frame_vmem].
    apply (vm_frame_trans _ _ _ s1); [frame_vmem|by apply vm_frame_lists].
  - eapply (others_kept_trans _ (with_list lr (RRegions v) [] G)); [by apply (others_kept_list s1)|]. by apply (others_kept_list s3).
Qed.

(** The regions every area gets. *)
Definition kernel_regions (s : kstate) (G : ghost) : list Z :=
  if isnull (kernel_vmem (Machine.vm s)) then []
  else default [] (vg_regions <$> gV G !! kernel_vmem (Machine.vm s)).

Definition area_cost (G : ghost) (rs : list Z) : Z := 41128 + attach_costs G rs.

(** The area [v] with the regions [rs] joined the others. *)
Record area_created (n : Z) (s : kstate) (G : ghost) (v : Z) (rs : list Z) (s' : kstate) (G' : ghost) (vm : vmem_t) : Prop := {
  ac_frame : vm_frame n s s';
  ac_inv : vm_inv s' G';
  ac_linked : linked G';
  ac_fresh : v <> 0 /\ gV G !! v = None;
  ac_V : gV G' = <[v := mk_vg rs (area_maps s G rs)]> (gV G);
  ac_R r : gR G' !! r = (fun h => if bool_decide (r ∈ rs) then mk_rg (rg_attached h ++ [v]) (rg_pages h) else h) <$> gR G !! r;
  ac_I p : p <> a_vmem_id_mapper -> gI G' !! p = gI G !! p;
  ac_id gi : gI G !! a_vmem_id_mapper = Some gi -> vmem_id vm = g_next gi /\ gI G' !! a_vmem_id_mapper =
      Some (mk_gidm (g_list gi) (g_next gi + 1) (g_entries gi ++ [(g_next gi, v)]));
  ac_vmems : vmems (Machine.vm s') = <[v := vm]> (vmems (Machine.vm s));
  ac_next : next_start_address vm = REGION_ADDRESS_INCREMENT;
  ac_regions : regions (Machine.vm s') = regions (Machine.vm s);
  ac_pmem : pmem s' = pmem s;
  ac_O : others_kept G G' }.

(** Everything of [vmem_create] behind the page table. *)
Definition area_create_tail (vmem : Z) : M Z :=
  kernel_vmem ← vmem_get_kernel;
  attached ← (if isnull kernel_vmem then mret (inl tt)
              else
                kv ← load kernel_vmem;
                while_linkedlist_iter (v_regions kv) tt (fun vmem_region _ =>
                  ok ← vmem_attach vmem vmem_region;
                  if negb ok then mret (inr tt) else mret (inl tt)));
  match attached with
  | inr _ => vmem_destroy vmem;; mret NULL
  | inl _ =>
      id ← id_mapper_add a_vmem_id_mapper vmem;
      update vmem (fun v => mk_vmem id (native_vmem v) (v_regions v) (v_map v) (next_start_address v));;
      v ← load vmem;
      if isnull (vmem_id v) then vmem_destroy vmem;; mret NULL else mret vmem
  end.

Lemma attach_kernel_spec s G v :
  vm_inv s G -> linked G -> gV G !! v = Some (mk_vg [] []) -> kernel_vmem (Machine.vm s) <> v ->
  (kernel_vmem (Machine.vm s) <> 0 -> is_Some (gV G !! kernel_vmem (Machine.vm s))) ->
  let rs := kernel_regions s G in
  Z.of_nat (length rs) < 2 ^ 31 -> attach_costs G rs <= avail s -> heap_top (mem s) + attach_costs G rs <= 2 ^ 48 ->
  wp (if isnull (kernel_vmem (Machine.vm s)) then mret (inl tt)
      else
        kv ← load (kernel_vmem (Machine.vm s));
        while_linkedlist_iter (v_regions kv) tt (fun vmem_region _ =>
          ok ← vmem_attach v vmem_region;
          if negb ok then mret (inr tt) else mret (inl tt)))
    (fun res s' => res = inl tt /\ exists n G', n <= attach_costs G rs /\ regions_attached n s G v rs s' G') s.
Proof.
  intros Hi Hlk Hv Hne Hk rs Hlen Ha Htop. unfold rs, kernel_regions in *.
  destruct (isnull (kernel_vmem (Machine.vm s))) eqn:E.
  - wstep. split; [done|]. exists 0, G. split; [done|]. by apply regions_attached_nil.
  - apply isnull_false in E. destruct (Hk E) as [gk Hgk]. cbn. rewrite Hgk in Hlen, Ha, Htop |- *. cbn [option_fmap option_map default fmap from_option id] in Hlen, Ha, Htop |- *.
    destruct (vi_vmems _ _ Hi _ _ Hgk) as (kvm & kpt & Hkr). wstep. eapply wpx_load; [apply Hkr|].
    apply (attach_regions_spec s G (kernel_vmem (Machine.vm s)) gk kvm v); try done. apply Hkr.
Qed.

Lemma area_create_tail_spec s G v gi vm :
  vm_inv s G -> linked G -> gV G !! v = Some (mk_vg [] []) -> vmems (Machine.vm s) !! v = Some vm -> v <> 0 ->
  kernel_vmem (Machine.vm s) <> v ->
  (kernel_vmem (Machine.vm s) <> 0 -> is_Some (gV G !! kernel_vmem (Machine.vm s))) ->
  gI G !! a_vmem_id_mapper = Some gi -> 0 < g_next gi < 2 ^ 64 - 1 ->
  let rs := kernel_regions s G in
  Z.of_nat (length rs) < 2 ^ 31 -> 32 + attach_costs G rs <= avail s -> heap_top (mem s) + 32 + attach_costs G rs <= 2 ^ 48 ->
  wp (area_create_tail v) (fun x s' => x = v /\ exists n G1 s1 G' vm', n <= attach_costs G rs /\
    regions_attached n s G v rs s1 G1 /\ vm_frame (n + 32) s s' /\ vm_inv s' G' /\
    gV G' = gV G1 /\ gR G' = gR G1 /\
    gI G' = <[a_vmem_id_mapper := mk_gidm (g_list gi) (g_next gi + 1) (g_entries gi ++ [(g_next gi, v)])]> (gI G) /\
    vmems (Machine.vm s') = <[v := vm']> (vmems (Machine.vm s)) /\ vmem_id vm' = g_next gi /\
    next_start_address vm' = next_start_address vm /\
    regions (Machine.vm s') = regions (Machine.vm s) /\ pmem s' = pmem s /\ others_kept G G') s.
Proof.
  intros Hi Hlk Hv Hvm Hv0 Hne Hk HI Hnext rs Hlen Ha Htop. pose proof (attach_costs_pos G rs) as Hpos.
  unfold area_create_tail, vmem_get_kernel. wstep. wstep.
  eapply wpx_call; [apply (attach_kernel_spec s G v); try done; fold rs; lia|].
  intros res s1 (-> & n & G1 & Hn & Hra). fold rs in Hn, Hra.
  assert (vmems (Machine.vm s1) = vmems (Machine.vm s) /\ regions (Machine.vm s1) = regions (Machine.vm s) /\
    pmem s1 = pmem s) as (Ev1 & Er1 & Ep1).
  { by destruct (ra_only _ _ _ _ _ _ _ Hra) as (? & ? & ? & ? & -> & _). }
  destruct (only_maps_avail _ _ _ (vi_alloc _ _ Hi) (ra_only _ _ _ _ _ _ _ Hra)) as [_ Ha1].
  pose proof (gr_top _ _ _ (only_maps_grown _ _ _ (ra_only _ _ _ _ _ _ _ Hra))) as Et1.
  assert (gI G1 !! a_vmem_id_mapper = Some gi) as HI1 by (by rewrite (ra_I _ _ _ _ _ _ _ Hra)).
  pose proof (ra_inv _ _ _ _ _ _ _ Hra) as Hi1.
  eapply wpx_call; [eapply (id_mapper_add_spec s1 (gL G1) (gI G1)); [apply Hi1|apply Hi1|exact HI1|apply Hi1|lia|done|done]|].
  intros id s2 (-> & Ho2 & ns & Hl2 & Hids2).
  pose proof (gr_top _ _ _ (q_grown _ _ _ (only_ids_quiet _ _ _ Ho2))) as Et2.
  set (gi' := mk_gidm (g_list gi) (g_next gi + 1) (g_entries gi ++ [(g_next gi, v)])) in *.
  pose proof (vm_inv_ids 32 s1 s2 G1 a_vmem_id_mapper gi gi' ns Hi1 HI1 Ho2 ltac:(lia) eq_refl Hl2 Hids2) as Hi2.
  assert (Machine.vm s2 = Machine.vm s1 /\ pmem s2 = pmem s1) as [Ev2 Ep2] by (by destruct Ho2 as (? & ? & ? & -> & _)).
  assert (vmems (Machine.vm s2) = vmems (Machine.vm s)) as Evm by (by rewrite Ev2, Ev1).
  wstep. eapply wpx_update; [cbn; by rewrite Evm|]. wstep. eapply wpx_load; [cbn; apply lookup_insert_eq|].
  cbn [vmem_id]. nonnull (g_next gi). wstep. split; [done|].
  exists n, G1, s1, (with_ids (g_list gi) ns (<[a_vmem_id_mapper := gi']> (gI G1)) G1),
    (mk_vmem (g_next gi) (native_vmem vm) (v_regions vm) (v_map vm) (next_start_address vm)).
  split; [done|]. split; [done|]. split.
  { replace (n + 32) with (n + 32 + 0) by lia. apply (vm_frame_trans _ _ _ s2); [|frame_vmem].
    apply (vm_frame_trans _ _ _ s1); [apply vm_frame_maps, Hra|by apply vm_frame_ids]. }
  split.
  { apply (vm_inv_objects 0 s2); try done; [apply quiet_refl|cbn; lia| | |].
    - intros w x _ Hx. cbn. destruct (decide (v = w)) as [<-|Hw].
      + rewrite lookup_insert_eq. eexists. split; [done|]. by assert (x = vm) as -> by congruence.
      + rewrite lookup_insert_ne by done. exists x. split; [done|apply same_area_refl].
    - intros q x. cbn. intros [[<- _]|[_ Hx]]%lookup_insert_Some; [|by apply (vi_below_v _ _ Hi2) in Hx].
      apply (vi_below_v _ _ Hi2 v vm). cbn. by rewrite Evm.
    - apply (vi_below_r _ _ Hi2). }
  split_and!; try done; cbn.
  - by rewrite (ra_I _ _ _ _ _ _ _ Hra).
  - by rewrite Evm.
  - by rewrite Ev2.
  - by rewrite Ep2.
  - eapply others_kept_trans; [apply Hra|]. eapply (others_kept_ids s1); [done|by eapply (vi_mappers _ _ Hi1)].
Qed.

Lemma vmem_create_spec s G gi :
  vm_inv s G -> linked G ->
  (kernel_vmem (Machine.vm s) <> 0 -> is_Some (gV G !! kernel_vmem (Machine.vm s))) ->
  gI G !! a_vmem_id_mapper = Some gi -> 0 < g_next gi < 2 ^ 64 - 1 ->
  let rs := kernel_regions s G in
  Z.of_nat (length rs) < 2 ^ 31 -> area_cost G rs <= avail s -> heap_top (mem s) + area_cost G rs <= 2 ^ 48 ->
  wp vmem_create (fun v s' => v = heap_top (mem s) /\ exists n G' vm, n <= area_cost G rs /\
    area_created n s G v rs s' G' vm) s.
Proof.
  intros Hi Hlk Hk HI Hnext rs Hlen Ha Htop. unfold area_cost in *. pose proof (attach_costs_pos G rs) as Hcp.
  pose proof (heap_top_pos _ (vi_alloc _ _ Hi)) as Hpos. unfold vmem_create.
  eapply wp_call; [apply (wp_NEW vmem_t); [apply Hi|cbn; lia]|].
  intros v s1 (-> & m1 & -> & Hq1). cbn in Hq1. pose proof (gr_top _ _ _ (q_grown _ _ _ Hq1)) as Et1.
  set (v := heap_top (mem s)) in *. nonnull v. cbn [heap set_heap vmem_t_struct].
  assert (gV G !! v = None) as Hf.
  { apply eq_None_not_Some. intros Hs. pose proof (area_below s G v Hi Hs) as Hb. fold v in Hb. lia. }
  pose proof (vm_inv_set_vmem 40 s m1 G v zeroed Hi Hq1 ltac:(lia) Hf ltac:(lia)) as Hi1.
  change (vmems (Machine.vm (set_mem m1 s))) with (vmems (Machine.vm s)).
  set (s1 := set_vmems _ (set_mem m1 s)) in *.
  assert (avail s - 40 <= avail s1) as Ha1 by (apply avail_grown_regions; [apply Hi|apply Hq1|done]).
  assert (vm_frame 40 s s1) as Hf1.
  { split; try done; [apply Hq1|]. intros w b. apply root_of_kept; [|apply roots_kept_refl]. intros vw Hw. cbn.
    rewrite lookup_insert_ne; [by exists vw|]. intros <-. pose proof (vi_below_v _ _ Hi _ _ Hw) as Hb. fold v in Hb. lia. }
  eapply (wp_area_lists _ _ s1 G v); try done; [lia|cbn; apply lookup_insert_eq|lia|change (mem s1) with m1; lia|].
  intros s2 G2 vm Hi2 Hlk2 HV2 HI2 HR2 Ev2 Enx Env Hror Hlr Hrom Hlm Er2 Ep2 Hf2 Hot2.
  pose proof (gr_top _ _ _ (vf_grown _ _ _ Hf2)) as Et2. change (mem s1) with m1 in Et2.
  assert (avail s1 - 32 <= avail s2) as Ha2 by (apply avail_grown_regions; [apply Hi1|apply Hf2|done]).
  assert (vmems (Machine.vm s2) !! v = Some vm) as Hvm2 by (by rewrite Ev2, lookup_insert_eq).
  cbn [native_vmem_create x86_native_vmem].
  eapply wp_call; [eapply (native_create_spec s2 G2 v vm); try done; [by rewrite HV2|lia|lia|lia]|].
  intros ok s3 (-> & G3 & vm3 & Hi3 & Hlk3 & HV3 & HR3 & HI3 & Ev3 & Enx3 & Er3 & Ep3 & Hf3 & Hot3). cbn [negb].
  pose proof (gr_top _ _ _ (vf_grown _ _ _ Hf3)) as Et3.
  assert (avail s2 - 41024 <= avail s3) as Ha3 by (apply avail_grown_regions; [apply Hi2|apply Hf3|done]).
  assert (kernel_vmem (Machine.vm s3) = kernel_vmem (Machine.vm s)) as Ek3.
  { by rewrite (vf_kernel _ _ _ Hf3), (vf_kernel _ _ _ Hf2), (vf_kernel _ _ _ Hf1). }
  assert (regions (Machine.vm s3) = regions (Machine.vm s)) as Er by (by rewrite Er3, Er2).
  assert (kernel_vmem (Machine.vm s) <> v) as Hkv.
  { intros E. destruct Hk as [gk Hgk]; [lia|]. congruence. }
  assert (gR G3 = gR G) as HRG by congruence.
  assert (kernel_regions s3 G3 = rs) as Ers.
  { unfold rs, kernel_regions. rewrite Ek3. destruct (isnull _) eqn:E; [done|]. by rewrite HV3, lookup_insert_ne, HV2. }
  assert (forall xs, attach_costs G3 xs = attach_costs G xs) as Eac.
  { intros xs. unfold attach_costs, pages_of. by rewrite HRG. }
  assert (forall xs, area_maps s3 G3 xs = area_maps s G xs) as Eam.
  { intros xs. unfold area_maps, start_of, pages_of. by rewrite HRG, Er. }
  change (wp (area_create_tail v) (fun x s' => x = v /\ exists n G' vm, n <= 41128 + attach_costs G rs /\
    area_created n s G x rs s' G' vm) s3).
  eapply wp_mono.
  { eapply (area_create_tail_spec s3 G3 v gi vm3); rewrite ?Ek3, ?Ers, ?Eac; try done; try lia.
    - by rewrite HV3, lookup_insert_eq.
    - by rewrite Ev3, lookup_insert_eq.
    - intros Hn0. destruct (Hk Hn0) as [gk Hgk]. exists gk. by rewrite HV3, lookup_insert_ne, HV2.
    - by rewrite HI3, HI2. }
  cbn beta. rewrite Ers, Eac.
  intros x s5 (-> & n & G4 & s4 & G5 & vm5 & Hn & Hra & Hf5 & Hi5 & HV5 & HR5 & HI5 & Ev5 & Eid & Enx5 & Er5 & Ep5 & Hot5).
  split; [done|]. exists (40 + 32 + 41024 + (n + 32)), G5, vm5. split; [lia|].
  assert (linked G5) as Hlk5.
  { destruct (ra_linked _ _ _ _ _ _ _ Hra) as [A B C]. split; rewrite ?HV5, ?HR5; done. }
  split; try done.
  - apply (vm_frame_trans _ _ _ s3); [|done]. apply (vm_frame_trans _ _ _ s2); [|done]. by apply (vm_frame_trans _ _ _ s1).
  - split; [lia|done].
  - by rewrite HV5, (ra_V _ _ _ _ _ _ _ Hra), Eam, HV3, insert_insert_eq, HV2.
  - intros r. by rewrite HR5, (ra_R _ _ _ _ _ _ _ Hra), HRG.
  - intros p Hp. by rewrite HI5, lookup_insert_ne, HI3, HI2.
  - intros gi0 Hgi0. assert (gi0 = gi) as -> by congruence. by rewrite HI5, lookup_insert_eq.
  - rewrite Ev5, Ev3, Ev2, !insert_insert_eq. cbn. by rewrite insert_insert_eq.
  - by rewrite Enx5, Enx3.
  - by rewrite Er5.
  - by rewrite Ep5, Ep3, Ep2.
  - by eapply others_kept_trans; [|eapply others_kept_trans].
Qed.
End area_create.
