(* ===== verification/VirtualMemory.v ===== *)
(** What virtual memory promises: the software view and the page tables agree,
    regions are backed by physical pages of their own, and every area sees the
    kernel and nothing else when it is made. *)
From S2P Require Import Prelude Machine Logic LinkedList ListRefinement IdMapper Pmem NativeVmem PageTable NativePaging Vmem Region VmInv VmemSpec RegionSpec VmStep VmCreate.

(** * The address spaces the processor sees *)

(** The translation of [va] when the area [v] is switched on. *)
Definition translate (s : kstate) (v va : Z) : option Z :=
  match vmems (Machine.vm s) !! v with
  | Some vm =>
      match npts (paging s) !! native_vmem vm with
      | Some pt => walk (ram (mem s)) 4 (npt_entries pt) va
      | None => None
      end
  | None => None
  end.

Lemma translate_lookup s G v g va :
  vm_inv s G -> gV G !! v = Some g -> 0 <= va < 2 ^ 48 -> translate s v va = lookup_map (vg_maps g) va.
Proof.
  intros Hi Hv Hva. destruct (vi_vmems _ _ Hi _ _ Hv) as (vm & pt & Hr). unfold translate.
  rewrite (vr_vm _ _ _ _ _ _ Hr), (vr_pt _ _ _ _ _ _ Hr). by apply (vr_agree _ _ _ _ _ _ Hr).
Qed.

Lemma lookup_map_app_many ms ms' va :
  lookup_map (ms ++ ms') va = match lookup_map ms va with Some x => Some x | None => lookup_map ms' va end.
Proof. induction ms as [|m ms IH]; cbn; [done|]. by destruct (_ =? _). Qed.

(** The addresses of [k] pages from [base] on. *)
Definition in_pages (base k va : Z) : Prop := base <= va < base + 4096 * k.

Lemma region_maps_none r base ps va :
  base mod 4096 = 0 -> ~ in_pages base (Z.of_nat (length ps)) va -> lookup_map (region_maps r base ps) va = None.
Proof.
  intros Hb Hn. apply lookup_map_None. intros (m & E & Hm)%list_elem_of_fmap.
  apply region_maps_vaddr in Hm as [Hr _]. unfold in_pages in Hn. pose proof (Z.div_mod va 4096). pose proof (Z.mod_pos_bound va 4096).
  pose proof (Z.div_mod base 4096). lia.
Qed.

(** An address of the region is in its page. *)
Lemma in_pages_page base k va : base mod 4096 = 0 -> in_pages base k va ->
  0 <= (va - base) / 4096 < k /\ base + 4096 * ((va - base) / 4096) = va / 4096 * 4096.
Proof.
  unfold in_pages. intros Hb Hv. set (i := (va - base) / 4096). pose proof (Z.div_mod (va - base) 4096) as H1. pose proof (Z.mod_pos_bound (va - base) 4096) as H2.
  pose proof (Z.div_mod va 4096) as H3. pose proof (Z.mod_pos_bound va 4096) as H4. pose proof (Z.div_mod base 4096) as H5.
  fold i in H1. split; [split; [apply Z.div_pos; lia|apply Z.div_lt_upper_bound; lia]|]. lia.
Qed.

(** A page of a region in an area it is attached to. *)
Lemma translate_page s G r h R v i p va :
  vm_inv s G -> gR G !! r = Some h -> regions (Machine.vm s) !! r = Some R -> v ∈ rg_attached h ->
  rg_pages h !! i = Some p -> va / 4096 * 4096 = r_start R + 4096 * Z.of_nat i -> translate s v va = Some (p + va mod 4096).
Proof.
  intros Hi Hh HR Hv Hp Hva. pose proof (region_repr_at _ _ _ _ _ Hi Hh HR) as HRr.
  destruct (rr_maps _ _ _ _ _ HRr _ _ _ Hv Hp) as (g & Hg & Hm).
  destruct (vi_vmems _ _ Hi _ _ Hg) as (vm & pt & Hr).
  assert (0 <= va < 2 ^ 48) as Hb.
  { pose proof (vr_maps _ _ _ _ _ _ Hr) as Hf. rewrite Forall_forall in Hf. apply Hf in Hm as [[Hb Hb'] _]. cbn in Hb, Hb'.
    pose proof (Z.div_mod va 4096). pose proof (Z.mod_pos_bound va 4096). pose proof (Z.div_mod (r_start R + 4096 * Z.of_nat i) 4096). lia. }
  rewrite (translate_lookup s G v g) by done.
  by apply (lookup_map_Some _ (mk_map (r_start R + 4096 * Z.of_nat i) p r)); [apply Hr| |].
Qed.

Lemma page_offset base i o : base mod 4096 = 0 -> 0 <= o < 4096 ->
  (base + 4096 * i + o) / 4096 * 4096 = base + 4096 * i /\ (base + 4096 * i + o) mod 4096 = o.
Proof.
  intros Hb Ho. pose proof (Z.div_mod base 4096) as Hd.
  assert (base + 4096 * i + o = 4096 * (base / 4096 + i) + o) as E by lia.
  assert ((base + 4096 * i + o) / 4096 = base / 4096 + i) as -> by (symmetry; eapply Z.div_unique; [|exact E]; lia).
  split; [lia|]. symmetry. eapply Z.mod_unique; [|exact E]. lia.
Qed.

(** Addresses that do not translate are not in the maps. *)
Lemma free_maps s G v g base k :
  vm_inv s G -> gV G !! v = Some g -> base mod 4096 = 0 -> 0 <= base -> base + 4096 * k <= 2 ^ 48 ->
  (forall va, in_pages base k va -> translate s v va = None) ->
  forall i, 0 <= i < k -> base + 4096 * i ∉ map_virtual_addr <$> vg_maps g.
Proof.
  intros Hi Hv Hbm Hb Hend Hfree i Hik (m & Em & Hm)%list_elem_of_fmap.
  destruct (vi_vmems _ _ Hi _ _ Hv) as (vm' & pt & Hr).
  pose proof (lookup_map_Some _ m (base + 4096 * i) (vr_nodup _ _ _ _ _ _ Hr) Hm) as Hl.
  destruct (page_offset base i 0) as [Ep _]; [done|lia|]. rewrite Z.add_0_r in Ep.
  specialize (Hl ltac:(congruence)). rewrite <- (translate_lookup s G v g), Hfree in Hl; [done|unfold in_pages; lia|done|done|lia].
Qed.

(** [va] is in a page of one of the regions [rs], at the physical address [pa]. *)
Definition region_page (s : kstate) (G : ghost) (rs : list Z) (va pa : Z) : Prop :=
  exists r i p, r ∈ rs /\ pages_of G r !! i = Some p /\ va / 4096 * 4096 = start_of s r + 4096 * Z.of_nat i /\
    pa = p + va mod 4096.

Lemma lookup_map_inv ms va pa : lookup_map ms va = Some pa ->
  exists m, m ∈ ms /\ map_virtual_addr m = va / 4096 * 4096 /\ pa = map_physical_addr m + va mod 4096.
Proof.
  induction ms as [|m ms IH]; cbn; [done|]. destruct (Z.eqb_spec (map_virtual_addr m) (va / 4096 * 4096)) as [E|E].
  - intros [= <-]. exists m. split; [by constructor|done].
  - intros (x & Hx & ?)%IH. exists x. split; [by constructor|done].
Qed.

Lemma area_maps_elem s G rs m :
  m ∈ area_maps s G rs <-> exists r i p, r ∈ rs /\ pages_of G r !! i = Some p /\
    m = mk_map (start_of s r + 4096 * Z.of_nat i) p r.
Proof.
  unfold area_maps. rewrite list_elem_of_In, in_concat. split.
  - intros (ms & Hms & Hm). apply list_elem_of_In in Hms, Hm. apply list_elem_of_fmap in Hms as (r & -> & Hr).
    apply region_maps_elem in Hm as (i & p & Hp & ->). by exists r, i, p.
  - intros (r & i & p & Hr & Hp & ->). exists (region_maps r (start_of s r) (pages_of G r)). split.
    + apply list_elem_of_In, list_elem_of_fmap. by exists r.
    + apply list_elem_of_In. by apply region_maps_lookup.
Qed.

(** * Theorems *)
Section theorems.
Context `{K : Kalloc} `{!GoodAlloc K} `{Y : Layout}.



(** C6: a new area sees the memory of the kernel and nothing else: it translates
    exactly the pages of the regions of the kernel, as the kernel does; the
    translations of all other areas stay. *)
Theorem new_area_sees_kernel s G gk gi :
  let kv := kernel_vmem (Machine.vm s) in
  vm_inv s G -> linked G -> kv <> 0 -> gV G !! kv = Some gk ->
  gI G !! a_vmem_id_mapper = Some gi -> 0 < g_next gi < 2 ^ 64 - 1 ->
  let rs := vg_regions gk in
  Z.of_nat (length rs) < 2 ^ 31 -> area_cost G rs <= avail s -> heap_top (mem s) + area_cost G rs <= 2 ^ 48 ->
  exists v s' G', vmem_create s = Ret v s' /\ v <> 0 /\ gV G !! v = None /\ is_Some (gV G' !! v) /\
    vm_inv s' G' /\ linked G' /\
    (forall va pa, 0 <= va < 2 ^ 48 -> translate s' v va = Some pa <-> region_page s G rs va pa) /\
    (forall va pa, region_page s G rs va pa -> translate s' kv va = Some pa) /\
    (forall w va, is_Some (gV G !! w) -> 0 <= va < 2 ^ 48 -> translate s' w va = translate s w va).
Proof.
  intros kv Hi Hlk Hk0 Hk HI Hnext rs Hlen Ha Htop.
  assert (kernel_regions s G = rs) as Ers.
  { unfold kernel_regions. fold kv. by rewrite (proj2 (isnull_false kv) Hk0), Hk. }
  destruct (wp_inv _ _ _ (vmem_create_spec s G gi Hi Hlk ltac:(intros _; by exists gk) HI Hnext
    ltac:(by rewrite Ers) ltac:(by rewrite Ers) ltac:(by rewrite Ers))) as (v & s' & E & _ & n & G' & vm & _ & Hac).
  rewrite Ers in Hac. destruct Hac as [A B C [Hv0 Hf] HV HR _ _ _ _ Er _].
  assert (gV G' !! v = Some (mk_vg rs (area_maps s G rs))) as Hv' by (by rewrite HV, lookup_insert_eq).
  assert (forall w va, is_Some (gV G !! w) -> 0 <= va < 2 ^ 48 -> translate s' w va = translate s w va) as Hold.
  { intros w va [gw Hw] Hva. rewrite (translate_lookup s G w gw) by done. apply (translate_lookup s' G'); [done| |done].
    rewrite HV, lookup_insert_ne; [done|congruence]. }
  exists v, s', G'. do 3 (split; [done|]). split; [by eexists|]. do 2 (split; [done|]). split; [|split; [|exact Hold]].
  - intros va pa Hva. rewrite (translate_lookup s' G' v _ va B Hv' Hva). cbn [vg_maps]. split.
    + intros (m & Hm & Em & ->)%lookup_map_inv. apply area_maps_elem in Hm as (r & i & p & Hr & Hp & ->).
      cbn in *. by exists r, i, p.
    + intros (r & i & p & Hr & Hp & Eva & ->). destruct (vi_vmems _ _ B _ _ Hv') as (x & y & Hrep).
      apply (lookup_map_Some _ (mk_map (start_of s r + 4096 * Z.of_nat i) p r)); [apply Hrep| |done].
      cbn. apply area_maps_elem. eauto 10.
  - intros va pa (r & i & p & Hr & Hp & Eva & ->).
    destruct (lk_region _ Hlk _ _ _ Hk Hr) as (h & Hh & Hin). destruct (vi_regions _ _ Hi _ _ Hh) as (R & HRr).
    pose proof (rr_R _ _ _ _ _ HRr) as HRs. unfold start_of, pages_of in *. rewrite HRs in Eva. rewrite Hh in Hp. cbn in Eva, Hp.
    assert (gR G' !! r = Some (mk_rg (rg_attached h ++ [v]) (rg_pages h))) as Hh'.
    { rewrite HR, Hh. cbn. by rewrite bool_decide_eq_true_2. }
    eapply (translate_page s' G' r _ R kv i p); [done|exact Hh'|by rewrite Er|cbn; set_solver|done|done].
Qed.
End theorems.

(** * Start-up of virtual memory *)

Definition with_mapper (p l : Z) (G : ghost) : ghost :=
  mk_ghost (<[l := []]> (gL G)) (<[l := RMapper p]> (gRo G)) (gT G) (gP G) (<[p := mk_gidm l 1 []]> (gI G)) (gV G) (gR G).

Lemma vm_inv_new_mapper s s' G p l :
  vm_inv s G -> gI G !! p = None -> only_ids 16 s s' -> l = heap_top (mem s) -> heap_top (mem s') <= 2 ^ 48 ->
  lists_inv s' (<[l := []]> (gL G)) -> ids_inv s' (<[l := []]> (gL G)) (<[p := mk_gidm l 1 []]> (gI G)) ->
  vm_inv s' (with_mapper p l G).
Proof.
  intros Hi Hp Ho El Htop HL HI. pose proof (only_ids_quiet _ _ _ Ho) as Hq.
  assert (Machine.vm s' = Machine.vm s /\ paging s' = paging s) as [Ev Ep] by (by destruct Ho as (? & ? & ? & -> & _)).
  assert (gL G !! l = None) as Hl.
  { destruct (gL G !! l) eqn:E; [|done]. pose proof (lists_inv_key_below _ _ _ _ (vi_lists _ _ Hi) E). lia. }
  assert (gRo G !! l = None) as Hro.
  { destruct (gRo G !! l) eqn:E; [|done]. apply (vi_roles _ _ Hi) in E as [? E]. congruence. }
  apply (vm_inv_quiet 16 s s' G); try done; rewrite ?Ev, ?Ep; try done.
  - by apply insert_subseteq.
  - intros l' ro' [[<- _]|[_ E]]%lookup_insert_Some; [rewrite lookup_insert_eq; eauto|].
    apply is_Some_insert_kept. by eapply vi_roles.
  - intros l'. apply is_Some_insert_kept.
  - intros q g [[<- <-]|[_ Hq']]%lookup_insert_Some; [cbn; by rewrite lookup_insert_eq|].
    apply (vi_mappers _ _ Hi) in Hq'. rewrite lookup_insert_ne; [done|congruence].
  - intros l' ro' E _. apply lookup_insert_ne. congruence.
  - intros v vm _ Hv. exists vm. split; [exact Hv|apply same_area_refl].
  - eapply below_grown; [apply Hq| |apply Hi]. cbn. by rewrite Ev.
  - eapply below_grown; [apply Hq| |apply Hi]. cbn. by rewrite Ev.
Qed.

(** The mappers of the areas and the regions. *)
Definition mapper_slot (s : kstate) (G : ghost) (p : Z) : Prop := is_Some (idmappers (ids s) !! p) /\ gI G !! p = None.

Section start.
Context `{K : Kalloc} `{!GoodAlloc K} `{Y : Layout}.

Lemma new_mapper_spec s G p :
  vm_inv s G -> linked G -> mapper_slot s G p -> 16 <= avail s -> heap_top (mem s) + 16 <= 2 ^ 48 ->
  wp (id_mapper_create p) (fun r s' => r = p /\ exists l, gL G !! l = None /\ vm_inv s' (with_mapper p l G) /\ linked (with_mapper p l G) /\
    only_ids 16 s s') s.
Proof.
  intros Hi [A B C] [[m Hm] Hp] Ha Htop. eapply wp_mono.
  { eapply (id_mapper_create_spec s (gL G) (gI G) p m); try done; try apply Hi.
    intros q g Hq. eapply (vi_roles _ _ Hi). by eapply vi_mappers. }
  intros r s' (-> & Ho & l & El & Hl & HI). split; [done|]. exists l.
  pose proof (gr_top _ _ _ (q_grown _ _ _ (only_ids_quiet _ _ _ Ho))).
  split.
  { destruct (gL G !! l) eqn:E; [|done]. pose proof (lists_inv_key_below _ _ _ _ (vi_lists _ _ Hi) E). lia. }
  split; [by eapply vm_inv_new_mapper; try done; lia|]. split; [by split|done].
Qed.

Lemma vmem_initialize_spec s G :
  vm_inv s G -> linked G -> mapper_slot s G a_vmem_id_mapper -> a_vmem_id_mapper <> 0 -> kernel_vmem (Machine.vm s) = 0 ->
  41144 <= avail s -> heap_top (mem s) + 41144 <= 2 ^ 48 ->
  wp vmem_initialize (fun ok s' => ok = true /\ exists n v l G' vm, n <= 41144 /\ vm_inv s' G' /\ linked G' /\ v <> 0 /\
    kernel_vmem (Machine.vm s') = v /\ gV G' = <[v := mk_vg [] []]> (gV G) /\ gR G' = gR G /\
    gI G' !! a_vmem_id_mapper = Some (mk_gidm l 2 [(1, v)]) /\
    (forall p, p <> a_vmem_id_mapper -> gI G' !! p = gI G !! p) /\
    vmems (Machine.vm s') !! v = Some vm /\ next_start_address vm = REGION_ADDRESS_INCREMENT /\
    grown n (mem s) (mem s') /\ pmem s' = pmem s /\ avail s - n <= avail s') s.
Proof.
  intros Hi Hlk Hsl Hp0 Hk Ha Htop. unfold vmem_initialize.
  eapply wp_call; [apply (new_mapper_spec s G); try done; lia|]. intros r s1 (-> & l & _ & Hi1 & Hlk1 & Ho1).
  nonnull a_vmem_id_mapper. pose proof (q_grown _ _ _ (only_ids_quiet _ _ _ Ho1)) as Hg1.
  pose proof (gr_top _ _ _ Hg1) as Et1. destruct (only_ids_avail _ _ _ (vi_alloc _ _ Hi) Ho1) as [_ Ha1].
  assert (Machine.vm s1 = Machine.vm s /\ pmem s1 = pmem s) as [Ev1 Ep1] by (by destruct Ho1 as (? & ? & ? & -> & _)).
  assert (kernel_regions s1 (with_mapper a_vmem_id_mapper l G) = []) as Ers by (unfold kernel_regions; by rewrite Ev1, Hk).
  eapply wp_call.
  { eapply (vmem_create_spec s1 (with_mapper a_vmem_id_mapper l G) (mk_gidm l 1 [])); rewrite ?Ers, ?Ev1; try done.
    - cbn. by rewrite lookup_insert_eq.
    - change (area_cost _ []) with 41128. lia.
    - change (area_cost _ []) with 41128. lia. }
  rewrite Ers. change (area_cost _ []) with 41128. intros v s2 (_ & n & G2 & vm & Hn & Hac).
  destruct Hac as [Hf B C [Hv0 _] HV HR HI Hid Hvm Hnx Er Ep]. wstep. wstep. wstep. split; [done|].
  destruct (Hid (mk_gidm l 1 [])) as [_ Hid']; [cbn; by rewrite lookup_insert_eq|]. cbn in Hid'.
  assert (vmems (Machine.vm s2) !! v = Some vm) as Hv2 by (by rewrite Hvm, lookup_insert_eq).
  assert (vm_inv (set_kernel_vmem v s2) G2) as Hi3.
  { apply (vm_inv_objects 0 s2); try done; [apply quiet_refl|apply (vi_paging _ _ B)| |apply (vi_below_v _ _ B)|apply (vi_below_r _ _ B)].
    intros w x _ Hx. exists x. split; [done|apply same_area_refl]. }
  exists (16 + n), v, l, G2, vm. split_and!; try done; try lia.
  - apply map_eq. intros r. rewrite HR. cbn. rewrite bool_decide_eq_false_2 by apply not_elem_of_nil. by destruct (gR G !! r).
  - intros p Hp. rewrite HI by done. cbn. by rewrite lookup_insert_ne.
  - eapply grown_trans; [exact Hg1|apply Hf].
  - by rewrite <- Ep1, <- Ep.
  - pose proof (avail_grown_regions n s1 (set_kernel_vmem v s2) (vi_alloc _ _ Hi1) (vf_grown _ _ _ Hf) Er). lia.
Qed.

Lemma vmem_region_initialize_spec s G :
  vm_inv s G -> linked G -> mapper_slot s G a_vmem_region_mapper -> a_vmem_region_mapper <> 0 ->
  16 <= avail s -> heap_top (mem s) + 16 <= 2 ^ 48 ->
  wp vmem_region_initialize (fun ok s' => ok = true /\ exists l, vm_inv s' (with_mapper a_vmem_region_mapper l G) /\
    linked (with_mapper a_vmem_region_mapper l G) /\ only_ids 16 s s') s.
Proof.
  intros Hi Hlk Hsl Hp0 Ha Htop. unfold vmem_region_initialize.
  eapply wp_call; [by apply (new_mapper_spec s G)|]. intros r s1 (-> & l & _ & Hi1 & Hlk1 & Ho1). wstep.
  rewrite (proj2 (isnull_false _) Hp0). eauto.
Qed.
End start.

Lemma only_ids_vm n s s' : only_ids n s s' -> Machine.vm s' = Machine.vm s /\ pmem s' = pmem s.
Proof. by intros (? & ? & ? & -> & _). Qed.

(** The image of a module: the ELF header, one program header (a segment of 128
    bytes of the file and two pages of memory at 4 MB) and an endless loop. *)
Definition module_image : list Z :=
  [127; 69; 76; 70; 2; 1; 1; 0; 0; 0; 0; 0; 0; 0; 0; 0; 2; 0; 62; 0; 1; 0; 0; 0; 120; 0; 64; 0; 0; 0; 0; 0;
   64; 0; 0; 0; 0; 0; 0; 0; 0; 0; 0; 0; 0; 0; 0; 0; 0; 0; 0; 0; 64; 0; 56; 0; 1; 0; 0; 0; 0; 0; 0; 0; 1; 0;
   0; 0; 5; 0; 0; 0; 0; 0; 0; 0; 0; 0; 0; 0; 0; 0; 64; 0; 0; 0; 0; 0; 0; 0; 0; 0; 0; 0; 0; 0; 128; 0; 0; 0;
   0; 0; 0; 0; 0; 32; 0; 0; 0; 0; 0; 0; 0; 16; 0; 0; 0; 0; 0; 0; 235; 254; 144; 144; 144; 144; 144; 144].
Definition ram_module (a : Z) : Z := if a <? 67108864 then 0 else default 0 (module_image !! Z.to_nat (a - 67108864)).

(** Virtual memory as [kernel_main] starts it, on a machine with three pages of
    memory above 64 MB, the first one reserved for a module. *)
Definition s_vm0 : kstate := set_ram ram_module (set_pmem (pmem s_pages) state1).
Definition s_vm1 : kstate := run (vmem_initialize (H := bump_alloc) (H0 := x86_native_vmem (H := bump_alloc)) (H1 := layout_example)) s_vm0.
Definition s_vm : kstate := run (vmem_region_initialize (H := bump_alloc) (H1 := layout_example)) s_vm1.

Lemma s_vm0_inv : vm_inv s_vm0 (mk_ghost ∅ ∅ ∅ ∅ ∅ ∅ ∅) /\ linked (mk_ghost ∅ ∅ ∅ ∅ ∅ ∅ ∅).
Proof.
  split; [split|split]; cbn [gL gRo gT gP gI gV gR]; try (intros *; rewrite ?lookup_empty; done).
  - split; [by intros ? ? ?|by intros ? ? ? ? ?|exact state1_mappers|by intros ? ? ?].
Qed.


Record booted (s : kstate) (G : ghost) (v : Z) : Prop := {
  bt_inv : vm_inv s G;
  bt_linked : linked G;
  bt_kernel : kernel_vmem (Machine.vm s) = v;
  bt_v : v <> 0;
  bt_ids : exists gi, gI G !! 1500000 = Some gi /\ g_next gi = 2;
  bt_pmem : pmem s = pmem s_pages;
  bt_avail : 2 ^ 60 <= avail s;
  bt_top : heap_top (mem s) <= 2 ^ 40;
  bt_task : gI G !! 1500064 = None }.

Lemma s_vm_booted : exists G vm gi, let v := kernel_vmem (Machine.vm s_vm) in booted s_vm G v /\
  gV G = {[v := mk_vg [] []]} /\ gI G !! 1500032 = Some gi /\ g_next gi = 1 /\
  vmems (Machine.vm s_vm) !! v = Some vm /\ next_start_address vm = 1048576.
Proof.
  destruct s_vm0_inv as [Hi Hlk]. set (G0 := mk_ghost ∅ ∅ ∅ ∅ ∅ ∅ ∅) in *.
  assert (2 ^ 61 <= avail s_vm0) as Ha by (vm_compute; congruence).
  assert (heap_top (mem s_vm0) = 1576960) as Et by (vm_compute; reflexivity).
  destruct (wp_run _ _ _ (vmem_initialize_spec (K := bump_alloc) (Y := layout_example) s_vm0 G0 Hi Hlk
    ltac:(split; [by eexists|done]) ltac:(done) eq_refl ltac:(lia) ltac:(lia)))
    as (ok & _ & _ & n & v & l & G1 & vm & Hn & Hi1 & Hlk1 & Hv0 & Hk & HV & HR & HI & HIo & Hvm & Hnx & Hg & Hpm & Ha1).
  change (run _ s_vm0) with s_vm1 in *. pose proof (gr_top _ _ _ Hg) as Et1. rewrite Et in Et1.
  assert (mapper_slot s_vm1 G1 1500032) as Hsl.
  { split; [vm_compute; by eexists|]. by rewrite HIo. }
  destruct (wp_run _ _ _ (vmem_region_initialize_spec (K := bump_alloc) (Y := layout_example) s_vm1 G1 Hi1 Hlk1
    Hsl ltac:(done) ltac:(lia) ltac:(lia))) as (ok2 & _ & _ & l2 & Hi2 & Hlk2 & Ho2).
  change (run _ s_vm1) with s_vm in *. pose proof (gr_top _ _ _ (q_grown _ _ _ (only_ids_quiet _ _ _ Ho2))) as Et2.
  destruct (only_ids_avail _ _ _ (vi_alloc _ _ Hi1) Ho2) as [_ Ha2].
  destruct (only_ids_vm _ _ _ Ho2) as [Ev Ep].
  cbn [a_vmem_region_mapper a_vmem_id_mapper layout_example] in *.
  exists (with_mapper 1500032 l2 G1), vm, (mk_gidm l2 1 []). rewrite Ev, Hk.
  assert (exists gi, gI (with_mapper 1500032 l2 G1) !! 1500000 = Some gi /\ g_next gi = 2) as Hids.
  { exists (mk_gidm l 2 [(1, v)]). split; [cbn; by rewrite lookup_insert_ne|reflexivity]. }
  split; [|split; [|split; [|split; [|split]]]].
  - split; [exact Hi2|exact Hlk2|by rewrite Ev|exact Hv0|exact Hids|rewrite Ep, Hpm; reflexivity|lia|lia|].
    cbn [with_mapper gI]. rewrite lookup_insert_ne by discriminate. by rewrite HIo.
  - exact HV.
  - cbn [with_mapper gI]. apply lookup_insert_eq.
  - reflexivity.
  - exact Hvm.
  - exact Hnx.
Qed.

(** The empty kernel area translates nothing. *)
Lemma s_vm_empty G v va : vm_inv s_vm G -> gV G = {[v := mk_vg [] []]} -> 0 <= va < 2 ^ 48 -> translate s_vm v va = None.
Proof. intros Hi HV Hva. rewrite (translate_lookup s_vm G v (mk_vg [] [])); [reflexivity|exact Hi|by rewrite HV, lookup_singleton_eq|exact Hva]. Qed.


Lemma lookup_apart {A} (m : gmap Z A) a b x : m !! a = None -> m !! b = Some x -> a <> b.
Proof. congruence. Qed.

(** The kernel area with a region of two pages at 1 MB. *)
Definition s_region : kstate :=
  run (vmem_region_create (H := bump_alloc) (H0 := x86_native_vmem (H := bump_alloc)) (H1 := layout_example)
    (kernel_vmem (Machine.vm s_vm)) (Some "heap"%string) 0 8192 false true true) s_vm.

Lemma s_region_result : result (vmem_region_create (H := bump_alloc) (H0 := x86_native_vmem (H := bump_alloc)) (H1 := layout_example)
  (kernel_vmem (Machine.vm s_vm)) (Some "heap"%string) 0 8192 false true true) s_vm <> Some 0.
Proof. vm_compute. congruence. Qed.

Lemma s_region_inv : exists G r ps gi, let v := kernel_vmem (Machine.vm s_vm) in
  vm_inv s_region G /\ linked G /\ v <> 0 /\ kernel_vmem (Machine.vm s_region) = v /\
  gV G = {[v := mk_vg [r] (region_maps r 1048576 ps)]} /\ gR G !! r = Some (mk_rg [v] ps) /\
  start_of s_region r = 1048576 /\ length ps = 2%nat /\ gI G !! 1500000 = Some gi /\ g_next gi = 2 /\
  2 ^ 59 <= avail s_region /\ heap_top (mem s_region) <= 2 ^ 41.
Proof.
  destruct s_vm_booted as (G & vm & gi & [Hi Hlk Hk Hv0 (gv & Hgv & Hgn) Hpm Ha Ht] & HV & HI & Hgi & Hvm & Hnx).
  set (v := kernel_vmem (Machine.vm s_vm)) in *.
  assert (create_base vm 0 = 1048576) as Eb by exact Hnx. change ((8192 + 4095) / 4096) with 2.
  destruct (wp_run _ _ _ (vmem_region_create_spec (K := bump_alloc) (Y := layout_example) s_vm G v (mk_vg [] []) vm "heap"%string 0 8192 false true true gi
    Hi Hlk ltac:(rewrite HV; apply lookup_singleton_eq) Hvm HI ltac:(rewrite Hgi; lia) ltac:(cbn; lia)
    ltac:(rewrite Hpm; exact s_pages_ok) ltac:(rewrite Hpm; cbn; lia) ltac:(lia)
    ltac:(rewrite Eb; split; [lia|reflexivity]) ltac:(rewrite Eb; lia) ltac:(rewrite Eb; change ((8192 + 4095) / 4096) with 2; lia)
    ltac:(intros i _; apply not_elem_of_nil) ltac:(change (region_cost _) with 82224; lia) ltac:(change (region_cost _) with 82224; lia)))
    as (r & E & [(-> & n & G' & R' & ps & Hn & Hlen & Hrc)|(-> & _)]).
  2: { destruct s_region_result. unfold result. fold v. rewrite E. reflexivity. }
  change (run _ s_vm) with s_region in *. change (region_cost _) with 82224 in Hn. rewrite Eb in Hrc.
  change ((8192 + 4095) / 4096) with 2 in Hlen.
  destruct Hrc as [Hf B C D HV' HR' HS [Est _] HIo _ _].
  assert (avail s_vm - n <= avail s_region) as Ha'.
  { apply (avail_regions_kept n); [apply Hi|lia|apply Hf|]. intros x Rx Hx. exists Rx. split; [|lia].
    rewrite HS, lookup_insert_ne; [exact Hx|]. intros Ex. pose proof (vi_below_r _ _ Hi _ _ Hx). lia. }
  pose proof (gr_top _ _ _ (vf_grown _ _ _ Hf)) as Et.
  exists G', (heap_top (mem s_vm)), ps, gv. split; [exact B|]. split; [exact C|]. split; [exact Hv0|].
  split; [rewrite (vf_kernel _ _ _ Hf); reflexivity|]. split.
  { rewrite HV', HV. cbn [vg_regions vg_maps app]. apply insert_singleton_eq. }
  split; [by rewrite HR', lookup_insert_eq|]. split; [unfold start_of; by rewrite HS, lookup_insert_eq|].
  split; [lia|]. split; [rewrite HIo; [exact Hgv|discriminate]|]. split; [exact Hgn|]. split; lia.
Qed.


Lemma new_area_sees_kernel_witness : exists r ps v s', let kv := kernel_vmem (Machine.vm s_vm) in
  vmem_create (H := bump_alloc) (H0 := x86_native_vmem (H := bump_alloc)) (H1 := layout_example) s_region = Ret v s' /\
  v <> 0 /\ v <> kv /\ (exists G, (forall va pa, 0 <= va < 2 ^ 48 -> translate s' v va = Some pa <-> region_page s_region G [r] va pa) /\
    gR G !! r = Some (mk_rg [kv] ps)).
Proof.
  destruct s_region_inv as (G & r & ps & gi & Hi & Hlk & Hv0 & Hk & HV & HR & Est & Hlen & HI & Hgi & Ha & Ht).
  set (v := kernel_vmem (Machine.vm s_vm)) in *.
  assert (gV G !! v = Some (mk_vg [r] (region_maps r 1048576 ps))) as Hv by (rewrite HV; apply lookup_singleton_eq).
  assert (area_cost G [r] = 41128 + attach_cost ps + 0) as Ec.
  { unfold area_cost, attach_costs, pages_of. cbn [foldr]. rewrite HR. cbn [fmap option_fmap option_map default from_option id rg_pages]. lia. }
  unfold attach_cost in Ec. rewrite Hlen in Ec. change (notify_cost * Z.of_nat 2) with 82032 in Ec.
  destruct (new_area_sees_kernel (K := bump_alloc) (Y := layout_example) s_region G (mk_vg [r] (region_maps r 1048576 ps)) gi)
    as (w & s' & G' & E & Hw0 & Hwn & _ & _ & _ & Htr & _).
  - exact Hi.
  - exact Hlk.
  - rewrite Hk. exact Hv0.
  - rewrite Hk. exact Hv.
  - exact HI.
  - rewrite Hgi. lia.
  - cbn. lia.
  - cbn [vg_regions]. lia.
  - cbn [vg_regions]. lia.
  - exists r, ps, w, s'. split; [exact E|]. split; [exact Hw0|]. split; [exact (lookup_apart _ _ _ _ Hwn Hv)|].
    exists G. split; [exact Htr|exact HR].
Defined.
