(* ===== verification/Scheduler.v ===== *)
(** core/src/scheduler/services.c: the round-robin scheduler, written against
    the interface of core/hal/native_task.h.

    [sched_inv s L q] relates the machine to the abstract scheduler [sched_abs]:
    the queue of ready tasks is the list [q], the running task is not queued,
    and every ready task is queued or running. *)
From S2P Require Import Prelude Machine Logic LinkedList NativeVmem.

(** * core/hal/native_task.h *)
Class NativeTask := {
  native_task_create : Z -> Z -> Z -> bool -> Z -> M bool;
  native_task_switch : Z -> M unit;
  native_task_sleep : M unit }.

(** * Definitions *)
Section code.
Context `{Kalloc} `{NativeVmem} `{NativeTask}.

Definition scheduler_initialise : M bool :=
  l ← linkedlist_create;
  modify (set_scheduled_tasks l);;
  l ← gets (fun s => scheduled_tasks (sched s));
  mret (negb (isnull l)).

Definition scheduler_current_task : M Z := gets (fun s => current_task (sched s)).

Definition scheduler_clear_current_task : M unit :=
  c ← gets (fun s => current_task (sched s));
  if isnull c then mret tt
  else
    t ← load c;
    (if decide (t_status t = TASK_STATUS_READY) then
       l ← gets (fun s => scheduled_tasks (sched s));
       linkedlist_append l c;; mret tt
     else mret tt);;
    modify (set_current_task NULL).

(** [task->status = v] *)
Definition set_t_status (v : task_status_t) (t : task_t) : task_t :=
  mk_task (task_id t) (t_name t) (t_kernel t) (t_priority t) (t_userdata t) v (native_task t)
    (memory_handler_of t).

Definition scheduler_task_not_ready (task : Z) : M bool :=
  if isnull task then mret false
  else
    update task (set_t_status TASK_STATUS_NOT_READY);;
    l ← gets (fun s => scheduled_tasks (sched s));
    linkedlist_remove_element l task;;
    c ← scheduler_current_task;
    (if c =? task then scheduler_clear_current_task else mret tt);;
    mret true.

Definition scheduler_task_ready (task : Z) : M bool :=
  if isnull task then mret false
  else
    update task (set_t_status TASK_STATUS_READY);;
    l ← gets (fun s => scheduled_tasks (sched s));
    linkedlist_append l task;;
    mret true.

Definition get_next_task : M Z :=
  l ← gets (fun s => scheduled_tasks (sched s));
  linkedlist_remove l 0.

Definition scheduler_switch_task : M unit :=
  next_task ← get_next_task;
  if negb (isnull next_task) then
    c ← scheduler_current_task;
    (if negb (next_task =? c) then
       scheduler_clear_current_task;;
       t ← load next_task;
       native_vmem_switch (memory_handler_of t)
     else mret tt);;
    modify (set_current_task next_task);;
    native_task_switch next_task
  else
    scheduler_clear_current_task;;
    native_task_sleep.
End code.

(** * What the hardware layer promises *)

(** [space_of s v]: the address space [native_vmem_switch v] would load;
    [regs_of s t]: the registers [native_task_switch t] would load. *)
Definition regs_of (s : kstate) (t : Z) : option native_task_t :=
  x ← tasks (sched s) !! t; ntasks (sched s) !! native_task x.

Class NativeSwitch (N : NativeVmem) (X : NativeTask) := {
  space_of : kstate -> Z -> option Z;
  space_of_frame s s' : Machine.vm s' = Machine.vm s -> paging s' = paging s -> space_of s' = space_of s;
  space_of_cr3 s c : space_of (set_cr3 c s) = space_of s;
  switch_space v s r : space_of s v = Some r -> native_vmem_switch v s = Ret tt (set_cr3 r s);
  switch_regs t s regs : t <> 0 -> regs_of s t = Some regs ->
    native_task_switch t s = Leave (ResumeTask regs) s;
  sleep_leaves s : native_task_sleep s = Leave Sleep s }.

(** * The abstract scheduler *)

(** The running task, if any, and the queue. *)
Record sched_abs := mk_abs { running : option Z; queue : list Z }.

(** A context switch: the running task, when it is still ready, goes to the end
    of the queue; the head of the old queue runs, or nothing does. *)
Definition switch_abs (ready : Z -> bool) (a : sched_abs) : sched_abs :=
  let back := match running a with Some c => if ready c then [c] else [] | None => [] end in
  match queue a with
  | x :: q => mk_abs (Some x) (q ++ back)
  | [] => mk_abs None back
  end.

Definition ready_in (s : kstate) (t : Z) : bool :=
  match tasks (sched s) !! t with
  | Some x => bool_decide (t_status x = TASK_STATUS_READY)
  | None => false
  end.

Definition running_of (s : kstate) : option Z :=
  let c := current_task (sched s) in if isnull c then None else Some c.

Record sched_inv (s : kstate) (L : gmap Z (list (Z * Z))) (q : list Z) : Prop := {
  si_lists : lists_inv s L;
  si_alloc : alloc_ok (mem s);
  si_queue : exists ns, L !! scheduled_tasks (sched s) = Some ns /\ values ns = q;
  si_nodup : NoDup q;
  si_ready t : t ∈ q -> t <> 0 /\ ready_in s t = true;
  si_current : forall c, running_of s = Some c -> (c ∉ q) /\ is_Some (tasks (sched s) !! c);
  si_complete t : ready_in s t = true -> t ∈ q \/ running_of s = Some t }.

(** ** The queue in memory *)

(** The part of the invariant that says which list the queue is. *)
Definition queue_at (s : kstate) (L : gmap Z (list (Z * Z))) (q : list Z) : Prop :=
  lists_inv s L /\ alloc_ok (mem s) /\ exists ns, L !! scheduled_tasks (sched s) = Some ns /\ values ns = q.

(** The lists but the queue are the same. *)
Definition same_lists (s : kstate) (L L' : gmap Z (list (Z * Z))) : Prop :=
  forall l, l <> scheduled_tasks (sched s) -> L' !! l = L !! l.

Lemma same_lists_refl s L : same_lists s L L.
Proof. by intros l. Qed.

Lemma same_lists_insert s L ns : same_lists s L (<[scheduled_tasks (sched s) := ns]> L).
Proof. intros l Hl. by rewrite lookup_insert_ne. Qed.

Lemma same_lists_trans s s1 L L1 L2 :
  same_lists s L L1 -> scheduled_tasks (sched s1) = scheduled_tasks (sched s) -> same_lists s1 L1 L2 ->
  same_lists s L L2.
Proof. intros H1 E H2 l Hl. rewrite H2 by congruence. by apply H1. Qed.

(** What the scheduler may change: lists, the scheduler's own state, memory by
    quiet allocations of [n] bytes. *)
Definition only_sched (n : Z) (s s' : kstate) : Prop :=
  exists sc Ls m', s' = set_sched sc (set_lists Ls (set_mem m' s)) /\ quiet n (mem s) m'.

Lemma only_sched_refl s : only_sched 0 s s.
Proof. destruct s as [m l ? ? ? ? sc ?]. exists sc, l, m. split; [done|apply quiet_refl]. Qed.

Lemma only_sched_trans n1 n2 s1 s2 s3 :
  only_sched n1 s1 s2 -> only_sched n2 s2 s3 -> only_sched (n1 + n2) s1 s3.
Proof.
  intros (c1 & l1 & m1 & -> & H1) (c2 & l2 & m2 & -> & H2). exists c2, l2, m2.
  split; [done|]. by eapply quiet_trans.
Qed.

Lemma only_lists_sched n s s' : only_lists n s s' -> only_sched n s s' /\ sched s' = sched s.
Proof.
  intros (H & N & m' & -> & Hq). split; [|done]. exists (sched s), (mk_lists H N), m'. by split.
Qed.

Lemma only_sched_set s sc : only_sched 0 s (set_sched sc s).
Proof. destruct s as [m l ? ? ? ? c ?]. exists sc, l, m. split; [done|apply quiet_refl]. Qed.

Lemma only_sched_avail n s s' :
  alloc_ok (mem s) -> only_sched n s s' -> alloc_ok (mem s') /\ avail s - n <= avail s'.
Proof.
  intros Hok (c & l & m & -> & [Hg _ _]). split; [eapply grown_alloc_ok; [exact Hg|done]|].
  by eapply avail_grown_regions.
Qed.

(** The queue does not depend on the rest of the scheduler's state. *)
Lemma queue_at_sched s L q sc :
  scheduled_tasks sc = scheduled_tasks (sched s) -> queue_at s L q -> queue_at (set_sched sc s) L q.
Proof.
  intros E (Hl & Hok & Hq). split_and!; [by apply (lists_inv_frame s)|done|]. cbn. by rewrite E.
Qed.

Definition back_of (s : kstate) : list Z :=
  match running_of s with Some c => if ready_in s c then [c] else [] | None => [] end.

Section specs.
Context `{K : Kalloc} `{!GoodAlloc K} `{N : NativeVmem} `{X : NativeTask}.

Lemma append_queue_spec s L q t :
  queue_at s L q -> 16 <= avail s ->
  wp (linkedlist_append (scheduled_tasks (sched s)) t) (fun r s' => r = true /\ only_sched 16 s s' /\
    sched s' = sched s /\ exists L', queue_at s' L' (q ++ [t]) /\ same_lists s L L') s.
Proof.
  intros (Hl & Hok & ns & Hns & Hv) Ha.
  eapply wp_mono; [by apply (linkedlist_append_spec s L Hl Hok _ ns)|]. intros r s' (-> & Ho & Hl').
  destruct (only_lists_sched _ _ _ Ho) as [Hs Es]. destruct (only_sched_avail _ _ _ Hok Hs) as [Hok' _].
  split_and!; [done|done|done|]. eexists. split; [|apply same_lists_insert]. split_and!; [done|done|].
  rewrite Es. eexists. rewrite lookup_insert_eq. split; [done|]. unfold values in *. by rewrite fmap_app, Hv.
Qed.

Lemma scheduler_clear_current_task_spec s L q :
  queue_at s L q -> 16 <= avail s ->
  (forall c, running_of s = Some c -> is_Some (tasks (sched s) !! c)) ->
  wp scheduler_clear_current_task (fun _ s' => only_sched (16 * Z.of_nat (length (back_of s))) s s' /\
    sched s' = mk_sched (tasks (sched s)) (ntasks (sched s)) 0 (scheduled_tasks (sched s)) /\
    exists L', queue_at s' L' (q ++ back_of s) /\ same_lists s L L') s.
Proof.
  intros Hq Ha Hc. unfold scheduler_clear_current_task, back_of, running_of in *. wstep. wstep.
  set (c := current_task (sched s)) in *. destruct (isnull c) eqn:Ec.
  { wstep. cbn. split_and!; [apply only_sched_refl| |exists L; rewrite app_nil_r; split; [done|apply same_lists_refl]].
    apply isnull_true in Ec. unfold c in Ec. by destruct s as [? ? ? ? ? ? [] ?]; cbn in *; subst. }
  destruct (Hc c eq_refl) as [t Ht]. wstep. eapply wpx_load; [exact Ht|]. unfold ready_in. rewrite Ht.
  destruct (decide (t_status t = TASK_STATUS_READY)) as [Er|Er].
  - rewrite bool_decide_true by done. wstep. wstep. wstep. eapply wpx_call; [by apply (append_queue_spec s L q)|].
    intros r s' (-> & Ho & Es & L' & Hq' & HL'). wstep. wstep. split_and!.
    + cbn [length]. change (16 * Z.of_nat 1) with (16 + 0). eapply only_sched_trans; [exact Ho|].
      unfold set_current_task. apply only_sched_set.
    + cbn. by rewrite Es.
    + exists L'. split; [|done]. unfold set_current_task. by apply queue_at_sched.
  - rewrite bool_decide_false by done. wstep. wstep. wstep. split_and!.
    + apply only_sched_set.
    + done.
    + exists L. rewrite app_nil_r. split; [|apply same_lists_refl]. unfold set_current_task. by apply queue_at_sched.
Qed.

Lemma get_next_task_spec s L q :
  queue_at s L q ->
  wp get_next_task (fun r s' => r = default 0 (head q) /\ only_sched 0 s s' /\ sched s' = sched s /\
    exists L', queue_at s' L' (tail q) /\ same_lists s L L') s.
Proof.
  intros (Hl & Hok & ns & Hns & Hv). unfold get_next_task. wstep. wstep.
  eapply wpx_mono; [by apply (linkedlist_remove_spec s L _ ns 0)| |done].
  intros r s' (-> & Ho & Hl'). destruct (only_lists_sched _ _ _ Ho) as [Hs Es].
  split_and!; [|done|done|].
  - rewrite Hv. by destruct q.
  - eexists. split; [|apply same_lists_insert]. split_and!; [done|by eapply only_sched_avail|]. rewrite Es. eexists.
    rewrite lookup_insert_eq. split; [done|]. rewrite <- Hv. by destruct ns.
Qed.

Context `{!NativeSwitch N X}.

(** The task can be given the processor. *)
Definition runnable (s : kstate) (t : Z) : Prop := exists x regs r,
  tasks (sched s) !! t = Some x /\ regs_of s t = Some regs /\ space_of s (memory_handler_of x) = Some r.

(** What the processor is left with. *)
Definition exit_of (s : kstate) (next : option Z) (e : cpu_exit) (space : Z) : Prop :=
  match next with
  | None => e = Sleep
  | Some t => exists x regs, tasks (sched s) !! t = Some x /\ regs_of s t = Some regs /\
      e = ResumeTask regs /\ space_of s (memory_handler_of x) = Some space
  end.

Definition abs_of (s : kstate) (q : list Z) : sched_abs := mk_abs (running_of s) q.

Record switched (n : Z) (s : kstate) (q : list Z) (e : cpu_exit) (s' : kstate)
    (L' : gmap Z (list (Z * Z))) : Prop := {
  sw_inv : sched_inv s' L' (queue (switch_abs (ready_in s) (abs_of s q)));
  sw_run : running_of s' = running (switch_abs (ready_in s) (abs_of s q));
  sw_exit : exit_of s (running_of s') e (cr3 (paging s'));
  sw_tasks : tasks (sched s') = tasks (sched s) /\ ntasks (sched s') = ntasks (sched s) /\
    scheduled_tasks (sched s') = scheduled_tasks (sched s);
  sw_only : exists c s1, s' = set_cr3 c s1 /\ only_sched n s s1 }.

Lemma ready_in_tasks s s' t : tasks (sched s') = tasks (sched s) -> ready_in s' t = ready_in s t.
Proof. unfold ready_in. by intros ->. Qed.

(** The queue after a switch is in order and no ready task is lost. *)
Lemma sched_inv_switched s L q s' L' :
  sched_inv s L q -> tasks (sched s') = tasks (sched s) ->
  running_of s' = running (switch_abs (ready_in s) (abs_of s q)) ->
  queue_at s' L' (queue (switch_abs (ready_in s) (abs_of s q))) ->
  sched_inv s' L' (queue (switch_abs (ready_in s) (abs_of s q))).
Proof.
  intros [Hl Hok Hq Hnd Hr Hc Hcp] Et Er (Hl' & Hok' & Hq').
  assert (forall t, t ∈ back_of s -> running_of s = Some t /\ ready_in s t = true) as Hback.
  { unfold back_of. intros t. destruct (running_of s) as [c|]; [|set_solver].
    destruct (ready_in s c) eqn:E; [|set_solver]. intros ->%list_elem_of_singleton. done. }
  assert (forall t, running_of s = Some t -> ready_in s t = true -> t ∈ back_of s) as Hback'.
  { unfold back_of. intros t -> ->. set_solver. }
  assert (NoDup (back_of s)) as Hndb.
  { unfold back_of. destruct (running_of s) as [c|]; [|constructor].
    destruct (ready_in s c); [apply NoDup_singleton|constructor]. }
  assert (forall t, running_of s = Some t -> t <> 0) as Hrun0.
  { unfold running_of. intros t. destruct (isnull _) eqn:E; [done|]. intros [= <-]. by apply isnull_false. }
  destruct q as [|x q]; cbn in *; fold (back_of s) in *.
  - split; try done.
    + intros t [Ht ?]%Hback. rewrite (ready_in_tasks s) by done. split; [by apply Hrun0|done].
    + rewrite Er. done.
    + intros t. rewrite (ready_in_tasks s) by done. intros Ht. left. destruct (Hcp t Ht) as [H|H]; [set_solver|].
      by apply Hback'.
  - apply NoDup_cons in Hnd as [Hx Hnd]. split; try done.
    + apply NoDup_app. split_and!; [done| |done]. intros t Ht [Hb _]%Hback. destruct (Hc t Hb) as [Hn _]. set_solver.
    + intros t [Ht|Ht]%elem_of_app; rewrite (ready_in_tasks s) by done; [apply Hr; set_solver|].
      apply Hback in Ht as [? ?]. split; [by apply Hrun0|done].
    + rewrite Er. intros c [= <-]. rewrite Et. split.
      * intros [?|[Hb _]%Hback]%elem_of_app; [done|]. destruct (Hc x Hb) as [Hn _]. set_solver.
      * destruct (Hr x) as [_ Hx']; [set_solver|]. unfold ready_in in Hx'. destruct (tasks (sched s) !! x); [done|done].
    + intros t. rewrite (ready_in_tasks s) by done. intros Ht. rewrite Er.
      destruct (Hcp t Ht) as [[->|?]%elem_of_cons|H]; [by right|left; set_solver|].
      left. apply elem_of_app. right. by apply Hback'.
Qed.

Lemma back_length s : 0 <= 16 * Z.of_nat (length (back_of s)) <= 16.
Proof. unfold back_of. destruct (running_of s); [destruct (ready_in s z)|]; cbn; lia. Qed.

Lemma only_sched_spaces n s s' : only_sched n s s' -> space_of s' = space_of s.
Proof. intros (sc & Ls & m' & -> & _). by apply space_of_frame. Qed.

(** A queue survives the switch to another address space. *)
Lemma queue_at_cr3 s L q c : queue_at s L q -> queue_at (set_cr3 c s) L q.
Proof. intros (Hl & ? & ?). split_and!; [by apply (lists_inv_frame s)|done|done]. Qed.

Lemma switch_next_spec s L x q s1 L1 :
  sched_inv s L (x :: q) -> 16 <= avail s -> runnable s x ->
  only_sched 0 s s1 -> sched s1 = sched s -> queue_at s1 L1 q ->
  wpx (scheduler_clear_current_task;;
       t ← load x; native_vmem_switch (memory_handler_of t);;
       modify (set_current_task x);; native_task_switch x)
    (fun _ _ => False) (fun e s' => exists n L', n <= 16 /\ switched n s (x :: q) e s' L' /\ same_lists s L1 L') s1.
Proof.
  intros Hi Ha (t & regs & r & Ht & Hregs & Hr) Ho1 Es1 Hq1.
  destruct (only_sched_avail _ _ _ (si_alloc _ _ _ Hi) Ho1) as [Hok1 Ha1].
  assert (running_of s1 = running_of s /\ back_of s1 = back_of s) as [Er1 Eb1].
  { unfold back_of, running_of, ready_in. by rewrite Es1. }
  destruct (si_ready _ _ _ Hi x) as [Hx0 _]; [set_solver|].
  eapply wpx_call.
  { eapply (scheduler_clear_current_task_spec s1 L1 q); [done|lia|]. rewrite Er1, Es1.
    intros c Hc. by apply (si_current _ _ _ Hi). }
  intros _ s2 (Ho2 & Es2 & L2 & Hq2 & HL2). rewrite Es1 in Es2. rewrite Eb1 in Ho2, Hq2.
  pose proof (only_sched_trans _ _ _ _ _ Ho1 Ho2) as Ho.
  wstep. eapply wpx_load; [cbn; rewrite Es2; exact Ht|].
  assert (native_vmem_switch (memory_handler_of t) s2 = Ret tt (set_cr3 r s2)) as Esw.
  { apply switch_space. by rewrite (only_sched_spaces _ _ _ Ho). }
  wstep. unfold wpx. rewrite Esw. cbv beta match. fold (@wpx unit).
  change (wpx (modify (set_current_task x);; native_task_switch x) (fun _ _ => False)
    (fun e s' => exists n L', n <= 16 /\ switched n s (x :: q) e s' L' /\ same_lists s L1 L') (set_cr3 r s2)).
  wstep. wstep. unfold wpx. rewrite (switch_regs x _ regs); [|done|].
  2: { revert Hregs. unfold regs_of. cbn. by rewrite Es2. }
  set (s' := set_current_task x (set_cr3 r s2)).
  assert (running_of s' = Some x) as Erun.
  { unfold running_of. cbn. by rewrite (proj2 (isnull_false x)). }
  assert (tasks (sched s') = tasks (sched s)) as Etasks by (cbn; by rewrite Es2).
  exists (0 + 16 * Z.of_nat (length (back_of s))), L2. split; [pose proof (back_length s); lia|].
  split; [|intros l Hl; apply HL2; by rewrite Es1].
  split.
  - apply sched_inv_switched with L; [done|done|done|].
    apply (queue_at_sched (set_cr3 r s2)); [done|]. by apply queue_at_cr3.
  - done.
  - rewrite Erun. exists t, regs. done.
  - cbn. by rewrite Es2.
  - exists r, (set_current_task x s2). split; [done|].
    replace (0 + 16 * Z.of_nat (length (back_of s))) with (0 + 16 * Z.of_nat (length (back_of s)) + 0) by lia.
    eapply only_sched_trans; [exact Ho|]. apply only_sched_set.
Qed.

Lemma scheduler_switch_task_spec s L q :
  sched_inv s L q -> 16 <= avail s -> (forall t, t ∈ q -> runnable s t) ->
  wpx scheduler_switch_task (fun _ _ => False)
    (fun e s' => exists n L', n <= 16 /\ switched n s q e s' L' /\ same_lists s L L') s.
Proof.
  intros Hi Ha Hrun. pose proof Hi as [Hl Hok Hq Hnd Hr Hc Hcp].
  unfold scheduler_switch_task. eapply wpx_call; [by apply (get_next_task_spec s L q)|].
  intros next s1 (-> & Ho1 & Es1 & L1 & Hq1 & HL1). destruct q as [|x q];
    [change (default 0 (head [])) with 0 in *|change (default 0 (head (x :: q))) with x in *; cbn [tail] in Hq1].
  - isnullp 0. cbn [negb]. destruct (only_sched_avail _ _ _ Hok Ho1) as [Hok1 Ha1].
    assert (running_of s1 = running_of s /\ back_of s1 = back_of s) as [Er1 Eb1].
    { unfold back_of, running_of, ready_in. by rewrite Es1. }
    eapply wpx_call.
    { eapply (scheduler_clear_current_task_spec s1 L1 []); [done|lia|]. rewrite Er1, Es1. apply Hc. }
    intros _ s2 (Ho2 & Es2 & L2 & Hq2 & HL2). rewrite Es1 in Es2. rewrite Eb1 in Ho2, Hq2.
    unfold wpx. rewrite sleep_leaves.
    exists (0 + 16 * Z.of_nat (length (back_of s))), L2. split; [pose proof (back_length s); lia|].
    assert (running_of s2 = None) as Erun by (unfold running_of; by rewrite Es2).
    split; [|eapply same_lists_trans; [exact HL1| |exact HL2]; by rewrite Es1].
    split.
    + apply sched_inv_switched with L; [done|by rewrite Es2|done|done].
    + done.
    + by rewrite Erun.
    + by rewrite Es2.
    + exists (cr3 (paging s2)), s2. split; [by destruct s2 as [? ? ? ? [] ? ? ?]|].
      by eapply only_sched_trans.
  - destruct (Hr x) as [Hx0 _]; [set_solver|]. nonnull x. cbn [negb]. wstep. unfold scheduler_current_task. wstep.
    rewrite Es1. replace (x =? current_task (sched s)) with false.
    2: { symmetry. apply Z.eqb_neq. intros E. destruct (Hc x) as [Hn _]; [|set_solver].
         unfold running_of. by rewrite <- E, (proj2 (isnull_false x)). }
    cbn [negb].
    assert (runnable s x) as Hx by (apply Hrun; set_solver).
    pose proof (switch_next_spec s L x q s1 L1 Hi Ha Hx Ho1 Es1 Hq1) as Hw.
    assert (forall e s', (exists n L', n <= 16 /\ switched n s (x :: q) e s' L' /\ same_lists s L1 L') ->
      exists n L', n <= 16 /\ switched n s (x :: q) e s' L' /\ same_lists s L L') as Hpost.
    { intros e s' (n & L' & Hn & Hs & HL). exists n, L'. split_and!; [done|done|]. by eapply same_lists_trans; [exact HL1|done|]. }
    pose proof (wpx_mono _ _ _ _ _ _ Hw (fun _ _ H => H) Hpost) as Hw'.
    revert Hw'. unfold wpx, mbind, M_bind. destruct (scheduler_clear_current_task s1) as [? s2| | |]; [|done|done|done].
    destruct (load x s2); done.
Qed.

(** ** Tasks becoming ready or not *)

Lemma filter_ne_absent (q : list Z) t : (t ∉ q) -> filter (fun x => x <> t) q = q.
Proof.
  induction q as [|x q IH]; [done|]. intros [Hx Hq]%not_elem_of_cons.
  rewrite filter_cons_True by done. by rewrite IH.
Qed.

Lemma remove_queue_spec s L q t :
  queue_at s L q -> NoDup q ->
  wp (linkedlist_remove_element (scheduled_tasks (sched s)) t) (fun _ s' => only_sched 0 s s' /\
    sched s' = sched s /\ exists L', queue_at s' L' (filter (fun x => x <> t) q) /\ same_lists s L L') s.
Proof.
  intros (Hl & Hok & ns & Hns & Hv) Hnd.
  eapply wp_mono; [by apply (linkedlist_remove_element_spec s L _ ns)|].
  intros r s' (Ho & Hres). destruct (only_lists_sched _ _ _ Ho) as [Hs Es]. split_and!; [done|done|].
  destruct Hres as [(-> & ns1 & a & ns2 & -> & Hn1 & Hl')|(-> & Hn & ->)].
  - eexists. split; [|apply same_lists_insert]. split_and!; [exact Hl'|by eapply only_sched_avail|]. rewrite Es. eexists.
    rewrite lookup_insert_eq. split; [done|]. unfold values in *. rewrite fmap_app, fmap_cons in Hv. cbn in Hv. subst q.
    apply NoDup_app in Hnd as (_ & _ & [Hn2 _]%NoDup_cons).
    rewrite filter_app, filter_cons_False by (by intros []). rewrite fmap_app. by rewrite !filter_ne_absent.
  - exists L. rewrite Hv in Hn. rewrite filter_ne_absent by done. split; [by split_and!; [| |exists ns]|apply same_lists_refl].
Qed.

(** Rewriting the status of a task. *)
Definition with_status (t : Z) (st : task_status_t) (s : kstate) : kstate :=
  match tasks (sched s) !! t with
  | Some x => set_tasks (<[t := set_t_status st x]> (tasks (sched s))) s
  | None => s
  end.

Lemma ready_in_with_status s t st t' :
  is_Some (tasks (sched s) !! t) ->
  ready_in (with_status t st s) t' = if decide (t = t') then bool_decide (st = TASK_STATUS_READY) else ready_in s t'.
Proof.
  intros [x Hx]. unfold with_status, ready_in. rewrite Hx. cbn. destruct (decide (t = t')) as [<-|Hne].
  - by rewrite lookup_insert_eq.
  - by rewrite lookup_insert_ne.
Qed.

(** A task that is not ready joins the queue. *)
Lemma scheduler_task_ready_spec s L q t :
  sched_inv s L q -> 16 <= avail s -> t <> 0 -> is_Some (tasks (sched s) !! t) ->
  ready_in s t = false -> running_of s <> Some t ->
  wp (scheduler_task_ready t) (fun r s' => r = true /\ only_sched 16 s s' /\
    sched s' = sched (with_status t TASK_STATUS_READY s) /\
    exists L', sched_inv s' L' (q ++ [t]) /\ same_lists s L L') s.
Proof.
  intros Hi Ha Ht0 [x Hx] Hnr Hnc. pose proof Hi as [Hl Hok Hq Hnd Hr Hc Hcp].
  unfold scheduler_task_ready. nonnull t. wstep. eapply wpx_update; [exact Hx|]. wstep. wstep.
  set (s1 := set_heap _ s). assert (s1 = with_status t TASK_STATUS_READY s) as E1.
  { unfold with_status. by rewrite Hx. }
  assert (only_sched 0 s s1) as Ho1 by apply only_sched_set.
  assert (queue_at s1 L q) as Hq1 by (apply queue_at_sched; [done|by split_and!]).
  destruct (only_sched_avail _ _ _ Hok Ho1) as [Hok1 Ha1].
  eapply wpx_call; [apply (append_queue_spec s1 L q); [done|lia]|].
  intros r s' (-> & Ho & Es & L' & (Hl' & Hok' & Hq') & HL'). wstep. split_and!; [done| | |].
  - change 16 with (0 + 16). by eapply only_sched_trans.
  - by rewrite Es, E1.
  - exists L'. split; [|done].
    assert (forall t', ready_in s' t' = if decide (t = t') then true else ready_in s t') as Hrd.
    { intros t'. rewrite (ready_in_tasks s1) by (by rewrite Es). rewrite E1, ready_in_with_status by eauto.
      by destruct (decide (t = t')). }
    assert (running_of s' = running_of s) as Erun by (unfold running_of; by rewrite Es).
    assert (t ∉ q) as Htq by (intros Hin; destruct (Hr t Hin); congruence).
    split; try done.
    + apply NoDup_app. split_and!; [done| |apply NoDup_singleton]. set_solver.
    + intros t' Hin. rewrite Hrd. destruct (decide (t = t')) as [<-|Hne]; [done|]. apply Hr. set_solver.
    + rewrite Erun, Es, E1. intros c Hcur. unfold with_status. rewrite Hx. cbn.
      destruct (decide (t = c)) as [<-|Hne]; [done|]. rewrite lookup_insert_ne by done.
      destruct (Hc c Hcur). split; [set_solver|done].
    + intros t'. rewrite Hrd, Erun. destruct (decide (t = t')) as [<-|Hne]; [set_solver|].
      intros Hrt. destruct (Hcp t' Hrt); [set_solver|by right].
Qed.

(** A task leaves the queue and the processor. *)
Definition drop_task (t : Z) (a : sched_abs) : sched_abs :=
  mk_abs (if decide (running a = Some t) then None else running a) (filter (fun x => x <> t) (queue a)).

Lemma drop_inv s L q t s' L' :
  sched_inv s L q -> is_Some (tasks (sched s) !! t) ->
  tasks (sched s') = tasks (sched (with_status t TASK_STATUS_NOT_READY s)) ->
  running_of s' = running (drop_task t (abs_of s q)) ->
  queue_at s' L' (queue (drop_task t (abs_of s q))) ->
  sched_inv s' L' (queue (drop_task t (abs_of s q))).
Proof.
  intros [Hl Hok Hq Hnd Hr Hc Hcp] Hx Et Er (Hl' & Hok' & Hq'). cbn in *.
  assert (forall t', ready_in s' t' = if decide (t = t') then false else ready_in s t') as Hrd.
  { intros t'. rewrite (ready_in_tasks (with_status t TASK_STATUS_NOT_READY s)) by done.
    rewrite ready_in_with_status by done. by destruct (decide (t = t')). }
  split; try done.
  - by apply NoDup_filter.
  - intros t' [Hne Hin]%list_elem_of_filter. rewrite Hrd. destruct (decide (t = t')) as [<-|]; [done|]. by apply Hr.
  - rewrite Er. intros c. destruct (decide (running_of s = Some t)) as [E|E]; [done|].
    intros Hcur. destruct (Hc c Hcur) as [Hn Hs]. split; [intros [_ ?]%list_elem_of_filter; done|].
    rewrite Et. unfold with_status. destruct Hx as [x ->]. cbn.
    destruct (decide (t = c)) as [<-|Hne]; [by rewrite lookup_insert_eq|by rewrite lookup_insert_ne].
  - intros t'. rewrite Hrd, Er. destruct (decide (t = t')) as [<-|Hne]; [done|]. intros Hrt.
    destruct (Hcp t' Hrt) as [Hin|Hrun].
    + left. apply list_elem_of_filter. split; [by intros ->|done].
    + right. destruct (decide (running_of s = Some t)) as [E|E]; [congruence|done].
Qed.

Lemma scheduler_task_not_ready_spec s L q t :
  sched_inv s L q -> 16 <= avail s -> t <> 0 -> is_Some (tasks (sched s) !! t) ->
  wp (scheduler_task_not_ready t) (fun r s' => r = true /\ only_sched 0 s s' /\
    tasks (sched s') = tasks (sched (with_status t TASK_STATUS_NOT_READY s)) /\
    ntasks (sched s') = ntasks (sched s) /\ scheduled_tasks (sched s') = scheduled_tasks (sched s) /\
    running_of s' = running (drop_task t (abs_of s q)) /\
    exists L', sched_inv s' L' (queue (drop_task t (abs_of s q))) /\ same_lists s L L') s.
Proof.
  intros Hi Ha Ht0 [x Hx]. pose proof Hi as [Hl Hok Hq Hnd Hr Hc Hcp].
  unfold scheduler_task_not_ready. nonnull t. wstep. eapply wpx_update; [exact Hx|]. wstep. wstep.
  set (s1 := set_heap _ s). assert (s1 = with_status t TASK_STATUS_NOT_READY s) as E1.
  { unfold with_status. by rewrite Hx. }
  assert (only_sched 0 s s1) as Ho1 by apply only_sched_set.
  assert (queue_at s1 L q) as Hq1 by (apply queue_at_sched; [done|by split_and!]).
  destruct (only_sched_avail _ _ _ Hok Ho1) as [Hok1 Ha1].
  eapply wpx_call; [by apply (remove_queue_spec s1 L q)|]. intros _ s2 (Ho2 & Es2 & L2 & Hq2 & HL2).
  destruct (only_sched_avail _ _ _ Hok1 Ho2) as [Hok2 Ha2].
  pose proof (only_sched_trans _ _ _ _ _ Ho1 Ho2) as Ho12.
  wstep. unfold scheduler_current_task. wstep. rewrite Es2.
  assert (running_of s2 = running_of s) as Er2 by (unfold running_of; by rewrite Es2).
  assert (running_of s = Some t <-> current_task (sched s) = t) as Hcur.
  { unfold running_of. destruct (isnull (current_task (sched s))) eqn:E; split; try congruence.
    apply isnull_true in E. lia. }
  destruct (Z.eqb_spec (current_task (sched s1)) t) as [Ect|Ect].
  - assert (ready_in s2 t = false) as Hr2.
    { rewrite (ready_in_tasks s1) by (by rewrite Es2). rewrite E1, ready_in_with_status by eauto.
      by rewrite decide_True. }
    assert (running_of s = Some t) as Hrt by (by apply Hcur).
    assert (back_of s2 = []) as Eb by (unfold back_of; by rewrite Er2, Hrt, Hr2).
    eapply wpx_call.
    { eapply (scheduler_clear_current_task_spec s2 L2); [done|lia|]. rewrite Er2, Es2.
      intros c Hrc. assert (c = t) as -> by congruence. cbn. rewrite lookup_insert_eq. eauto. }
    intros _ s3 (Ho3 & Es3 & L3 & Hq3 & HL3). rewrite Eb in Ho3, Hq3. rewrite app_nil_r in Hq3.
    wstep. pose proof (only_sched_trans _ _ _ _ _ Ho12 Ho3) as Ho.
    assert (tasks (sched s3) = tasks (sched (with_status t TASK_STATUS_NOT_READY s))) as Et3
      by (by rewrite Es3, Es2, <- E1).
    assert (running_of s3 = running (drop_task t (abs_of s q))) as Er3.
    { unfold running_of. rewrite Es3. cbn. by rewrite decide_True. }
    split_and!; [done|done|done|by rewrite Es3, Es2|by rewrite Es3, Es2|done|].
    exists L3. split; [eapply drop_inv; eauto|]. eapply (same_lists_trans s s2); [exact HL2|by rewrite Es2|exact HL3].
  - wstep. wstep.
    assert (running_of s2 = running (drop_task t (abs_of s q))) as Er3.
    { cbn. rewrite Er2. rewrite decide_False; [done|]. intros ?%Hcur. done. }
    split_and!; [done|done|by rewrite Es2, E1|by rewrite Es2|by rewrite Es2|done|].
    exists L2. split; [|exact HL2]. eapply drop_inv; eauto. by rewrite Es2, E1.
Qed.

(** [scheduler_initialise] starts with an empty queue. *)
Lemma scheduler_initialise_spec s L :
  lists_inv s L -> alloc_ok (mem s) -> 16 <= avail s -> running_of s = None ->
  (forall t, ready_in s t = false) ->
  wp scheduler_initialise (fun r s' => r = true /\ only_sched 16 s s' /\
    tasks (sched s') = tasks (sched s) /\ ntasks (sched s') = ntasks (sched s) /\ running_of s' = None /\
    exists L', sched_inv s' L' [] /\ forall l, is_Some (L !! l) -> L' !! l = L !! l) s.
Proof.
  intros Hl Hok Ha Hrun Hnr. unfold scheduler_initialise.
  eapply wp_call; [by apply (linkedlist_create_spec s L)|]. intros p s1 (-> & HLp & Ho & Hl1).
  destruct (only_lists_sched _ _ _ Ho) as [Hs Es]. destruct (only_sched_avail _ _ _ Hok Hs) as [Hok1 _].
  wstep. wstep. wstep. wstep. wstep. cbn [scheduled_tasks sched set_scheduled_tasks set_sched].
  set (s2 := set_scheduled_tasks _ s1). pose proof (heap_top_pos _ Hok). nonnull (heap_top (mem s)).
  assert (running_of s2 = None) as Er by (revert Hrun; unfold running_of; cbn; by rewrite Es).
  assert (tasks (sched s2) = tasks (sched s)) as Et by (cbn; by rewrite Es).
  split_and!; [done| |done|cbn; by rewrite Es|done|].
  - change 16 with (16 + 0). eapply only_sched_trans; [exact Hs|apply only_sched_set].
  - exists (<[heap_top (mem s) := []]> L). split; [|intros l [ns Hns]; apply lookup_insert_ne; congruence]. split.
    + apply (lists_inv_frame s1); [done|done|exact Hl1].
    + done.
    + exists []. cbn. by rewrite lookup_insert_eq.
    + constructor.
    + set_solver.
    + by rewrite Er.
    + intros t. rewrite (ready_in_tasks s) by done. by rewrite Hnr.
Qed.
End specs.
