(* ===== verification/Gdt.v ===== *)
(** x86_64/gdt.h and hal/src/x86_64/lib/gdt.c: segment descriptors, the task
    state segment and the kernel stack.

    Descriptors are the packed bit-field structs of the header; the theorems
    read them back the way the processor does, by bit positions. *)
From S2P Require Import Prelude Machine Logic PageTable.

(** * Constants of x86_64/gdt.h *)
Definition GDT_TYPE_TSS_AVAILABLE : Z := 9.
Definition GDT_TYPE_SEG_DATA_RDWR : Z := 18.
Definition GDT_TYPE_SEG_CODE_EXRD : Z := 26.
Definition GDT_RING_SYSTEM : Z := 0.
Definition GDT_RING_USER : Z := 3.
Definition GDT_MAXIMUM_SIZE : Z := 10.
Definition GDT_MAXIMUM_MEMORY : Z := 4294967295.
Definition GDT_ENTRY_KERNEL_CS : Z := 1.
Definition GDT_ENTRY_KERNEL_DS : Z := 2.
Definition GDT_ENTRY_USER_CS : Z := 3.
Definition GDT_ENTRY_USER_DS : Z := 4.
Definition GDT_ENTRY_TSS : Z := 5.
Definition GDT_SEGMENT (index : Z) : Z := index * 16.

(** * Structs *)
Record gdt_entry_t := mk_gdt {
  limit_0_15 : Z; base_0_15 : Z; base_16_23 : Z; g_type : Z; g_ring : Z; g_present : Z;
  limit_16_19 : Z; g_available : Z; longmode : Z; op_size : Z; granularity : Z;
  base_24_31 : Z; base_32_63 : Z; g_unused : Z }.

Definition gdt_entry_widths : list Z := [16; 16; 8; 5; 2; 1; 4; 1; 1; 1; 1; 8; 32; 32].
Definition gdt_entry_fields (e : gdt_entry_t) : list Z :=
  [limit_0_15 e; base_0_15 e; base_16_23 e; g_type e; g_ring e; g_present e; limit_16_19 e;
   g_available e; longmode e; op_size e; granularity e; base_24_31 e; base_32_63 e; g_unused e].
(** The 16 bytes of an entry, as one number. *)
Definition gdt_entry_word (e : gdt_entry_t) : Z := pack gdt_entry_widths (gdt_entry_fields e).

Definition gdt_zero : gdt_entry_t := mk_gdt 0 0 0 0 0 0 0 0 0 0 0 0 0 0.

(** [tss_entry_t]: the fields the code sets; the other 21 are zero, as static
    data starts. *)
Record tss_entry_t := mk_tss {
  rsp0_0_31 : Z; rsp0_32_63 : Z; ist1_0_31 : Z; ist1_32_63 : Z }.
(** Widths of its fields in bits, and the offset of a field in bytes. *)
Definition tss_entry_widths : list Z :=
  [32; 32; 32; 32; 32; 32; 32; 64; 32; 32; 32; 32; 32; 32; 32; 32; 32; 32; 32; 32; 32; 32; 64; 32; 32].
Definition tss_offset (i : nat) : Z := total_width (take i tss_entry_widths) / 8.
Definition tss_entry_fields (t : tss_entry_t) : list Z :=
  [0; rsp0_0_31 t; rsp0_32_63 t; 0; 0; 0; 0; 0; ist1_0_31 t; ist1_32_63 t] ++ replicate 15 0.
Definition tss_entry_word (t : tss_entry_t) : Z := pack tss_entry_widths (tss_entry_fields t).
Definition sizeof_tss_entry : Z := total_width tss_entry_widths / 8.

(** Static objects of gdt.c and the registers they are loaded into. *)
Record segments_t := mk_segments {
  gdt : list gdt_entry_t; tss_entry : tss_entry_t; kernel_stacks : Z;
  gdtr : Z * Z; task_register : Z }.

Definition set_gdt v c := mk_segments v (tss_entry c) (kernel_stacks c) (gdtr c) (task_register c).
Definition set_tss_entry v c := mk_segments (gdt c) v (kernel_stacks c) (gdtr c) (task_register c).
Definition set_kernel_stacks v c := mk_segments (gdt c) (tss_entry c) v (gdtr c) (task_register c).
Definition set_gdtr v c := mk_segments (gdt c) (tss_entry c) (kernel_stacks c) v (task_register c).
Definition set_task_register v c := mk_segments (gdt c) (tss_entry c) (kernel_stacks c) (gdtr c) v.

Definition segments0 : segments_t :=
  mk_segments (replicate 10 gdt_zero) (mk_tss 0 0 0 0) 0 (0, 0) 0.

(** * Operations *)

(** The entry is a local variable: its unnamed bits keep what the stack held,
    [garbage].  An index past the table is undefined behaviour. *)
Definition new_gdt_entry (garbage base limit type ring : Z) : gdt_entry_t :=
  let limit := Z.shiftr limit 12 in
  mk_gdt (Z.land limit 65535) (Z.land base 65535) (Z.land (Z.shiftr base 16) 255)
    (wrap 5 type) (wrap 2 ring) 1 (Z.land (Z.shiftr limit 16) 15) 1 1 0 1
    (Z.land (Z.shiftr base 24) 255) (Z.land (Z.shiftr base 32) 4294967295) (u32 garbage).

Definition gdt_set_gate (garbage num base limit type ring : Z) (c : segments_t) : option segments_t :=
  if num <? GDT_MAXIMUM_SIZE
  then Some (set_gdt (<[Z.to_nat num := new_gdt_entry garbage base limit type ring]> (gdt c)) c)
  else None.

(** [*get_kernel_stack()] is the word at [kernel_stacks]. *)
Definition get_kernel_stack (c : segments_t) : Z := kernel_stacks c.

Definition tss_set (kernel_stack_address : Z) (c : segments_t) : segments_t :=
  set_tss_entry (mk_tss
    (Z.land kernel_stack_address 4294967295) (u32 (Z.shiftr kernel_stack_address 32))
    (Z.land kernel_stack_address 4294967295) (u32 (Z.shiftr kernel_stack_address 32))) c.

Definition gdt_flush (base limit : Z) (c : segments_t) : segments_t := set_gdtr (base, limit) c.
Definition tss_flush (gdt_entry_number : Z) (c : segments_t) : segments_t :=
  set_task_register gdt_entry_number c.

Section code.
Context `{Kalloc}.

(** [a_gdt], [a_tss_entry] and [cpu0_kernel_stack] are addresses of statics. *)
Definition gdt_initialize (garbage a_gdt a_tss_entry cpu0_kernel_stack : Z) (c : segments_t) :
    M (option segments_t) :=
  p ← kalloc 8;
  let c := set_kernel_stacks p c in
  modify (fun s => set_ram (store64 (ram (mem s)) (kernel_stacks c) (u64 (cpu0_kernel_stack + SYSTEM_STACKSIZE))) s);;
  kernel_stack ← gets (fun s => load64 (ram (mem s)) (get_kernel_stack c));
  mret (
    c ← gdt_set_gate garbage GDT_ENTRY_KERNEL_CS 0 GDT_MAXIMUM_MEMORY GDT_TYPE_SEG_CODE_EXRD GDT_RING_SYSTEM c;
    c ← gdt_set_gate garbage GDT_ENTRY_KERNEL_DS 0 GDT_MAXIMUM_MEMORY GDT_TYPE_SEG_DATA_RDWR GDT_RING_SYSTEM c;
    c ← gdt_set_gate garbage GDT_ENTRY_USER_CS 0 GDT_MAXIMUM_MEMORY GDT_TYPE_SEG_CODE_EXRD GDT_RING_USER c;
    c ← gdt_set_gate garbage GDT_ENTRY_USER_DS 0 GDT_MAXIMUM_MEMORY GDT_TYPE_SEG_DATA_RDWR GDT_RING_USER c;
    c ← gdt_set_gate garbage GDT_ENTRY_TSS a_tss_entry sizeof_tss_entry GDT_TYPE_TSS_AVAILABLE GDT_RING_SYSTEM c;
    let c := tss_set kernel_stack c in
    let gdt_limit := u16 (16 * GDT_MAXIMUM_SIZE - 1) in
    let c := gdt_flush a_gdt gdt_limit c in
    Some (tss_flush (GDT_SEGMENT GDT_ENTRY_TSS) c)).
End code.

(** * Reading descriptors by bit positions *)

(** Bits [lo] to [lo + w - 1]. *)
Definition bits (x lo w : Z) : Z := Z.land (Z.shiftr x lo) (Z.ones w).

Lemma bits_div x lo w : 0 <= lo -> 0 <= w -> bits x lo w = x / 2 ^ lo mod 2 ^ w.
Proof. intros. unfold bits. by rewrite Z.land_ones, Z.shiftr_div_pow2. Qed.

(** Field [i] of a packed struct is at the bits its widths say. *)
Lemma bits_pack ws vs i w v :
  Forall2 fits ws vs -> ws !! i = Some w -> vs !! i = Some v ->
  bits (pack ws vs) (total_width (take i ws)) w = v.
Proof.
  intros Hf. revert i. induction Hf as [|w0 v0 ws vs [Hw0 Hv0] Hf IH]; intros i Hw Hv; [done|].
  assert (Forall (fun w => 0 <= w) ws) as Hws.
  { clear -Hf. induction Hf as [|? ? ? ? []]; constructor; auto. }
  destruct i as [|i]; cbn in Hw, Hv.
  - injection Hw as ->. injection Hv as ->. rewrite bits_div by done. cbn.
    rewrite Z.div_1_r, (Z.mul_comm (2 ^ w)), Z_mod_plus_full. by apply Z.mod_small.
  - assert (0 <= w) by (eapply Forall_lookup_1 in Hw; [|exact Hws]; done).
    assert (0 <= total_width (take i ws)) by (apply total_width_nonneg; by apply Forall_take).
    rewrite <- (IH i Hw Hv). rewrite !bits_div by (cbn; unfold total_width in *; lia).
    cbn. fold (total_width (take i ws)). rewrite Z.pow_add_r, <- Z.div_div by lia.
    by rewrite (Z.add_comm v0), (Z.mul_comm (2 ^ w0)), Z.div_add_l, (Z.div_small v0), Z.add_0_r by lia.
Qed.

Lemma land_ones_fits x w : 0 <= w -> fits w (Z.land x (Z.ones w)).
Proof. intros Hw. split; [done|]. rewrite Z.land_ones by done. apply Z.mod_pos_bound. lia. Qed.

Lemma wrap_fits x w : 0 <= w -> fits w (wrap w x).
Proof. intros Hw. split; [done|]. apply Z.mod_pos_bound. lia. Qed.

Lemma new_gdt_entry_fits garbage base limit type ring :
  Forall2 fits gdt_entry_widths (gdt_entry_fields (new_gdt_entry garbage base limit type ring)).
Proof.
  repeat (apply Forall2_cons; split; [first [by apply (land_ones_fits _ 16)|by apply (land_ones_fits _ 8)
    |by apply (land_ones_fits _ 4)|by apply (land_ones_fits _ 32)|by apply wrap_fits|by apply (wrap_fits _ 32)|(split; cbn; lia)]|]).
  apply Forall2_nil. done.
Qed.

(** What the processor reads of a segment descriptor. *)
Definition seg_base (x : Z) : Z := bits x 16 24 + Z.shiftl (bits x 56 8) 24 + Z.shiftl (bits x 64 32) 32.
Definition seg_limit (x : Z) : Z :=
  let l := bits x 0 16 + Z.shiftl (bits x 48 4) 16 in
  if bits x 55 1 =? 1 then Z.shiftl l 12 + 4095 else l.

(** Adjacent fields read as one. *)
Lemma bits_join x lo w1 w2 :
  0 <= lo -> 0 <= w1 -> 0 <= w2 -> bits x lo (w1 + w2) = bits x lo w1 + Z.shiftl (bits x (lo + w1) w2) w1.
Proof.
  intros. rewrite Z.shiftl_mul_pow2, !bits_div by lia. rewrite !Z.pow_add_r by lia.
  rewrite Z.rem_mul_r by lia. rewrite <- Z.div_div by lia. lia.
Qed.

(** A 64-bit number is put together from slices of it. *)
Lemma slices64 x : 0 <= x < 2 ^ 64 ->
  bits x 0 16 + Z.shiftl (bits x 16 8) 16 + Z.shiftl (bits x 24 8) 24 + Z.shiftl (bits x 32 32) 32 = x.
Proof.
  intros Hx. pose proof (bits_join x 0 16 8) as H1. pose proof (bits_join x 0 24 8) as H2.
  pose proof (bits_join x 0 32 32) as H3. cbn [Z.add Pos.add] in *.
  replace (bits x 0 (32 + 32)) with x in H3.
  2: { rewrite bits_div by lia. rewrite Z.div_1_r. symmetry. by apply Z.mod_small. }
  change (0 + 16) with 16 in *. change (0 + 24) with 24 in *. change (0 + 32) with 32 in *.
  change (16 + 8) with 24 in *. change (24 + 8) with 32 in *. lia.
Qed.

(** What the processor reads of an entry made from these arguments. *)
Record descriptor (x base limit type ring : Z) : Prop := {
  d_word : 0 <= x < 2 ^ 128;
  d_base : seg_base x = base;
  d_limit : seg_limit x = limit / 4096 * 4096 + 4095;
  d_type : bits x 40 5 = type;
  d_ring : bits x 45 2 = ring;
  d_flags : bits x 47 1 = 1 /\ bits x 53 1 = 1 /\ bits x 54 1 = 0 }.

Lemma new_gdt_entry_descriptor garbage base limit type ring :
  0 <= base < 2 ^ 64 -> 0 <= limit < 2 ^ 32 -> 0 <= type < 2 ^ 5 -> 0 <= ring < 2 ^ 2 ->
  descriptor (gdt_entry_word (new_gdt_entry garbage base limit type ring)) base limit type ring.
Proof.
  intros Hb Hl Ht Hr. pose proof (new_gdt_entry_fits garbage base limit type ring) as Hf.
  set (e := new_gdt_entry garbage base limit type ring) in *.
  pose proof (fun i w v => bits_pack _ _ i w v Hf) as Hbits.
  fold (gdt_entry_word e) in Hbits. set (x := gdt_entry_word e) in *.
  pose proof (Hbits 0%nat _ _ eq_refl eq_refl) as B0. pose proof (Hbits 1%nat _ _ eq_refl eq_refl) as B1.
  pose proof (Hbits 2%nat _ _ eq_refl eq_refl) as B2. pose proof (Hbits 6%nat _ _ eq_refl eq_refl) as B6.
  pose proof (Hbits 10%nat _ _ eq_refl eq_refl) as B10. pose proof (Hbits 11%nat _ _ eq_refl eq_refl) as B11.
  pose proof (Hbits 12%nat _ _ eq_refl eq_refl) as B12.
  split.
  - apply (pack_range _ _ Hf).
  - unfold seg_base. change 24 with (16 + 8) at 1. rewrite (bits_join x 16 16 8) by lia. change (bits x 16 16 = base_0_15 e) in B1.
    change (16 + 16) with 32. change (bits x 32 8 = base_16_23 e) in B2. change (bits x 56 8 = base_24_31 e) in B11.
    change (bits x 64 32 = base_32_63 e) in B12. rewrite B1, B2, B11, B12. exact (slices64 base Hb).
  - unfold seg_limit. change (bits x 55 1 = granularity e) in B10. rewrite B10. cbn [granularity e new_gdt_entry Z.eqb Pos.eqb].
    change (bits x 0 16 = limit_0_15 e) in B0. change (bits x 48 4 = limit_16_19 e) in B6. rewrite B0, B6.
    change (limit_0_15 e) with (bits (Z.shiftr limit 12) 0 16). change (limit_16_19 e) with (bits (Z.shiftr limit 12) 16 4).
    pose proof (bits_join (Z.shiftr limit 12) 0 16 4 ltac:(lia) ltac:(lia) ltac:(lia)) as J.
    change (0 + 16) with 16 in J. rewrite <- J. rewrite bits_div, Z.shiftl_mul_pow2, Z.shiftr_div_pow2 by lia.
    change (2 ^ 12) with 4096. rewrite Z.div_1_r, Z.mod_small; [lia|].
    split; [apply Z.div_pos; lia|]. apply Z.div_lt_upper_bound; [lia|]. cbn in *. lia.
  - rewrite (Hbits 3%nat _ _ eq_refl eq_refl : bits x 40 5 = _). by apply Z.mod_small.
  - rewrite (Hbits 4%nat _ _ eq_refl eq_refl : bits x 45 2 = _). by apply Z.mod_small.
  - split_and!; [exact (Hbits 5%nat _ _ eq_refl eq_refl)|exact (Hbits 8%nat _ _ eq_refl eq_refl)
      |exact (Hbits 9%nat _ _ eq_refl eq_refl)].
Qed.

(** A double word stored in halves reads back as it was. *)
Lemma halves64 x : 0 <= x < 2 ^ 64 -> Z.land x 4294967295 + Z.shiftl (u32 (Z.shiftr x 32)) 32 = x.
Proof.
  intros Hx. change 4294967295 with (Z.ones 32). unfold u32.
  rewrite Z.land_ones, Z.shiftl_mul_pow2, Z.shiftr_div_pow2 by lia.
  rewrite (Z.mod_small (x / 2 ^ 32)); [pose proof (Z.div_mod x (2 ^ 32)); lia|].
  split; [apply Z.div_pos; lia|apply Z.div_lt_upper_bound; lia].
Qed.

Lemma tss_set_fits stack c :
  Forall2 fits tss_entry_widths (tss_entry_fields (tss_entry (tss_set stack c))).
Proof.
  repeat (apply Forall2_cons; split; [first [by apply (land_ones_fits _ 32)|by apply (wrap_fits _ 32)
    |(split; cbn; lia)]|]). by apply Forall2_nil.
Qed.

(** The stack pointers the processor reads of the task state segment, at bytes
    4 (RSP0) and 36 (IST1). *)
Lemma tss_set_stacks stack c :
  0 <= stack < 2 ^ 64 ->
  let x := tss_entry_word (tss_entry (tss_set stack c)) in bits x (8 * 4) 64 = stack /\ bits x (8 * 36) 64 = stack.
Proof.
  intros Hs x. pose proof (fun i w v => bits_pack _ _ i w v (tss_set_fits stack c)) as Hb.
  fold (tss_entry_word (tss_entry (tss_set stack c))) in Hb. fold x in Hb.
  split; change 64 with (32 + 32); rewrite bits_join by lia.
  - rewrite (Hb 1%nat _ _ eq_refl eq_refl : bits x (8 * 4) 32 = _).
    rewrite (Hb 2%nat _ _ eq_refl eq_refl : bits x (8 * 4 + 32) 32 = _). by apply halves64.
  - rewrite (Hb 8%nat _ _ eq_refl eq_refl : bits x (8 * 36) 32 = _).
    rewrite (Hb 9%nat _ _ eq_refl eq_refl : bits x (8 * 36 + 32) 32 = _). by apply halves64.
Qed.

(** The processor reads back of a descriptor made by [gdt_set_gate] the base
    it was given, a limit that covers the one requested and ends with its 4 KB
    unit, its type and ring, present and 64-bit; the other entries stay. *)
Theorem gdt_set_gate_descriptor garbage num base limit type ring c :
  0 <= num < GDT_MAXIMUM_SIZE -> length (gdt c) = 10%nat ->
  0 <= base < 2 ^ 64 -> 0 <= limit < 2 ^ 32 -> 0 <= type < 2 ^ 5 -> 0 <= ring < 2 ^ 2 ->
  exists c' e, gdt_set_gate garbage num base limit type ring c = Some c' /\
    gdt c' !! Z.to_nat num = Some e /\
    (forall i, i <> Z.to_nat num -> gdt c' !! i = gdt c !! i) /\
    descriptor (gdt_entry_word e) base limit type ring.
Proof.
  intros Hn Hlen Hb Hl Ht Hr. unfold gdt_set_gate. rewrite (proj2 (Z.ltb_lt _ _)) by lia.
  do 2 eexists. split; [done|]. split; [cbn; apply list_lookup_insert_eq; change GDT_MAXIMUM_SIZE with 10 in *; lia|].
  split; [intros i Hi; cbn; by apply list_lookup_insert_ne|]. by apply new_gdt_entry_descriptor.
Qed.

Lemma gdt_set_gate_descriptor_witness : exists c' e,
  gdt_set_gate 77 5 1103515245 108 9 0 segments0 = Some c' /\ gdt c' !! 5%nat = Some e /\
  seg_base (gdt_entry_word e) = 1103515245.
Proof.
  destruct (gdt_set_gate_descriptor 77 5 1103515245 108 9 0 segments0) as (c' & e & H1 & H2 & _ & [_ H3 _ _ _ _]);
    [done|done|done|done|done|done|]. exists c', e. by split_and!.
Defined.

(** The descriptor at a selector. *)
Definition at_selector (c : segments_t) (sel base limit type ring : Z) : Prop :=
  exists e, gdt c !! Z.to_nat (sel / 16) = Some e /\ descriptor (gdt_entry_word e) base limit type ring.

(** C20: after [gdt_initialize] the four flat segments are at their selectors with
    their rings, the task register selects a descriptor of the task state
    segment, and both stacks the processor may load from it are the top of the
    kernel stack. *)
Theorem gdt_initialize_segments `{K : Kalloc} `{!GoodAlloc K} garbage a_gdt a_tss stack s :
  alloc_ok (mem s) -> 8 <= avail s -> 0 <= a_tss < 2 ^ 64 -> 0 <= stack < 2 ^ 64 - SYSTEM_STACKSIZE ->
  exists c s', gdt_initialize garbage a_gdt a_tss stack segments0 s = Ret (Some c) s' /\
    at_selector c (GDT_SEGMENT GDT_ENTRY_KERNEL_CS) 0 GDT_MAXIMUM_MEMORY GDT_TYPE_SEG_CODE_EXRD GDT_RING_SYSTEM /\
    at_selector c (GDT_SEGMENT GDT_ENTRY_KERNEL_DS) 0 GDT_MAXIMUM_MEMORY GDT_TYPE_SEG_DATA_RDWR GDT_RING_SYSTEM /\
    at_selector c (GDT_SEGMENT GDT_ENTRY_USER_CS) 0 GDT_MAXIMUM_MEMORY GDT_TYPE_SEG_CODE_EXRD GDT_RING_USER /\
    at_selector c (GDT_SEGMENT GDT_ENTRY_USER_DS) 0 GDT_MAXIMUM_MEMORY GDT_TYPE_SEG_DATA_RDWR GDT_RING_USER /\
    at_selector c (task_register c) a_tss sizeof_tss_entry GDT_TYPE_TSS_AVAILABLE GDT_RING_SYSTEM /\
    bits (tss_entry_word (tss_entry c)) (8 * 4) 64 = stack + SYSTEM_STACKSIZE /\
    bits (tss_entry_word (tss_entry c)) (8 * 36) 64 = stack + SYSTEM_STACKSIZE /\
    gdtr c = (a_gdt, 159).
Proof.
  intros Hok Ha Ht Hs. destruct (wp_inv _ _ _ (wp_kalloc 8 s Hok ltac:(lia))) as (p & s1 & E & -> & m1 & -> & _).
  assert (u64 (stack + SYSTEM_STACKSIZE) = stack + SYSTEM_STACKSIZE) as Eu.
  { apply u64_small. change SYSTEM_STACKSIZE with 32768 in *. lia. }
  assert (0 <= stack + SYSTEM_STACKSIZE < 2 ^ 64) as Hk by (change SYSTEM_STACKSIZE with 32768 in *; lia).
  unfold gdt_initialize. rewrite (bind_Ret _ _ _ _ _ E).
  cbv beta zeta delta [mbind mret M_bind M_ret modify gets] iota.
  cbn [mem set_ram set_mem ram kernel_stacks get_kernel_stack set_kernel_stacks].
  rewrite load64_store64, Eu, (u64_small (stack + SYSTEM_STACKSIZE)) by done.
  do 2 eexists. split; [reflexivity|].
  split_and!; try (eexists; split; [reflexivity|by apply new_gdt_entry_descriptor]); [| |reflexivity].
  - exact (proj1 (tss_set_stacks _ segments0 Hk)).
  - exact (proj2 (tss_set_stacks _ segments0 Hk)).
Qed.

Lemma gdt_initialize_segments_witness : exists c s',
  gdt_initialize (H := bump_alloc) 0 1100000 1200000 1300000 segments0 state0 = Ret (Some c) s' /\
  at_selector c (GDT_SEGMENT GDT_ENTRY_USER_CS) 0 GDT_MAXIMUM_MEMORY GDT_TYPE_SEG_CODE_EXRD GDT_RING_USER /\
  bits (tss_entry_word (tss_entry c)) (8 * 4) 64 = 1332768.
Proof.
  destruct (gdt_initialize_segments (K := bump_alloc) 0 1100000 1200000 1300000 state0)
    as (c & s' & H0 & _ & _ & H1 & _ & _ & H2 & _);
    [apply state0_alloc_ok|pose proof state0_avail; lia|lia|vm_compute; split; congruence|].
  exists c, s'. by split_and!.
Defined.
