(* ===== verification/NativeTask.v ===== *)
(** hal/src/x86_64/native_task.c: saved registers of tasks on x86_64, the
    instance of core/hal/native_task.h, and the scheduler on top of it. *)
From S2P Require Import Prelude Machine Logic LinkedList NativeVmem PageTable NativePaging Gdt Scheduler.

(** * Constants of x86_64/native_task.h *)
Definition _BITUL (x : Z) : Z := Z.shiftl 1 x.
Definition X86_EFLAGS_FIXED : Z := _BITUL 1.
Definition X86_EFLAGS_TF : Z := _BITUL 8.
Definition X86_EFLAGS_IF : Z := _BITUL 9.
Definition X86_EFLAGS_DF : Z := _BITUL 10.
Definition X86_EFLAGS_IOPL : Z := Z.shiftl 3 12.
Definition X86_EFLAGS_NT : Z := _BITUL 14.
Definition X86_EFLAGS_AC : Z := _BITUL 18.
Definition INITIAL_EFLAGS : Z := Z.lor X86_EFLAGS_FIXED X86_EFLAGS_IF.

(** * Definitions *)
Section code.
Context `{Kalloc}.

(** [task->native_task = v] *)
Definition set_t_native_task (v : Z) (t : task_t) : task_t :=
  mk_task (task_id t) (t_name t) (t_kernel t) (t_priority t) (t_userdata t) (t_status t) v
    (memory_handler_of t).

(** The registers a new task starts with, all others being zero. *)
Definition initial_regs (code stack : Z) (permission_mode : bool) (userdata : Z) : native_task_t :=
  mk_ntask 0 0 0 0 stack 0 0 0 0 0 0 0 0 0 userdata 0 code
    (if permission_mode then GDT_SEGMENT GDT_ENTRY_KERNEL_CS + GDT_RING_SYSTEM
     else GDT_SEGMENT GDT_ENTRY_USER_CS + GDT_RING_USER)
    INITIAL_EFLAGS stack
    (if permission_mode then GDT_SEGMENT GDT_ENTRY_KERNEL_DS + GDT_RING_SYSTEM
     else GDT_SEGMENT GDT_ENTRY_USER_DS + GDT_RING_USER).

Definition x86_task_create (task code stack : Z) (permission_mode : bool) (userdata : Z) : M bool :=
  ntask ← NEW native_task_t;
  if isnull ntask then mret false
  else
    store ntask (initial_regs code stack permission_mode userdata);;
    update task (set_t_native_task ntask);;
    mret true.

(** [intel_switch_task] of native_task.S loads every register of the struct. *)
Definition intel_switch_task (ntask : Z) : M unit :=
  regs ← load ntask; leave (ResumeTask regs).

Definition x86_task_sleep : M unit := leave Sleep.

Definition x86_task_switch (task : Z) : M unit :=
  if negb (isnull task) then
    t ← load task;
    intel_switch_task (native_task t)
  else x86_task_sleep.

#[export] Instance x86_native_task : NativeTask :=
  { native_task_create := x86_task_create; native_task_switch := x86_task_switch;
    native_task_sleep := x86_task_sleep }.

(** [native_task_on_stack->cs = native_task->cs] and the same of [ss] *)
Definition set_segments (c d : Z) (r : native_task_t) : native_task_t :=
  mk_ntask (r15 r) (r14 r) (r13 r) (r12 r) (rbp r) (rbx r) (r11 r) (r10 r) (r9 r) (r8 r)
    (rax r) (rcx r) (rdx r) (rsi r) (rdi r) (orig_rax r) (codeptr r) c (eflags r) (stackptr r) d.

Definition hal_update_current_state (native_task_on_stack : Z) : M Z :=
  task ← scheduler_current_task;
  if isnull task then mret native_task_on_stack
  else
    t ← load task;
    let ntask := native_task t in
    n ← load ntask;
    update native_task_on_stack (set_segments (cs n) (ss n));;
    regs ← load (T := native_task_t) native_task_on_stack;
    store ntask regs;;
    mret ntask.
End code.

(** * The hardware layer keeps its promise *)

(** The address space of a virtual memory area: the root of its page table. *)
Definition x86_space_of (s : kstate) (v : Z) : option Z :=
  vm ← vmems (Machine.vm s) !! v; npt_entries <$> npts (paging s) !! native_vmem vm.

#[export, refine] Instance x86_native_switch `{Kalloc} : NativeSwitch x86_native_vmem x86_native_task :=
  { space_of := x86_space_of }.
Proof.
  - intros s s' Ev Ep. unfold x86_space_of. by rewrite Ev, Ep.
  - done.
  - intros v s r Hr. unfold x86_space_of in Hr. cbn. unfold x86_vmem_switch.
    destruct (vmems (Machine.vm s) !! v) as [vm|] eqn:Ev; [|done]. cbn in Hr.
    destruct (npts (paging s) !! native_vmem vm) as [pt|] eqn:Ept; [|done]. injection Hr as <-.
    rewrite (bind_Ret _ _ s vm s) by (unfold load; cbn; by rewrite Ev).
    unfold get_current_page_entries. mcompute. unfold load. cbn. rewrite Ept. cbn.
    destruct (Z.eqb_spec (cr3 (paging s)) (npt_entries pt)) as [E|E]; [|done].
    cbn. rewrite <- E. by destruct s as [? ? ? ? [] ? ? ?].
  - intros t s regs Ht Hr. unfold regs_of in Hr. cbn. unfold x86_task_switch. nonnull t. cbn.
    destruct (tasks (sched s) !! t) as [x|] eqn:Et; [|done].
    rewrite (bind_Ret _ _ s x s) by (unfold load; cbn; by rewrite Et).
    unfold intel_switch_task. cbn in Hr. by rewrite (bind_Ret _ _ s regs s) by (unfold load; cbn; by rewrite Hr).
  - done.
Defined.

(** * Sequences of scheduler operations *)
Section refinement.
Context `{K : Kalloc} `{!GoodAlloc K}.

Inductive sop := OReady (t : Z) | ONotReady (t : Z) | OSwitch.

(** Runs one operation; a switch ends by handing the processor over. *)
Definition exec_sop (o : sop) (s : kstate) : option (option cpu_exit * kstate) :=
  match o with
  | OReady t => match scheduler_task_ready t s with Ret true s' => Some (None, s') | _ => None end
  | ONotReady t => match scheduler_task_not_ready t s with Ret true s' => Some (None, s') | _ => None end
  | OSwitch => match scheduler_switch_task s with Leave e s' => Some (Some e, s') | _ => None end
  end.

Fixpoint exec_sops (os : list sop) (s : kstate) : option (list cpu_exit * kstate) :=
  match os with
  | [] => Some ([], s)
  | o :: os' =>
      r ← exec_sop o s;
      r' ← exec_sops os' r.2;
      Some (match r.1 with Some e => e :: r'.1 | None => r'.1 end, r'.2)
  end.

(** The same on the abstract scheduler, with the status of every task. *)
Definition sstate : Type := sched_abs * gmap Z task_status_t.

Definition is_ready (st : gmap Z task_status_t) (t : Z) : bool := bool_decide (st !! t = Some TASK_STATUS_READY).

Definition step_abs (o : sop) (x : sstate) : sstate :=
  let '(a, st) := x in
  match o with
  | OReady t => (mk_abs (running a) (queue a ++ [t]), <[t := TASK_STATUS_READY]> st)
  | ONotReady t => (drop_task t a, <[t := TASK_STATUS_NOT_READY]> st)
  | OSwitch => (switch_abs (is_ready st) a, st)
  end.

(** A task may be made ready once, and only known tasks are named. *)
Definition sop_ok (o : sop) (x : sstate) : Prop :=
  match o with
  | OReady t => t <> 0 /\ is_Some (x.2 !! t) /\ is_ready x.2 t = false
  | ONotReady t => t <> 0 /\ is_Some (x.2 !! t)
  | OSwitch => True
  end.

Fixpoint sops_ok (os : list sop) (x : sstate) : Prop :=
  match os with [] => True | o :: os' => sop_ok o x /\ sops_ok os' (step_abs o x) end.

(** The tasks that run, in order. *)
Fixpoint runs (os : list sop) (x : sstate) : list (option Z) :=
  match os with
  | [] => []
  | o :: os' =>
      let x' := step_abs o x in
      match o with OSwitch => running x'.1 :: runs os' x' | _ => runs os' x' end
  end.

Record sched_rel (s : kstate) (x : sstate) : Prop := {
  sr_inv : exists L, sched_inv s L (queue x.1);
  sr_run : running_of s = running x.1;
  sr_status : t_status <$> tasks (sched s) = x.2;
  sr_ready t : running x.1 = Some t -> is_ready x.2 t = true;
  sr_runnable t : is_Some (tasks (sched s) !! t) -> runnable s t }.

Definition exit_ok (s : kstate) (r : option Z) (e : cpu_exit) : Prop :=
  match r with None => e = Sleep | Some t => exists regs, regs_of s t = Some regs /\ e = ResumeTask regs end.

Lemma is_ready_status s st t : t_status <$> tasks (sched s) = st -> is_ready st t = ready_in s t.
Proof.
  intros <-. unfold is_ready, ready_in. rewrite lookup_fmap. destruct (tasks (sched s) !! t) as [x|]; cbn.
  - apply bool_decide_ext. split; [by intros [= ->]|by intros ->].
  - by rewrite bool_decide_false.
Qed.

Lemma switch_abs_ext f g a : (forall t, running a = Some t -> f t = g t) -> switch_abs f a = switch_abs g a.
Proof. intros H. unfold switch_abs. destruct (running a) as [c|]; [|done]. by rewrite (H c). Qed.

Lemma switch_running_ready f a : (forall t, t ∈ queue a -> f t = true) ->
  forall t, running (switch_abs f a) = Some t -> f t = true.
Proof.
  intros Hq t. unfold switch_abs. destruct (queue a) as [|x q]; cbn; [done|]. intros [= <-]. apply Hq. set_solver.
Qed.

(** Registers and address spaces of tasks are kept by the operations. *)
Lemma regs_status s s' t st :
  tasks (sched s') = tasks (sched (with_status t st s)) -> ntasks (sched s') = ntasks (sched s) ->
  forall t', regs_of s' t' = regs_of s t'.
Proof.
  intros Et En t'. unfold regs_of. rewrite Et, En. unfold with_status.
  destruct (tasks (sched s) !! t) as [x|] eqn:Ex; [|done]. cbn.
  destruct (decide (t = t')) as [<-|Hne]; [by rewrite lookup_insert_eq, Ex|by rewrite lookup_insert_ne].
Qed.

Lemma runnable_status s s' t st n :
  only_sched n s s' -> tasks (sched s') = tasks (sched (with_status t st s)) ->
  ntasks (sched s') = ntasks (sched s) ->
  (forall t', is_Some (tasks (sched s) !! t') -> runnable s t') ->
  forall t', is_Some (tasks (sched s') !! t') -> runnable s' t'.
Proof.
  intros Ho Et En Hr t' Ht'. rewrite Et in Ht'. unfold with_status in *.
  destruct (tasks (sched s) !! t) as [x|] eqn:Ex.
  - cbn in Et, Ht'. assert (is_Some (tasks (sched s) !! t')) as Ht.
    { destruct (decide (t = t')) as [<-|Hne]; [eauto|by rewrite lookup_insert_ne in Ht']. }
    destruct (Hr t' Ht) as (y & regs & r & Hy & Hregs & Hsp).
    exists (if decide (t = t') then set_t_status st x else y), regs, r. rewrite (regs_status s s' t st).
    2: { rewrite Et. unfold with_status. by rewrite Ex. } 2: done.
    rewrite (only_sched_spaces _ _ _ Ho), Et. split_and!; [|done|].
    + destruct (decide (t = t')) as [<-|Hne]; [by rewrite lookup_insert_eq|by rewrite lookup_insert_ne].
    + destruct (decide (t = t')) as [<-|Hne]; [|done]. rewrite Ex in Hy. by injection Hy as <-.
  - destruct (Hr t' Ht') as (y & regs & r & Hy & Hregs & Hsp). exists y, regs, r.
    rewrite (regs_status s s' t st); [|by rewrite Et; unfold with_status; rewrite Ex|done].
    by rewrite Et, (only_sched_spaces _ _ _ Ho).
Qed.

(** One operation, concrete and abstract. *)
Definition sop_sim (o : sop) (s : kstate) (x : sstate) : Prop :=
  exists r s', exec_sop o s = Some (r, s') /\ sched_rel s' (step_abs o x) /\
    alloc_ok (mem s') /\ avail s - 16 <= avail s' /\ (forall t, regs_of s' t = regs_of s t) /\
    match o with OSwitch => exists e, r = Some e /\ exit_ok s (running (step_abs o x).1) e | _ => r = None end.

Lemma sched_rel_alloc s x : sched_rel s x -> alloc_ok (mem s).
Proof. intros [[L Hi] _ _ _ _]. apply Hi. Qed.

Lemma ready_sim t s x : sched_rel s x -> sop_ok (OReady t) x -> 16 <= avail s -> sop_sim (OReady t) s x.
Proof.
  intros Hrel (Ht0 & Hts & Htr) Ha. pose proof Hrel as [[L Hi] Hrun Hst Hrd Hrn]. destruct x as [a st]. cbn in *.
  pose proof Htr as Hnr. rewrite (is_ready_status s) in Hnr by done.
  assert (is_Some (tasks (sched s) !! t)) as Ht by (rewrite <- Hst, lookup_fmap in Hts; by apply fmap_is_Some in Hts).
  assert (running_of s <> Some t) as Hne by (rewrite Hrun; intros E; rewrite (Hrd t E) in Htr; done).
  destruct (wp_inv _ _ _ (scheduler_task_ready_spec s L _ t Hi Ha Ht0 Ht Hnr Hne))
    as (r & s' & E & -> & Ho & Es & L' & Hi' & _).
  destruct (only_sched_avail _ _ _ (si_alloc _ _ _ Hi) Ho) as [Hok' Ha'].
  assert (tasks (sched s') = tasks (sched (with_status t TASK_STATUS_READY s))) as Et by (by rewrite Es).
  assert (ntasks (sched s') = ntasks (sched s)) as En.
  { rewrite Es. unfold with_status. by destruct (tasks (sched s) !! t). }
  exists None, s'. split_and!; [unfold exec_sop; by rewrite E| |done|done|by eapply regs_status|done].
  split; cbn.
  - by exists L'.
  - rewrite <- Hrun. unfold running_of. rewrite Es. unfold with_status. by destruct (tasks (sched s) !! t).
  - rewrite Et. unfold with_status. destruct Ht as [y Hy]. rewrite Hy. cbn. by rewrite fmap_insert, <- Hst.
  - intros t' Ht'. unfold is_ready in *. destruct (decide (t = t')) as [<-|Hnt].
    + by rewrite lookup_insert_eq, bool_decide_true.
    + rewrite lookup_insert_ne by done. by apply Hrd.
  - by eapply runnable_status.
Qed.

Lemma not_ready_sim t s x : sched_rel s x -> sop_ok (ONotReady t) x -> 16 <= avail s -> sop_sim (ONotReady t) s x.
Proof.
  intros Hrel (Ht0 & Hts) Ha. pose proof Hrel as [[L Hi] Hrun Hst Hrd Hrn]. destruct x as [a st]. cbn in *.
  assert (is_Some (tasks (sched s) !! t)) as Ht by (rewrite <- Hst, lookup_fmap in Hts; by apply fmap_is_Some in Hts).
  destruct (wp_inv _ _ _ (scheduler_task_not_ready_spec s L _ t Hi Ha Ht0 Ht))
    as (r & s' & E & -> & Ho & Et & En & _ & Er & L' & Hi' & _).
  assert (abs_of s (queue a) = a) as Ea by (unfold abs_of; rewrite Hrun; by destruct a).
  rewrite Ea in Er, Hi'. destruct (only_sched_avail _ _ _ (si_alloc _ _ _ Hi) Ho) as [Hok' Ha'].
  exists None, s'. split_and!; [unfold exec_sop; by rewrite E| |done|lia|by eapply regs_status|done].
  split; cbn [step_abs fst snd].
  - by exists L'.
  - done.
  - rewrite Et. unfold with_status. destruct Ht as [y Hy]. rewrite Hy. cbn. by rewrite fmap_insert, <- Hst.
  - intros t'. cbn. destruct (decide (running a = Some t)) as [Ert|Ert]; [done|]. intros Ht'.
    unfold is_ready. rewrite lookup_insert_ne by congruence. by apply Hrd.
  - by eapply runnable_status.
Qed.

Lemma switch_sim s x : sched_rel s x -> 16 <= avail s -> sop_sim OSwitch s x.
Proof.
  intros Hrel Ha. pose proof Hrel as [[L Hi] Hrun Hst Hrd Hrn]. destruct x as [a st]. cbn in *.
  assert (forall t, is_ready st t = ready_in s t) as Hrdy by (intros t; by apply is_ready_status).
  assert (forall t, t ∈ queue a -> runnable s t) as Hqr.
  { intros t Ht. apply Hrn. destruct (si_ready _ _ _ Hi t Ht) as [_ H]. unfold ready_in in H.
    by destruct (tasks (sched s) !! t). }
  pose proof (scheduler_switch_task_spec s L _ Hi Ha Hqr) as Hw. unfold wpx in Hw.
  destruct (scheduler_switch_task s) as [|e s'| |] eqn:E; [done| |done|done].
  destruct Hw as (n & L' & Hn & [Hi' Hr' Hex (Et & En & _) (c & s1 & -> & Ho)] & _).
  assert (abs_of s (queue a) = a) as Ea by (unfold abs_of; rewrite Hrun; by destruct a).
  assert (switch_abs (ready_in s) a = switch_abs (is_ready st) a) as Esw by (apply switch_abs_ext; auto).
  rewrite Ea, Esw in Hi', Hr'.
  destruct (only_sched_avail _ _ _ (si_alloc _ _ _ Hi) Ho) as [Hok' Ha'].
  exists (Some e), (set_cr3 c s1). split_and!; [unfold exec_sop; by rewrite E| |done| | |].
  - split; cbn [step_abs fst snd].
    + by exists L'.
    + done.
    + by rewrite Et.
    + apply switch_running_ready. intros t Ht. rewrite Hrdy. by apply (si_ready _ _ _ Hi).
    + intros t Ht. rewrite Et in Ht. destruct (Hrn t Ht) as (y & regs & r & Hy & Hregs & Hsp).
      exists y, regs, r. rewrite Et. split_and!; [done| |].
      * unfold regs_of in *. by rewrite Et, En.
      * rewrite space_of_cr3, (only_sched_spaces _ _ _ Ho). done.
  - change (avail (set_cr3 c s1)) with (avail s1). lia.
  - intros t. unfold regs_of. by rewrite Et, En.
  - exists e. split; [done|]. cbn [step_abs fst]. rewrite <- Hr'. revert Hex. unfold exit_of, exit_ok.
    destruct (running_of (set_cr3 c s1)) as [t|]; [|done]. intros (y & regs & _ & ? & -> & _). eauto.
Qed.

Lemma exec_sops_sim os : forall s x,
  sched_rel s x -> sops_ok os x -> 16 * Z.of_nat (length os) <= avail s ->
  exists es s', exec_sops os s = Some (es, s') /\ sched_rel s' (foldl (flip step_abs) x os) /\
    Forall2 (exit_ok s) (runs os x) es.
Proof.
  induction os as [|o os IH]; intros s x Hrel Hok Ha; cbn [exec_sops foldl runs].
  { exists [], s. by split_and!; [| |constructor]. }
  destruct Hok as [Ho Hos]. cbn [length] in Ha.
  assert (sop_sim o s x) as (r & s1 & E & Hrel1 & Hok1 & Ha1 & Hregs & Hr).
  { destruct o; [apply ready_sim|apply not_ready_sim|apply switch_sim]; try done; lia. }
  destruct (IH s1 _ Hrel1 Hos ltac:(lia)) as (es & s' & E' & Hrel' & Hf).
  rewrite E. cbn. rewrite E'. cbn. do 2 eexists. split; [done|]. split; [done|].
  assert (Forall2 (exit_ok s) (runs os (step_abs o x)) es) as Hf'.
  { eapply Forall2_impl; [exact Hf|]. intros t e. unfold exit_ok. destruct t; [|done]. by rewrite Hregs. }
  destruct o; [by subst r|by subst r|]. destruct Hr as (e & -> & He). by constructor.
Qed.
End refinement.


(** Three tasks sharing one address space, none started yet. *)
Definition new_task (id n : Z) : task_t := mk_task id None false 1 0 TASK_STATUS_CREATED n 1500000.
Definition s_sched0 : kstate :=
  set_ntasks (<[1500200 := initial_regs 1 11 false 0]> (<[1500400 := initial_regs 2 22 false 0]>
    {[1500600 := initial_regs 3 33 true 0]}))
    (set_tasks (<[1500100 := new_task 1 1500200]> (<[1500300 := new_task 2 1500400]>
       {[1500500 := new_task 3 1500600]}))
       (set_vmems {[1500000 := mk_vmem 1 1500050 0 0 0]} (set_npts {[1500050 := mk_npt 4096 0 0 0]} state0))).
Definition s_sched : kstate := run (scheduler_initialise (H := bump_alloc)) s_sched0.
Definition x_sched : sstate := (mk_abs None [], t_status <$> tasks (sched s_sched0)).

(** A property of every element of a small map, by cases on its keys. *)
Ltac map_cases H :=
  repeat (apply lookup_insert_Some in H as [[<- <-]|[_ H]]);
  try (apply lookup_singleton_Some in H as [<- <-]).

Lemma s_sched_rel : alloc_ok (mem s_sched) /\ 2 ^ 60 <= avail s_sched /\ sched_rel (K := bump_alloc) s_sched x_sched.
Proof.
  assert (lists_inv s_sched0 ∅) as Hl.
  { split; [split; by intros ? ? ?|by intros ? ?|by intros ? ?|vm_compute; split; congruence]. }
  assert (forall t, ready_in s_sched0 t = false) as Hnr.
  { intros t. unfold ready_in. destruct (tasks (sched s_sched0) !! t) as [x|] eqn:E; [|done].
    cbn [tasks sched s_sched0 set_ntasks set_tasks set_sched] in E. map_cases E; done. }
  assert (16 <= avail s_sched0) as Ha by (vm_compute; congruence).
  destruct (wp_run _ _ _ (scheduler_initialise_spec (K := bump_alloc) s_sched0 ∅ Hl state0_alloc_ok Ha eq_refl Hnr))
    as (r & _ & -> & Ho & Et & En & Er & L & Hi & _). fold s_sched in *.
  destruct (only_sched_avail _ s_sched0 _ state0_alloc_ok Ho) as [Hok Ha'].
  split_and!; [done| |].
  - pose proof state0_avail. change (avail s_sched0) with (avail state0) in Ha'. lia.
  - split; cbn [x_sched fst snd running queue]; [by exists L|done|by rewrite Et|done|].
    intros t [x Hx]. exists x. assert (regs_of s_sched t = regs_of s_sched0 t) as Eregs by (unfold regs_of; by rewrite Et, En).
    rewrite Eregs, (only_sched_spaces _ _ _ Ho). rewrite Hx. rewrite Et in Hx.
    cbn [tasks sched s_sched0 set_ntasks set_tasks set_sched] in Hx.
    map_cases Hx; do 2 eexists; (split_and!; [done|vm_compute; reflexivity|vm_compute; reflexivity]).
Qed.

Definition sops_example : list sop :=
  [OReady 1500100; OReady 1500300; OSwitch; OReady 1500500; OSwitch; ONotReady 1500300; OSwitch; OSwitch].


(** * Every ready task gets the processor *)

(** Context switches alone: the tasks of the queue run in order. *)
Lemma runs_switches n : forall x i t,
  (n <= length (queue x.1))%nat -> (i < n)%nat -> queue x.1 !! i = Some t -> runs (replicate n OSwitch) x !! i = Some (Some t).
Proof.
  induction n as [|n IH]; intros [[r q] st] i t Hn Hi Ht; [lia|]. cbn [fst queue] in *.
  destruct q as [|y q]; [cbn in Hn; lia|]. cbn in Hn.
  cbn [replicate runs]. destruct i as [|i]; cbn [lookup list_lookup] in *; [by injection Ht as ->|].
  apply (IH (step_abs OSwitch (mk_abs r (y :: q), st))); cbn [step_abs switch_abs queue running fst].
  - rewrite length_app. lia.
  - lia.
  - by apply lookup_app_l_Some.
Qed.

Lemma sops_ok_switches n : forall x, sops_ok (replicate n OSwitch) x.
Proof. induction n as [|n IH]; intros x; [done|]. cbn [replicate sops_ok]. split; [done|apply IH]. Qed.

(** C36: no ready task starves: the task at position [i] of the queue is given
    the processor, with its saved registers, by the [i+1]-th context switch. *)
Theorem ready_task_runs `{K : Kalloc} `{!GoodAlloc K} s x i t :
  sched_rel s x -> queue x.1 !! i = Some t -> 16 * (Z.of_nat i + 1) <= avail s ->
  exists es s' regs, exec_sops (replicate (S i) OSwitch) s = Some (es, s') /\
    regs_of s t = Some regs /\ es !! i = Some (ResumeTask regs).
Proof.
  intros Hrel Ht Ha.
  destruct (exec_sops_sim (replicate (S i) OSwitch) s x Hrel (sops_ok_switches _ _)) as (es & s' & E & _ & Hf).
  { rewrite length_replicate. lia. }
  assert (runs (replicate (S i) OSwitch) x !! i = Some (Some t)) as Hr.
  { apply runs_switches; [apply lookup_lt_Some in Ht; lia|lia|done]. }
  destruct (Forall2_lookup_l _ _ _ _ _ Hf Hr) as (e & He & regs & Hregs & ->). eauto 10.
Qed.

(** Three tasks have been made ready. *)
Definition s_ready : kstate :=
  match exec_sops (K := bump_alloc) [OReady 1500100; OReady 1500300; OReady 1500500] s_sched with
  | Some (_, s) => s | None => s_sched end.

Lemma ready_task_runs_witness : exists es s' regs,
  exec_sops (K := bump_alloc) (replicate 3 OSwitch) s_ready = Some (es, s') /\
  regs_of s_ready 1500500 = Some regs /\ es !! 2%nat = Some (ResumeTask regs).
Proof.
  destruct s_sched_rel as (_ & Ha & Hrel).
  destruct (exec_sops_sim (K := bump_alloc) [OReady 1500100; OReady 1500300; OReady 1500500] s_sched x_sched Hrel)
    as (es & s' & E & Hrel' & _).
  - vm_compute. intuition (congruence || eauto).
  - change (16 * Z.of_nat 3 <= avail s_sched). lia.
  - assert (s' = s_ready) as -> by (unfold s_ready; by rewrite E).
    apply (ready_task_runs (K := bump_alloc) s_ready _ 2 1500500 Hrel'); [reflexivity|].
    vm_compute. discriminate.
Defined.
