(* ===== verification/CString.v ===== *)
(** libc/src/string.c: strings and blocks of memory.

    Memory is a function from addresses to bytes, as [ram] of the machine.  The
    functions that look for a terminating zero take fuel; the theorems give the
    fuel that is enough for a string of a given length. *)
From S2P Require Import Prelude Machine.

Definition bytes : Type := Z -> Z.

Definition upd (m : bytes) (a v : Z) : bytes := fun x => if x =? a then v else m x.

(** * The macros *)
(** [ALIGN] of string.c, not the macro of utils.h. *)
Definition STR_ALIGN : Z := 8.
Definition ONES : Z := (2 ^ 64 - 1) / 255.
Definition HIGHS : Z := u64 (ONES * (255 / 2 + 1)).
Definition HASZERO (x : Z) : Z := Z.land (Z.land (u64 (x - ONES)) (u64 (Z.lnot x))) HIGHS.

(** * strlen *)

(** The three [for] loops; [inr s] leaves the function at the first one. *)
Fixpoint strlen_align (fuel : nat) (m : bytes) (s : Z) : option (Z + Z) :=
  match fuel with
  | O => None
  | S fuel' =>
      if s mod STR_ALIGN =? 0 then Some (inl s)
      else if m s =? 0 then Some (inr s)
      else strlen_align fuel' m (s + 1)
  end.

Fixpoint strlen_words (fuel : nat) (m : bytes) (w : Z) : option Z :=
  match fuel with
  | O => None
  | S fuel' => if HASZERO (load64 m w) =? 0 then strlen_words fuel' m (w + 8) else Some w
  end.

Fixpoint strlen_bytes (fuel : nat) (m : bytes) (s : Z) : option Z :=
  match fuel with
  | O => None
  | S fuel' => if m s =? 0 then Some s else strlen_bytes fuel' m (s + 1)
  end.

Definition strlen (fuel : nat) (m : bytes) (s : Z) : option Z :=
  let a := s in
  r ← strlen_align fuel m s;
  match r with
  | inr s => Some (s - a)
  | inl s =>
      w ← strlen_words fuel m s;
      s ← strlen_bytes fuel m w;
      Some (s - a)
  end.

(** * memset, memcpy *)
Fixpoint memset_loop (k : nat) (m : bytes) (ptr val : Z) : bytes :=
  match k with
  | O => m
  | S k' => memset_loop k' (upd m ptr (u8 val)) (ptr + 1) val
  end.
Definition memset (m : bytes) (dest val len : Z) : bytes := memset_loop (Z.to_nat len) m dest val.

Fixpoint memcpy_loop (k : nat) (m : bytes) (d s : Z) : bytes :=
  match k with
  | O => m
  | S k' => memcpy_loop k' (upd m d (m s)) (d + 1) (s + 1)
  end.
Definition memcpy (m : bytes) (dest src len : Z) : bytes := memcpy_loop (Z.to_nat len) m dest src.

(** * strncpy *)

(** [for (; (s & ALIGN) && n && ( *d = *s ); n--, s++, d++);] with [aligned]
    telling whether the loop tests the address. *)
Fixpoint strncpy_bytes (aligned : bool) (n : nat) (m : bytes) (d s : Z) : bytes * Z * Z * nat :=
  if aligned && (Z.land s STR_ALIGN =? 0) then (m, d, s, n)
  else match n with
       | O => (m, d, s, n)
       | S n' =>
           let m' := upd m d (m s) in
           if m' d =? 0 then (m', d, s, n) else strncpy_bytes aligned n' m' (d + 1) (s + 1)
       end.

Definition store_word (m : bytes) (a v : Z) : bytes := store64 m a v.

Fixpoint strncpy_words (k : nat) (n : nat) (m : bytes) (wd ws : Z) : bytes * Z * Z * nat :=
  match k with
  | O => (m, wd, ws, n)
  | S k' =>
      if (8 <=? Z.of_nat n) && (HASZERO (load64 m ws) =? 0)
      then strncpy_words k' (n - 8) (store_word m wd (load64 m ws)) (wd + 8) (ws + 8)
      else (m, wd, ws, n)
  end.

(** [tail:] the rest of the destination is zeroed; the function returns [d]. *)
Definition strncpy_tail (x : bytes * Z * Z * nat) : bytes * Z :=
  let '(m, d, s, n) := x in (memset m d 0 (Z.of_nat n), d).

Definition strncpy (m : bytes) (d s n : Z) : bytes * Z :=
  let n := Z.to_nat n in
  if Z.land s STR_ALIGN =? Z.land d STR_ALIGN then
    let '(m, d, s, n) := strncpy_bytes true n m d s in
    if (n =? 0)%nat || (m s =? 0) then strncpy_tail (m, d, s, n)
    else
      let '(m, d, s, n) := strncpy_words n n m d s in
      strncpy_tail (strncpy_bytes false n m d s)
  else strncpy_tail (strncpy_bytes false n m d s).

(** * strncmp *)
Fixpoint strncmp_loop (n : nat) (m : bytes) (l r : Z) : Z :=
  match n with
  | O => m l - m r
  | S n' =>
      if negb (m l =? 0) && negb (m r =? 0) && (m l =? m r)
      then strncmp_loop n' m (l + 1) (r + 1) else m l - m r
  end.
Definition strncmp (m : bytes) (l r n : Z) : Z :=
  if n =? 0 then 0 else strncmp_loop (Z.to_nat (n - 1)) m l r.

(** * Finding a zero byte in a word *)

Definition byte_mem (m : bytes) : Prop := forall a, 0 <= m a < 256.

Lemma testbit_cons a c i :
  0 <= a < 256 -> 0 <= i -> Z.testbit (a + 256 * c) i = if i <? 8 then Z.testbit a i else Z.testbit c (i - 8).
Proof.
  intros Ha Hi. destruct (Z.ltb_spec i 8).
  - rewrite <- (Z.mod_pow2_bits_low (a + 256 * c) 8) by lia. f_equal.
    change (2 ^ 8) with 256. rewrite (Z.mul_comm 256), Z_mod_plus_full. by apply Z.mod_small.
  - replace i with ((i - 8) + 8) at 1 by lia. rewrite <- Z.div_pow2_bits by lia. f_equal.
    change (2 ^ 8) with 256. rewrite (Z.mul_comm 256), Z.div_add, Z.div_small by lia. lia.
Qed.

Lemma land_cons a b c d :
  0 <= a < 256 -> 0 <= b < 256 -> Z.land (a + 256 * c) (b + 256 * d) = Z.land a b + 256 * Z.land c d.
Proof.
  intros Ha Hb. assert (0 <= Z.land a b < 256) as Hab.
  { split; [apply Z.land_nonneg; lia|]. pose proof (Z.land_nonneg a b).
    destruct (Z.eq_dec (Z.land a b) 0) as [->|Hne]; [lia|].
    apply (Z.log2_lt_pow2 _ 8); [lia|]. eapply Z.le_lt_trans; [apply Z.log2_land; lia|].
    destruct (Z.eq_dec a 0) as [->|]; [cbn; lia|]. apply Z.min_lt_iff. left. apply Z.log2_lt_pow2; lia. }
  apply Z.bits_inj'. intros i Hi. rewrite Z.land_spec, !testbit_cons by lia.
  destruct (i <? 8); by rewrite Z.land_spec.
Qed.

Lemma mod_cons a z k : 0 <= a < 256 -> 0 <= k -> (a + 256 * z) mod 2 ^ (8 * (k + 1)) = a + 256 * (z mod 2 ^ (8 * k)).
Proof.
  intros Ha Hk. replace (8 * (k + 1)) with (8 + 8 * k) by lia. rewrite Z.pow_add_r by lia.
  rewrite Z.rem_mul_r by lia. change (2 ^ 8) with 256. rewrite (Z.mul_comm 256 z).
  rewrite Z_mod_plus_full, Z.div_add, Z.mod_small, Z.div_small by lia. f_equal.
Qed.

(** [HASZERO] for [k] bytes. *)
Fixpoint ones (k : nat) : Z := match k with O => 0 | S k' => 1 + 256 * ones k' end.
Definition haszero (k : nat) (x : Z) : Z :=
  let w := 2 ^ (8 * Z.of_nat k) in Z.land (Z.land ((x - ones k) mod w) ((Z.lnot x) mod w)) (128 * ones k).

Lemma haszero_HASZERO x : HASZERO x = haszero 8 x.
Proof. done. Qed.

Lemma ones_nonneg k : 0 <= ones k.
Proof. induction k; cbn [ones]; lia. Qed.

Lemma haszero_nonneg k x : 0 <= haszero k x.
Proof. unfold haszero. apply Z.land_nonneg. right. pose proof (ones_nonneg k). lia. Qed.

(** No byte from 1 to 255 triggers the test on its own. *)
Lemma byte_test b : 1 <= b < 256 -> Z.land (Z.land (b - 1) (255 - b)) 128 = 0.
Proof.
  intros Hb. assert (forallb (fun b => Z.land (Z.land (b - 1) (255 - b)) 128 =? 0) (seqZ 1 255) = true) as H
    by (vm_compute; reflexivity).
  rewrite forallb_forall in H. apply Z.eqb_eq, H. apply list_elem_of_In, elem_of_seqZ. lia.
Qed.

Lemma haszero_cons k b y :
  0 <= b < 256 ->
  haszero (S k) (b + 256 * y) =
    if b =? 0 then 128 + 256 * Z.land (Z.land ((y - 1 - ones k) mod 2 ^ (8 * Z.of_nat k)) (Z.lnot y mod 2 ^ (8 * Z.of_nat k))) (128 * ones k)
    else 256 * haszero k y.
Proof.
  intros Hb. unfold haszero. cbn [ones]. replace (8 * Z.of_nat (S k)) with (8 * (Z.of_nat k + 1)) by lia.
  replace (Z.lnot (b + 256 * y)) with ((255 - b) + 256 * Z.lnot y) by (unfold Z.lnot; lia).
  replace (128 * (1 + 256 * ones k)) with (128 + 256 * (128 * ones k)) by lia.
  rewrite (mod_cons (255 - b)) by lia. destruct (Z.eqb_spec b 0) as [->|Hne].
  - replace (0 + 256 * y - (1 + 256 * ones k)) with (255 + 256 * (y - 1 - ones k)) by lia.
    rewrite mod_cons by lia. rewrite (land_cons 255 (255 - 0)) by lia. rewrite land_cons by (split; vm_compute; congruence). done.
  - replace (b + 256 * y - (1 + 256 * ones k)) with ((b - 1) + 256 * (y - ones k)) by lia.
    rewrite mod_cons by lia. rewrite (land_cons (b - 1) (255 - b)) by lia.
    pose proof (byte_test b ltac:(lia)) as Hz.
    assert (0 <= Z.land (b - 1) (255 - b) < 256).
    { split; [apply Z.land_nonneg; lia|]. destruct (Z.eq_dec (Z.land (b - 1) (255 - b)) 0) as [->|]; [lia|].
      pose proof (proj2 (Z.land_nonneg (b - 1) (255 - b)) ltac:(lia)).
      apply (Z.log2_lt_pow2 _ 8); [lia|]. eapply Z.le_lt_trans; [apply Z.log2_land; lia|].
      destruct (Z.eq_dec (b - 1) 0) as [E|]; [rewrite E; cbn; lia|].
      apply Z.min_lt_iff. left. apply Z.log2_lt_pow2; lia. }
    rewrite land_cons by lia. by rewrite Hz.
Qed.

Lemma haszero_load m n : forall a, byte_mem m ->
  haszero n (le_load m a n) = 0 <-> forall i, a <= i < a + Z.of_nat n -> m i <> 0.
Proof.
  induction n as [|n IH]; intros a Hm; [split; [lia|done]|].
  cbn [le_load]. rewrite haszero_cons by apply Hm. destruct (Z.eqb_spec (m a) 0) as [E|Hne].
  - split; [|intros H; destruct (H a); [lia|done]].
    pose proof (ones_nonneg n). match goal with |- context [256 * ?x] => assert (0 <= x) by (apply Z.land_nonneg; right; lia) end.
    lia.
  - rewrite <- (Z.mul_0_r 256), Z.mul_cancel_l, IH by done. split.
    + intros H i Hi. destruct (Z.eq_dec i a) as [->|]; [done|]. apply H. lia.
    + intros H i Hi. apply H. lia.
Qed.

(** * Strings *)

(** The string at [s] has [n] characters before its terminating zero. *)
Definition cstr (m : bytes) (s n : Z) : Prop :=
  0 <= n /\ m (s + n) = 0 /\ forall i, 0 <= i < n -> m (s + i) <> 0.

Lemma cstr_tail m s n : cstr m s n -> m s <> 0 -> cstr m (s + 1) (n - 1).
Proof.
  intros (Hn & Hz & Hc) Hs. assert (n <> 0) by (intros ->; by rewrite Z.add_0_r in Hz).
  split_and!; [lia|by replace (s + 1 + (n - 1)) with (s + n) by lia|].
  intros i Hi. replace (s + 1 + i) with (s + (i + 1)) by lia. apply Hc. lia.
Qed.

Lemma cstr_head m s n : cstr m s n -> m s = 0 -> n = 0.
Proof.
  intros (Hn & _ & Hc) Hs. destruct (Z.eq_dec n 0); [done|].
  destruct (Hc 0); [lia|]. by rewrite Z.add_0_r.
Qed.

Lemma cstr_unique m s n n' : cstr m s n -> cstr m s n' -> n = n'.
Proof.
  intros (? & Hz & Hc) (? & Hz' & Hc'). destruct (Z.lt_trichotomy n n') as [H1|[H1|H1]]; [|done|].
  - by destruct (Hc' n); [lia|].
  - by destruct (Hc n'); [lia|].
Qed.

Lemma strlen_align_spec m fuel : forall s n, cstr m s n -> (- s) mod 8 < Z.of_nat fuel ->
  strlen_align fuel m s = Some (inr (s + n)) \/
  exists k, strlen_align fuel m s = Some (inl (s + k)) /\ 0 <= k <= n.
Proof.
  induction fuel as [|fuel IH]; intros s n Hs Hf; [pose proof (Z.mod_pos_bound (- s) 8); lia|].
  cbn [strlen_align]. change STR_ALIGN with 8. destruct (Z.eqb_spec (s mod 8) 0) as [E|E].
  { right. exists 0. rewrite Z.add_0_r. split; [done|]. destruct Hs. lia. }
  destruct (Z.eqb_spec (m s) 0) as [E0|E0].
  { left. by rewrite (cstr_head _ _ _ Hs E0), Z.add_0_r. }
  destruct (IH (s + 1) (n - 1)) as [H|(k & H & Hk)]; [by apply cstr_tail| | |].
  - assert ((- (s + 1)) mod 8 = (- s) mod 8 - 1); [|lia].
    symmetry. apply (Z.mod_unique _ _ ((- s) / 8)).
    + left. pose proof (Z.mod_pos_bound (- s) 8). assert ((- s) mod 8 <> 0); [|lia].
      intros Hz. apply E. rewrite <- (Z.opp_involutive s). by apply Z.mod_opp_l_z; [lia|].
    + pose proof (Z.div_mod (- s) 8). lia.
  - left. rewrite H. do 2 f_equal. lia.
  - right. exists (k + 1). rewrite H. split; [do 2 f_equal; lia|lia].
Qed.

Lemma strlen_words_spec m fuel : byte_mem m -> forall w n, cstr m w n -> n / 8 < Z.of_nat fuel ->
  exists k, strlen_words fuel m w = Some (w + k) /\ 0 <= k <= n /\ n < k + 8.
Proof.
  intros Hm. induction fuel as [|fuel IH]; intros w n Hw Hf.
  { destruct Hw as [? _]. pose proof (Z.div_pos n 8). lia. }
  cbn [strlen_words]. rewrite haszero_HASZERO. unfold load64. pose proof Hw as (Hn & Hz & Hc).
  destruct (Z.eqb_spec (haszero 8 (le_load m w 8)) 0) as [E|E].
  - rewrite haszero_load in E by done.
    assert (8 <= n) as Hn8.
    { destruct (Z.le_gt_cases 8 n); [done|]. by destruct (E (w + n)); [lia|]. }
    destruct (IH (w + 8) (n - 8)) as (k & H & Hk).
    + split_and!; [lia|by replace (w + 8 + (n - 8)) with (w + n) by lia|].
      intros i Hi. replace (w + 8 + i) with (w + (8 + i)) by lia. apply Hc. lia.
    + replace (n - 8) with (n + (-1) * 8) by lia. rewrite Z.div_add by lia. lia.
    + exists (k + 8). rewrite H. split; [f_equal; lia|lia].
  - exists 0. rewrite Z.add_0_r. split; [done|]. split; [lia|].
    destruct (Z.le_gt_cases 8 n) as [Hge|]; [|lia]. destruct E. apply haszero_load; [done|].
    intros i Hi. replace i with (w + (i - w)) by lia. apply Hc. lia.
Qed.

Lemma strlen_bytes_spec m fuel : forall s n, cstr m s n -> n < Z.of_nat fuel ->
  strlen_bytes fuel m s = Some (s + n).
Proof.
  induction fuel as [|fuel IH]; intros s n Hs Hf; [destruct Hs; lia|]. cbn [strlen_bytes].
  destruct (Z.eqb_spec (m s) 0) as [E|E].
  - by rewrite (cstr_head _ _ _ Hs E), Z.add_0_r.
  - rewrite (IH (s + 1) (n - 1)); [f_equal; lia|by apply cstr_tail|lia].
Qed.

(** The end of a string is reached from inside it. *)
Lemma cstr_skip m s n k : cstr m s n -> 0 <= k <= n -> cstr m (s + k) (n - k).
Proof.
  intros (Hn & Hz & Hc) Hk. split_and!; [lia|by replace (s + k + (n - k)) with (s + n) by lia|].
  intros i Hi. replace (s + k + i) with (s + (k + i)) by lia. apply Hc. lia.
Qed.

Lemma strlen_spec fuel m s n : byte_mem m -> cstr m s n -> n + 8 <= Z.of_nat fuel -> strlen fuel m s = Some n.
Proof.
  intros Hm Hs Hf. pose proof Hs as (Hn & _). unfold strlen.
  pose proof (Z.mod_pos_bound (- s) 8 ltac:(lia)).
  destruct (strlen_align_spec m fuel s n Hs) as [->|(k & -> & Hk)]; [lia|cbn; f_equal; lia|].
  pose proof (cstr_skip _ _ _ _ Hs Hk) as Hs1.
  destruct (strlen_words_spec m fuel Hm _ _ Hs1) as (j & E & Hj).
  { apply Z.div_lt_upper_bound; lia. }
  cbn. rewrite E. cbn. assert (0 <= j <= n - k) as Hj' by lia.
  rewrite (strlen_bytes_spec m fuel _ _ (cstr_skip _ _ _ _ Hs1 Hj')) by lia. cbn. f_equal. lia.
Qed.

(** C23: [strlen] with its word-at-a-time loop and the bit trick that looks for a
    zero byte returns, for a string of any alignment, the number of characters
    before the terminating zero; fuel for one iteration per character and one
    word suffices. *)
Theorem strlen_finds_terminator fuel m s n :
  byte_mem m -> cstr m s n -> n + 8 <= Z.of_nat fuel -> strlen fuel m s = Some n.
Proof. apply strlen_spec. Qed.

(** Bytes of a literal, placed in zeroed memory. *)
Definition place (a : Z) (bs : list Z) : bytes := fun x => if x <? a then 0 else default 0 (bs !! Z.to_nat (x - a)).

Lemma place_bytes a bs : Forall (fun b => 0 <= b < 256) bs -> byte_mem (place a bs).
Proof.
  intros Hf x. unfold place. destruct (x <? a); [lia|]. destruct (bs !! _) as [b|] eqn:E; cbn; [|lia].
  exact (Forall_lookup_1 _ _ _ _ Hf E).
Qed.

Lemma strlen_finds_terminator_witness : strlen 30 (place 5 [104; 101; 108; 108; 111; 32; 119; 111; 114; 108; 100]) 5 = Some 11.
Proof.
  apply strlen_finds_terminator; [apply place_bytes; repeat constructor; lia| |lia].
  split_and!; [lia|vm_compute; reflexivity|]. intros i Hi. assert (exists k, i = Z.of_nat k /\ (k < 11)%nat) as (k & -> & Hk) by (exists (Z.to_nat i); lia).
  do 11 (destruct k as [|k]; [vm_compute; congruence|]). lia.
Defined.

(** * Blocks of memory *)

Lemma memset_loop_spec k : forall m p v a,
  memset_loop k m p v a = if (p <=? a) && (a <? p + Z.of_nat k) then u8 v else m a.
Proof.
  induction k as [|k IH]; intros m p v a; cbn [memset_loop].
  - destruct (Z.leb_spec p a), (Z.ltb_spec a (p + Z.of_nat 0)); cbn; done || lia.
  - rewrite IH. unfold upd. destruct (Z.eqb_spec a p) as [->|].
    + destruct (Z.leb_spec (p + 1) p); [lia|]. destruct (Z.leb_spec p p), (Z.ltb_spec p (p + Z.of_nat (S k))); cbn; done || lia.
    + destruct (Z.leb_spec (p + 1) a), (Z.ltb_spec a (p + 1 + Z.of_nat k)), (Z.leb_spec p a),
        (Z.ltb_spec a (p + Z.of_nat (S k))); cbn; done || lia.
Qed.

Lemma memset_spec m d v n a :
  0 <= n -> memset m d v n a = if (d <=? a) && (a <? d + n) then u8 v else m a.
Proof. intros Hn. unfold memset. rewrite memset_loop_spec, Z2Nat.id by done. done. Qed.

(** A forward copy is exact when the destination is apart from the source or
    starts before it. *)
Lemma memcpy_loop_spec k : forall m d s a,
  d <= s \/ s + Z.of_nat k <= d ->
  memcpy_loop k m d s a = if (d <=? a) && (a <? d + Z.of_nat k) then m (a - d + s) else m a.
Proof.
  induction k as [|k IH]; intros m d s a Hd; cbn [memcpy_loop].
  - destruct (Z.leb_spec d a), (Z.ltb_spec a (d + Z.of_nat 0)); cbn; done || lia.
  - rewrite IH by lia. unfold upd.
    destruct (Z.leb_spec (d + 1) a), (Z.ltb_spec a (d + 1 + Z.of_nat k)), (Z.leb_spec d a),
        (Z.ltb_spec a (d + Z.of_nat (S k))); cbn; try lia.
    + destruct (Z.eqb_spec (a - (d + 1) + (s + 1)) d); [lia|]. f_equal. lia.
    + destruct (Z.eqb_spec a d); [lia|done].
    + destruct (Z.eqb_spec a d) as [->|]; [f_equal; lia|lia].
    + destruct (Z.eqb_spec a d); [lia|done].
Qed.

Lemma memcpy_spec m d s n a :
  0 <= n -> d <= s \/ s + n <= d -> memcpy m d s n a = if (d <=? a) && (a <? d + n) then m (a - d + s) else m a.
Proof. intros Hn Hd. unfold memcpy. rewrite memcpy_loop_spec, Z2Nat.id by lia. done. Qed.

Lemma byte_of_load f n : byte_mem f -> forall a i, 0 <= i < Z.of_nat n -> byte_of (le_load f a n) i = f (a + i).
Proof.
  intros Hf. induction n as [|n IH]; intros a i Hi; [lia|]. cbn [le_load]. rewrite byte_of_div by lia.
  pose proof (Hf a). destruct (Z.eq_dec i 0) as [->|Hne].
  - rewrite Z.div_1_r, (Z.mul_comm 256), Z_mod_plus_full, Z.add_0_r. by apply Z.mod_small.
  - replace (8 * i) with (8 + 8 * (i - 1)) by lia. rewrite Z.pow_add_r, <- Z.div_div by lia.
    change (2 ^ 8) with 256. rewrite (Z.mul_comm 256), Z.div_add, (Z.div_small (f a)), Z.add_0_l by lia.
    rewrite <- byte_of_div by lia. rewrite IH by lia. f_equal. lia.
Qed.

(** * strncpy *)
Section strncpy.
Variables (m0 : bytes) (d0 s0 : Z) (N : nat).
Hypothesis Hm0 : byte_mem m0.
Hypothesis apart : s0 + Z.of_nat N <= d0 \/ d0 + Z.of_nat N <= s0.

(** Character [i] of the result: the source up to its terminator, zero after. *)
Definition strncpy_char (m : bytes) (s i : Z) : Z :=
  if forallb (fun j => negb (m (s + j) =? 0)) (seqZ 0 i) then m (s + i) else 0.

(** [k] non-zero characters have been copied. *)
Definition copied (k : Z) (m : bytes) : Prop :=
  0 <= k <= Z.of_nat N /\ (forall j, 0 <= j < k -> m0 (s0 + j) <> 0) /\
  forall a, m a = if (d0 <=? a) && (a <? d0 + k) then m0 (a - d0 + s0) else m0 a.

(** The copy has come to an end: the bytes outside the rest of the destination
    are right, and nothing is left or the source has ended. *)
Definition finished (k : Z) (m : bytes) : Prop :=
  0 <= k <= Z.of_nat N /\ (forall j, 0 <= j < k -> m0 (s0 + j) <> 0) /\
  (k = Z.of_nat N \/ m0 (s0 + k) = 0) /\
  forall a, a < d0 + k \/ d0 + Z.of_nat N <= a -> m a = if (d0 <=? a) && (a <? d0 + k) then m0 (a - d0 + s0) else m0 a.

Lemma copied_source k m j : copied k m -> 0 <= j < Z.of_nat N -> m (s0 + j) = m0 (s0 + j).
Proof.
  intros (Hk & _ & Hm) Hj. rewrite Hm.
  destruct (Z.leb_spec d0 (s0 + j)), (Z.ltb_spec (s0 + j) (d0 + k)); cbn; done || lia.
Qed.

Lemma copied_next k m :
  copied k m -> k < Z.of_nat N -> m0 (s0 + k) <> 0 -> copied (k + 1) (upd m (d0 + k) (m (s0 + k))).
Proof.
  intros Hc Hk Hnz. rewrite (copied_source k m k Hc) by (destruct Hc; lia). destruct Hc as (Hk0 & Hj & Hm).
  split_and!; [lia|lia| |].
  - intros j Hjk. destruct (Z.eq_dec j k) as [->|]; [done|]. apply Hj. lia.
  - intros a. unfold upd. rewrite Hm. destruct (Z.eqb_spec a (d0 + k)) as [->|].
    + destruct (Z.leb_spec d0 (d0 + k)), (Z.ltb_spec (d0 + k) (d0 + (k + 1))); cbn; try lia. f_equal. lia.
    + destruct (Z.leb_spec d0 a), (Z.ltb_spec a (d0 + k)), (Z.ltb_spec a (d0 + (k + 1))); cbn; done || lia.
Qed.

Lemma copied_finished k m : copied k m -> (k = Z.of_nat N \/ m0 (s0 + k) = 0) -> finished k m.
Proof. intros (? & ? & Hm) He. split_and!; try done; lia || (intros a _; apply Hm). Qed.

Lemma strncpy_bytes_spec al n : forall m k,
  copied k m -> Z.of_nat n = Z.of_nat N - k ->
  exists m' k' n', strncpy_bytes al n m (d0 + k) (s0 + k) = (m', d0 + k', s0 + k', n') /\
    Z.of_nat n' = Z.of_nat N - k' /\ (finished k' m' \/ (al = true /\ copied k' m')).
Proof.
  induction n as [|n IH]; intros m k Hc Hn; cbn [strncpy_bytes].
  - destruct (al && _); exists m, k, O; (split_and!; [done|done|left; apply copied_finished; [done|left; lia]]).
  - destruct (al && _) eqn:E.
    { apply andb_true_iff in E as [-> _]. exists m, k, (S n). split_and!; [done|done|by right]. }
    pose proof Hc as (Hk & Hj & Hm). pose proof (copied_source k m k Hc ltac:(lia)) as Es.
    unfold upd at 1. rewrite Z.eqb_refl. destruct (Z.eqb_spec (m (s0 + k)) 0) as [E0|E0].
    + exists (upd m (d0 + k) (m (s0 + k))), k, (S n). split_and!; [done|done|]. left.
      split_and!; [lia|lia|done|right; congruence|]. intros a Ha. unfold upd.
      destruct (Z.eqb_spec a (d0 + k)); [lia|apply Hm].
    + rewrite <- !Z.add_assoc. apply (IH (upd m (d0 + k) (m (s0 + k))) (k + 1)); [|lia].
      apply copied_next; [done|lia|congruence].
Qed.

(** Copying a word copies its eight bytes. *)
Lemma copied_word k m :
  copied k m -> k + 8 <= Z.of_nat N -> (forall j, k <= j < k + 8 -> m0 (s0 + j) <> 0) ->
  copied (k + 8) (store_word m (d0 + k) (load64 m (s0 + k))).
Proof.
  intros Hc Hk Hnz. assert (load64 m (s0 + k) = load64 m0 (s0 + k)) as ->.
  { apply le_load_ext. intros i Hi. replace i with (s0 + (i - s0)) by lia. apply (copied_source k); [done|].
    destruct Hc. lia. }
  destruct Hc as (Hk0 & Hj & Hm). split_and!; [lia|lia| |].
  - intros j Hjk. destruct (Z.le_gt_cases k j); [apply Hnz; lia|apply Hj; lia].
  - intros a. unfold store_word, store64. rewrite Hm.
    destruct (Z.leb_spec (d0 + k) a), (Z.ltb_spec a (d0 + k + 8)); cbn [andb].
    + unfold load64. rewrite byte_of_load by (done || lia).
      destruct (Z.leb_spec d0 a), (Z.ltb_spec a (d0 + (k + 8))); cbn; try lia. f_equal. lia.
    + destruct (Z.leb_spec d0 a), (Z.ltb_spec a (d0 + k)), (Z.ltb_spec a (d0 + (k + 8))); cbn; done || lia.
    + destruct (Z.leb_spec d0 a), (Z.ltb_spec a (d0 + k)), (Z.ltb_spec a (d0 + (k + 8))); cbn; done || lia.
    + destruct (Z.leb_spec d0 a), (Z.ltb_spec a (d0 + k)), (Z.ltb_spec a (d0 + (k + 8))); cbn; done || lia.
Qed.

Lemma strncpy_words_spec f : forall n m k,
  copied k m -> Z.of_nat n = Z.of_nat N - k ->
  exists m' k' n', strncpy_words f n m (d0 + k) (s0 + k) = (m', d0 + k', s0 + k', n') /\
    Z.of_nat n' = Z.of_nat N - k' /\ copied k' m'.
Proof.
  induction f as [|f IH]; intros n m k Hc Hn; cbn [strncpy_words]; [eauto 10|].
  destruct ((8 <=? Z.of_nat n) && _) eqn:E; [|eauto 10].
  apply andb_true_iff in E as [E8%Z.leb_le Ez%Z.eqb_eq].
  rewrite <- !Z.add_assoc. apply (IH (n - 8)%nat); [|lia]. apply copied_word; [done|lia|].
  rewrite haszero_HASZERO in Ez. unfold load64 in Ez.
  rewrite (le_load_ext m m0) in Ez.
  2: { intros i Hi. replace i with (s0 + (i - s0)) by lia. apply (copied_source k); [done|]. destruct Hc. lia. }
  rewrite haszero_load in Ez by done. intros j Hj. apply Ez. lia.
Qed.

Lemma strncpy_char_before k i :
  (forall j, 0 <= j < k -> m0 (s0 + j) <> 0) -> 0 <= i <= k -> strncpy_char m0 s0 i = m0 (s0 + i).
Proof.
  intros Hj Hi. unfold strncpy_char. rewrite (proj2 (forallb_forall _ _)); [done|].
  intros j Hin%list_elem_of_In%elem_of_seqZ. apply negb_true_iff, Z.eqb_neq, Hj. lia.
Qed.

Lemma strncpy_char_after k i : 0 <= k -> m0 (s0 + k) = 0 -> k <= i -> strncpy_char m0 s0 i = 0.
Proof.
  intros Hk Hz Hi. unfold strncpy_char. destruct (Z.eq_dec i k) as [->|]; [by destruct (forallb _ _)|].
  destruct (forallb _ _) eqn:E; [|done]. rewrite forallb_forall in E.
  specialize (E k). rewrite Hz in E. discriminate E. apply list_elem_of_In, elem_of_seqZ. lia.
Qed.

Lemma finished_tail k m n :
  finished k m -> Z.of_nat n = Z.of_nat N - k ->
  forall a, memset m (d0 + k) 0 (Z.of_nat n) a =
    if (d0 <=? a) && (a <? d0 + Z.of_nat N) then strncpy_char m0 s0 (a - d0) else m0 a.
Proof.
  intros (Hk & Hj & He & Hm) Hn a. rewrite memset_spec by lia. rewrite Hn.
  replace (d0 + k + (Z.of_nat N - k)) with (d0 + Z.of_nat N) by lia.
  destruct (Z.leb_spec d0 a), (Z.ltb_spec a (d0 + Z.of_nat N)), (Z.leb_spec (d0 + k) a); cbn; try lia.
  - rewrite (strncpy_char_after k) by (destruct He; lia). done.
  - rewrite Hm by lia. destruct (Z.leb_spec d0 a), (Z.ltb_spec a (d0 + k)); cbn; try lia.
    rewrite (strncpy_char_before k) by (done || lia). f_equal. lia.
  - rewrite Hm by lia. destruct (Z.leb_spec d0 a), (Z.ltb_spec a (d0 + k)); cbn; done || lia.
  - rewrite Hm by lia. destruct (Z.leb_spec d0 a), (Z.ltb_spec a (d0 + k)); cbn; done || lia.
Qed.

(** The result of [strncpy] and where it stops. *)
Definition strncpy_result (x : bytes * Z) : Prop :=
  exists k, finished k (fst x) /\ snd x = d0 + k /\ forall a,
    fst x a = if (d0 <=? a) && (a <? d0 + Z.of_nat N) then strncpy_char m0 s0 (a - d0) else m0 a.

Lemma strncpy_tail_spec k m n :
  finished k m -> Z.of_nat n = Z.of_nat N - k -> strncpy_result (strncpy_tail (m, d0 + k, s0 + k, n)).
Proof.
  intros Hf Hn. exists k. cbn [strncpy_tail fst snd]. split_and!; [|done|by apply finished_tail].
  pose proof Hf as (Hk & Hj & He & Hm). split_and!; [lia|lia|done|done|].
  intros a Ha. rewrite memset_spec by lia.
  destruct (Z.leb_spec (d0 + k) a), (Z.ltb_spec a (d0 + k + Z.of_nat n)); cbn [andb]; try (by apply Hm); lia.
Qed.

Lemma strncpy_spec : strncpy_result (strncpy m0 d0 s0 (Z.of_nat N)).
Proof.
  assert (copied 0 m0) as Hc0.
  { split_and!; [lia|lia|lia|]. intros a. destruct (Z.leb_spec d0 a), (Z.ltb_spec a (d0 + 0)); cbn; done || lia. }
  assert (forall m k n, copied k m -> Z.of_nat n = Z.of_nat N - k ->
    strncpy_result (strncpy_tail (strncpy_bytes false n m (d0 + k) (s0 + k)))) as Hrest.
  { intros m k n Hc Hn. destruct (strncpy_bytes_spec false n m k Hc Hn) as (m' & k' & n' & -> & Hn' & [Hf|[? _]]); [|done].
    by apply strncpy_tail_spec. }
  unfold strncpy. rewrite Nat2Z.id. replace d0 with (d0 + 0) by lia. replace s0 with (s0 + 0) by lia.
  destruct (_ =? _); [|by apply Hrest; [|lia]].
  destruct (strncpy_bytes_spec true N m0 0 Hc0) as (m1 & k1 & n1 & -> & Hn1 & H1); [lia|].
  rewrite ?Z.add_0_r.
  destruct ((n1 =? 0)%nat || (m1 (s0 + k1) =? 0)) eqn:E.
  - apply strncpy_tail_spec; [|done]. destruct H1 as [?|[_ Hc]]; [done|]. apply copied_finished; [done|].
    apply orb_true_iff in E as [E%Nat.eqb_eq|E%Z.eqb_eq]; [left; lia|].
    destruct (Z.eq_dec k1 (Z.of_nat N)); [by left|]. right. rewrite <- E. symmetry.
    apply (copied_source k1); [done|]. destruct Hc. lia.
  - apply orb_false_iff in E as [E%Nat.eqb_neq E0%Z.eqb_neq]. destruct H1 as [Hf|[_ Hc]].
    { destruct E0. pose proof Hf as (Hk & _ & [?|Hz] & Hm); [lia|].
      destruct (Z.eq_dec (s0 + k1) (d0 + k1)); [lia|]. rewrite Hm by lia.
      destruct (Z.leb_spec d0 (s0 + k1)), (Z.ltb_spec (s0 + k1) (d0 + k1)); cbn; done || lia. }
    destruct (strncpy_words_spec n1 n1 m1 k1 Hc Hn1) as (m2 & k2 & n2 & -> & Hn2 & Hc2).
    by apply Hrest.
Qed.
End strncpy.

(** C24: [strncpy], whichever of its byte and word loops runs, fills the [n] bytes
    of the destination with the source up to its terminator and zeros after, and
    writes nothing else. *)
Theorem strncpy_copies m d s n :
  byte_mem m -> 0 <= n -> s + n <= d \/ d + n <= s ->
  forall a, fst (strncpy m d s n) a =
    if (d <=? a) && (a <? d + n) then strncpy_char m s (a - d) else m a.
Proof.
  intros Hm Hn Hd a. rewrite <- (Z2Nat.id n Hn) in Hd |- *.
  destruct (strncpy_spec m d s _ Hm Hd) as (k & _ & _ & H). apply H.
Qed.

Lemma strncpy_copies_witness :
  fst (strncpy (place 16 [104; 101; 108; 108; 111; 32; 119; 111; 114; 108; 100]) 64 16 20) 74 = 100 /\
  fst (strncpy (place 16 [104; 101; 108; 108; 111; 32; 119; 111; 114; 108; 100]) 64 16 20) 80 = 0.
Proof.
  split; rewrite strncpy_copies; try lia; try (vm_compute; reflexivity); apply place_bytes; repeat constructor; lia.
Defined.

(** The address [strncpy] returns is the end of what it copied, not the start of
    the destination as C's [strncpy]. *)
Theorem strncpy_returns_end m d s n k :
  byte_mem m -> s + n <= d \/ d + n <= s -> cstr m s k -> k < n -> snd (strncpy m d s n) = d + k.
Proof.
  intros Hm Hd Hs Hk. pose proof Hs as (Hk0 & Hz & Hc). rewrite <- (Z2Nat.id n) in * by lia.
  destruct (strncpy_spec m d s _ Hm Hd) as (k' & (Hk' & Hj & He & _) & -> & _). f_equal.
  destruct (Z.lt_trichotomy k' k) as [Hlt|[->|Hgt]]; [|done|].
  - destruct He as [->|He]; [lia|]. by destruct (Hc k'); [lia|].
  - by destruct (Hj k); [lia|].
Qed.

(** * strncmp *)
Lemma strncmp_loop_spec m n : forall l r,
  strncmp_loop n m l r = 0 <-> forall i, 0 <= i <= Z.of_nat n ->
    (forall j, 0 <= j < i -> m (l + j) <> 0) -> (forall j, 0 <= j < i -> m (l + j) = m (r + j)) ->
    m (l + i) = m (r + i).
Proof.
  induction n as [|n IH]; intros l r; cbn [strncmp_loop].
  - split; [intros H i Hi _ _; assert (i = 0) as -> by lia; rewrite !Z.add_0_r; lia|].
    intros H. specialize (H 0). rewrite !Z.add_0_r in H. rewrite H; lia.
  - destruct (negb (m l =? 0) && negb (m r =? 0) && (m l =? m r)) eqn:E.
    + zbool. rewrite IH. split; intros Hs i Hi Hn He.
      * destruct (Z.eq_dec i 0) as [->|]; [by rewrite !Z.add_0_r|].
        replace (l + i) with (l + 1 + (i - 1)) by lia. replace (r + i) with (r + 1 + (i - 1)) by lia.
        apply Hs; [lia| |]; intros j Hj.
        -- replace (l + 1 + j) with (l + (j + 1)) by lia. apply Hn. lia.
        -- replace (l + 1 + j) with (l + (j + 1)) by lia. replace (r + 1 + j) with (r + (j + 1)) by lia. apply He. lia.
      * replace (l + 1 + i) with (l + (i + 1)) by lia. replace (r + 1 + i) with (r + (i + 1)) by lia.
        apply Hs; [lia| |]; intros j Hj; (destruct (Z.eq_dec j 0) as [->|]; [by rewrite ?Z.add_0_r|]).
        -- replace (l + j) with (l + 1 + (j - 1)) by lia. apply Hn. lia.
        -- replace (l + j) with (l + 1 + (j - 1)) by lia. replace (r + j) with (r + 1 + (j - 1)) by lia. apply He. lia.
    + split.
      * intros H i Hi Hn He. assert (m l = m r) as Elr by lia.
        destruct (Z.eq_dec i 0) as [->|]; [by rewrite !Z.add_0_r|].
        specialize (Hn 0). rewrite Z.add_0_r in Hn. rewrite Elr, Z.eqb_refl, andb_true_r in E.
        rewrite <- Elr in E. destruct (Z.eqb_spec (m l) 0); [by destruct Hn; [lia|]|done].
      * intros H. specialize (H 0). rewrite !Z.add_0_r in H. rewrite H; lia.
Qed.

(** The strings agree on their first [n] characters, a terminator included. *)
Definition same_prefix (m : bytes) (l r n : Z) : Prop :=
  forall i, 0 <= i < n -> (forall j, 0 <= j < i -> m (l + j) <> 0) ->
    (forall j, 0 <= j < i -> m (l + j) = m (r + j)) -> m (l + i) = m (r + i).

(** C25: [strncmp] returns zero exactly when the first [n] characters of the two
    strings, up to a terminator, are the same. *)
Theorem strncmp_zero_iff m l r n : 0 <= n -> strncmp m l r n = 0 <-> same_prefix m l r n.
Proof.
  intros Hn. unfold strncmp, same_prefix. destruct (Z.eqb_spec n 0) as [->|Hne]; [split; [intros _ i Hi; lia|done]|].
  rewrite strncmp_loop_spec. rewrite Z2Nat.id by lia.
  split; intros H i Hi; apply H; lia.
Qed.

Lemma strncmp_zero_iff_witness :
  strncmp (place 0 [97; 98; 0; 99; 97; 98; 0; 100]) 0 4 4 = 0 /\
  same_prefix (place 0 [97; 98; 0; 99; 97; 98; 0; 100]) 0 4 4.
Proof.
  split; [vm_compute; reflexivity|]. apply strncmp_zero_iff; [lia|vm_compute; reflexivity].
Defined.
