(* ===== verification/Formatting.v ===== *)
(** libc/src/formatting.c: [snprintf] on raw memory.

    The buffer, the format and the strings are addresses of memory; a write is
    to [buffer + p] whether or not [p] is below the size, as in the code.  The
    variable arguments are a list of words; fetching one that is not there, and
    a number in a base below two, have no behaviour ([None]). *)
From S2P Require Import Prelude Machine CString.

(** * convert *)

(** Character [d] of "0123456789ABCDEF". *)
Definition representation (d : Z) : Z := if d <? 10 then 48 + d else 55 + d.

(** [do { ... } while (num != 0)]: the buffer, least significant digit first.
    A 64-bit number has at most 64 digits. *)
Fixpoint convert_loop (fuel : nat) (num base : Z) : list Z :=
  match fuel with
  | O => []
  | S fuel' =>
      representation (num mod base) ::
      (if num / base =? 0 then [] else convert_loop fuel' (num / base) base)
  end.

(** [for (i = 0; i < p && i < size; i++) dst[i] = buf[p-i-1]] *)
Fixpoint copy_digits (ds : list Z) (m : bytes) (dst size : Z) : bytes * Z :=
  match ds with
  | [] => (m, 0)
  | d :: ds' =>
      if 0 <? size then
        let '(m', i) := copy_digits ds' (upd m dst d) (dst + 1) (size - 1) in (m', i + 1)
      else (m, 0)
  end.

Definition convert (m : bytes) (num base dst size : Z) : option (bytes * Z) :=
  if size =? 0 then Some (m, 0)
  else if base <? 2 then None
  else Some (copy_digits (reverse (convert_loop 64 num base)) m dst size).

(** * vsnprintf *)
Section vsnprintf.
Variables (buffer buffer_size : Z).

(** Memory, the position in the buffer, and the arguments left. *)
Record vstate := mk_vs { v_mem : bytes; v_p : Z; v_args : list Z }.

Definition WRITE_CHAR (c : Z) (v : vstate) : vstate :=
  mk_vs (upd (v_mem v) (u64 (buffer + v_p v)) (u8 c)) (u64 (v_p v + 1)) (v_args v).

Definition room (v : vstate) : Z := u64 (buffer_size - v_p v).

(** [WRITE_SEQUENCE] of a string in memory and of a literal *)
Definition WRITE_SEQUENCE (fuel : nat) (s : Z) (v : vstate) : option vstate :=
  len ← strlen fuel (v_mem v) s;
  let n := Z.min len (room v) in
  Some (mk_vs (memcpy (v_mem v) (u64 (buffer + v_p v)) s n) (u64 (v_p v + n)) (v_args v)).

Fixpoint write_bytes (m : bytes) (a : Z) (bs : list Z) : bytes :=
  match bs with
  | [] => m
  | b :: bs' => write_bytes (upd m a b) (a + 1) bs'
  end.

Definition WRITE_LITERAL (lit : list Z) (v : vstate) : vstate :=
  let n := Z.min (Z.of_nat (length lit)) (room v) in
  mk_vs (write_bytes (v_mem v) (u64 (buffer + v_p v)) (take (Z.to_nat n) lit)) (u64 (v_p v + n)) (v_args v).

Definition NULL_PTR : list Z := [40; 110; 117; 108; 108; 41].
Definition HEX_PREFIX : list Z := [48; 120].

Definition WRITE_NUMBER (num base : Z) (v : vstate) : option vstate :=
  '(m, n) ← convert (v_mem v) num base (u64 (buffer + v_p v)) (room v);
  Some (mk_vs m (u64 (v_p v + n)) (v_args v)).

Definition va_arg (v : vstate) : option (Z * vstate) :=
  match v_args v with
  | [] => None
  | a :: args => Some (a, mk_vs (v_mem v) (v_p v) args)
  end.

(** The [switch] on the character after the percent sign. *)
Definition directive (fuel : nat) (c : Z) (v : vstate) : option vstate :=
  if c =? 99 (* c *) then '(a, v) ← va_arg v; Some (WRITE_CHAR a v)
  else if c =? 100 (* d *) then
    '(a, v) ← va_arg v;
    let arg_long := s32 a in
    if arg_long <? 0 then WRITE_NUMBER (u64 (- arg_long)) 10 (WRITE_CHAR 45 v)
    else WRITE_NUMBER arg_long 10 v
  else if c =? 111 (* o *) then '(a, v) ← va_arg v; WRITE_NUMBER (u32 a) 8 v
  else if c =? 115 (* s *) then
    '(a, v) ← va_arg v;
    if isnull (u64 a) then Some (WRITE_LITERAL NULL_PTR v) else WRITE_SEQUENCE fuel (u64 a) v
  else if c =? 112 (* p *) then
    '(a, v) ← va_arg v;
    if isnull (u64 a) then Some (WRITE_LITERAL NULL_PTR v)
    else WRITE_NUMBER (u64 a) 16 (WRITE_LITERAL HEX_PREFIX v)
  else if c =? 120 (* x *) then '(a, v) ← va_arg v; WRITE_NUMBER (u32 a) 16 v
  else if c =? 37 (* % *) then Some (WRITE_CHAR 37 v)
  else Some v.

(** The inner [while]: literal characters. *)
Fixpoint literals (fuel : nat) (traverse : Z) (v : vstate) : option (Z * vstate) :=
  match fuel with
  | O => None
  | S fuel' =>
      let c := v_mem v traverse in
      if negb (c =? 37) && negb (c =? 0) && (v_p v <? buffer_size)
      then literals fuel' (traverse + 1) (WRITE_CHAR c v)
      else Some (traverse, v)
  end.

(** The outer [for]. *)
Fixpoint vsnprintf_loop (fuel : nat) (traverse : Z) (v : vstate) : option vstate :=
  match fuel with
  | O => None
  | S fuel' =>
      if negb (v_mem v traverse =? 0) && (v_p v <? buffer_size) then
        '(traverse, v) ← literals fuel traverse v;
        if v_mem v traverse =? 0 then Some v
        else
          let traverse := traverse + 1 in
          v ← directive fuel (v_mem v traverse) v;
          vsnprintf_loop fuel' (traverse + 1) v
      else Some v
  end.

(** The terminator and the result. *)
Definition vsnprintf_end (v : vstate) : bytes * Z :=
  let p := if v_p v =? buffer_size then u64 (v_p v - 1) else v_p v in
  (upd (v_mem v) (u64 (buffer + p)) 0, s32 p).

Definition vsnprintf (fuel : nat) (m : bytes) (format : Z) (args : list Z) : option (bytes * Z) :=
  v ← vsnprintf_loop fuel format (mk_vs m 0 args);
  Some (vsnprintf_end v).
End vsnprintf.

(** [snprintf(buffer, buffer_size, format, ...)] *)
Definition snprintf (fuel : nat) (m : bytes) (buffer buffer_size format : Z) (args : list Z) : option (bytes * Z) :=
  vsnprintf buffer buffer_size fuel m format args.

(** [n] bytes of memory, for examples. *)
Definition peek (m : bytes) (a : Z) (n : nat) : list Z := map (fun i => m (a + Z.of_nat i)) (seq 0 n).

(** * Numbers and their digits *)

Definition digit_value (c : Z) : Z := if c <? 58 then c - 48 else c - 55.

(** The number written by digits, the most significant first. *)
Definition number (base : Z) (ds : list Z) : Z := foldl (fun acc c => acc * base + digit_value c) 0 ds.

Lemma representation_value d : 0 <= d < 16 -> digit_value (representation d) = d.
Proof.
  intros Hd. unfold digit_value, representation. destruct (Z.ltb_spec d 10).
  - destruct (Z.ltb_spec (48 + d) 58); lia.
  - destruct (Z.ltb_spec (55 + d) 58); lia.
Qed.

Lemma representation_range d : 0 <= d < 16 -> 0 <= representation d < 256.
Proof. intros. unfold representation. destruct (d <? 10); lia. Qed.

Lemma number_snoc base ds c : number base (ds ++ [c]) = number base ds * base + digit_value c.
Proof. unfold number. by rewrite foldl_app. Qed.

Section digits.
Variable base : Z.
Hypothesis Hbase : 2 <= base <= 16.

Lemma convert_loop_value fuel : forall num, 0 <= num < base ^ Z.of_nat fuel ->
  number base (reverse (convert_loop fuel num base)) = num.
Proof.
  induction fuel as [|fuel IH]; intros num Hn; [cbn in *; lia|]. cbn [convert_loop]. rewrite reverse_cons.
  pose proof (Z.mod_pos_bound num base ltac:(lia)). pose proof (Z.div_mod num base ltac:(lia)).
  rewrite number_snoc, representation_value by lia.
  destruct (Z.eqb_spec (num / base) 0) as [E|E]; [cbn; lia|].
  rewrite IH; [lia|]. split; [apply Z.div_pos; lia|]. apply Z.div_lt_upper_bound; [lia|].
  rewrite Nat2Z.inj_succ, Z.pow_succ_r in Hn by lia. lia.
Qed.

Lemma convert_loop_chars fuel : forall num, 0 <= num ->
  Forall (fun c => 0 <= c < 256 /\ c <> 0) (convert_loop fuel num base).
Proof.
  induction fuel as [|fuel IH]; intros num Hn; [constructor|]. cbn [convert_loop].
  pose proof (Z.mod_pos_bound num base ltac:(lia)). constructor.
  - unfold representation. destruct (_ <? 10) eqn:E; zbool; lia.
  - destruct (_ =? 0); [constructor|]. apply IH. apply Z.div_pos; lia.
Qed.

(** The most significant digit of a positive number is not zero. *)
Lemma convert_loop_leading fuel : forall num d, 0 < num < base ^ Z.of_nat fuel ->
  last (convert_loop fuel num base) = Some d -> digit_value d <> 0.
Proof.
  induction fuel as [|fuel IH]; intros num d Hn Hl; [done|]. cbn [convert_loop] in Hl.
  pose proof (Z.mod_pos_bound num base ltac:(lia)). pose proof (Z.div_mod num base ltac:(lia)).
  rewrite Nat2Z.inj_succ, Z.pow_succ_r in Hn by lia.
  destruct (Z.eqb_spec (num / base) 0) as [E|E].
  - injection Hl as <-. rewrite representation_value by lia. lia.
  - apply (IH (num / base)).
    + split; [pose proof (Z.div_pos num base); lia|]. apply Z.div_lt_upper_bound; lia.
    + destruct (convert_loop fuel (num / base) base) eqn:Ec; [|done].
      destruct fuel; [|done]. cbn in Hn. rewrite Z.div_small in E by lia. done.
Qed.

Lemma convert_loop_length fuel num : (1 <= fuel)%nat -> (1 <= length (convert_loop fuel num base) <= fuel)%nat.
Proof.
  revert num. induction fuel as [|fuel IH]; intros num Hf; [lia|]. cbn [convert_loop length].
  destruct (_ =? 0); [cbn; lia|]. destruct fuel as [|fuel]; [cbn; lia|]. specialize (IH (num / base)). lia.
Qed.
End digits.

(** The digits [convert] writes for a number. *)
Definition digits (base num : Z) : list Z := reverse (convert_loop 64 num base).

Lemma digits_fit base num : 2 <= base -> 0 <= num < 2 ^ 64 -> 0 <= num < base ^ Z.of_nat 64.
Proof.
  intros Hb Hn. split; [lia|]. eapply Z.lt_le_trans; [apply Hn|]. change (Z.of_nat 64) with 64.
  apply Z.pow_le_mono_l. lia.
Qed.

Lemma upd_other m a v x : x <> a -> upd m a v x = m x.
Proof. unfold upd. by destruct (Z.eqb_spec x a). Qed.

Lemma upd_same m a v : upd m a v a = v.
Proof. unfold upd. by rewrite Z.eqb_refl. Qed.

(** Memory with bytes written from an address on. *)
Lemma write_bytes_spec bs : forall m a x,
  write_bytes m a bs x =
    if (a <=? x) && (x <? a + Z.of_nat (length bs)) then default 0 (bs !! Z.to_nat (x - a)) else m x.
Proof.
  induction bs as [|b bs IH]; intros m a x; cbn [write_bytes length].
  - destruct (Z.leb_spec a x), (Z.ltb_spec x (a + Z.of_nat 0)); cbn; done || lia.
  - rewrite IH. destruct (Z.eq_dec x a) as [->|Hne].
    + rewrite upd_same. destruct (Z.leb_spec (a + 1) a), (Z.leb_spec a a), (Z.ltb_spec a (a + Z.of_nat (S (length bs))));
        cbn; try lia. by replace (a - a) with 0 by lia.
    + rewrite upd_other by done.
      destruct (Z.leb_spec (a + 1) x), (Z.ltb_spec x (a + 1 + Z.of_nat (length bs))), (Z.leb_spec a x),
        (Z.ltb_spec x (a + Z.of_nat (S (length bs)))); cbn [andb]; try done; try lia.
      replace (Z.to_nat (x - a)) with (S (Z.to_nat (x - (a + 1)))) by lia. done.
Qed.

Lemma copy_digits_write ds : forall m dst size, 0 <= size ->
  copy_digits ds m dst size =
    (write_bytes m dst (take (Z.to_nat size) ds), Z.min (Z.of_nat (length ds)) size).
Proof.
  induction ds as [|d ds IH]; intros m dst size Hs; cbn [copy_digits].
  - rewrite take_nil. cbn. f_equal. lia.
  - destruct (Z.ltb_spec 0 size).
    + rewrite IH by lia. replace (Z.to_nat size) with (S (Z.to_nat (size - 1))) by lia. cbn. f_equal. lia.
    + assert (size = 0) as -> by lia. cbn. f_equal.
Qed.

Lemma digits_spec base num : 2 <= base <= 16 -> 0 <= num < 2 ^ 64 ->
  number base (digits base num) = num /\ (1 <= length (digits base num) <= 64)%nat /\
  (0 < num -> forall d, head (digits base num) = Some d -> digit_value d <> 0) /\
  Forall (fun c => 0 <= c < 256 /\ c <> 0) (digits base num).
Proof.
  intros Hb Hn. pose proof (digits_fit base num ltac:(lia) Hn) as Hf. unfold digits. split_and!.
  - by apply convert_loop_value.
  - rewrite length_reverse. apply (convert_loop_length base 64 num). lia.
  - rewrite length_reverse. apply (convert_loop_length base 64 num). lia.
  - intros Hp d. rewrite head_reverse. apply convert_loop_leading; lia.
  - apply Forall_reverse. apply convert_loop_chars; lia.
Qed.

Lemma convert_spec m num base dst size :
  2 <= base -> 0 <= size ->
  convert m num base dst size =
    Some (write_bytes m dst (take (Z.to_nat size) (digits base num)), Z.min (Z.of_nat (length (digits base num))) size).
Proof.
  intros Hb Hs. unfold convert. destruct (Z.eqb_spec size 0) as [->|Hne]; [cbn; do 2 f_equal; lia|].
  rewrite (proj2 (Z.ltb_ge base 2)) by lia. by rewrite copy_digits_write.
Qed.

(** C26: [convert] writes the digits of the number, as many as fit from the most
    significant on: they denote the number, have no leading zero, are at most
    64, and no other byte is written. *)
Theorem convert_writes_digits m num base dst size :
  2 <= base <= 16 -> 0 <= num < 2 ^ 64 -> 0 <= size ->
  exists m' ds, convert m num base dst size = Some (m', Z.min (Z.of_nat (length ds)) size) /\
    number base ds = num /\ (1 <= length ds <= 64)%nat /\
    (0 < num -> forall d, head ds = Some d -> digit_value d <> 0) /\
    forall a, m' a = if (dst <=? a) && (a <? dst + Z.min (Z.of_nat (length ds)) size)
                     then default 0 (ds !! Z.to_nat (a - dst)) else m a.
Proof.
  intros Hb Hn Hs. destruct (digits_spec base num Hb Hn) as (H1 & H2 & H3 & _). do 2 eexists.
  split; [apply convert_spec; lia|]. split_and!; [done|lia|lia|done|]. intros a.
  rewrite write_bytes_spec, length_take.
  replace (Z.of_nat (Z.to_nat size `min` length (digits base num))) with (Z.min (Z.of_nat (length (digits base num))) size) by lia.
  destruct (Z.leb_spec dst a), (Z.ltb_spec a (dst + Z.min (Z.of_nat (length (digits base num))) size)); try done.
  cbn. by rewrite lookup_take_lt by lia.
Qed.

Lemma convert_writes_digits_witness : exists m' ds,
  convert (fun _ => 0) 48879 16 1000 10 = Some (m', Z.min (Z.of_nat (length ds)) 10) /\ number 16 ds = 48879.
Proof.
  destruct (convert_writes_digits (fun _ => 0) 48879 16 1000 10) as (m' & ds & H1 & H2 & _); [lia|lia|lia|].
  by exists m', ds.
Defined.

(** * What a format renders to *)

(** A directive with its argument; a string argument with its characters. *)
Inductive dir :=
  | DChar (a : Z) | DDec (a : Z) | DOct (a : Z) | DHex (a : Z) | DPtr (a : Z)
  | DStr (a : Z) (bs : list Z) | DPercent.

Definition dir_char (d : dir) : Z :=
  match d with
  | DChar _ => 99 | DDec _ => 100 | DOct _ => 111 | DHex _ => 120 | DPtr _ => 112
  | DStr _ _ => 115 | DPercent => 37
  end.
Definition dir_args (d : dir) : list Z :=
  match d with
  | DChar a | DDec a | DOct a | DHex a | DPtr a | DStr a _ => [a]
  | DPercent => []
  end.
Definition dir_out (d : dir) : list Z :=
  match d with
  | DChar a => [u8 a]
  | DDec a => if s32 a <? 0 then 45 :: digits 10 (u64 (- s32 a)) else digits 10 (s32 a)
  | DOct a => digits 8 (u32 a)
  | DHex a => digits 16 (u32 a)
  | DPtr a => if isnull (u64 a) then NULL_PTR else HEX_PREFIX ++ digits 16 (u64 a)
  | DStr a bs => if isnull (u64 a) then NULL_PTR else bs
  | DPercent => [37]
  end.

(** A format: literal characters before each directive, and at the end. *)
Definition segment : Type := list Z * dir.
Definition seg_fmt (x : segment) : list Z := x.1 ++ [37; dir_char x.2].
Definition seg_out (x : segment) : list Z := x.1 ++ dir_out x.2.
Definition fmt_text (xs : list segment) (tl : list Z) : list Z := concat (map seg_fmt xs) ++ tl.
Definition fmt_args (xs : list segment) : list Z := concat (map (fun x => dir_args x.2) xs).
Definition fmt_out (xs : list segment) (tl : list Z) : list Z := concat (map seg_out xs) ++ tl.

Definition literal_char (c : Z) : Prop := 0 < c < 256 /\ c <> 37.

(** The bytes [bs] are in memory from [a] on. *)
Definition mem_has (m : bytes) (a : Z) (bs : list Z) : Prop :=
  forall i b, bs !! i = Some b -> m (a + Z.of_nat i) = b.

Section render.
Variables (m : bytes) (buffer size : Z).
Hypothesis Hm : byte_mem m.
Hypothesis Hbuf : 0 <= buffer /\ buffer + size < 2 ^ 64.
Hypothesis Hsize : 0 <= size.

(** An address range apart from the buffer. *)
Definition off_buffer (a n : Z) : Prop := 0 <= a /\ a + n < 2 ^ 64 /\ (a + n <= buffer \/ buffer + size <= a).

(** A string argument is a string in memory apart from the buffer. *)
Definition dir_ok (d : dir) : Prop :=
  match d with
  | DStr a bs => a = 0 \/ (0 < a < 2 ^ 64 /\ mem_has m a (bs ++ [0]) /\ Forall (fun b => b <> 0) bs /\
      off_buffer a (Z.of_nat (length bs) + 1))
  | _ => True
  end.

(** [out] has been written and [args] are left. *)
Definition rendered (v : vstate) (out args : list Z) : Prop :=
  (forall x, v_mem v x = write_bytes m buffer out x) /\ v_p v = Z.of_nat (length out) /\ v_args v = args.

Lemma rendered_off v out args x :
  rendered v out args -> Z.of_nat (length out) <= size -> x < buffer \/ buffer + size <= x -> v_mem v x = m x.
Proof.
  intros (Hx & _ & _) Hl Ho. rewrite Hx, write_bytes_spec.
  destruct (Z.leb_spec buffer x), (Z.ltb_spec x (buffer + Z.of_nat (length out))); cbn; done || lia.
Qed.

Lemma rendered_has v out args a bs :
  rendered v out args -> Z.of_nat (length out) <= size -> off_buffer a (Z.of_nat (length bs)) ->
  mem_has m a bs -> mem_has (v_mem v) a bs.
Proof.
  intros Hv Hl (_ & _ & Ho) Hb i b Hi. rewrite (rendered_off v out args); [by apply Hb|done|done|].
  apply lookup_lt_Some in Hi. lia.
Qed.

Lemma write_bytes_app bs out x :
  write_bytes m buffer (out ++ bs) x =
    write_bytes (write_bytes m buffer out) (buffer + Z.of_nat (length out)) bs x.
Proof.
  rewrite !write_bytes_spec, length_app.
  destruct (Z.leb_spec buffer x), (Z.ltb_spec x (buffer + Z.of_nat (length out))),
    (Z.ltb_spec x (buffer + Z.of_nat (length out + length bs))), (Z.leb_spec (buffer + Z.of_nat (length out)) x),
    (Z.ltb_spec x (buffer + Z.of_nat (length out) + Z.of_nat (length bs))); cbn; try done; try lia.
  - by rewrite lookup_app_l by lia.
  - rewrite lookup_app_r by lia. do 2 f_equal. lia.
Qed.

Lemma write_bytes_ext m1 m2 a bs : (forall x, m1 x = m2 x) -> forall x, write_bytes m1 a bs x = write_bytes m2 a bs x.
Proof. intros H x. rewrite !write_bytes_spec. by rewrite H. Qed.

(** Writing [bs] at the position, by whatever means. *)
Lemma rendered_write v out args mem' bs :
  rendered v out args -> (forall x, mem' x = write_bytes (v_mem v) (buffer + v_p v) bs x) ->
  Z.of_nat (length (out ++ bs)) <= size ->
  rendered (mk_vs mem' (u64 (v_p v + Z.of_nat (length bs))) args) (out ++ bs) args.
Proof.
  intros (Hx & Hp & Ha) Hm' Hl. rewrite length_app in Hl. split_and!; cbn; [|rewrite length_app, u64_small by lia; lia|done].
  intros x. rewrite Hm', Hp, write_bytes_app. by apply write_bytes_ext.
Qed.

Lemma rendered_char v out args c :
  rendered v out args -> 0 <= c < 256 -> Z.of_nat (length (out ++ [c])) <= size ->
  rendered (WRITE_CHAR buffer c v) (out ++ [c]) args.
Proof.
  intros Hv Hc Hl. pose proof Hv as (_ & Hp & Ha). unfold WRITE_CHAR. rewrite Ha. rewrite length_app in Hl. cbn in Hl.
  rewrite u8_small by lia. change (v_p v + 1) with (v_p v + Z.of_nat (length [c])).
  apply rendered_write; [by rewrite <- Ha in Hv |- *| |rewrite length_app; cbn; lia].
  intros x. cbn. by rewrite u64_small by lia.
Qed.

Lemma room_of v out args : rendered v out args -> Z.of_nat (length out) <= size ->
  room size v = size - Z.of_nat (length out).
Proof. intros (_ & Hp & _) Hl. unfold room. rewrite Hp, u64_small; lia. Qed.

Lemma rendered_literal v out args bs :
  rendered v out args -> Z.of_nat (length (out ++ bs)) <= size -> rendered (WRITE_LITERAL buffer size bs v) (out ++ bs) args.
Proof.
  intros Hv Hl. pose proof Hv as (_ & Hp & Ha). rewrite length_app in Hl. unfold WRITE_LITERAL.
  rewrite (room_of v out args) by (done || lia). rewrite Z.min_l by lia. rewrite Ha, take_ge by lia.
  apply rendered_write; [done| |rewrite length_app; lia]. intros x. by rewrite u64_small by lia.
Qed.

Lemma rendered_number v out args num base :
  rendered v out args -> 2 <= base -> Z.of_nat (length (out ++ digits base num)) <= size ->
  exists v', WRITE_NUMBER buffer size num base v = Some v' /\ rendered v' (out ++ digits base num) args.
Proof.
  intros Hv Hb Hl. pose proof Hv as (_ & Hp & Ha). rewrite length_app in Hl. unfold WRITE_NUMBER.
  rewrite (room_of v out args) by (done || lia). rewrite convert_spec by lia. cbn [mbind option_bind].
  rewrite Z.min_l by lia. rewrite Ha, take_ge by lia. eexists. split; [done|].
  apply rendered_write; [done| |rewrite length_app; lia]. intros x. by rewrite u64_small by lia.
Qed.

Definition byte_list (bs : list Z) : Prop := Forall (fun b => 0 <= b < 256) bs.

Lemma rendered_bytes v out args : rendered v out args -> byte_list out -> byte_mem (v_mem v).
Proof.
  intros (Hx & _) Hb x. rewrite Hx, write_bytes_spec. destruct (_ && _); [|apply Hm].
  destruct (out !! _) as [b|] eqn:E; cbn; [|lia]. exact (Forall_lookup_1 _ _ _ _ Hb E).
Qed.

Lemma mem_has_cstr m' a bs : mem_has m' a (bs ++ [0]) -> Forall (fun b => b <> 0) bs -> cstr m' a (Z.of_nat (length bs)).
Proof.
  intros Hh Hn. split_and!; [lia| |].
  - apply Hh. rewrite lookup_app_r, Nat.sub_diag; done.
  - intros i Hi. destruct (lookup_lt_is_Some_2 bs (Z.to_nat i)) as [b Hb]; [lia|].
    replace (a + i) with (a + Z.of_nat (Z.to_nat i)) by lia.
    rewrite (Hh (Z.to_nat i) b); [exact (Forall_lookup_1 _ _ _ _ Hn Hb)|]. by apply lookup_app_l_Some.
Qed.

Lemma rendered_string fuel v out args a bs :
  rendered v out args -> byte_list out -> mem_has m a (bs ++ [0]) -> Forall (fun b => b <> 0) bs ->
  off_buffer a (Z.of_nat (length bs) + 1) -> Z.of_nat (length (out ++ bs)) <= size -> size + 8 <= Z.of_nat fuel ->
  exists v', WRITE_SEQUENCE buffer size fuel a v = Some v' /\ rendered v' (out ++ bs) args.
Proof.
  intros Hv Hbo Hh Hnz Hoff Hl Hf. pose proof Hv as (_ & Hp & Ha). rewrite length_app in Hl.
  assert (mem_has (v_mem v) a (bs ++ [0])) as Hh'.
  { apply (rendered_has v out args); [done|lia| |done]. rewrite length_app. cbn.
    by replace (Z.of_nat (length bs + 1)) with (Z.of_nat (length bs) + 1) by lia. }
  unfold WRITE_SEQUENCE. rewrite (strlen_spec fuel _ a (Z.of_nat (length bs)));
    [|by apply (rendered_bytes v out args)|by apply mem_has_cstr|lia].
  cbn [mbind option_bind]. rewrite (room_of v out args) by (done || lia). rewrite Z.min_l by lia. rewrite Ha.
  eexists. split; [done|]. apply rendered_write; [done| |rewrite length_app; lia].
  intros x. rewrite u64_small by lia. destruct Hoff as (_ & _ & Hoff). rewrite memcpy_spec, write_bytes_spec by lia.
  destruct (Z.leb_spec (buffer + v_p v) x), (Z.ltb_spec x (buffer + v_p v + Z.of_nat (length bs))); cbn [andb]; try done.
  destruct (lookup_lt_is_Some_2 bs (Z.to_nat (x - (buffer + v_p v)))) as [b Hb]; [lia|]. rewrite Hb. cbn.
  replace (x - (buffer + v_p v) + a) with (a + Z.of_nat (Z.to_nat (x - (buffer + v_p v)))) by lia.
  apply Hh'. by apply lookup_app_l_Some.
Qed.

Lemma digits_bytes base num : 2 <= base <= 16 -> 0 <= num < 2 ^ 64 -> byte_list (digits base num).
Proof.
  intros Hb Hn. destruct (digits_spec base num Hb Hn) as (_ & _ & _ & H).
  eapply Forall_impl; [exact H|]. naive_solver.
Qed.

Lemma s32_range x : - 2 ^ 31 <= s32 x < 2 ^ 31.
Proof. unfold s32. pose proof (Z.mod_pos_bound (x + 2 ^ 31) (2 ^ 32)). lia. Qed.

Lemma u32_range x : 0 <= u32 x < 2 ^ 32.
Proof. apply Z.mod_pos_bound. lia. Qed.

Lemma dir_out_bytes d : dir_ok d -> byte_list (dir_out d).
Proof.
  intros Hd. destruct d as [a|a|a|a|a|a bs|]; cbn [dir_out].
  - constructor; [apply u8_range|constructor].
  - pose proof (s32_range a). destruct (Z.ltb_spec (s32 a) 0).
    + constructor; [lia|]. apply digits_bytes; [lia|apply u64_range].
    + apply digits_bytes; lia.
  - pose proof (u32_range a). apply digits_bytes; lia.
  - pose proof (u32_range a). apply digits_bytes; lia.
  - destruct (isnull (u64 a)); [repeat constructor; lia|]. apply Forall_app. split; [repeat constructor; lia|].
    apply digits_bytes; [lia|apply u64_range].
  - destruct Hd as [->|(Ha & Hh & _)]; [repeat constructor; lia|].
    destruct (isnull _); [repeat constructor; lia|]. apply Forall_lookup. intros i b Hi.
    rewrite <- (Hh i b); [apply Hm|]. by apply lookup_app_l_Some.
  - constructor; [lia|constructor].
Qed.

Lemma rendered_arg v out a args :
  rendered v out (a :: args) -> exists v', va_arg v = Some (a, v') /\ rendered v' out args.
Proof.
  intros (Hx & Hp & Ha). unfold va_arg. rewrite Ha. eexists. split; [done|]. by split_and!.
Qed.

Lemma directive_spec fuel d v out args :
  rendered v out (dir_args d ++ args) -> byte_list out -> dir_ok d ->
  Z.of_nat (length (out ++ dir_out d)) <= size -> size + 8 <= Z.of_nat fuel ->
  exists v', directive buffer size fuel (dir_char d) v = Some v' /\ rendered v' (out ++ dir_out d) args.
Proof.
  intros Hv Hbo Hd Hl Hf. unfold directive.
  destruct d as [a|a|a|a|a|a bs|]; cbn [dir_char dir_args app dir_out Z.eqb Pos.eqb] in *;
    try (destruct (rendered_arg _ _ _ _ Hv) as (v1 & -> & Hv1); cbn [mbind option_bind]).
  - eexists. split; [done|]. replace (WRITE_CHAR buffer a v1) with (WRITE_CHAR buffer (u8 a) v1).
    + apply rendered_char; [done|apply u8_range|done].
    + unfold WRITE_CHAR. by rewrite (u8_small (u8 a)) by apply u8_range.
  - destruct (s32 a <? 0) eqn:E; [|by apply rendered_number].
    replace (out ++ 45 :: digits 10 (u64 (- s32 a))) with ((out ++ [45]) ++ digits 10 (u64 (- s32 a))) in Hl |- *
      by (by rewrite <- app_assoc).
    apply rendered_number; [|lia|done]. apply rendered_char; [done|lia|]. rewrite length_app in Hl. lia.
  - by apply rendered_number.
  - by apply rendered_number.
  - destruct (isnull (u64 a)); [eexists; split; [done|]; by apply rendered_literal|].
    rewrite app_assoc in Hl |- *. apply rendered_number; [|lia|done]. apply rendered_literal; [done|].
    rewrite length_app in Hl. lia.
  - destruct (isnull (u64 a)) eqn:E; [eexists; split; [done|]; by apply rendered_literal|].
    destruct Hd as [->|(Ha & Hh & Hn & Ho)]; [done|]. rewrite u64_small by lia. by apply rendered_string.
  - eexists. split; [done|]. by apply rendered_char; [|lia|].
Qed.

Lemma literals_spec cs : forall fuel a v out args t,
  rendered v out args -> Forall literal_char cs -> mem_has m a (cs ++ [t]) -> t = 0 \/ t = 37 ->
  off_buffer a (Z.of_nat (length cs) + 1) -> Z.of_nat (length (out ++ cs)) <= size -> (length cs < fuel)%nat ->
  exists v', literals buffer size fuel a v = Some (a + Z.of_nat (length cs), v') /\ rendered v' (out ++ cs) args.
Proof.
  induction cs as [|c cs IH]; intros fuel a v out args t Hv Hc Hh Ht Ho Hl Hf; (destruct fuel as [|fuel]; [cbn in Hf; lia|]);
    cbn [literals]; rewrite length_app in Hl; cbn [length] in Hl.
  - assert (v_mem v a = t) as ->.
    { rewrite (rendered_off v out args) by (done || lia || (destruct Ho as (_ & _ & ?); cbn in *; lia)).
      specialize (Hh 0%nat t eq_refl). by rewrite Z.add_0_r in Hh. }
    exists v. rewrite app_nil_r, Z.add_0_r. split; [|done]. destruct Ht as [->| ->]; done.
  - apply Forall_cons in Hc as [[Hc Hc37] Hcs]. cbn [length] in *.
    assert (v_mem v a = c) as ->.
    { rewrite (rendered_off v out args) by (done || lia || (destruct Ho as (_ & _ & ?); lia)).
      specialize (Hh 0%nat c eq_refl). by rewrite Z.add_0_r in Hh. }
    pose proof Hv as (_ & Hp & _). rewrite Hp. rewrite (proj2 (Z.eqb_neq c 37)), (proj2 (Z.eqb_neq c 0)), (proj2 (Z.ltb_lt _ _)) by lia.
    cbn [negb andb]. destruct (IH fuel (a + 1) (WRITE_CHAR buffer c v) (out ++ [c]) args t) as (v' & -> & Hv'); try done; try lia.
    + apply rendered_char; [done|lia|]. rewrite length_app. cbn. lia.
    + intros i b Hi. replace (a + 1 + Z.of_nat i) with (a + Z.of_nat (S i)) by lia. by apply Hh.
    + destruct Ho as (? & ? & ?). split_and!; lia.
    + rewrite !length_app. cbn. lia.
    + exists v'. rewrite <- app_assoc in Hv'. split; [|done]. do 2 f_equal. lia.
Qed.

Definition seg_ok (x : segment) : Prop := Forall literal_char x.1 /\ dir_ok x.2.

Lemma literal_bytes cs : Forall literal_char cs -> byte_list cs.
Proof. intros H. eapply Forall_impl; [exact H|]. intros c [? _]. lia. Qed.

Lemma mem_has_app m' a bs1 bs2 : mem_has m' a (bs1 ++ bs2) ->
  mem_has m' a bs1 /\ mem_has m' (a + Z.of_nat (length bs1)) bs2.
Proof.
  intros H. split; intros i b Hi; [by apply H, lookup_app_l_Some|].
  rewrite <- Z.add_assoc, <- Nat2Z.inj_add. apply H. rewrite lookup_app_r by lia. by rewrite Nat.add_comm, Nat.add_sub.
Qed.

(** The loop on the literals at the end. *)
Lemma vsnprintf_tail_spec fuel a v out tl :
  rendered v out [] -> Forall literal_char tl -> mem_has m a (tl ++ [0]) ->
  off_buffer a (Z.of_nat (length tl) + 1) -> Z.of_nat (length (out ++ tl)) < size -> (length tl < fuel)%nat ->
  exists v', vsnprintf_loop buffer size fuel a v = Some v' /\ rendered v' (out ++ tl) [].
Proof.
  intros Hv Ht Hh Ho Hl Hf. destruct fuel as [|fuel]; [lia|]. cbn [vsnprintf_loop]. rewrite length_app in Hl.
  destruct (negb _ && _) eqn:E.
  - destruct (literals_spec tl (S fuel) a v out [] 0 Hv Ht Hh) as (v' & -> & Hv'); [by left|done|rewrite length_app; lia|done|].
    cbn [mbind option_bind]. rewrite (rendered_off v' (out ++ tl) []); [|done|rewrite length_app; lia|destruct Ho as (_ & _ & ?); lia].
    rewrite (Hh (length tl) 0) by (by rewrite lookup_app_r, Nat.sub_diag). eauto.
  - destruct tl as [|c tl]; [rewrite app_nil_r; eauto|].
    apply Forall_cons in Ht as [[Hc _] _]. pose proof Hv as (_ & Hp & _). cbn [length] in *.
    rewrite (rendered_off v out []) in E by (done || lia || (destruct Ho as (_ & _ & ?); lia)).
    pose proof (Hh 0%nat c eq_refl) as Hc0. rewrite Z.add_0_r in Hc0. rewrite Hc0 in E.
    rewrite (proj2 (Z.eqb_neq c 0)), Hp, (proj2 (Z.ltb_lt _ _)) in E by lia. done.
Qed.

Lemma vsnprintf_loop_spec xs tl : forall fuel a v out,
  rendered v out (fmt_args xs) -> byte_list out -> Forall seg_ok xs -> Forall literal_char tl ->
  mem_has m a (fmt_text xs tl ++ [0]) -> off_buffer a (Z.of_nat (length (fmt_text xs tl)) + 1) ->
  Z.of_nat (length (out ++ fmt_out xs tl)) < size ->
  Z.of_nat (length (fmt_text xs tl)) + size + 9 <= Z.of_nat fuel ->
  exists v', vsnprintf_loop buffer size fuel a v = Some v' /\ rendered v' (out ++ fmt_out xs tl) [].
Proof.
  induction xs as [|[cs d] xs IH]; intros fuel a v out Hv Hbo Hxs Ht Hh Ho Hl Hf.
  { apply vsnprintf_tail_spec; try done. change (fmt_text [] tl) with tl in Hf. change (fmt_out [] tl) with tl. lia. }
  destruct fuel as [|fuel]; [lia|]. cbn [vsnprintf_loop].
  apply Forall_cons in Hxs as [[Hcs Hd] Hxs]. cbn [fst snd] in *.
  assert (fmt_text (@cons segment (cs, d) xs) tl = cs ++ 37 :: dir_char d :: fmt_text xs tl) as Et.
  { unfold fmt_text, seg_fmt. cbn. by rewrite <- !app_assoc. }
  assert (out ++ fmt_out (@cons segment (cs, d) xs) tl = ((out ++ cs) ++ dir_out d) ++ fmt_out xs tl) as Eo.
  { unfold fmt_out, seg_out. cbn. by rewrite <- !app_assoc. }
  rewrite Eo in Hl |- *. rewrite Et in Hh, Ho, Hf. rewrite length_app in Hl. rewrite !length_app in Ho, Hf. cbn [length] in *.
  pose proof Hl as Hl'. rewrite length_app in Hl'.
  assert (mem_has m a (cs ++ [37]) /\ mem_has m (a + Z.of_nat (length cs) + 1) [dir_char d] /\
    mem_has m (a + Z.of_nat (length cs) + 2) (fmt_text xs tl ++ [0])) as (Hh1 & Hh2 & Hh3).
  { rewrite <- app_assoc in Hh.
    change (cs ++ (37 :: dir_char d :: fmt_text xs tl) ++ [0]) with (cs ++ [37] ++ [dir_char d] ++ (fmt_text xs tl ++ [0])) in Hh.
    rewrite app_assoc in Hh. apply mem_has_app in Hh as [H1 H2]. apply mem_has_app in H2 as [H2 H3].
    rewrite length_app in H2, H3. cbn [length] in *. split_and!; [done| |].
    - by replace (a + Z.of_nat (length cs) + 1) with (a + Z.of_nat (length cs + 1)) by lia.
    - by replace (a + Z.of_nat (length cs) + 2) with (a + Z.of_nat (length cs + 1) + Z.of_nat 1) by lia. }
  destruct (literals_spec cs (S fuel) a v out _ 37 Hv Hcs Hh1) as (v1 & E1 & Hv1);
    [by right|destruct Ho as (? & ? & ?); split_and!; lia|rewrite length_app; rewrite length_app in Hl'; lia|lia|].
  assert (negb (v_mem v a =? 0) && (v_p v <? size) = true) as ->.
  { pose proof Hv as (_ & Hp & _). rewrite length_app in Hl'. rewrite Hp, (proj2 (Z.ltb_lt _ _)), andb_true_r by lia.
    rewrite (rendered_off v out _ _ Hv) by (lia || (destruct Ho as (_ & _ & ?); lia)).
    apply negb_true_iff, Z.eqb_neq. destruct cs as [|c cs].
    - specialize (Hh1 0%nat 37 eq_refl). rewrite Z.add_0_r in Hh1. lia.
    - specialize (Hh1 0%nat c eq_refl). rewrite Z.add_0_r in Hh1. apply Forall_cons in Hcs as [[? _] _]. lia. }
  rewrite E1. cbn [mbind option_bind].
  assert (forall x, a <= x < a + Z.of_nat (length cs) + 2 -> v_mem v1 x = m x) as Hx.
  { intros x Hxr. apply (rendered_off _ _ _ _ Hv1); [lia|]. destruct Ho as (_ & _ & ?). lia. }
  rewrite !Hx by lia. specialize (Hh2 0%nat _ eq_refl). rewrite Z.add_0_r in Hh2. rewrite Hh2.
  rewrite (Hh1 (length cs) 37) by (by rewrite lookup_app_r, Nat.sub_diag). cbn [Z.eqb].
  destruct (directive_spec (S fuel) d v1 (out ++ cs) (fmt_args xs) Hv1) as (v2 & -> & Hv2); try done;
    [apply Forall_app; split; [done|by apply literal_bytes]|rewrite length_app; lia|lia|].
  cbn [mbind option_bind]. replace (a + Z.of_nat (length cs) + 1 + 1) with (a + Z.of_nat (length cs) + 2) by lia.
  apply IH; try done.
  - apply Forall_app. split; [apply Forall_app; split; [done|by apply literal_bytes]|by apply dir_out_bytes].
  - destruct Ho as (? & ? & ?). split_and!; lia.
  - rewrite length_app. lia.
  - lia.
Qed.
End render.

(** The buffer after a format whose rendering fits. *)
Lemma snprintf_spec fuel m buffer size format xs tl :
  byte_mem m -> 0 <= buffer -> buffer + size < 2 ^ 64 -> size < 2 ^ 31 ->
  Forall (seg_ok m buffer size) xs -> Forall literal_char tl ->
  mem_has m format (fmt_text xs tl ++ [0]) ->
  off_buffer buffer size format (Z.of_nat (length (fmt_text xs tl)) + 1) ->
  Z.of_nat (length (fmt_out xs tl)) < size ->
  Z.of_nat (length (fmt_text xs tl)) + size + 9 <= Z.of_nat fuel ->
  exists m', snprintf fuel m buffer size format (fmt_args xs) = Some (m', Z.of_nat (length (fmt_out xs tl))) /\
    forall x, m' x = write_bytes m buffer (fmt_out xs tl ++ [0]) x.
Proof.
  intros Hm Hb1 Hb2 Hs Hxs Ht Hh Ho Hl Hf.
  assert (exists v', vsnprintf_loop buffer size fuel format (mk_vs m 0 (fmt_args xs)) = Some v' /\
    rendered m buffer v' ([] ++ fmt_out xs tl) []) as (v & E & Hx & Hp & _).
  { apply vsnprintf_loop_spec; try done. constructor. }
  unfold snprintf, vsnprintf. rewrite E. cbn [mbind option_bind]. unfold vsnprintf_end.
  cbn [app] in *. rewrite Hp, (proj2 (Z.eqb_neq _ _)) by lia. eexists. split.
  - do 2 f_equal. unfold s32. rewrite Z.mod_small by lia. lia.
  - intros x. rewrite write_bytes_app. cbn [write_bytes]. unfold upd. rewrite u64_small by lia. by rewrite Hx.
Qed.

(** C27: when the rendering of a format fits, [snprintf] writes exactly it and a
    terminator into the buffer, returns its length, and writes nothing else;
    fuel for the format and the buffer is enough. *)
Theorem snprintf_renders fuel m buffer size format xs tl :
  byte_mem m -> 0 <= buffer -> buffer + size < 2 ^ 64 -> size < 2 ^ 31 ->
  Forall (seg_ok m buffer size) xs -> Forall literal_char tl ->
  mem_has m format (fmt_text xs tl ++ [0]) ->
  off_buffer buffer size format (Z.of_nat (length (fmt_text xs tl)) + 1) ->
  Z.of_nat (length (fmt_out xs tl)) < size ->
  Z.of_nat (length (fmt_text xs tl)) + size + 9 <= Z.of_nat fuel ->
  exists m', snprintf fuel m buffer size format (fmt_args xs) = Some (m', Z.of_nat (length (fmt_out xs tl))) /\
    forall x, m' x = write_bytes m buffer (fmt_out xs tl ++ [0]) x.
Proof. apply snprintf_spec. Qed.

(** "ab%d-%s|%x" at 100 with the string "hi" at 111. *)
Definition m_format : bytes := place 100 [97; 98; 37; 100; 45; 37; 115; 124; 37; 120; 0; 104; 105; 0].

(** Bytes in memory, by computation. *)
Lemma mem_has_check m a bs :
  forallb (fun i => default 256 (bs !! i) =? m (a + Z.of_nat i)) (seq 0 (length bs)) = true -> mem_has m a bs.
Proof.
  intros H i b Hi. rewrite forallb_forall in H. specialize (H i).
  rewrite Hi in H. symmetry. apply Z.eqb_eq, H. apply in_seq. apply lookup_lt_Some in Hi. lia.
Qed.

Lemma snprintf_renders_witness : exists m',
  snprintf 100 m_format 1000 50 100 [2 ^ 32 - 42; 111; 255] = Some (m', 11) /\
  forall x, m' x = write_bytes m_format 1000 [97; 98; 45; 52; 50; 45; 104; 105; 124; 70; 70; 0] x.
Proof.
  apply (snprintf_renders 100 m_format 1000 50 100
    [([97; 98], DDec (2 ^ 32 - 42)); ([45], DStr 111 [104; 105]); ([124], DHex 255)] []);
    [apply place_bytes; repeat constructor; lia|lia|lia|lia| |constructor| | |vm_compute; congruence|vm_compute; congruence].
  - assert (forall c, 0 < c < 256 /\ c <> 37 -> literal_char c) as Hlit by done.
    apply Forall_cons; split; [split; [|exact I]; apply Forall_cons; split; [apply Hlit; lia|apply Forall_singleton, Hlit; lia]|].
    apply Forall_cons; split; [split; [apply Forall_singleton, Hlit; cbn; lia|]|].
    + right. split_and!; [lia|lia|apply mem_has_check; vm_compute; reflexivity|repeat constructor; lia|].
      split_and!; cbn; lia.
    + apply Forall_singleton. split; [|exact I]. apply Forall_singleton, Hlit. cbn. lia.
  - apply mem_has_check; vm_compute; reflexivity.
  - split_and!; [lia|cbn; lia|left; cbn; lia].
Defined.


(** with a buffer of size zero the terminator is written before the buffer. *)
Theorem snprintf_empty_buffer m fuel buffer format args :
  0 < buffer < 2 ^ 64 ->
  exists m', snprintf (S fuel) m buffer 0 format args = Some (m', -1) /\ m' (buffer - 1) = 0.
Proof.
  intros Hb. unfold snprintf, vsnprintf. cbn [vsnprintf_loop v_p Z.ltb Z.compare]. rewrite andb_false_r.
  cbn [mbind option_bind]. eexists. split; [done|]. cbn [v_mem v_p Z.eqb].
  replace (u64 (buffer + u64 (0 - 1))) with (buffer - 1); [apply upd_same|].
  unfold u64. rewrite Zplus_mod_idemp_r. rewrite Z.mod_small; lia.
Qed.

Lemma snprintf_empty_buffer_witness : exists m',
  snprintf 10 (fun _ => 7) 1000 0 100 [] = Some (m', -1) /\ m' 999 = 0.
Proof. apply (snprintf_empty_buffer (fun _ => 7) 9 1000 100 []). lia. Defined.
