(* ===== verification/Logging.v ===== *)
(** libutils/src/logging.c and core/src/logging/services.c: log lines, the
    suppression of repeated ones, and where they end up.

    The static and local buffers are ranges of memory given by [LogLayout];
    [None] is undefined behaviour (a level that names no string). *)
From S2P Require Import Prelude Machine CString Formatting.

Definition LOGGING_MAX_LINE : Z := 255.
Definition LOGGING_AGGREGATE_MESSAGES : Z := 30.
Definition LOG_TRACE : Z := 0.
Definition LOG_INFO : Z := 2.

(** Addresses of [last_message], of the local buffers, of the two literal
    formats and of the six strings of [LOGGING_LEVEL_NAMES]. *)
Class LogLayout := {
  a_last_message : Z; a_text : Z; a_output : Z; a_repeat_output : Z;
  a_line_format : Z; a_repeat_format : Z; a_level_names : list Z }.

(** The static variables, memory, and the bytes sent to the serial port. *)
Record log_state := mk_log {
  lg_mem : bytes; lg_level : Z; lg_quiet : Z; repetitions : Z; serial : list Z }.

Definition set_lg_mem v l := mk_log v (lg_level l) (lg_quiet l) (repetitions l) (serial l).
Definition set_repetitions v l := mk_log (lg_mem l) (lg_level l) (lg_quiet l) v (serial l).
Definition set_serial v l := mk_log (lg_mem l) (lg_level l) (lg_quiet l) (repetitions l) v.

Section code.
Context `{LogLayout}.
Variable fuel : nat.

Definition log_set_level (level : Z) (l : log_state) : log_state :=
  mk_log (lg_mem l) level (lg_quiet l) (repetitions l) (serial l).

Definition log_set_quiet (enable : Z) (l : log_state) : log_state :=
  mk_log (lg_mem l) (lg_level l) (if enable =? 0 then 0 else 1) (repetitions l) (serial l).

Definition logging_init (l : log_state) : log_state := log_set_quiet 0 (log_set_level LOG_TRACE l).

(** platform.c, and [serial_write] of serial.c as the caller sees it: the port takes
    every byte in order. *)
Definition serial_put (addr size : Z) (l : log_state) : log_state :=
  set_serial (serial l ++ peek (lg_mem l) addr (Z.to_nat size)) l.
Definition native_logging (msg size : Z) (l : log_state) : log_state := serial_put msg size l.

Definition logging_format (buf format : Z) (args : list Z) (l : log_state) : option (Z * log_state) :=
  '(m, size) ← vsnprintf buf LOGGING_MAX_LINE fuel (lg_mem l) format args;
  let size := Z.min size LOGGING_MAX_LINE in
  Some (size, set_lg_mem (upd m (buf + size) 0) l).

Definition logging_write (level text : Z) (l : log_state) : option log_state :=
  if (level <? 0) || (6 <=? level) then None
  else
    name ← a_level_names !! Z.to_nat level;
    '(m, size) ← snprintf fuel (lg_mem l) a_output (LOGGING_MAX_LINE + 1) a_line_format [name; text];
    let size := Z.min size LOGGING_MAX_LINE in
    Some (native_logging a_output size (set_lg_mem (upd m (a_output + size) 0) l)).

Definition should_write (text text_size : Z) (l : log_state) : option (bool * log_state) :=
  if (strncmp (lg_mem l) text a_last_message text_size =? 0) && (repetitions l <? LOGGING_AGGREGATE_MESSAGES)
  then Some (false, set_repetitions (repetitions l + 1) l)
  else
    l ← (if 1 <? repetitions l then
           '(m, size) ← snprintf fuel (lg_mem l) a_repeat_output (LOGGING_MAX_LINE + 1) a_repeat_format [repetitions l - 1];
           logging_write LOG_INFO a_repeat_output (set_lg_mem m l)
         else Some l);
    let '(m, _) := strncpy (lg_mem l) a_last_message text LOGGING_MAX_LINE in
    Some (true, set_repetitions 1 (set_lg_mem m l)).

Definition logging (level fmt : Z) (args : list Z) (l : log_state) : option log_state :=
  if level <? lg_level l then Some l
  else if negb (lg_quiet l =? 0) then Some l
  else
    '(size, l) ← logging_format a_text fmt args l;
    '(ok, l) ← should_write a_text size l;
    if negb ok then Some l else logging_write level a_text l.

(** core/src/logging/syscalls.c: [a_syscall_format] is "[%s]: %s"; [name] is the
    address of the name of the running task. *)
Definition syscall_handler_logging (a_syscall_format name level msg : Z) (l : log_state) : option (Z * log_state) :=
  l ← logging (s32 level) a_syscall_format [name; msg] l;
  Some (0, l).
End code.

(** * Properties *)

(** ": " and the end of the line, the literals of the line format. *)
Definition line_segments (a_name : Z) (name : list Z) (a_txt : Z) (txt : list Z) : list segment :=
  [([], DStr a_name name); ([58; 32], DStr a_txt txt)].
Definition line (name txt : list Z) : list Z := name ++ [58; 32] ++ txt ++ [10].

(** The string [bs] with its terminator, apart from the output buffer. *)
Definition string_at (l : log_state) (buf size a : Z) (bs : list Z) : Prop :=
  0 < a < 2 ^ 64 /\ mem_has (lg_mem l) a (bs ++ [0]) /\ Forall (fun b => b <> 0) bs /\
  off_buffer buf size a (Z.of_nat (length bs) + 1).

Lemma peek_spec m a bs : mem_has m a bs -> peek m a (length bs) = bs.
Proof.
  intros Hh. apply list_eq. intros i. unfold peek. rewrite list_lookup_fmap.
  destruct (decide (i < length bs)%nat) as [Hi|Hi].
  - rewrite lookup_seq_lt by done. cbn. destruct (lookup_lt_is_Some_2 bs i Hi) as [b Hb].
    rewrite Hb. f_equal. by apply Hh.
  - rewrite lookup_seq_ge, lookup_ge_None_2 by lia. done.
Qed.

(** C29: [logging_write] sends the name of the level, a colon, the text and a line
    feed to the serial port, byte for byte, when the line fits in 255 bytes. *)
Theorem logging_write_line `{LogLayout} fuel level text l a_name name txt :
  byte_mem (lg_mem l) -> 0 <= a_output -> a_output + (LOGGING_MAX_LINE + 1) < 2 ^ 64 ->
  0 <= level < 6 -> a_level_names !! Z.to_nat level = Some a_name ->
  string_at l a_output (LOGGING_MAX_LINE + 1) a_name name ->
  string_at l a_output (LOGGING_MAX_LINE + 1) text txt ->
  mem_has (lg_mem l) a_line_format [37; 115; 58; 32; 37; 115; 10; 0] ->
  off_buffer a_output (LOGGING_MAX_LINE + 1) a_line_format 8 ->
  Z.of_nat (length (line name txt)) <= LOGGING_MAX_LINE -> (300 <= fuel)%nat ->
  exists m', logging_write fuel level text l =
    Some (mk_log m' (lg_level l) (lg_quiet l) (repetitions l) (serial l ++ line name txt)).
Proof.
  intros Hm Ho1 Ho2 Hlv Hn Hname Htext Hf Hfo Hlen Hfu. unfold logging_write.
  rewrite (proj2 (Z.ltb_ge _ _)), (proj2 (Z.leb_gt _ _)) by lia. cbn [orb]. rewrite Hn. cbn [mbind option_bind].
  assert (fmt_out (line_segments a_name name text txt) [10] = line name txt) as Eout.
  { assert (isnull (u64 a_name) = false /\ isnull (u64 text) = false) as [E1 E2].
    { destruct Hname as (? & _), Htext as (? & _). by rewrite !u64_small, !isnull_false by lia; lia. }
    unfold fmt_out, line_segments, seg_out. cbn. rewrite E1, E2, app_nil_r. by rewrite <- !app_assoc. }
  destruct (snprintf_spec fuel (lg_mem l) a_output (LOGGING_MAX_LINE + 1) a_line_format
    (line_segments a_name name text txt) [10]) as (m' & E & Hx); try done.
  - apply Forall_cons; split; [split; [apply Forall_nil; done|right; exact Hname]|].
    apply Forall_singleton. split; [|right; exact Htext].
    apply Forall_cons; split; [split; lia|]. apply Forall_singleton. split; lia.
  - apply Forall_singleton. split; lia.
  - rewrite Eout. lia.
  - change (Z.of_nat (length (fmt_text (line_segments a_name name text txt) [10]))) with 7. change LOGGING_MAX_LINE with 255. lia.
  - rewrite Eout in E, Hx. change (fmt_args _) with [a_name; text] in E. rewrite E. cbn [mbind option_bind].
    rewrite Z.min_l by done. eexists. unfold native_logging, serial_put, set_serial, set_lg_mem. cbn.
    do 2 f_equal. f_equal. rewrite Nat2Z.id. apply peek_spec.
    intros i b Hi. pose proof (lookup_lt_Some _ _ _ Hi). rewrite upd_other by lia. rewrite Hx, write_bytes_spec.
    rewrite length_app. cbn [length].
    rewrite (proj2 (Z.leb_le _ _)), (proj2 (Z.ltb_lt _ _)) by lia. cbn [andb].
    replace (a_output + Z.of_nat i - a_output) with (Z.of_nat i) by lia. rewrite Nat2Z.id.
    by rewrite (lookup_app_l_Some _ _ _ _ Hi).
Qed.

(** the level of the logging system call is not checked: when the message is
    to be written, a level of six or more reads past the table of level names. *)
Theorem syscall_logging_level_unchecked `{LogLayout} fuel a_fmt name level msg l size l1 l2 :
  6 <= s32 level -> lg_level l <= s32 level -> lg_quiet l = 0 ->
  logging_format fuel a_text a_fmt [name; msg] l = Some (size, l1) ->
  should_write fuel a_text size l1 = Some (true, l2) ->
  syscall_handler_logging fuel a_fmt name level msg l = None.
Proof.
  intros Hl Hlv Hq Hf Hs. unfold syscall_handler_logging, logging.
  rewrite (proj2 (Z.ltb_ge _ _)) by lia. rewrite Hq, Hf. cbn. rewrite Hs. cbn. unfold logging_write.
  rewrite (proj2 (Z.leb_le _ _)), orb_true_r by lia. done.
Qed.


(** a message that agrees with the last one on its own length is not
    written while fewer than 30 repetitions were counted: only the counter
    moves.  A message that is a proper prefix of the last one is lost. *)
Theorem should_write_suppresses_prefix `{LogLayout} fuel text n l :
  0 <= n -> same_prefix (lg_mem l) text a_last_message n -> repetitions l < LOGGING_AGGREGATE_MESSAGES ->
  should_write fuel text n l = Some (false, set_repetitions (repetitions l + 1) l).
Proof.
  intros Hn Hs Hr. unfold should_write.
  assert (strncmp (lg_mem l) text a_last_message n = 0) as E.
  { unfold strncmp. destruct (Z.eqb_spec n 0); [done|]. apply strncmp_loop_spec.
    rewrite Z2Nat.id by lia. intros i Hi. apply Hs. lia. }
  by rewrite E, (proj2 (Z.ltb_lt _ _)) by done.
Qed.

(** * Examples *)

(** "TRACE", "DEBUG", "INFO ", "WARN ", "ERROR", "FATAL" *)
Definition level_names : list Z :=
  [84; 82; 65; 67; 69; 0; 68; 69; 66; 85; 71; 0; 73; 78; 70; 79; 32; 0;
   87; 65; 82; 78; 32; 0; 69; 82; 82; 79; 82; 0; 70; 65; 84; 65; 76; 0].
Definition log_layout : LogLayout :=
  {| a_last_message := 5000; a_text := 6000; a_output := 7000; a_repeat_output := 8000;
     a_line_format := 100; a_repeat_format := 110; a_level_names := [200; 206; 212; 218; 224; 230] |}.
(** "%s: %s\n" at 100, the level names at 200, "ab" as last message, "a" as text. *)
Definition m_log : bytes := fun x =>
  if x <? 150 then place 100 [37; 115; 58; 32; 37; 115; 10; 0] x
  else if x <? 300 then place 200 level_names x
  else if x <? 5500 then place 5000 [97; 98] x else place 6000 [97] x.
Definition l_log : log_state := mk_log m_log 0 0 1 [].

Lemma m_log_bytes : byte_mem m_log.
Proof.
  intros x. unfold m_log. destruct (x <? 150); [apply place_bytes; repeat constructor; lia|].
  destruct (x <? 300); [apply place_bytes; unfold level_names; repeat constructor; lia|].
  destruct (x <? 5500); apply place_bytes; repeat constructor; lia.
Qed.

Lemma logging_write_line_witness : exists m',
  logging_write (H := log_layout) 300 2 6000 l_log =
    Some (mk_log m' 0 0 1 [73; 78; 70; 79; 32; 58; 32; 97; 10]).
Proof.
  apply (logging_write_line (H := log_layout) 300 2 6000 l_log 212 [73; 78; 70; 79; 32] [97]);
    [exact m_log_bytes|done|done|lia|reflexivity| | | |split_and!; [done|done|by left]|done|lia].
  - split_and!; [lia|lia|apply mem_has_check; vm_compute; reflexivity|repeat constructor; lia|split_and!; [done|done|by left]].
  - split_and!; [lia|lia|apply mem_has_check; vm_compute; reflexivity|repeat constructor; lia|split_and!; [done|done|by left]].
  - apply mem_has_check. vm_compute. reflexivity.
Defined.

(** "a" after "ab" is taken for a repetition. *)
Lemma should_write_suppresses_prefix_witness :
  should_write (H := log_layout) 300 6000 1 l_log = Some (false, set_repetitions 2 l_log).
Proof.
  apply (should_write_suppresses_prefix (H := log_layout)); [lia| |vm_compute; reflexivity].
  intros i Hi _ _. assert (i = 0) as -> by lia. vm_compute. reflexivity.
Defined.

(** A last message that differs, so that the text is written. *)
Definition l_log2 : log_state := mk_log (upd m_log 5000 98) 0 0 1 [].

Lemma syscall_logging_level_unchecked_witness : exists l,
  l = l_log2 /\ syscall_handler_logging (H := log_layout) 300 100 212 6 6000 l = None.
Proof.
  exists l_log2. split; [done|].
  eapply (syscall_logging_level_unchecked (H := log_layout)); [vm_compute; congruence|vm_compute; congruence|reflexivity| |].
  - vm_compute. reflexivity.
  - vm_compute. reflexivity.
Defined.
