(* ===== verification/Serial.v ===== *)
(** hal/src/x86_64/serial.c: the serial port, at the level of its registers.

    The line status the device reports is a parameter: [status n] is what the
    n-th read of a port returns.  The registers of the 16550 are read back from
    the bytes written to its ports. *)
From S2P Require Import Prelude Machine CString Formatting Logging.

(** * x86_64/serial.h, x86_64/intel.h *)
Definition SERIAL_COM1 : Z := 1016.
Definition PORT : Z := SERIAL_COM1.

(** How often a port was read, and what was written, in order. *)
Record io_t := mk_io { reads : nat; outs : list (Z * Z) }.

Definition outb (port val : Z) (c : io_t) : io_t := mk_io (reads c) (outs c ++ [(u16 port, u8 val)]).

(** * serial.c *)
Section code.
Context (status : nat -> Z).

(** [inb] of the only port that is read. *)
Definition inb (port : Z) (c : io_t) : Z * io_t := (u8 (status (reads c)), mk_io (S (reads c)) (outs c)).

Definition is_transmit_empty (c : io_t) : Z * io_t := let '(v, c) := inb (PORT + 5) c in (Z.land v 32, c).

(** The loop waits for the device; [None] when it waits longer than [fuel]. *)
Fixpoint serial_write_char (fuel : nat) (a : Z) (c : io_t) : option io_t :=
  match fuel with
  | O => None
  | S fuel' => let '(e, c) := is_transmit_empty c in
      if e =? 0 then serial_write_char fuel' a c else Some (outb PORT a c)
  end.

Fixpoint serial_write_loop (fuel : nat) (m : bytes) (size : nat) (a : Z) (c : io_t) : option io_t :=
  match size with
  | O => Some c
  | S size' => c ← serial_write_char fuel (m a) c; serial_write_loop fuel m size' (a + 1) c
  end.
Definition serial_write (fuel : nat) (m : bytes) (a size : Z) (c : io_t) : option io_t :=
  serial_write_loop fuel m (Z.to_nat size) a c.

(** [newlines] is the address of the constant string. *)
Definition serial_init (fuel : nat) (m : bytes) (newlines : Z) (c : io_t) : option io_t :=
  let c := outb (PORT + 1) 0 c in
  let c := outb (PORT + 3) 128 c in
  let c := outb (PORT + 0) 3 c in
  let c := outb (PORT + 1) 0 c in
  let c := outb (PORT + 3) 3 c in
  let c := outb (PORT + 2) 199 c in
  let c := outb (PORT + 4) 11 c in
  serial_write fuel m newlines 2 c.
End code.

(** * The device *)

(** Registers of the 16550: while bit 7 of the line control (DLAB) is set, the
    first two ports are the halves of the divisor; otherwise the first one takes
    the bytes to send. *)
Record uart := mk_uart { u_sent : list Z; u_ier : Z; u_fcr : Z; u_lcr : Z; u_mcr : Z; u_lo : Z; u_hi : Z }.
Definition uart0 : uart := mk_uart [] 0 0 0 0 0 0.
Definition dlab (u : uart) : bool := Z.testbit (u_lcr u) 7.

Definition uart_out (u : uart) (w : Z * Z) : uart :=
  let '(port, v) := w in
  if port =? PORT then
    if dlab u then mk_uart (u_sent u) (u_ier u) (u_fcr u) (u_lcr u) (u_mcr u) v (u_hi u)
    else mk_uart (u_sent u ++ [v]) (u_ier u) (u_fcr u) (u_lcr u) (u_mcr u) (u_lo u) (u_hi u)
  else if port =? PORT + 1 then
    if dlab u then mk_uart (u_sent u) (u_ier u) (u_fcr u) (u_lcr u) (u_mcr u) (u_lo u) v
    else mk_uart (u_sent u) v (u_fcr u) (u_lcr u) (u_mcr u) (u_lo u) (u_hi u)
  else if port =? PORT + 2 then mk_uart (u_sent u) (u_ier u) v (u_lcr u) (u_mcr u) (u_lo u) (u_hi u)
  else if port =? PORT + 3 then mk_uart (u_sent u) (u_ier u) (u_fcr u) v (u_mcr u) (u_lo u) (u_hi u)
  else if port =? PORT + 4 then mk_uart (u_sent u) (u_ier u) (u_fcr u) (u_lcr u) v (u_lo u) (u_hi u)
  else u.
Definition uart_of (c : io_t) : uart := foldl uart_out uart0 (outs c).

Lemma uart_of_outb port v c : uart_of (outb port v c) = uart_out (uart_of c) (u16 port, u8 v).
Proof. unfold uart_of. cbn. by rewrite foldl_app. Qed.

(** * Sending *)
Section sending.
Context (status : nat -> Z) (d : nat).

(** Among any [d + 1] reads of the line status one says that the transmitter is
    empty. *)
Definition prompt : Prop := forall n, exists k, (n <= k <= n + d)%nat /\ Z.land (u8 (status k)) 32 <> 0.

(** The number of reads, and the byte. *)
Lemma serial_write_char_spec a n0 : forall fuel c,
  (reads c <= n0 < reads c + fuel)%nat -> Z.land (u8 (status n0)) 32 <> 0 ->
  exists k, serial_write_char status fuel a c = Some (mk_io (S k) (outs c ++ [(PORT, u8 a)])) /\ (k <= n0)%nat /\
    Z.land (u8 (status k)) 32 <> 0.
Proof.
  induction fuel as [|fuel IH]; intros c Hn Hs; [lia|]. cbn. destruct (Z.eqb_spec (Z.land (u8 (status (reads c))) 32) 0) as [E|E].
  - destruct (decide (n0 = reads c)) as [->|]; [done|]. destruct (IH (mk_io (S (reads c)) (outs c))) as (k & Ek & H); cbn; [lia|done|]. by exists k.
  - exists (reads c). split; [done|]. split; [lia|done].
Qed.

Lemma serial_write_loop_spec m : prompt -> forall n a c,
  exists r, serial_write_loop status (S d) m n a c = Some (mk_io r (outs c ++ map (fun b => (PORT, u8 b)) (peek m a n))).
Proof.
  intros Hp. induction n as [|n IH]; intros a c.
  - exists (reads c). cbn. rewrite app_nil_r. by destruct c.
  - destruct (Hp (reads c)) as (n0 & Hn0 & Hs). destruct (serial_write_char_spec (m a) n0 (S d) c) as (k & E & _); [lia|done|].
    cbn [serial_write_loop]. rewrite E. cbn. destruct (IH (a + 1) (mk_io (S k) (outs c ++ [(PORT, u8 (m a))]))) as (r & Er).
    exists r. rewrite Er. cbn [outs]. unfold peek. cbn [seq map]. rewrite Z.add_0_r, <- app_assoc. cbn [app]. do 4 f_equal.
    rewrite <- seq_shift, !map_map. apply map_ext. intros i. do 3 f_equal. lia.
Qed.

Lemma uart_sends u bs : dlab u = false -> Forall (fun b => 0 <= b < 256) bs ->
  foldl uart_out u (map (fun b => (PORT, u8 b)) bs) = mk_uart (u_sent u ++ bs) (u_ier u) (u_fcr u) (u_lcr u) (u_mcr u) (u_lo u) (u_hi u).
Proof.
  revert u. induction bs as [|b bs IH]; intros u Hd Hb; cbn [foldl map]; [rewrite app_nil_r; by destruct u|].
  apply Forall_cons in Hb as [Hb0 Hb].
  assert (uart_out u (PORT, u8 b) = mk_uart (u_sent u ++ [b]) (u_ier u) (u_fcr u) (u_lcr u) (u_mcr u) (u_lo u) (u_hi u)) as ->.
  { unfold uart_out. rewrite Z.eqb_refl, Hd. unfold u8, wrap. by rewrite (Z.mod_small b) by done. }
  rewrite IH by done. cbn. by rewrite <- app_assoc.
Qed.
End sending.


(** Every third read says that the transmitter is empty. *)
Definition slow (n : nat) : Z := if (n mod 3 =? 2)%nat then 32 else 0.

Lemma slow_prompt : prompt slow 2.
Proof.
  intros n. pose proof (Nat.mod_upper_bound n 3 ltac:(lia)) as Hb. pose proof (Nat.div_mod_eq n 3) as Hn.
  exists (3 * (n / 3) + 2)%nat. split; [lia|]. unfold slow.
  replace ((3 * (n / 3) + 2) mod 3)%nat with 2%nat by (apply (Nat.mod_unique _ 3 (n / 3)); lia). done.
Qed.


(** [serial_init] leaves the port ready: divisor 3 (38400 baud), eight data
    bits, no parity and one stop bit, the divisor latch closed, interrupts off and
    the FIFO on; the only bytes sent are the two of the string. *)
Theorem serial_init_configures status d m newlines c :
  prompt status d -> byte_mem m -> dlab (uart_of c) = false -> u_sent (uart_of c) = [] ->
  exists c', serial_init status (S d) m newlines c = Some c' /\
    uart_of c' = mk_uart [m newlines; m (newlines + 1)] 0 199 3 11 3 0.
Proof.
  intros Hp Hm Hd Hs. unfold serial_init, serial_write. cbv zeta.
  match goal with |- context [serial_write_loop _ _ _ _ _ ?x] => set (c1 := x) end.
  destruct (serial_write_loop_spec status d m Hp 2 newlines c1) as (r & E). change (Z.to_nat 2) with 2%nat. eexists. split; [exact E|].
  assert (uart_of c1 = mk_uart [] 0 199 3 11 3 0) as E1.
  { assert (uart_of (outb (PORT + 1) 0 c) = mk_uart [] 0 (u_fcr (uart_of c)) (u_lcr (uart_of c)) (u_mcr (uart_of c)) (u_lo (uart_of c)) (u_hi (uart_of c))) as E0
      by (rewrite uart_of_outb; unfold uart_out; change (u16 (PORT + 1) =? PORT) with false; rewrite Hd, Hs; reflexivity).
    unfold c1. do 6 (rewrite uart_of_outb). rewrite E0. vm_compute. reflexivity. }
  unfold uart_of. cbn [outs]. rewrite foldl_app. fold (uart_of c1). rewrite E1, uart_sends; [|done|].
  { unfold peek. cbn [seq map app u_sent u_ier u_fcr u_lcr u_mcr u_lo u_hi]. by rewrite Z.add_0_r. }
  unfold peek. apply Forall_map, Forall_forall. intros i _. apply Hm.
Qed.

Lemma serial_init_configures_witness :
  exists c', serial_init slow 3 m_log 5000 (mk_io 0 []) = Some c' /\ uart_of c' = mk_uart [m_log 5000; m_log (5000 + 1)] 0 199 3 11 3 0.
Proof. apply (serial_init_configures slow 2); [exact slow_prompt|exact m_log_bytes|reflexivity|reflexivity]. Defined.
