(* ===== verification/Console.v ===== *)
(** modules/console/console.c: the text console.

    The screen is an array of 16-bit cells, indexed as [console_buffer]; the text
    is a range of byte memory. *)
From S2P Require Import Prelude Machine CString.

Definition console__width : Z := 80.
Definition console__height : Z := 24.
Definition TAB_SIZE : Z := 4.

(** The screen and the static variables. *)
Record console_t := mk_console {
  console_buffer : bytes; terminal_row : Z; terminal_column : Z; terminal_color : Z }.

Definition set_buffer v c := mk_console v (terminal_row c) (terminal_column c) (terminal_color c).
Definition set_row v c := mk_console (console_buffer c) v (terminal_column c) (terminal_color c).
Definition set_column v c := mk_console (console_buffer c) (terminal_row c) v (terminal_color c).

(** * Operations *)
Definition vga_entry_color (fg bg : Z) : Z := u8 (Z.lor fg (Z.shiftl bg 4)).
Definition vga_entry (uc color : Z) : Z := u16 (Z.lor uc (Z.shiftl color 8)).

(** A [char] as [uint16_t]: sign-extended. *)
Definition char_to_u16 (c : Z) : Z := u16 (if c <? 128 then c else c - 256).

Definition min (a b : Z) : Z := if a <? b then a else b.

Fixpoint clear_row (k : nat) (b : bytes) (index : Z) : bytes :=
  match k with
  | O => b
  | S k' => clear_row k' (upd b index (vga_entry 0 0)) (index + 1)
  end.
Fixpoint clear_rows (k : nat) (b : bytes) (y col_start col_end : Z) : bytes :=
  match k with
  | O => b
  | S k' =>
      clear_rows k' (clear_row (Z.to_nat (col_end - col_start)) b (y * console__width + col_start))
        (y + 1) col_start col_end
  end.
Definition __console_clear (row_start col_start row_end col_end : Z) (c : console_t) : console_t :=
  set_buffer (clear_rows (Z.to_nat (row_end - row_start)) (console_buffer c) row_start col_start col_end) c.

Definition console_clear (c : console_t) : console_t := __console_clear 0 0 console__height console__width c.

Fixpoint raw_write_loop (k : nat) (m : bytes) (sequence color index : Z) (b : bytes) : bytes :=
  match k with
  | O => b
  | S k' => raw_write_loop k' m (sequence + 1) color (index + 1)
      (upd b index (vga_entry (char_to_u16 (m sequence)) color))
  end.
Definition console_raw_write (m : bytes) (sequence length color row col : Z) (c : console_t) : console_t :=
  set_buffer (raw_write_loop (Z.to_nat length) m sequence color (row * console__width + col) (console_buffer c)) c.

Definition console_initialize (c : console_t) : console_t :=
  let c := console_clear c in
  mk_console (console_buffer c) 0 0 (vga_entry_color 15 0).

(** [memcpy] of whole cells. *)
Definition console_scroll_up (rows : Z) (c : console_t) : console_t :=
  let number_of_lines := s32 (console__height - rows) in
  let c := set_buffer (memcpy (console_buffer c) 0 (rows * console__width) (number_of_lines * console__width)) c in
  __console_clear (console__height - rows) 0 console__height console__width c.

Definition need_scroll (c : console_t) : console_t :=
  if console__height <=? terminal_row c
  then set_row (console__height - 1) (console_scroll_up 1 c) else c.

Definition newline (c : console_t) : console_t :=
  need_scroll (set_row (terminal_row c + 1) (set_column 0 c)).

(** [do { ... } while (written < length)]; [chars_to_write] is passed on as a
    [size_t]. *)
Fixpoint writesequence_loop (fuel : nat) (m : bytes) (buffer_start length written : Z) (c : console_t) :
    option console_t :=
  match fuel with
  | O => None
  | S fuel' =>
      let chars_to_write := min (s32 (u64 (console__width - terminal_column c))) (s32 length) in
      let c := console_raw_write m (buffer_start + written) (u64 chars_to_write) (terminal_color c)
                 (terminal_row c) (terminal_column c) c in
      let c := set_column (u64 (terminal_column c + chars_to_write)) c in
      let written := u64 (written + chars_to_write) in
      let c := if console__width <=? terminal_column c then newline c else c in
      if written <? length then writesequence_loop fuel' m buffer_start length written c else Some c
  end.
Definition terminal_writesequence (fuel : nat) (m : bytes) (buffer_start length : Z) (c : console_t) : option console_t :=
  writesequence_loop fuel m buffer_start length 0 c.

(** The [for] over the text; [i] characters are done. *)
Fixpoint write_loop (k : nat) (fuel : nat) (m : bytes) (data i buffer_start : Z) (c : console_t) : option console_t :=
  match k with
  | O => terminal_writesequence fuel m buffer_start (data + i - buffer_start) c
  | S k' =>
      let ch := m (data + i) in
      if ch =? 10 then
        c ← terminal_writesequence fuel m buffer_start (data + i - buffer_start) c;
        write_loop k' fuel m data (i + 1) (data + i + 1) (newline c)
      else if ch =? 13 then
        c ← terminal_writesequence fuel m buffer_start (data + i - buffer_start) c;
        write_loop k' fuel m data (i + 1) (data + i + 1) (set_column 0 c)
      else if ch =? 9 then
        c ← terminal_writesequence fuel m buffer_start (data + i - buffer_start) c;
        write_loop k' fuel m data (i + 1) (data + i + 1)
          (set_column ((terminal_column c / TAB_SIZE + 1) * TAB_SIZE) c)
      else write_loop k' fuel m data (i + 1) buffer_start c
  end.
Definition console_write (fuel : nat) (m : bytes) (data data_length : Z) (c : console_t) : option console_t :=
  if isnull data || (data_length =? 0) then Some c
  else write_loop (Z.to_nat data_length) fuel m data 0 data c.

Definition console_print (fuel : nat) (m : bytes) (data : Z) (c : console_t) : option console_t :=
  n ← strlen fuel m data; console_write fuel m data n c.

(** * Cells written *)

(** The screen. *)
Definition screen : Z := console__width * console__height.

(** The cursor is on the screen, or just past the end of a row. *)
Definition cursor_ok (c : console_t) : Prop :=
  0 <= terminal_row c < console__height /\ 0 <= terminal_column c <= console__width.

(** No cell outside the screen changed. *)
Definition on_screen (c c' : console_t) : Prop :=
  forall i, i < 0 \/ screen <= i -> console_buffer c' i = console_buffer c i.

Lemma on_screen_refl c : on_screen c c.
Proof. by intros i _. Qed.

Lemma on_screen_trans c1 c2 c3 : on_screen c1 c2 -> on_screen c2 c3 -> on_screen c1 c3.
Proof. intros H1 H2 i Hi. by rewrite H2, H1. Qed.

Lemma upd_spec b a v x : upd b a v x = if x =? a then v else b x.
Proof. done. Qed.

Lemma clear_row_spec k : forall b j x,
  clear_row k b j x = if (j <=? x) && (x <? j + Z.of_nat k) then 0 else b x.
Proof.
  induction k as [|k IH]; intros b j x; cbn [clear_row].
  - destruct (Z.leb_spec j x), (Z.ltb_spec x (j + Z.of_nat 0)); cbn; done || lia.
  - rewrite IH, upd_spec. change (vga_entry 0 0) with 0.
    destruct (Z.eqb_spec x j), (Z.leb_spec (j + 1) x), (Z.ltb_spec x (j + 1 + Z.of_nat k)), (Z.leb_spec j x),
      (Z.ltb_spec x (j + Z.of_nat (S k))); cbn; done || lia.
Qed.

(** Clearing whole rows. *)
Lemma clear_rows_spec k : forall b y x,
  clear_rows k b y 0 console__width x =
    if (y * 80 <=? x) && (x <? (y + Z.of_nat k) * 80) then 0 else b x.
Proof.
  induction k as [|k IH]; intros b y x; cbn [clear_rows].
  - destruct (Z.leb_spec (y * 80) x), (Z.ltb_spec x ((y + Z.of_nat 0) * 80)); cbn; done || lia.
  - rewrite IH, clear_row_spec. change console__width with 80.
    replace (Z.of_nat (Z.to_nat (80 - 0))) with 80 by done.
    destruct (Z.leb_spec ((y + 1) * 80) x), (Z.ltb_spec x ((y + 1 + Z.of_nat k) * 80)), (Z.leb_spec (y * 80 + 0) x),
      (Z.ltb_spec x (y * 80 + 0 + 80)), (Z.leb_spec (y * 80) x), (Z.ltb_spec x ((y + Z.of_nat (S k)) * 80)); cbn; done || lia.
Qed.

Lemma raw_write_loop_spec k : forall m s color j b x,
  raw_write_loop k m s color j b x =
    if (j <=? x) && (x <? j + Z.of_nat k) then vga_entry (char_to_u16 (m (s + (x - j)))) color else b x.
Proof.
  induction k as [|k IH]; intros m s color j b x; cbn [raw_write_loop].
  - destruct (Z.leb_spec j x), (Z.ltb_spec x (j + Z.of_nat 0)); cbn; done || lia.
  - rewrite IH, upd_spec. replace (s + 1 + (x - (j + 1))) with (s + (x - j)) by lia.
    destruct (Z.eqb_spec x j) as [Exj|], (Z.leb_spec (j + 1) x), (Z.ltb_spec x (j + 1 + Z.of_nat k)), (Z.leb_spec j x),
      (Z.ltb_spec x (j + Z.of_nat (S k))); cbn; try done; try lia; try (do 3 f_equal; lia).
Qed.

(** Scrolling by one row. *)
Lemma console_scroll_up_spec c x :
  console_buffer (console_scroll_up 1 c) x =
    if (0 <=? x) && (x <? 23 * 80) then console_buffer c (x + 80)
    else if (23 * 80 <=? x) && (x <? screen) then 0 else console_buffer c x.
Proof.
  unfold console_scroll_up, __console_clear. cbn [console_buffer set_buffer].
  change (console__height - 1) with 23. rewrite clear_rows_spec.
  replace (Z.of_nat (Z.to_nat (console__height - 23))) with 1 by done. change ((23 + 1) * 80) with screen.
  change (s32 23 * console__width) with (23 * 80). rewrite memcpy_spec by (vm_compute; intuition congruence).
  change (1 * console__width) with 80.
  destruct (Z.leb_spec (23 * 80) x), (Z.ltb_spec x screen), (Z.leb_spec 0 x), (Z.ltb_spec x (23 * 80)),
    (Z.ltb_spec x (0 + 23 * 80)); cbn [andb]; try done; try lia; try (f_equal; lia); change screen with 1920 in *; lia.
Qed.

Lemma newline_eq c :
  newline c = (let c0 := set_row (terminal_row c + 1) (set_column 0 c) in
    if console__height <=? terminal_row c + 1 then set_row (console__height - 1) (console_scroll_up 1 c0) else c0).
Proof. reflexivity. Qed.

Lemma console_scroll_up_cursor c :
  terminal_column (console_scroll_up 1 c) = terminal_column c /\
  terminal_color (console_scroll_up 1 c) = terminal_color c.
Proof. split; reflexivity. Qed.

Lemma console_scroll_up_screen c : on_screen c (console_scroll_up 1 c).
Proof.
  intros i Hi. rewrite console_scroll_up_spec. change screen with 1920 in *.
  destruct (Z.leb_spec 0 i), (Z.ltb_spec i (23 * 80)), (Z.leb_spec (23 * 80) i), (Z.ltb_spec i 1920); cbn; done || lia.
Qed.

Lemma last_row_ok c c1 :
  terminal_column c1 = 0 -> on_screen c c1 -> terminal_color c1 = terminal_color c ->
  let c2 := set_row (console__height - 1) c1 in
  cursor_ok c2 /\ terminal_column c2 = 0 /\ on_screen c c2 /\ terminal_color c2 = terminal_color c.
Proof.
  intros Ec Hs Ek. split; [|split; [exact Ec|split; [exact Hs|exact Ek]]].
  split; [cbn; change console__height with 24; lia|]. cbn. rewrite Ec. change console__width with 80. lia.
Qed.

Lemma newline_spec c :
  0 <= terminal_row c < console__height ->
  cursor_ok (newline c) /\ terminal_column (newline c) = 0 /\ on_screen c (newline c) /\
  terminal_color (newline c) = terminal_color c.
Proof.
  intros Hr. rewrite (newline_eq c). cbv zeta. set (c0 := set_row (terminal_row c + 1) (set_column 0 c)).
  destruct (console_scroll_up_cursor c0) as [Ec Ek]. pose proof (console_scroll_up_screen c0) as Hs.
  destruct (Z.leb_spec console__height (terminal_row c + 1)) as [Hle|Hlt].
  - apply last_row_ok; [exact Ec|exact Hs|exact Ek].
  - split; [|split; [done|split; [intros i _; reflexivity|done]]].
    split; [cbn; lia|]. change (0 <= 0 <= console__width). change console__width with 80. lia.
Qed.

(** Writing inside a row. *)
Lemma raw_write_on_screen m s n color c :
  0 <= terminal_row c < console__height -> 0 <= terminal_column c -> 0 <= n <= console__width - terminal_column c ->
  on_screen c (console_raw_write m s n color (terminal_row c) (terminal_column c) c).
Proof.
  intros Hr Hc Hn i Hi. cbn. rewrite raw_write_loop_spec. change screen with 1920 in *.
  change console__height with 24 in *. change console__width with 80 in *.
  destruct (Z.leb_spec (terminal_row c * 80 + terminal_column c) i),
    (Z.ltb_spec i (terminal_row c * 80 + terminal_column c + Z.of_nat (Z.to_nat n))); cbn; done || lia.
Qed.

Lemma s32_small x : - 2 ^ 31 <= x < 2 ^ 31 -> s32 x = x.
Proof. intros Hx. unfold s32. rewrite Z.mod_small; lia. Qed.

(** One iteration of the loop. *)
Definition sequence_step (m : bytes) (s length : Z) (c : console_t) : console_t :=
  let n := Z.min (console__width - terminal_column c) length in
  let c := set_column (terminal_column c + n)
    (console_raw_write m s n (terminal_color c) (terminal_row c) (terminal_column c) c) in
  if console__width <=? terminal_column c then newline c else c.

Lemma writesequence_loop_step fuel m s length written c :
  cursor_ok c -> 0 <= length < 2 ^ 31 -> 0 <= written < 2 ^ 32 ->
  writesequence_loop (S fuel) m s length written c =
    let n := Z.min (console__width - terminal_column c) length in
    if written + n <? length
    then writesequence_loop fuel m s length (written + n) (sequence_step m (s + written) length c)
    else Some (sequence_step m (s + written) length c).
Proof.
  intros [Hr Hc] Hl Hw. change console__width with 80 in *. cbn [writesequence_loop]. change console__width with 80.
  rewrite (u64_small (80 - terminal_column c)), !s32_small by lia.
  assert (min (80 - terminal_column c) length = Z.min (80 - terminal_column c) length) as ->.
  { unfold min. destruct (Z.ltb_spec (80 - terminal_column c) length); lia. }
  rewrite !(u64_small (Z.min _ _)), (u64_small (written + _)), (u64_small (terminal_column c + _)) by lia.
  unfold sequence_step. change console__width with 80. done.
Qed.

Lemma sequence_step_ok m s length c :
  cursor_ok c -> 0 <= length ->
  cursor_ok (sequence_step m s length c) /\ terminal_column (sequence_step m s length c) < console__width /\
  on_screen c (sequence_step m s length c) /\ terminal_color (sequence_step m s length c) = terminal_color c.
Proof.
  intros [Hr Hc] Hl. unfold sequence_step. cbv zeta. change console__width with 80 in *.
  set (n := Z.min (80 - terminal_column c) length).
  pose proof (raw_write_on_screen m s n (terminal_color c) c Hr ltac:(lia) ltac:(unfold n; change console__width with 80; lia)) as Hs.
  set (c1 := set_column _ _). assert (terminal_row c1 = terminal_row c) as Er by done.
  assert (on_screen c c1) as Hs1 by exact Hs.
  assert (terminal_column c1 = terminal_column c + n) as Ec by done.
  destruct (Z.leb_spec 80 (terminal_column c1)).
  - destruct (newline_spec c1) as (H1 & H2 & H3 & H4); [by rewrite Er|].
    split; [exact H1|]. split; [lia|]. split; [by eapply on_screen_trans|]. by rewrite H4.
  - split; [split; [by rewrite Er|unfold n in *; change console__width with 80; lia]|].
    split; [change console__width with 80; lia|]. by split.
Qed.

Lemma writesequence_loop_ok m s length : 0 <= length < 2 ^ 31 -> forall fuel written c,
  cursor_ok c -> 0 <= written <= length ->
  length - written + (if terminal_column c =? console__width then 2 else 1) <= Z.of_nat fuel ->
  exists c', writesequence_loop fuel m s length written c = Some c' /\
    cursor_ok c' /\ terminal_column c' < console__width /\ on_screen c c' /\ terminal_color c' = terminal_color c.
Proof.
  intros Hl. induction fuel as [|fuel IH]; intros written c Hc Hw Hf.
  { destruct (_ =? _); lia. }
  rewrite writesequence_loop_step by (done || lia). cbv zeta.
  destruct (sequence_step_ok m (s + written) length c Hc ltac:(lia)) as (H1 & H2 & H3 & H4).
  set (n := Z.min (console__width - terminal_column c) length).
  pose proof Hc as [_ Hcol]. assert (0 <= n) by (unfold n; lia).
  destruct (Z.ltb_spec (written + n) length); [|eauto 10].
  destruct (IH (written + n) (sequence_step m (s + written) length c)) as (c' & E & ? & ? & ? & ?); [done|lia| |].
  - rewrite (proj2 (Z.eqb_neq (terminal_column (sequence_step _ _ _ _)) _)) by lia.
    destruct (Z.eqb_spec (terminal_column c) console__width); unfold n in *; lia.
  - exists c'. split; [done|]. split; [done|]. split; [done|]. split; [by eapply on_screen_trans|congruence].
Qed.

Lemma writesequence_ok fuel m s length c :
  cursor_ok c -> 0 <= length < 2 ^ 31 -> length + 2 <= Z.of_nat fuel ->
  exists c', terminal_writesequence fuel m s length c = Some c' /\
    cursor_ok c' /\ terminal_column c' < console__width /\ on_screen c c' /\ terminal_color c' = terminal_color c.
Proof.
  intros Hc Hl Hf. apply writesequence_loop_ok; [done|done|lia|]. destruct (_ =? _); lia.
Qed.

(** Moving to a tab stop from inside a row. *)
Lemma tab_ok c : cursor_ok c -> terminal_column c < console__width ->
  cursor_ok (set_column ((terminal_column c / TAB_SIZE + 1) * TAB_SIZE) c).
Proof.
  intros [Hr Hc] Hlt. split; [done|]. cbn [terminal_column set_column]. change TAB_SIZE with 4.
  change console__width with 80 in *. pose proof (Z.div_pos (terminal_column c) 4).
  assert (terminal_column c / 4 < 20) by (apply Z.div_lt_upper_bound; lia). lia.
Qed.

Lemma write_loop_ok k fuel m data : forall i s c,
  cursor_ok c -> data <= s <= data + i -> 0 <= i -> i + Z.of_nat k < 2 ^ 31 -> i + Z.of_nat k + 2 <= Z.of_nat fuel ->
  exists c', write_loop k fuel m data i s c = Some c' /\ cursor_ok c' /\ on_screen c c' /\
    terminal_color c' = terminal_color c.
Proof.
  induction k as [|k IH]; intros i s c Hc Hs Hi Hk Hf; cbn [write_loop].
  - destruct (writesequence_ok fuel m s (data + i - s) c) as (c' & E & H1 & H2 & H3 & H4); [done|lia|lia|]. eauto 10.
  - destruct (writesequence_ok fuel m s (data + i - s) c) as (c1 & E & H1 & H2 & H3 & H4); [done|lia|lia|].
    assert (forall c2, cursor_ok c2 -> on_screen c1 c2 -> terminal_color c2 = terminal_color c1 ->
      exists c', write_loop k fuel m data (i + 1) (data + i + 1) c2 = Some c' /\ cursor_ok c' /\ on_screen c c' /\
        terminal_color c' = terminal_color c) as Hnext.
    { intros c2 Hc2 Ho2 Hk2. destruct (IH (i + 1) (data + i + 1) c2) as (c' & E' & ? & ? & ?); [done|lia|lia|lia|lia|].
      exists c'. split; [done|]. split; [done|]. split; [|congruence].
      eapply on_screen_trans; [exact H3|]. by eapply on_screen_trans. }
    destruct (_ =? 10).
    { rewrite E. cbn [mbind option_bind]. destruct (newline_spec c1) as (? & ? & ? & ?); [apply H1|]. by apply Hnext. }
    destruct (_ =? 13).
    { rewrite E. cbn [mbind option_bind]. apply Hnext; [|by intros j _|done]. split; [apply H1|]. cbn.
      change console__width with 80. lia. }
    destruct (_ =? 9).
    { rewrite E. cbn [mbind option_bind]. apply Hnext; [by apply tab_ok|by intros j _|done]. }
    apply IH; [done|lia|lia|lia|lia].
Qed.

(** C30: whatever text is written, [console_write] returns, leaves the cursor on
    the screen and writes no cell outside the 80 by 24 screen; fuel for one
    iteration per character and two more is enough. *)
Theorem console_write_in_bounds fuel m data n c :
  cursor_ok c -> 0 <= n < 2 ^ 31 -> n + 2 <= Z.of_nat fuel ->
  exists c', console_write fuel m data n c = Some c' /\ cursor_ok c' /\ on_screen c c'.
Proof.
  intros Hc Hn Hf. unfold console_write. destruct (_ || _).
  { exists c. split; [done|]. split; [done|apply on_screen_refl]. }
  destruct (write_loop_ok (Z.to_nat n) fuel m data 0 data c) as (c' & E & H1 & H2 & _); [done|lia|lia|lia|lia|]. eauto.
Qed.

Definition c_blank : console_t := console_initialize (mk_console (fun _ => 7) 0 0 0).

Lemma c_blank_ok : cursor_ok c_blank.
Proof. split; vm_compute; intuition congruence. Qed.

Lemma console_write_in_bounds_witness : exists c',
  console_write 20 (place 100 [72; 105; 10; 9; 33]) 100 5 c_blank = Some c' /\ cursor_ok c' /\ on_screen c_blank c'.
Proof. apply console_write_in_bounds; [apply c_blank_ok|lia|lia]. Defined.

(** A sequence that fits in the rest of the row appears there, character by
    character, in the current colour; no other cell changes and the cursor moves
    by its length. *)
Theorem terminal_writesequence_fits fuel m s n c :
  cursor_ok c -> 0 <= n -> terminal_column c + n < console__width ->
  exists c', terminal_writesequence (S fuel) m s n c = Some c' /\
    terminal_row c' = terminal_row c /\ terminal_column c' = terminal_column c + n /\
    forall x, console_buffer c' x =
      let start := terminal_row c * console__width + terminal_column c in
      if (start <=? x) && (x <? start + n) then vga_entry (char_to_u16 (m (s + (x - start)))) (terminal_color c)
      else console_buffer c x.
Proof.
  intros Hc Hn Hfit. pose proof Hc as [Hr Hcol]. change console__width with 80 in *. unfold terminal_writesequence.
  rewrite writesequence_loop_step by (done || lia). cbv zeta. change console__width with 80.
  rewrite Z.min_r by lia. rewrite Z.add_0_l, Z.ltb_irrefl. eexists. split; [done|].
  unfold sequence_step. cbv zeta. change console__width with 80. rewrite Z.min_r by lia.
  cbn [set_column terminal_column]. rewrite (proj2 (Z.leb_gt _ _)) by lia.
  split; [done|]. split; [done|]. intros x. cbn [console_buffer set_column console_raw_write set_buffer].
  rewrite raw_write_loop_spec, Z2Nat.id, Z.add_0_r by lia. done.
Qed.

Lemma terminal_writesequence_fits_witness : exists c',
  terminal_writesequence 5 (place 100 [72; 105]) 100 2 c_blank = Some c' /\ terminal_column c' = 2 /\
  console_buffer c' 1 = vga_entry 105 15.
Proof.
  destruct (terminal_writesequence_fits 4 (place 100 [72; 105]) 100 2 c_blank) as (c' & E & _ & E2 & H);
    [apply c_blank_ok|lia|vm_compute; reflexivity|].
  exists c'. split; [exact E|]. split; [exact E2|]. rewrite H. vm_compute. reflexivity.
Defined.

(** a sequence that crosses the end of a row is written with its full length
    again on the next row, from where it was cut: the cursor ends after [n]
    characters instead of the ones left, and the cells in between show memory
    behind the text. *)
Theorem terminal_writesequence_overruns fuel m s n c :
  cursor_ok c -> terminal_column c < console__width < terminal_column c + n -> n < console__width ->
  exists c', terminal_writesequence (S (S fuel)) m s n c = Some c' /\ terminal_column c' = n.
Proof.
  intros Hc Hcol Hn. change console__width with 80 in *. unfold terminal_writesequence.
  rewrite writesequence_loop_step by (done || lia). cbv zeta. change console__width with 80.
  rewrite Z.min_l, (proj2 (Z.ltb_lt _ _)) by lia.
  destruct (sequence_step_ok m (s + 0) n c Hc ltac:(lia)) as (H1 & H2 & _).
  assert (terminal_column (sequence_step m (s + 0) n c) = 0) as E0.
  { unfold sequence_step. cbv zeta. change console__width with 80. rewrite Z.min_l by lia.
    cbn [set_column terminal_column]. rewrite (proj2 (Z.leb_le _ _)) by lia. apply newline_spec. apply Hc. }
  rewrite writesequence_loop_step by (done || lia). cbv zeta. rewrite E0. change console__width with 80.
  rewrite Z.min_r, (proj2 (Z.ltb_ge _ _)) by lia. eexists. split; [done|].
  unfold sequence_step at 1. cbv zeta. rewrite E0. change console__width with 80. rewrite Z.min_r by lia.
  cbn [set_column terminal_column]. rewrite (proj2 (Z.leb_gt _ _)) by lia. done.
Qed.

Lemma terminal_writesequence_overruns_witness : exists c',
  terminal_writesequence 5 (place 100 [72; 105]) 100 20 (set_column 70 c_blank) = Some c' /\ terminal_column c' = 20.
Proof.
  apply (terminal_writesequence_overruns 3); [|vm_compute; intuition congruence|vm_compute; reflexivity].
  split; vm_compute; intuition congruence.
Defined.
