(* ===== verification/Elf.v ===== *)
(** core/src/loader/elfparser.c and core/loader/elf.h: the headers of an ELF image.

    The image is read through the page tables in use, a byte at a time; a read of
    an unmapped address is a [Fault]. *)
From S2P Require Import Prelude Machine Logic LinkedList PageTable.

(** * Reads through the page tables *)
Definition vbyte (a : Z) : M Z := fun s =>
  match walk (ram (mem s)) 4 (cr3 (paging s)) a with
  | Some pa => Ret (load8 (ram (mem s)) pa) s
  | None => Fault
  end.

Fixpoint vload (n : nat) (a : Z) : M Z :=
  match n with
  | O => mret 0
  | S n' => b ← vbyte a; rest ← vload n' (a + 1); mret (b + 256 * rest)
  end.

(** * core/loader/elf.h *)
Definition ELF_SUCCESS : Z := 0.
Definition ELF_ERROR_NO_ELF : Z := 1.
Definition ELF_ERROR_INVALID_ELF_VERSION : Z := 2.
Definition ELF_ERROR_INCOMPATIBLE : Z := 3.
Definition ELF_VALID_IDENT_VERSION : Z := 1.
Definition ELF_VALID_ELF_VERSION : Z := 1.
Definition ELF_VALID_CLASS : Z := 2.
Definition ELF_VALID_ENDIAN : Z := 1.
Definition ELF_VALID_OSABI : Z := 0.
Definition ELF_VALID_MACHINE : Z := 62.
Definition ELF_PT_LOAD : Z := 1.
Definition ELF_PF_FLAGS_X : Z := 1.
Definition ELF_PF_FLAGS_W : Z := 2.

Record elf_ident_t := mk_ident {
  magic0 : Z; magic1 : Z; magic2 : Z; magic3 : Z; elfclass : Z; endian : Z; ident_version : Z; os_abi : Z;
  i_type : Z; i_machine : Z; elf_version : Z }.

Record elf_program_header_t := mk_ph {
  ph_type : Z; ph_flags : Z; ph_offset : Z; ph_vaddr : Z; ph_paddr : Z;
  ph_file_size : Z; ph_mem_size : Z; ph_align : Z }.
Definition sizeof_program_header : Z := 56.

(** [ident] is the address [base]. *)
Record elf_t := mk_elf { entry_point : Z; elf_base : Z; elf_flags : Z; program_headers : Z }.

Definition load_ident (a : Z) : M elf_ident_t :=
  m0 ← vload 1 a; m1 ← vload 1 (a + 1); m2 ← vload 1 (a + 2); m3 ← vload 1 (a + 3);
  cl ← vload 1 (a + 4); en ← vload 1 (a + 5); iv ← vload 1 (a + 6); os ← vload 1 (a + 7);
  ty ← vload 2 (a + 16); ma ← vload 2 (a + 18); ev ← vload 4 (a + 20);
  mret (mk_ident m0 m1 m2 m3 cl en iv os ty ma ev).

Definition load_program_header (a : Z) : M elf_program_header_t :=
  ty ← vload 4 a; fl ← vload 4 (a + 4); o ← vload 8 (a + 8); va ← vload 8 (a + 16);
  pa ← vload 8 (a + 24); fs ← vload 8 (a + 32); ms ← vload 8 (a + 40); al ← vload 8 (a + 48);
  mret (mk_ph ty fl o va pa fs ms al).

(** * elf_parser *)

(** The tests on the identification, in the order of the code. *)
Definition check_ident (i : elf_ident_t) : Z :=
  if negb ((magic0 i =? 127) && (magic1 i =? 69) && (magic2 i =? 76) && (magic3 i =? 70)) then ELF_ERROR_NO_ELF
  else if negb (ident_version i =? ELF_VALID_IDENT_VERSION) || negb (elf_version i =? ELF_VALID_ELF_VERSION)
  then ELF_ERROR_INVALID_ELF_VERSION
  else if negb (endian i =? ELF_VALID_ENDIAN) || negb (elfclass i =? ELF_VALID_CLASS) ||
          negb (os_abi i =? ELF_VALID_OSABI) || negb (i_machine i =? ELF_VALID_MACHINE)
  then ELF_ERROR_INCOMPATIBLE
  else ELF_SUCCESS.

Section code.
Context `{Kalloc}.

(** [for (entry = 0; entry < program_header_entries; ++entry)] *)
Fixpoint append_headers (k : nat) (l a : Z) : M unit :=
  match k with
  | O => mret tt
  | S k' => linkedlist_append l a;; append_headers k' l (a ⊞ sizeof_program_header)
  end.

(** The code and, on success, what was stored in [*elf]. *)
Definition elf_parser (raw_elf size : Z) : M (Z + elf_t) :=
  if isnull raw_elf || (size <? 50) then mret (inl ELF_ERROR_NO_ELF)
  else
    ident ← load_ident raw_elf;
    if negb (check_ident ident =? ELF_SUCCESS) then mret (inl (check_ident ident))
    else
      entry ← vload 8 (raw_elf + 24);
      flags ← vload 4 (raw_elf + 48);
      program_header_entries ← vload 2 (raw_elf + 56);
      program_header_next_address ← vload 8 (raw_elf + 32);
      let program_header_next_address := program_header_next_address ⊞ raw_elf in
      l ← linkedlist_create;
      append_headers (Z.to_nat program_header_entries) l program_header_next_address;;
      mret (inr (mk_elf entry raw_elf flags l)).

Definition elf_release (elf : option elf_t) : M unit :=
  match elf with
  | None => mret tt
  | Some e => linkedlist_destroy (program_headers e)
  end.
End code.

(** * Reading a mapped image *)

(** The bytes [lo] to [hi] of virtual memory are mapped and hold [f]. *)
Definition image (s : kstate) (f : Z -> Z) (lo hi : Z) : Prop :=
  forall a, lo <= a < hi -> exists pa, walk (ram (mem s)) 4 (cr3 (paging s)) a = Some pa /\ ram (mem s) pa = f a.

Lemma vload_spec n : forall s f a, image s f a (a + Z.of_nat n) -> vload n a s = Ret (le_load f a n) s.
Proof.
  induction n as [|n IH]; intros s f a Hi; [done|]. cbn [vload le_load].
  destruct (Hi a ltac:(lia)) as (pa & Hw & Hf).
  rewrite (bind_Ret _ _ s (f a) s).
  2: { unfold vbyte. rewrite Hw. unfold load8. by rewrite Hf. }
  rewrite (bind_Ret _ _ s (le_load f (a + 1) n) s); [done|]. apply IH.
  intros x Hx. apply Hi. lia.
Qed.

Lemma image_sub s f lo hi lo' hi' : image s f lo hi -> lo <= lo' -> hi' <= hi -> image s f lo' hi'.
Proof. intros Hi Hl Hh a Ha. apply Hi. lia. Qed.

(** A read in the middle of a computation. *)
Lemma wpx_vload {A} n a s f lo hi (k : Z -> M A) Q E :
  image s f lo hi -> lo <= a -> a + Z.of_nat n <= hi ->
  wpx (k (le_load f a n)) Q E s -> wpx (vload n a ≫= k) Q E s.
Proof.
  intros Hi Hl Hh Hk. apply wpx_bind. unfold wpx.
  by rewrite (vload_spec n s f a) by (eapply image_sub; [exact Hi|lia|lia]).
Qed.

(** The identification of an image held by [f]. *)
Definition ident_of (f : Z -> Z) (a : Z) : elf_ident_t :=
  mk_ident (le_load f a 1) (le_load f (a + 1) 1) (le_load f (a + 2) 1) (le_load f (a + 3) 1)
    (le_load f (a + 4) 1) (le_load f (a + 5) 1) (le_load f (a + 6) 1) (le_load f (a + 7) 1)
    (le_load f (a + 16) 2) (le_load f (a + 18) 2) (le_load f (a + 20) 4).

Ltac vread Hi := eapply wpx_vload; [exact Hi|lia|lia|].

Lemma load_ident_spec s f a hi :
  image s f a hi -> a + 24 <= hi -> load_ident a s = Ret (ident_of f a) s.
Proof.
  intros Hi Hh. assert (wp (load_ident a) (fun i s' => i = ident_of f a /\ s' = s) s) as Hw.
  { unfold load_ident, wp. do 11 vread Hi. by apply wpx_ret. }
  destruct (wp_inv _ _ _ Hw) as (i & s' & E & -> & ->). exact E.
Qed.

(** * What the parser returns *)

(** Addresses of [k] program headers from [a] on. *)
Fixpoint header_addrs (k : nat) (a : Z) : list Z :=
  match k with O => [] | S k' => a :: header_addrs k' (a ⊞ sizeof_program_header) end.

Lemma header_addrs_lookup k : forall a i,
  0 <= a -> a + 56 * Z.of_nat k < 2 ^ 64 -> (i < k)%nat -> header_addrs k a !! i = Some (a + 56 * Z.of_nat i).
Proof.
  induction k as [|k IH]; intros a i Ha Hk Hi; [lia|]. cbn [header_addrs]. change sizeof_program_header with 56.
  destruct i as [|i]; cbn [lookup list_lookup]; [f_equal; lia|].
  rewrite u64_small by lia. rewrite IH by lia. f_equal. lia.
Qed.

Lemma header_addrs_length k : forall a, length (header_addrs k a) = k.
Proof. induction k as [|k IH]; intros a; [done|]. cbn. by rewrite IH. Qed.

Section specs.
Context `{K : Kalloc} `{!GoodAlloc K}.

Lemma append_headers_spec k : forall s L l ns a,
  lists_inv s L -> alloc_ok (mem s) -> L !! l = Some ns -> 16 * Z.of_nat k <= avail s ->
  wp (append_headers k l a) (fun _ s' => only_lists (16 * Z.of_nat k) s s' /\
    exists ns', lists_inv s' (<[l := ns']> L) /\ values ns' = values ns ++ header_addrs k a) s.
Proof.
  induction k as [|k IH]; intros s L l ns a Hl Hok Hns Ha; cbn [append_headers header_addrs].
  - wstep. split; [apply only_lists_refl|]. exists ns. rewrite insert_id, app_nil_r by done. done.
  - eapply wp_call; [apply (linkedlist_append_spec s L Hl Hok _ ns a Hns); lia|].
    intros r s1 (-> & Ho & Hl1). destruct (only_lists_avail _ _ _ Hok Ho) as [Hok1 Ha1].
    eapply wp_mono; [eapply IH; [exact Hl1|exact Hok1|apply lookup_insert_eq|lia]|].
    intros _ s' (Ho' & ns' & Hl' & Hv'). split.
    + replace (16 * Z.of_nat (S k)) with (16 + 16 * Z.of_nat k) by lia. by eapply only_lists_trans.
    + exists ns'. rewrite insert_insert_eq in Hl'. split; [done|]. rewrite Hv'. unfold values.
      by rewrite fmap_app, <- app_assoc.
Qed.

(** What the image says. *)
Definition entries_of (f : Z -> Z) (raw : Z) : Z := le_load f (raw + 56) 2.
Definition headers_of (f : Z -> Z) (raw : Z) : list Z :=
  header_addrs (Z.to_nat (entries_of f raw)) (le_load f (raw + 32) 8 ⊞ raw).

Lemma elf_parser_spec s L f raw size :
  lists_inv s L -> alloc_ok (mem s) -> (forall a, 0 <= f a < 256) ->
  raw <> 0 -> 50 <= size -> image s f raw (raw + 58) ->
  16 + 16 * entries_of f raw <= avail s ->
  wp (elf_parser raw size) (fun r s' =>
    if check_ident (ident_of f raw) =? ELF_SUCCESS
    then exists l L' ns, r = inr (mk_elf (le_load f (raw + 24) 8) raw (le_load f (raw + 48) 4) l) /\
      only_lists (16 + 16 * entries_of f raw) s s' /\ L !! l = None /\ L' = <[l := ns]> L /\ lists_inv s' L' /\
      values ns = headers_of f raw
    else r = inl (check_ident (ident_of f raw)) /\ s' = s) s.
Proof.
  intros Hl Hok Hf Hraw Hsize Hi Ha. unfold elf_parser. nonnull raw. rewrite (proj2 (Z.ltb_ge size 50)) by done. cbn [orb].
  unfold wp. apply wpx_bind. unfold wpx at 1. rewrite (load_ident_spec s f raw (raw + 58)) by (done || lia).
  destruct (check_ident (ident_of f raw) =? ELF_SUCCESS); cbn [negb]; [|by apply wpx_ret].
  vread Hi. vread Hi. vread Hi. vread Hi. fold (entries_of f raw).
  assert (0 <= entries_of f raw) as He by (apply le_load_range; done).
  eapply wpx_call; [apply (linkedlist_create_spec s L); [done|done|lia]|].
  intros l s1 (-> & HLl & Ho & Hl1). destruct (only_lists_avail _ _ _ Hok Ho) as [Hok1 Ha1].
  eapply wpx_call.
  { eapply (append_headers_spec _ s1); [exact Hl1|exact Hok1|apply lookup_insert_eq|]. rewrite Z2Nat.id by done. lia. }
  intros _ s2 (Ho2 & ns & Hl2 & Hv). rewrite insert_insert_eq in Hl2. rewrite Z2Nat.id in Ho2 by done. apply wpx_ret.
  exists (heap_top (mem s)), (<[heap_top (mem s) := ns]> L), ns.
  split_and!; [done|by eapply only_lists_trans|done|done|exact Hl2|exact Hv].
Qed.
End specs.


(** An image of 64 bytes with one program header, mapped at 2 MB. *)
Definition elf_bytes : list Z :=
  [127; 69; 76; 70; 2; 1; 1; 0; 0; 0; 0; 0; 0; 0; 0; 0; 2; 0; 62; 0; 1; 0; 0; 0;
   0; 16; 64; 0; 0; 0; 0; 0; 64; 0; 0; 0; 0; 0; 0; 0; 0; 0; 0; 0; 0; 0; 0; 0;
   0; 0; 0; 0; 64; 0; 56; 0; 1; 0; 0; 0; 0; 0; 0; 0].
Definition elf_at (base a : Z) : Z := if a <? base then 0 else default 0 (elf_bytes !! Z.to_nat (a - base)).
Definition ram_elf : Z -> Z :=
  store64 (store64 (store64 (store64 (elf_at 67108864) 4096 (8192 + 7)) 8192 (12288 + 7)) 12296 (16384 + 7))
    16384 (67108864 + 7).
Definition s_elf : kstate := set_cr3 4096 (set_ram ram_elf state0).

Lemma s_elf_image : image s_elf (elf_at 2097152) 2097152 (2097152 + 58).
Proof.
  assert (forallb (fun a => match walk (ram (mem s_elf)) 4 (cr3 (paging s_elf)) a with
    | Some pa => ram (mem s_elf) pa =? elf_at 2097152 a | None => false end) (seqZ 2097152 58) = true) as H
    by (vm_compute; reflexivity).
  intros a Ha. rewrite forallb_forall in H. specialize (H a). destruct (walk _ _ _ a) as [pa|].
  - exists pa. split; [done|]. apply Z.eqb_eq, H. apply list_elem_of_In, elem_of_seqZ. lia.
  - discriminate H. apply list_elem_of_In, elem_of_seqZ. lia.
Qed.


(** The number of program headers the parser finds. *)
Definition headers_found (raw size : Z) (s : kstate) : option Z :=
  match elf_parser (H := bump_alloc) raw size s with
  | Ret (inr e) s' => result (linkedlist_size (program_headers e)) s'
  | _ => None
  end.

(** The same image with another byte behind its first 50. *)
Definition s_elf_tail : kstate := set_ram (fun a => if a =? 67108864 + 56 then 0 else ram_elf a) s_elf.

(** An image of 50 bytes is long enough for the parser, but the number of
    program headers is read at offset 56: for two images that agree on their 50
    bytes the parser finds one header and none. *)
Theorem elf_parser_reads_past_size :
  (forall a, 67108864 <= a < 67108864 + 50 -> ram (mem s_elf) a = ram (mem s_elf_tail) a) /\
  headers_found 2097152 50 s_elf = Some 1 /\ headers_found 2097152 50 s_elf_tail = Some 0.
Proof.
  split_and!; [|vm_compute; reflexivity|vm_compute; reflexivity].
  intros a Ha. cbn [s_elf_tail s_elf mem set_ram set_cr3 set_mem set_paging ram].
  destruct (Z.eqb_spec a (67108864 + 56)); [lia|done].
Qed.
