(* ===== verification/Multiboot.v ===== *)
(** hal/src/x86_64/platform.c and hal/src/common/multiboot2.c: the platform
    object and what the boot loader announces.

    The information of the boot loader is read from physical memory, where it
    put it; the addresses of the kernel image are the linker's ([Layout]). *)
From S2P Require Import Prelude Machine Logic LinkedList CString.

(** * x86_64/platform.c *)
Section platform.
Context `{Kalloc} `{Layout}.

Definition set_reserved_segments (v : Z) (s : kstate) : kstate :=
  let p := platform (mem s) in
  set_platform (mk_platform (total_memory_info p) (p_kernel p) (p_kernel_data p) v (p_modules p)) s.
Definition set_modules (v : Z) (s : kstate) : kstate :=
  let p := platform (mem s) in
  set_platform (mk_platform (total_memory_info p) (p_kernel p) (p_kernel_data p) (reserved_segments p) v) s.
Definition set_total_memory (v : Z) (s : kstate) : kstate :=
  let p := platform (mem s) in
  set_platform (mk_platform v (p_kernel p) (p_kernel_data p) (reserved_segments p) (p_modules p)) s.

Definition kernel_segment : region_t :=
  mk_seg ADDR_KERNEL_START ADDR_KERNEL_END (ADDR_KERNEL_END ⊟ ADDR_KERNEL_START).
Definition kernel_data_start : Z := u64 (ALIGN ADDR_KERNEL_END SYSTEM_PAGE_SIZE + SYSTEM_PAGE_SIZE).

Definition platform_initialize : M bool :=
  modify (fun s => let p := platform (mem s) in
    set_platform (mk_platform (total_memory_info p) kernel_segment
      (mk_seg kernel_data_start kernel_data_start 0) (reserved_segments p) (p_modules p)) s);;
  l ← linkedlist_create;
  modify (set_reserved_segments l);;
  l ← linkedlist_create;
  modify (set_modules l);;
  mret true.
End platform.

(** * common/multiboot2.h *)
Definition MULTIBOOT2_BOOTLOADER_MAGIC : Z := 920085129.
Definition MULTIBOOT_TAG_TYPE_END : Z := 0.
Definition MULTIBOOT_TAG_TYPE_MODULE : Z := 3.
Definition MULTIBOOT_TAG_TYPE_BASIC_MEMINFO : Z := 4.
Definition MULTIBOOT_TAG_TYPE_MMAP : Z := 6.
Definition MULTIBOOT_MEMORY_AVAILABLE : Z := 1.

Definition load32 (m : bytes) (a : Z) : Z := le_load m a 4.

(** [struct multiboot_tag] and the tags the parser looks into *)
Definition tag_type (m : bytes) (tag : Z) : Z := load32 m tag.
Definition tag_size (m : bytes) (tag : Z) : Z := load32 m (tag + 4).
Definition mod_start (m : bytes) (tag : Z) : Z := load32 m (tag + 8).
Definition mod_end (m : bytes) (tag : Z) : Z := load32 m (tag + 12).
Definition mod_cmdline (tag : Z) : Z := tag + 16.
Definition mem_upper (m : bytes) (tag : Z) : Z := load32 m (tag + 12).
Definition mmap_entry_size (m : bytes) (tag : Z) : Z := load32 m (tag + 8).
Definition mmap_entries (tag : Z) : Z := tag + 16.
(** [struct multiboot_mmap_entry] *)
Definition mmap_addr (m : bytes) (e : Z) : Z := load64 m e.
Definition mmap_len (m : bytes) (e : Z) : Z := load64 m (e + 8).
Definition mmap_type (m : bytes) (e : Z) : Z := load32 m (e + 16).

(** [tag + ((tag->size + 7) & ~7)], the sum being a 32-bit number *)
Definition next_tag (m : bytes) (tag : Z) : Z := tag + ALIGN (u32 (tag_size m tag + 7)) 8.

(** [(meminfo->mem_upper + 1024) * 1024], in 32 bits *)
Definition meminfo_total (upper : Z) : Z := u32 (u32 (upper + 1024) * 1024).

(** Characters of a string in memory, for the name of a module. *)
Fixpoint string_of (m : bytes) (a : Z) (n : nat) : string :=
  match n with
  | O => EmptyString
  | S n' => String (Ascii.ascii_of_N (Z.to_N (m a))) (string_of m (a + 1) n')
  end.

Section parser.
Context `{Kalloc}.

Definition ram_now : M bytes := gets (fun s => ram (mem s)).

(** [case MULTIBOOT_TAG_TYPE_MODULE]; the name is kept as the string copied. *)
Definition parse_module (fuel : nat) (tag : Z) : M unit :=
  module ← NEW info_module_t;
  m ← ram_now;
  match strlen fuel m (mod_cmdline tag) with
  | None => out_of_fuel
  | Some param_size =>
      param ← kalloc (param_size ⊞ 1);
      m ← ram_now;
      let name := string_of m (mod_cmdline tag) (Z.to_nat param_size) in
      modify (set_ram (fst (strncpy m param (mod_cmdline tag) param_size)));;
      m ← ram_now;
      update module (fun _ => mk_module (if isnull param then None else Some name)
        (mk_seg (mod_start m tag) (mod_end m tag) (u64 (u32 (mod_end m tag - mod_start m tag)))));;
      l ← gets (fun s => p_modules (platform (mem s)));
      linkedlist_append l module;; mret tt
  end.

(** The loop of [case MULTIBOOT_TAG_TYPE_MMAP]. *)
Fixpoint parse_mmap (fuel : nat) (tag mmap : Z) : M unit :=
  match fuel with
  | O => out_of_fuel
  | S fuel' =>
      m ← ram_now;
      if mmap <? tag + tag_size m tag then
        (if negb (mmap_type m mmap =? MULTIBOOT_MEMORY_AVAILABLE) then
           region ← NEW region_t;
           m ← ram_now;
           update region (fun _ => mk_seg (mmap_addr m mmap) (mmap_addr m mmap ⊞ mmap_len m mmap) (mmap_len m mmap));;
           l ← gets (fun s => reserved_segments (platform (mem s)));
           linkedlist_append l region;; mret tt
         else mret tt);;
        m ← ram_now;
        parse_mmap fuel' tag (mmap + mmap_entry_size m tag)
      else mret tt
  end.

(** The [switch]; the tags that are only logged do nothing, and the code after
    the [break] of the frame buffer's case is never reached. *)
Definition parse_tag (fuel : nat) (tag : Z) : M unit :=
  m ← ram_now;
  if tag_type m tag =? MULTIBOOT_TAG_TYPE_MODULE then parse_module fuel tag
  else if tag_type m tag =? MULTIBOOT_TAG_TYPE_BASIC_MEMINFO
  then modify (set_total_memory (meminfo_total (mem_upper m tag)))
  else if tag_type m tag =? MULTIBOOT_TAG_TYPE_MMAP then parse_mmap fuel tag (mmap_entries tag)
  else mret tt.

Fixpoint parse_tags (fuel : nat) (tag : Z) : M unit :=
  match fuel with
  | O => out_of_fuel
  | S fuel' =>
      m ← ram_now;
      if tag_type m tag =? MULTIBOOT_TAG_TYPE_END then mret tt
      else
        parse_tag fuel' tag;;
        m ← ram_now;
        parse_tags fuel' (next_tag m tag)
  end.

Definition multiboot2_parser (fuel : nat) (magic addr : Z) : M bool :=
  if negb (u32 magic =? MULTIBOOT2_BOOTLOADER_MAGIC) then mret false
  else if negb (Z.land (u32 addr) 7 =? 0) then mret false
  else parse_tags fuel (addr + 8);; mret true.
End parser.

(** * What the boot loader announced *)

Record boot_info := mk_info {
  i_total : Z; i_reserved : list region_t; i_modules : list info_module_t }.

(** An entry of the memory map, and a tag. *)
Record mmap_entry := mk_me { me_addr : Z; me_len : Z; me_type : Z }.
Inductive btag :=
  | BModule (first last : Z) (name : string)
  | BMeminfo (upper : Z)
  | BMmap (es : list mmap_entry)
  | BOther.

Definition reserved_of (es : list mmap_entry) : list region_t :=
  (fun e => mk_seg (me_addr e) (me_addr e ⊞ me_len e) (me_len e)) <$>
    filter (fun e => me_type e <> MULTIBOOT_MEMORY_AVAILABLE) es.

Definition module_of (first last : Z) (name : string) : info_module_t :=
  mk_module (Some name) (mk_seg first last (u64 (u32 (last - first)))).

Definition collect1 (t : btag) (b : boot_info) : boot_info :=
  match t with
  | BModule first last name => mk_info (i_total b) (i_reserved b) (i_modules b ++ [module_of first last name])
  | BMeminfo upper => mk_info (meminfo_total upper) (i_reserved b) (i_modules b)
  | BMmap es => mk_info (i_total b) (i_reserved b ++ reserved_of es) (i_modules b)
  | BOther => b
  end.
Definition collect (ts : list btag) (b : boot_info) : boot_info := foldl (flip collect1) b ts.

(** Kernel memory, and loop iterations, a tag takes. *)
Definition tag_cost (t : btag) : Z :=
  match t with
  | BModule _ _ name => 49 + Z.of_nat (String.length name)
  | BMmap es => 40 * Z.of_nat (length es)
  | _ => 0
  end.
Definition tag_steps (t : btag) : nat :=
  match t with
  | BModule _ _ name => 8 + String.length name
  | BMmap es => 1 + length es
  | _ => 0
  end.
Definition tags_cost (ts : list btag) : Z := foldr (fun t n => tag_cost t + n) 0 ts.
Definition tags_steps (ts : list btag) : nat := foldr (fun t n => Nat.max (tag_steps t) n) O ts.

Lemma tags_cost_pos ts : 0 <= tags_cost ts.
Proof.
  unfold tags_cost. induction ts as [|t ts IH]; cbn [foldr]; [lia|].
  assert (0 <= tag_cost t) by (destruct t; cbn; lia). lia.
Qed.

(** The tag [t] is at [tag], below [hi]. *)
Definition tag_at (m : bytes) (hi tag : Z) (t : btag) : Prop :=
  match t with
  | BModule first last name =>
      tag_type m tag = MULTIBOOT_TAG_TYPE_MODULE /\ mod_start m tag = first /\ mod_end m tag = last /\
      cstr m (tag + 16) (Z.of_nat (String.length name)) /\
      string_of m (tag + 16) (String.length name) = name /\ tag + 16 + Z.of_nat (String.length name) < hi
  | BMeminfo upper =>
      tag_type m tag = MULTIBOOT_TAG_TYPE_BASIC_MEMINFO /\ mem_upper m tag = upper /\ tag + 16 <= hi
  | BMmap es =>
      tag_type m tag = MULTIBOOT_TAG_TYPE_MMAP /\ 20 <= mmap_entry_size m tag /\
      tag_size m tag = 16 + mmap_entry_size m tag * Z.of_nat (length es) /\ tag + tag_size m tag <= hi /\
      forall i e, es !! i = Some e ->
        let a := tag + 16 + mmap_entry_size m tag * Z.of_nat i in
        e = mk_me (mmap_addr m a) (mmap_len m a) (mmap_type m a)
  | BOther =>
      (tag_type m tag ∉ [MULTIBOOT_TAG_TYPE_END; MULTIBOOT_TAG_TYPE_MODULE; MULTIBOOT_TAG_TYPE_BASIC_MEMINFO;
        MULTIBOOT_TAG_TYPE_MMAP]) /\ tag + 8 <= hi
  end.

Inductive tags_at (m : bytes) (hi : Z) : Z -> list btag -> Prop :=
  | tags_end tag : tag_type m tag = MULTIBOOT_TAG_TYPE_END -> tag + 8 <= hi -> tags_at m hi tag []
  | tags_cons tag t ts : tag_at m hi tag t -> tag + 8 <= hi -> tags_at m hi (next_tag m tag) ts ->
      tags_at m hi tag (t :: ts).

(** ** The description does not change when the kernel allocates above it *)
Section stable.
Context (m m' : bytes) (hi : Z).
Hypothesis Hm : forall a, a < hi -> m' a = m a.

Lemma load_stable a n : a + Z.of_nat n <= hi -> le_load m' a n = le_load m a n.
Proof. intros Ha. apply le_load_ext. intros i Hi. apply Hm. lia. Qed.

Lemma load32_stable a : a + 4 <= hi -> load32 m' a = load32 m a.
Proof. intros Ha. by apply load_stable. Qed.

Lemma string_stable n : forall a, a + Z.of_nat n <= hi -> string_of m' a n = string_of m a n.
Proof. induction n as [|n IH]; intros a Ha; [done|]. cbn. rewrite Hm, IH by lia. done. Qed.

Lemma cstr_stable a n : a + n < hi -> cstr m a n -> cstr m' a n.
Proof.
  intros Ha (Hn & Hz & Hc). split_and!; [done|by rewrite Hm|]. intros i Hi. rewrite Hm by lia. by apply Hc.
Qed.

Lemma tag_at_stable tag t : tag + 8 <= hi -> tag_at m hi tag t -> tag_at m' hi tag t.
Proof.
  intros Hh. unfold tag_at, tag_type, tag_size, mod_start, mod_end, mem_upper, mmap_entry_size, mmap_addr, mmap_len,
    mmap_type, load64.
  destruct t as [first last name|upper|es|].
  - intros (E & Es & El & Hc & Hn & Hb). rewrite !load32_stable, string_stable by lia.
    split_and!; try done. apply cstr_stable; [lia|done].
  - intros (E & Eu & Hb). rewrite !load32_stable by lia. done.
  - intros (E & Hes & Esz & Hb & He). rewrite (load32_stable tag), (load32_stable (tag + 4)) by lia.
    assert (tag + 16 <= hi) by nia. rewrite (load32_stable (tag + 8)) by lia. split_and!; try done.
    intros i e Hi. specialize (He i e Hi). apply lookup_lt_Some in Hi. cbv zeta in *.
    rewrite !load_stable, load32_stable by nia. done.
  - rewrite !load32_stable by lia. done.
Qed.

Lemma tags_at_stable tag ts : tags_at m hi tag ts -> tags_at m' hi tag ts.
Proof.
  induction 1 as [tag E Hb|tag t ts Ht Hb _ IH].
  - constructor; [|done]. unfold tag_type in *. by rewrite load32_stable by lia.
  - constructor; [by apply tag_at_stable|done|]. unfold next_tag, tag_size in *. by rewrite load32_stable by lia.
Qed.
End stable.

(** * What the parser leaves in the platform object *)

(** The structs a list of pointers refers to. *)
Definition holds {T} `{Struct T} (s : kstate) (ps : list Z) (vs : list T) : Prop :=
  Forall2 (fun p v => heap s !! p = Some v /\ 0 < p < heap_top (mem s)) ps vs.

Record boot_rel (s : kstate) (L : gmap Z (list (Z * Z))) (b : boot_info) : Prop := {
  br_lists : lists_inv s L;
  br_alloc : alloc_ok (mem s);
  br_bytes : byte_mem (ram (mem s));
  br_total : total_memory_info (platform (mem s)) = i_total b;
  br_segs : exists ns, L !! reserved_segments (platform (mem s)) = Some ns /\ holds s (values ns) (i_reserved b);
  br_mods : exists ns, L !! p_modules (platform (mem s)) = Some ns /\ holds s (values ns) (i_modules b);
  br_ne : reserved_segments (platform (mem s)) <> p_modules (platform (mem s)) }.

(** A step that used [n] bytes of kernel memory and left what is below [hi]. *)
Record boot_step (n hi : Z) (s s' : kstate) : Prop := {
  bs_ram a : a < hi -> ram (mem s') a = ram (mem s) a;
  bs_top : heap_top (mem s) <= heap_top (mem s');
  bs_avail : avail s - n <= avail s' }.

Lemma boot_step_trans n1 n2 hi s1 s2 s3 :
  boot_step n1 hi s1 s2 -> boot_step n2 hi s2 s3 -> boot_step (n1 + n2) hi s1 s3.
Proof. intros [R1 T1 A1] [R2 T2 A2]. split; [|lia|lia]. intros a Ha. by rewrite R2, R1. Qed.

Lemma boot_step_mono n n' hi s s' : n <= n' -> boot_step n hi s s' -> boot_step n' hi s s'.
Proof. intros Hn [R T A]. split; [done|done|lia]. Qed.

Lemma boot_step_refl hi s : boot_step 0 hi s s.
Proof. split; [done|lia|lia]. Qed.

Lemma boot_step_quiet n hi s s' :
  alloc_ok (mem s) -> quiet n (mem s) (mem s') -> Machine.vm s' = Machine.vm s -> hi <= heap_top (mem s) ->
  boot_step n hi s s'.
Proof.
  intros Hok Hq Ev Hh. pose proof (gr_top _ _ _ (q_grown _ _ _ Hq)). pose proof (gr_pos _ _ _ (q_grown _ _ _ Hq)). split.
  - intros a Ha. apply (q_ram _ _ _ Hq). lia.
  - lia.
  - eapply avail_grown_regions; [done|by apply q_grown|by rewrite Ev].
Qed.

Lemma holds_grow {T} `{Struct T} s s' ps (vs : list T) :
  heap_top (mem s) <= heap_top (mem s') ->
  (forall p, p < heap_top (mem s) -> heap (T := T) s' !! p = heap s !! p) -> holds s ps vs -> holds s' ps vs.
Proof.
  intros Ht He Hh. eapply Forall2_impl; [exact Hh|]. intros p v [Hp Hlt]. rewrite He by lia. split; [done|lia].
Qed.

(** The relation is kept by anything that leaves the lists and the structs
    below the old top of the heap. *)
Lemma boot_rel_quiet n s s' L b :
  boot_rel s L b -> quiet n (mem s) (mem s') -> heap_top (mem s') <= 2 ^ 63 -> lists s' = lists s ->
  (forall p, p < heap_top (mem s) -> segs (boot s') !! p = segs (boot s) !! p) ->
  (forall p, p < heap_top (mem s) -> mods (boot s') !! p = mods (boot s) !! p) ->
  boot_rel s' L b.
Proof.
  intros [Hl Hok Hb Ht Hs Hm Hne] Hq Htop El Es Em. pose proof (q_grown _ _ _ Hq) as Hg.
  pose proof (gr_top _ _ _ Hg). pose proof (gr_pos _ _ _ Hg). split.
  - by eapply lists_inv_grown.
  - by eapply grown_alloc_ok.
  - exact (q_bytes _ _ _ Hq Hb).
  - by rewrite (gr_total _ _ _ Hg).
  - rewrite (gr_segs _ _ _ Hg). destruct Hs as (ns & E & Hh). exists ns. split; [done|]. by apply (holds_grow s); [lia|..].
  - rewrite (gr_mods _ _ _ Hg). destruct Hm as (ns & E & Hh). exists ns. split; [done|]. by apply (holds_grow s); [lia|..].
  - by rewrite (gr_segs _ _ _ Hg), (gr_mods _ _ _ Hg).
Qed.

Lemma lookup_top_ne {V} (M : gmap Z V) p top v : p < top -> <[top := v]> M !! p = M !! p.
Proof. intros Hp. apply lookup_insert_ne. lia. Qed.

Section specs.
Context `{K : Kalloc} `{!GoodAlloc K}.

(** Appending a new struct to one of the two lists. *)
Lemma append_segment_spec s L b p v :
  boot_rel s L b -> 16 <= avail s -> segs (boot s) !! p = Some v -> 0 < p < heap_top (mem s) ->
  wp (linkedlist_append (reserved_segments (platform (mem s))) p) (fun _ s' =>
    quiet 16 (mem s) (mem s') /\ Machine.vm s' = Machine.vm s /\
    exists L', boot_rel s' L' (mk_info (i_total b) (i_reserved b ++ [v]) (i_modules b))) s.
Proof.
  intros [Hl Hok Hb Ht (ns & Hns & Hs) (nm & Hnm & Hm) Hne] Ha Hp Hlt.
  eapply wp_mono; [by apply (linkedlist_append_spec s L Hl Hok _ ns)|].
  intros _ s' (_ & Ho & Hl'). pose proof (only_lists_quiet _ _ _ Ho) as Hq. destruct Ho as (H & N & m' & -> & _).
  split_and!; [done|done|]. eexists. pose proof (q_grown _ _ _ Hq) as Hg. cbn in *. pose proof (gr_top _ _ _ Hg).
  split; cbn.
  - exact Hl'.
  - by eapply grown_alloc_ok.
  - exact (q_bytes _ _ _ Hq Hb).
  - by rewrite (gr_total _ _ _ Hg).
  - rewrite (gr_segs _ _ _ Hg), lookup_insert_eq. eexists. split; [done|]. unfold values. rewrite fmap_app.
    apply Forall2_app; [by apply (holds_grow s); [cbn; lia|..]|]. constructor; [|constructor]. split; [done|cbn; lia].
  - rewrite (gr_mods _ _ _ Hg), lookup_insert_ne by done. exists nm. split; [done|]. by apply (holds_grow s); [cbn; lia|..].
  - by rewrite (gr_segs _ _ _ Hg), (gr_mods _ _ _ Hg).
Qed.

Lemma append_module_spec s L b p v :
  boot_rel s L b -> 16 <= avail s -> mods (boot s) !! p = Some v -> 0 < p < heap_top (mem s) ->
  wp (linkedlist_append (p_modules (platform (mem s))) p) (fun _ s' =>
    quiet 16 (mem s) (mem s') /\ Machine.vm s' = Machine.vm s /\
    exists L', boot_rel s' L' (mk_info (i_total b) (i_reserved b) (i_modules b ++ [v]))) s.
Proof.
  intros [Hl Hok Hb Ht (ns & Hns & Hs) (nm & Hnm & Hm) Hne] Ha Hp Hlt.
  eapply wp_mono; [by apply (linkedlist_append_spec s L Hl Hok _ nm)|].
  intros _ s' (_ & Ho & Hl'). pose proof (only_lists_quiet _ _ _ Ho) as Hq. destruct Ho as (H & N & m' & -> & _).
  split_and!; [done|done|]. eexists. pose proof (q_grown _ _ _ Hq) as Hg. cbn in *. pose proof (gr_top _ _ _ Hg).
  split; cbn.
  - exact Hl'.
  - by eapply grown_alloc_ok.
  - exact (q_bytes _ _ _ Hq Hb).
  - by rewrite (gr_total _ _ _ Hg).
  - rewrite (gr_segs _ _ _ Hg), lookup_insert_ne by done. exists ns. split; [done|]. by apply (holds_grow s); [cbn; lia|..].
  - rewrite (gr_mods _ _ _ Hg), lookup_insert_eq. eexists. split; [done|]. unfold values. rewrite fmap_app.
    apply Forall2_app; [by apply (holds_grow s); [cbn; lia|..]|]. constructor; [|constructor]. split; [done|cbn; lia].
  - by rewrite (gr_segs _ _ _ Hg), (gr_mods _ _ _ Hg).
Qed.

(** One entry of the memory map that is not available. *)
Lemma reserve_entry_spec s L b mmap hi :
  boot_rel s L b -> 40 <= avail s -> hi <= heap_top (mem s) -> mmap + 20 <= hi ->
  let m := ram (mem s) in
  wp (region ← NEW region_t;
      m ← ram_now;
      update region (fun _ => mk_seg (mmap_addr m mmap) (mmap_addr m mmap ⊞ mmap_len m mmap) (mmap_len m mmap));;
      l ← gets (fun s => reserved_segments (platform (mem s)));
      linkedlist_append l region;; mret tt) (fun _ s' => boot_step 40 hi s s' /\
    exists L', boot_rel s' L' (mk_info (i_total b)
      (i_reserved b ++ [mk_seg (mmap_addr m mmap) (mmap_addr m mmap ⊞ mmap_len m mmap) (mmap_len m mmap)]) (i_modules b))) s.
Proof.
  intros Hr Ha Hh Hmm m. pose proof (br_alloc _ _ _ Hr) as Hok. pose proof (heap_top_pos _ Hok) as Hpos.
  eapply wp_call; [apply (wp_NEW region_t s Hok); cbn; lia|]. intros p s1 (-> & m1 & -> & Hq1). cbn in Hq1.
  pose proof (gr_top _ _ _ (q_grown _ _ _ Hq1)) as Et1.
  assert (heap_top m1 <= 2 ^ 63) as Htop1 by (eapply (avail_top s); [exact Hq1|lia]).
  unfold ram_now. wstep. wstep. wstep. eapply wpx_update; [cbn; apply lookup_insert_eq|]. wstep. wstep.
  pose (v := mk_seg (mmap_addr (ram m1) mmap) (mmap_addr (ram m1) mmap ⊞ mmap_len (ram m1) mmap) (mmap_len (ram m1) mmap)).
  set (s2 := set_heap _ (set_heap _ _)).
  assert (boot_rel s2 L b) as Hr2.
  { apply (boot_rel_quiet 24 s); [done|done|done|done| |done]. intros p Hp. cbn. by rewrite !lookup_top_ne. }
  assert (v = mk_seg (mmap_addr m mmap) (mmap_addr m mmap ⊞ mmap_len m mmap) (mmap_len m mmap)) as Ev.
  { assert (forall a, a < hi -> ram m1 a = m a) as Hram by (intros a Hlt; apply (q_ram _ _ _ Hq1); lia).
    unfold v, mmap_addr, mmap_len, load64. by rewrite !(load_stable m (ram m1) hi Hram) by lia. }
  assert (boot_step 24 hi s s2) as Hs2 by (by apply boot_step_quiet).
  eapply wpx_call.
  { apply (append_segment_spec s2 L b (heap_top (mem s)) v Hr2); [pose proof (bs_avail _ _ _ _ Hs2); lia| |cbn; lia].
    cbn. by rewrite lookup_insert_eq. }
  intros _ s3 (Hq3 & Ev3 & L3 & Hr3). wstep. rewrite <- Ev. split; [|by exists L3].
  change 40 with (24 + 16). eapply boot_step_trans; [exact Hs2|].
  apply boot_step_quiet; [apply Hr2|done|done|]. pose proof (bs_top _ _ _ _ Hs2). lia.
Qed.

(** The rest [es] of a memory map, from [mmap] to the end of its tag. *)
Lemma parse_mmap_spec tag hi sz es : forall fuel s L b mmap,
  boot_rel s L b -> hi <= heap_top (mem s) -> 40 * Z.of_nat (length es) <= avail s -> (length es < fuel)%nat ->
  tag + 12 <= hi -> 20 <= sz -> mmap_entry_size (ram (mem s)) tag = sz ->
  tag + tag_size (ram (mem s)) tag = mmap + sz * Z.of_nat (length es) -> mmap + sz * Z.of_nat (length es) <= hi ->
  (forall i e, es !! i = Some e -> let a := mmap + sz * Z.of_nat i in
    e = mk_me (mmap_addr (ram (mem s)) a) (mmap_len (ram (mem s)) a) (mmap_type (ram (mem s)) a)) ->
  wp (parse_mmap fuel tag mmap) (fun _ s' => boot_step (40 * Z.of_nat (length es)) hi s s' /\
    exists L', boot_rel s' L' (mk_info (i_total b) (i_reserved b ++ reserved_of es) (i_modules b))) s.
Proof.
  induction es as [|e es IH]; intros fuel s L b mmap Hr Hh Ha Hf Ht Hsz Es Ee Hhi He;
    (destruct fuel as [|fuel]; [cbn in Hf; lia|]); cbn [parse_mmap]; unfold ram_now; wstep; wstep.
  { rewrite Ee. cbn [length]. rewrite Z.mul_0_r, Z.add_0_r, Z.ltb_irrefl. wstep.
    split; [apply boot_step_refl|]. exists L. rewrite app_nil_r. by destruct b. }
  cbn [length] in *. rewrite Ee. rewrite (proj2 (Z.ltb_lt _ _)) by nia.
  pose proof (He O e eq_refl) as He0. cbv zeta in He0. rewrite Z.mul_0_r, Z.add_0_r in He0.
  (* the rest of the map, once the first entry is dealt with *)
  assert (forall c b' s1, 0 <= c <= 40 -> boot_step c hi s s1 -> (exists L1, boot_rel s1 L1 b') ->
    mk_info (i_total b') (i_reserved b' ++ reserved_of es) (i_modules b') =
    mk_info (i_total b) (i_reserved b ++ reserved_of (e :: es)) (i_modules b) ->
    wpx (m ← ram_now; parse_mmap fuel tag (mmap + mmap_entry_size m tag)) (fun _ s' =>
      boot_step (40 * Z.of_nat (S (length es))) hi s s' /\
      exists L', boot_rel s' L' (mk_info (i_total b) (i_reserved b ++ reserved_of (e :: es)) (i_modules b)))
      (fun _ _ => False) s1) as Hrest.
  { intros c b' s1 Hc Hs1 [L1 Hr1] Eb. pose proof (bs_ram _ _ _ _ Hs1) as Hram. pose proof (bs_top _ _ _ _ Hs1).
    pose proof (bs_avail _ _ _ _ Hs1). unfold ram_now. wstep. wstep.
    assert (mmap_entry_size (ram (mem s1)) tag = sz) as Es1.
    { rewrite <- Es. unfold mmap_entry_size. apply (load32_stable _ _ hi Hram). lia. }
    rewrite Es1. eapply wpx_mono; [eapply (IH fuel s1 L1 b' (mmap + sz))| |done]; try done; try lia.
    - unfold tag_size in *. rewrite (load32_stable _ _ hi Hram) by lia. lia.
    - intros i e' Hi. specialize (He (S i) e' Hi). pose proof (lookup_lt_Some _ _ _ Hi). cbv zeta in *.
      replace (mmap + sz + sz * Z.of_nat i) with (mmap + sz * Z.of_nat (S i)) by lia.
      unfold mmap_addr, mmap_len, mmap_type, load64 in *.
      rewrite !(load_stable _ _ hi Hram), (load32_stable _ _ hi Hram) by nia. done.
    - intros _ s' (Hs' & L' & Hr'). rewrite Eb in Hr'. split; [|by exists L'].
      eapply boot_step_mono; [|eapply boot_step_trans; [exact Hs1|exact Hs']]. lia. }
  assert (mmap_type (ram (mem s)) mmap = me_type e) as Ety by (by rewrite He0). rewrite Ety.
  destruct (Z.eqb_spec (me_type e) MULTIBOOT_MEMORY_AVAILABLE) as [Eav|Eav]; cbn [negb].
  - wstep. wstep. apply (Hrest 0 b s); [lia|apply boot_step_refl|by exists L|]. unfold reserved_of.
    by rewrite filter_cons_False by (by intros []).
  - wstep. eapply wpx_mono; [eapply (reserve_entry_spec s L b mmap hi); [done|lia|done|nia]| |done].
    cbv beta. intros _ s1 [Hs1 Hr1]. eapply (Hrest 40); [lia|exact Hs1|exact Hr1|]. unfold reserved_of.
    rewrite filter_cons_True by done. cbn [i_total i_reserved i_modules fmap list_fmap]. rewrite <- app_assoc.
    by rewrite He0.
Qed.

(** Copying a string into memory that was just allocated. *)
Lemma quiet_strncpy n m m1 src k :
  quiet n m m1 -> byte_mem (ram m1) -> 0 <= k <= n -> src + k <= heap_top m ->
  let s1 := fst (strncpy (ram m1) (heap_top m) src k) in
  quiet n m (mk_mem s1 (current_mem_ptr m1) (mem_allocator_initialised m1) (kernel_code_vmem_region m1)
    (kernel_data_vmem_region m1) (platform m1) (kfreed m1)).
Proof.
  intros [Hg Hr Hb] Hby Hk Hsrc s1.
  assert (forall a, s1 a = if (heap_top m <=? a) && (a <? heap_top m + k) then strncpy_char (ram m1) src (a - heap_top m)
    else ram m1 a) as Hs1.
  { unfold s1. rewrite <- (Z2Nat.id k) by lia. edestruct (strncpy_spec (ram m1) (heap_top m) src (Z.to_nat k) Hby)
      as (k' & _ & _ & H); [left; lia|]. exact H. }
  split; cbn.
  - destruct Hg. split; cbn; try done. intros a Ha. change (heap_top m1 <= a) in Ha. rewrite Hs1.
    destruct (Z.ltb_spec a (heap_top m + k)); [lia|]. rewrite andb_false_r. auto.
  - intros a Ha. rewrite Hs1. destruct (Z.leb_spec (heap_top m) a), (Z.ltb_spec a (heap_top m + k)); cbn [andb];
      try (apply Hr; lia). lia.
  - intros _ a. rewrite Hs1. destruct (_ && _); [|apply Hby]. unfold strncpy_char. destruct (forallb _ _); [apply Hby|lia].
Qed.

Lemma parse_module_spec s L b tag hi fuel first last name :
  boot_rel s L b -> hi <= heap_top (mem s) -> tag_at (ram (mem s)) hi tag (BModule first last name) ->
  tag_cost (BModule first last name) <= avail s -> (tag_steps (BModule first last name) <= fuel)%nat ->
  wp (parse_module fuel tag) (fun _ s' => boot_step (tag_cost (BModule first last name)) hi s s' /\
    exists L', boot_rel s' L' (collect1 (BModule first last name) b)) s.
Proof.
  intros Hr Hh Ht Ha Hf. pose proof (br_alloc _ _ _ Hr) as Hok. cbn [tag_cost tag_steps] in Ha, Hf.
  set (n := Z.of_nat (String.length name)) in *.
  unfold parse_module. eapply wp_call; [apply (wp_NEW info_module_t s Hok); cbn; lia|].
  intros p s1' (-> & m1 & -> & Hq1). cbn in Hq1. set (p := heap_top (mem s)) in *. set (s1 := set_heap _ _).
  pose proof (gr_top _ _ _ (q_grown _ _ _ Hq1)) as Et1.
  assert (heap_top m1 <= 2 ^ 63) as Htop1 by (eapply (avail_top s); [exact Hq1|lia]).
  assert (boot_rel s1 L b) as Hr1.
  { apply (boot_rel_quiet 32 s); [done|done|done|done|done|]. intros a Hlt. cbn. by rewrite lookup_top_ne. }
  assert (boot_step 32 hi s s1) as Hs1 by (by apply boot_step_quiet).
  pose proof (bs_ram _ _ _ _ Hs1) as Hram1. pose proof (bs_avail _ _ _ _ Hs1) as Ha1.
  pose proof (heap_top_pos _ Hok) as Hp0. fold p in Hp0.
  assert (tag_at (ram (mem s1)) hi tag (BModule first last name)) as (Ety & Efirst & Elast & Hc & Hn & Hb).
  { apply (tag_at_stable (ram (mem s))); [done| |done]. destruct Ht as (_ & _ & _ & _ & _ & ?). unfold n in *. lia. }
  unfold ram_now. wstep. wstep. unfold mod_cmdline.
  rewrite (strlen_spec fuel _ _ n (br_bytes _ _ _ Hr1) Hc) by (unfold n; lia).
  assert (n < 2 ^ 62) by (unfold avail in Ha; lia). rewrite u64_small by lia.
  eapply wpx_call; [apply (wp_kalloc (n + 1) s1 (br_alloc _ _ _ Hr1)); lia|].
  intros q s2' (-> & m2 & -> & Hq2 & _). pose proof (gr_top _ _ _ (q_grown _ _ _ Hq2)) as Et2.
  change (heap_top (mem s1)) with (heap_top m1) in *.
  wstep. wstep. wstep. wstep. wstep. wstep.
  set (s3 := set_ram _ (set_mem m2 s1)).
  assert (heap_top (mem s3) <= 2 ^ 63) as Htop2.
  { change (heap_top (mem s3)) with (heap_top m2). eapply (avail_top s1); [exact Hq2|lia]. }
  assert (quiet (n + 1) (mem s1) (mem s3)) as Hq3.
  { pose proof (quiet_strncpy (n + 1) (mem s1) m2 (tag + 16) n Hq2) as Hqs.
    apply Hqs; [exact (q_bytes _ _ _ Hq2 (br_bytes _ _ _ Hr1))|lia|]. change (heap_top (mem s1)) with (heap_top m1). lia. }
  assert (boot_step (n + 1) hi s1 s3) as Hs3.
  { apply boot_step_quiet; [apply Hr1|done|done|]. change (heap_top (mem s1)) with (heap_top m1). lia. }
  pose proof (boot_step_trans _ _ _ _ _ _ Hs1 Hs3) as Hs13.
  pose proof (bs_ram _ _ _ _ Hs3) as Hram3. pose proof (bs_avail _ _ _ _ Hs13) as Ha3.
  wstep. eapply wpx_update; [cbn; apply lookup_insert_eq|]. wstep. wstep. nonnull (heap_top m1).
  set (v := mk_module _ _). set (s4 := set_heap _ s3).
  assert (v = module_of first last name) as Ev.
  { unfold v, module_of, n. rewrite Nat2Z.id. f_equal.
    - rewrite (string_stable (ram (mem s1)) _ hi); [by rewrite Hn| |lia].
      intros a Hlt. apply (q_ram _ _ _ Hq2). change (heap_top (mem s1)) with (heap_top m1). lia.
    - revert Efirst Elast. unfold mod_start, mod_end. rewrite !(load32_stable _ _ hi Hram3) by lia. by intros -> ->. }
  assert (boot_rel s4 L b) as Hr4.
  { apply (boot_rel_quiet (32 + (n + 1)) s); [done| |done|done|done|].
    - exact (quiet_trans _ _ _ _ _ Hq1 Hq3).
    - intros a Hlt. cbn. by rewrite !lookup_top_ne. }
  eapply wpx_call.
  { apply (append_module_spec s4 L b p v Hr4); [change (avail s4) with (avail s3); lia| |].
    - cbn. by rewrite lookup_insert_eq.
    - change (heap_top (mem s4)) with (heap_top m2). lia. }
  intros _ s5 (Hq5 & Ev5 & L5 & Hr5). wstep. cbn [tag_cost collect1]. rewrite <- Ev. split; [|by exists L5].
  assert (boot_step (32 + (n + 1)) hi s s4) as Hs14 by (destruct Hs13 as [Ar At Aa]; split; [exact Ar|exact At|exact Aa]).
  fold n. replace (49 + n) with (32 + (n + 1) + 16) by lia. eapply boot_step_trans; [exact Hs14|].
  apply (boot_step_quiet 16 hi s4); [apply Hr4|done|done|]. change (heap_top (mem s4)) with (heap_top m2). lia.
Qed.

Lemma parse_tag_spec s L b tag hi fuel t :
  boot_rel s L b -> hi <= heap_top (mem s) -> tag_at (ram (mem s)) hi tag t -> tag + 8 <= hi ->
  tag_cost t <= avail s -> (tag_steps t <= fuel)%nat ->
  wp (parse_tag fuel tag) (fun _ s' => boot_step (tag_cost t) hi s s' /\ exists L', boot_rel s' L' (collect1 t b)) s.
Proof.
  intros Hr Hh Ht Hb Ha Hf. unfold parse_tag, ram_now. wstep. wstep. destruct t as [first last name|upper|es|].
  - pose proof Ht as (-> & _). rewrite Z.eqb_refl.
    eapply wpx_mono; [by eapply (parse_module_spec s L b tag hi)|done|done].
  - destruct Ht as (-> & Eu & _). change (MULTIBOOT_TAG_TYPE_BASIC_MEMINFO =? MULTIBOOT_TAG_TYPE_MODULE) with false.
    rewrite Z.eqb_refl. wstep. rewrite Eu. split.
    + split; [done|apply Z.le_refl|]. cbn [tag_cost]. rewrite Z.sub_0_r. apply Z.le_refl.
    + exists L. destruct Hr as [Hl Hok Hby Htot Hs Hm Hne]. split; cbn; try done.
      destruct Hl as [Ao Al An As]. split; [exact Ao|exact Al|exact An|exact As].
  - destruct Ht as (-> & Hsz & Esz & Hhi & He). change (MULTIBOOT_TAG_TYPE_MMAP =? MULTIBOOT_TAG_TYPE_MODULE) with false.
    change (MULTIBOOT_TAG_TYPE_MMAP =? MULTIBOOT_TAG_TYPE_BASIC_MEMINFO) with false. rewrite Z.eqb_refl.
    eapply wpx_mono; [eapply (parse_mmap_spec tag hi _ es fuel s L b (tag + 16)); try done| |done].
    + nia.
    + lia.
    + nia.
    + done.
  - destruct Ht as [Hn _]. rewrite !not_elem_of_cons in Hn. destruct Hn as (? & ? & ? & ? & _).
    rewrite !(proj2 (Z.eqb_neq _ _)) by done. wstep. split; [apply boot_step_refl|by exists L].
Qed.

Lemma parse_tags_spec hi tag ts : forall s L b fuel,
  boot_rel s L b -> hi <= heap_top (mem s) -> tags_at (ram (mem s)) hi tag ts ->
  tags_cost ts <= avail s -> (length ts + tags_steps ts < fuel)%nat ->
  wp (parse_tags fuel tag) (fun _ s' => boot_step (tags_cost ts) hi s s' /\ exists L', boot_rel s' L' (collect ts b)) s.
Proof.
  revert tag. induction ts as [|t ts IH]; intros tag s L b fuel Hr Hh Ht Ha Hf; (destruct fuel as [|fuel]; [lia|]);
    cbn [parse_tags]; unfold ram_now; wstep; wstep; inversion Ht as [? E Hb|? ? ? Ht1 Hb Hts]; subst.
  { rewrite E. cbn. split; [apply boot_step_refl|by exists L]. }
  cbn [tags_cost foldr] in Ha. fold (tags_cost ts) in Ha. cbn [length tags_steps foldr] in Hf. fold (tags_steps ts) in Hf.
  pose proof (tags_cost_pos ts) as Hts0.
  rewrite (proj2 (Z.eqb_neq _ _)).
  2: { intros E. destruct t; destruct Ht1 as [E' _]; [discriminate (eq_trans (eq_sym E) E')..|]. apply E'. rewrite E. by left. }
  eapply wpx_call; [eapply (parse_tag_spec s L b tag hi fuel t); try done; lia|].
  intros _ s1 (Hs1 & L1 & Hr1). pose proof (bs_ram _ _ _ _ Hs1) as Hram. pose proof (bs_top _ _ _ _ Hs1).
  pose proof (bs_avail _ _ _ _ Hs1). wstep. wstep.
  assert (next_tag (ram (mem s1)) tag = next_tag (ram (mem s)) tag) as ->.
  { unfold next_tag, tag_size. by rewrite (load32_stable _ _ hi Hram) by lia. }
  eapply wpx_mono; [eapply (IH _ s1 L1 (collect1 t b) fuel Hr1); [lia| |lia|lia]| |done].
  - by eapply tags_at_stable.
  - intros _ s' (Hs' & L' & Hr'). split; [|by exists L']. cbn [tags_cost foldr]. by eapply boot_step_trans.
Qed.
End specs.

(** * From reset to the boot information *)

(** The machine when the boot loader hands over: static data is zero, memory
    holds [m]. *)
Definition reset_state `{Layout} (m : bytes) : kstate :=
  mk_state
    (mk_mem m 0 false 0 0 (mk_platform 0 (mk_seg 0 0 0) (mk_seg 0 0 0) 0 0) [])
    (mk_lists ∅ ∅)
    (mk_ids (<[a_vmem_id_mapper := mk_idm 0 0]> (<[a_vmem_region_mapper := mk_idm 0 0]>
      {[a_task_id_mapper := mk_idm 0 0]})) ∅)
    (mk_vm ∅ ∅ ∅ 0) (mk_paging ∅ 0) (mk_pmem 0 0 [])
    (mk_sched ∅ ∅ 0 0) (mk_boot ∅ ∅ (replicate (Z.to_nat SYSCALL_MAX_NUMBER) None) 0).

Section boot.
Context `{K : Kalloc} `{!GoodAlloc K} `{L : Layout}.

Lemma kernel_data_start_page :
  kernel_data_start mod 4096 = 0 /\ ADDR_KERNEL_END < kernel_data_start <= ADDR_KERNEL_END + 4096.
Proof.
  pose proof layout_image as (Hs & Hv & _ & _ & He). unfold kernel_data_start. fold (MEM_ALIGN ADDR_KERNEL_END).
  destruct (MEM_ALIGN_spec ADDR_KERNEL_END) as [Hm Hr].
  change SYSTEM_PAGE_SIZE with 4096. rewrite u64_small by lia. split; [|lia].
  rewrite Z.add_mod, Hm by lia. done.
Qed.

Lemma platform_initialize_spec m :
  byte_mem m ->
  wp platform_initialize (fun r s' => r = true /\
    p_kernel (platform (mem s')) = kernel_segment /\ heap_top (mem s') = kernel_data_start + 32 /\
    addr_start (p_kernel_data (platform (mem s'))) = kernel_data_start /\
    (forall a, a < kernel_data_start -> ram (mem s') a = m a) /\ 2 ^ 61 <= avail s' /\
    exists L', boot_rel s' L' (mk_info 0 [] [])) (reset_state m).
Proof.
  intros Hb. destruct kernel_data_start_page as [_ Hk]. pose proof layout_image as (Hs & Hv & _ & _ & He).
  unfold platform_initialize. wstep. wstep. set (s1 := set_platform _ _).
  assert (lists_inv s1 ∅) as Hl1.
  { split; [split; by intros ? ? ?|by intros ? ?|by intros ? ?|]. change (heap_top (mem s1)) with kernel_data_start. lia. }
  assert (alloc_ok (mem s1)) as Hok1.
  { split; [|done]. change (heap_top (mem s1)) with kernel_data_start. cbn. lia. }
  assert (2 ^ 61 + 32 <= avail s1) as Ha1.
  { unfold avail. change (heap_top (mem s1)) with kernel_data_start. change (kernel_data_region_ok s1) with true. cbn [mem_allocator_initialised mem s1 set_platform set_mem reset_state]. lia. }
  eapply wpx_call; [apply (linkedlist_create_spec s1 ∅ Hl1 Hok1); lia|]. intros l1 s2 (-> & _ & Ho2 & Hl2).
  destruct (only_lists_avail _ _ _ Hok1 Ho2) as [Hok2 Ha2]. pose proof (only_lists_quiet _ _ _ Ho2) as [Hg2 Hr2 Hb2].
  pose proof (gr_top _ _ _ Hg2) as Et2. change (heap_top (mem s1)) with kernel_data_start in *.
  wstep. wstep. set (s3 := set_reserved_segments _ _).
  assert (lists_inv s3 (<[kernel_data_start := []]> ∅)) as Hl3
    by (destruct Hl2 as [Ao Al An As]; split; [exact Ao|exact Al|exact An|exact As]).
  eapply wpx_call; [apply (linkedlist_create_spec s3 _ Hl3 Hok2); change (avail s3) with (avail s2); lia|].
  intros l2 s4 (-> & _ & Ho4 & Hl4).
  destruct (only_lists_avail _ s3 _ Hok2 Ho4) as [Hok4 Ha4]. pose proof (only_lists_quiet _ _ _ Ho4) as [Hg4 Hr4 Hb4].
  pose proof (gr_top _ _ _ Hg4) as Et4. change (heap_top (mem s3)) with (heap_top (mem s2)) in *.
  change (avail s3) with (avail s2) in *.
  wstep. wstep. wstep. set (s5 := set_modules _ _).
  assert (forall a, a < kernel_data_start -> ram (mem s5) a = m a) as Hram.
  { intros a Hlt. change (ram (mem s4) a = m a). rewrite Hr4 by lia.
    change (ram (mem s2) a = m a). rewrite Hr2 by lia. done. }
  split_and!; [done| | | |done| |].
  - change (p_kernel (platform (mem s4)) = kernel_segment). rewrite (gr_kernel _ _ _ Hg4).
    change (p_kernel (platform (mem s2)) = kernel_segment). by rewrite (gr_kernel _ _ _ Hg2).
  - change (heap_top (mem s4) = kernel_data_start + 32). lia.
  - change (addr_start (p_kernel_data (platform (mem s4))) = kernel_data_start). rewrite (gr_start _ _ _ Hg4).
    change (addr_start (p_kernel_data (platform (mem s2))) = kernel_data_start). by rewrite (gr_start _ _ _ Hg2).
  - change (avail s5) with (avail s4). lia.
  - eexists. split.
    + destruct Hl4 as [Ao Al An As]. split; [exact Ao|exact Al|exact An|exact As].
    + exact Hok4.
    + exact (Hb4 (Hb2 Hb)).
    + change (total_memory_info (platform (mem s4)) = 0). rewrite (gr_total _ _ _ Hg4).
      change (total_memory_info (platform (mem s2)) = 0). by rewrite (gr_total _ _ _ Hg2).
    + exists []. split; [|constructor]. change (reserved_segments (platform (mem s5))) with (reserved_segments (platform (mem s4))).
      rewrite (gr_segs _ _ _ Hg4). change (reserved_segments (platform (mem s3))) with kernel_data_start.
      rewrite lookup_insert_ne by lia. apply lookup_insert_eq.
    + exists []. split; [|constructor]. apply lookup_insert_eq.
    + change (reserved_segments (platform (mem s4)) <> heap_top (mem s2)). rewrite (gr_segs _ _ _ Hg4).
      change (kernel_data_start <> heap_top (mem s2)). lia.
Qed.

End boot.

(** A boot with 128 MB, one reserved region and one module. *)
Definition le32 (v : Z) : list Z := [byte_of v 0; byte_of v 1; byte_of v 2; byte_of v 3].
Definition mbi_bytes : list Z :=
  concat (le32 <$> [136; 0;
    4; 16; 640; 130048;
    6; 64; 24; 0; 0; 0; 654336; 0; 1; 0; 983040; 0; 65536; 0; 2; 0;
    3; 22; 4194304; 4198400]) ++ [104; 101; 108; 108; 111; 0; 0; 0] ++ concat (le32 <$> [0; 8]).
Definition m_mbi : bytes := place 8192 mbi_bytes.
Definition tags_mbi : list btag :=
  [BMeminfo 130048; BMmap [mk_me 0 654336 1; mk_me 983040 65536 2]; BModule 4194304 4198400 "hello"].

Lemma tags_mbi_at : tags_at m_mbi 8400 8200 tags_mbi.
Proof.
  apply tags_cons; [by vm_compute|lia|]. change (next_tag m_mbi 8200) with 8216.
  apply tags_cons; [|lia|change (next_tag m_mbi 8216) with 8280].
  - split_and!; [done|vm_compute; congruence|done|vm_compute; congruence|].
    intros [|[|i]] e He; [injection He as <-; by vm_compute..|done].
  - apply tags_cons; [|lia|change (next_tag m_mbi 8280) with 8304].
    + split_and!; [done|done|done| |done|done]. split_and!; [done|done|]. intros i Hi.
      assert (exists k, i = Z.of_nat k /\ (k < 5)%nat) as (k & -> & Hk) by (exists (Z.to_nat i); cbn in Hi; lia).
      do 5 (destruct k as [|k]; [by vm_compute|]). lia.
    + by constructor.
Qed.


(** * Sizes the parser does not expect *)

(** The memory size is computed in 32 bits: it is right exactly when the
    machine has less than 4 GB. *)
Theorem meminfo_total_wraps upper :
  0 <= upper < 2 ^ 32 - 1024 -> (meminfo_total upper = (upper + 1024) * 1024 <-> (upper + 1024) * 1024 < 2 ^ 32).
Proof.
  intros Hu. unfold meminfo_total, u32. rewrite (Z.mod_small (upper + 1024)) by lia. split.
  - intros <-. apply Z.mod_pos_bound. lia.
  - intros Hlt. apply Z.mod_small. lia.
Qed.

Lemma meminfo_total_wraps_witness :
  meminfo_total 64512 = (64512 + 1024) * 1024 /\ meminfo_total 4193280 <> (4193280 + 1024) * 1024.
Proof.
  split.
  - apply (meminfo_total_wraps 64512); lia.
  - intros He. apply (meminfo_total_wraps 4193280) in He; lia.
Defined.

(** C40: the parser trusts the sizes of the tags: a tag it does not know whose
    size is 0 is followed by itself, and no number of iterations is enough. *)
Theorem parse_tags_zero_size_diverges `{Kalloc} fuel tag s :
  let m := ram (mem s) in
  tag_type m tag ∉ [MULTIBOOT_TAG_TYPE_END; MULTIBOOT_TAG_TYPE_MODULE; MULTIBOOT_TAG_TYPE_BASIC_MEMINFO;
    MULTIBOOT_TAG_TYPE_MMAP] ->
  tag_size m tag = 0 -> parse_tags fuel tag s = OutOfFuel.
Proof.
  intros m Hty Hsz. rewrite !not_elem_of_cons in Hty. destruct Hty as (H0 & H1 & H2 & H3 & _).
  induction fuel as [|fuel IH]; [done|]. cbn [parse_tags]. rewrite (bind_Ret ram_now _ s m s) by done.
  rewrite (proj2 (Z.eqb_neq _ _) H0). rewrite (bind_Ret (parse_tag fuel tag) _ s tt s).
  - rewrite (bind_Ret ram_now _ s m s) by done. unfold next_tag. rewrite Hsz.
    change (ALIGN (u32 (0 + 7)) 8) with 0. by rewrite Z.add_0_r.
  - unfold parse_tag. rewrite (bind_Ret ram_now _ s m s) by done.
    by rewrite (proj2 (Z.eqb_neq _ _) H1), (proj2 (Z.eqb_neq _ _) H2), (proj2 (Z.eqb_neq _ _) H3).
Qed.

Lemma parse_tags_zero_size_diverges_witness :
  parse_tags (H := bump_alloc) (Z.to_nat 5000000000) 8192 (reset_state (H := layout_example) (place 8192 [21; 0; 0; 0; 0; 0; 0; 0])) = OutOfFuel.
Proof.
  apply parse_tags_zero_size_diverges; [|vm_compute; reflexivity].
  rewrite !not_elem_of_cons. split_and!; [vm_compute; discriminate..|apply not_elem_of_nil].
Defined.
