(* ===== verification/Task.v ===== *)
(** core/src/task/services.c and core/src/task/syscalls.c: tasks, from their
    creation to their end, on top of the virtual memory services, the id mapper
    and the scheduler. *)
From S2P Require Import Prelude Machine Logic LinkedList IdMapper Pmem NativeVmem Vmem Region Scheduler CString.

(** * Definitions *)
Section code.
Context `{Kalloc} `{NativeVmem} `{NativeTask} `{Layout}.

Definition task_service_initialize : M bool :=
  m ← id_mapper_create a_task_id_mapper;
  if isnull m then mret false else mret true.

Definition task_get (task_id : Z) : M Z := id_mapper_get a_task_id_mapper task_id.

Definition task_release_resources (task : Z) : M unit :=
  if isnull task then mret tt
  else
    scheduler_task_not_ready task;;
    t ← load task;
    id_mapper_del a_task_id_mapper (task_id t);;
    mret tt.

Definition task_create (name : cstring) (vmem : Z) : M Z :=
  task ← NEW task_t;
  if isnull task then mret NULL
  else
    store task (mk_task 0 name false 1 0 TASK_STATUS_CREATED 0 vmem);;
    id ← id_mapper_add a_task_id_mapper task;
    update task (fun t => mk_task id (t_name t) (t_kernel t) (t_priority t) (t_userdata t) (t_status t)
      (native_task t) (memory_handler_of t));;
    t ← load task;
    if isnull (task_id t) then kfree task;; mret NULL
    else mret task.

Definition task_set_kernel_mode (task : Z) : M bool :=
  if isnull task then mret false
  else
    t ← load task;
    if negb (bool_decide (t_status t = TASK_STATUS_CREATED)) then mret false
    else
      update task (fun t => mk_task (task_id t) (t_name t) true (t_priority t) (t_userdata t) (t_status t)
        (native_task t) (memory_handler_of t));;
      mret true.

(** [sizeof(task_userdata_t)]: two words. *)
Definition sizeof_task_userdata : Z := 16.

(** The loop over the arguments, [num_arguments] of them; [inr] is the return
    inside the loop. *)
Fixpoint copy_arguments_loop (n : nat) (stack stack_size : Z) (sizes arguments : list Z)
    (i arguments_ptr_phys arguments_data arguments_data_phys : Z) : M (Z * Z + Z) :=
  match n with
  | O => mret (inl (arguments_data, arguments_data_phys))
  | S n' =>
      match sizes !! Z.to_nat i, arguments !! Z.to_nat i with
      | Some data_size, Some argument =>
          if (stack ⊞ stack_size) ⊟ sizeof_task_userdata <? arguments_data ⊞ data_size then mret (inr 0)
          else
            modify (fun s => set_ram (memcpy (ram (mem s)) arguments_data_phys argument data_size) s);;
            modify (fun s => set_ram (store64 (ram (mem s)) (arguments_ptr_phys + 8 * i) arguments_data) s);;
            copy_arguments_loop n' stack stack_size sizes arguments (i + 1) arguments_ptr_phys
              (arguments_data ⊞ data_size) (arguments_data_phys ⊞ data_size)
      | _, _ => fault
      end
  end.

Definition copy_arguments_to_task (task stack stack_size num_arguments : Z) (sizes arguments : list Z) : M Z :=
  let arguments_ptr := stack in
  t ← load task;
  arguments_ptr_phys ← vmem_get_physical_address (memory_handler_of t) arguments_ptr;
  if isnull arguments_ptr_phys then mret 0
  else
    let arguments_data := stack ⊞ u64 (8 * (num_arguments ⊞ 1)) in
    t ← load task;
    arguments_data_phys ← vmem_get_physical_address (memory_handler_of t) arguments_data;
    if isnull arguments_data_phys then mret 0
    else
      r ← copy_arguments_loop (Z.to_nat num_arguments) stack stack_size sizes arguments 0
        arguments_ptr_phys arguments_data arguments_data_phys;
      match r with
      | inr v => mret v
      | inl (arguments_data, userdata) =>
          modify (fun s => set_ram (store64 (ram (mem s)) userdata num_arguments) s);;
          modify (fun s => set_ram (store64 (ram (mem s)) (userdata + 8) arguments_ptr) s);;
          mret arguments_data
      end.

Definition task_set_arguments (task num_arguments : Z) (sizes arguments : list Z) : M bool :=
  if isnull task then mret false
  else
    t ← load task;
    if negb (bool_decide (t_status t = TASK_STATUS_CREATED)) || negb (isnull (t_userdata t)) then mret false
    else
      vmem_region ← vmem_region_create (memory_handler_of t) (Some "task-argument"%string) 0
        TASK_DEFAULT_STACK_SIZE true true true;
      if isnull vmem_region then mret false
      else
        k ← vmem_get_kernel;
        ok ← vmem_attach k vmem_region;
        if negb ok then mret false
        else
          r ← load vmem_region;
          u ← copy_arguments_to_task task (r_start r) (r_size r) num_arguments sizes arguments;
          update task (fun t => mk_task (task_id t) (t_name t) (t_kernel t) (t_priority t) u (t_status t)
            (native_task t) (memory_handler_of t));;
          mret true.

Definition task_run (task code : Z) : M bool :=
  if isnull task then mret false
  else
    t ← load task;
    if negb (bool_decide (t_status t = TASK_STATUS_CREATED)) then mret false
    else
      vmem_region ← vmem_region_create (memory_handler_of t) (Some "?-stack"%string) 0
        TASK_DEFAULT_STACK_SIZE true true true;
      if isnull vmem_region then mret false
      else
        r ← load vmem_region;
        t ← load task;
        ok ← native_task_create task code ((r_start r ⊞ r_size r) ⊟ 8) (t_kernel t) (t_userdata t);
        if negb ok then mret false
        else scheduler_task_ready task;; mret true.

Definition task_destroy (task : Z) : M bool :=
  if isnull task then mret false
  else task_release_resources task;; mret true.

Definition task_display_name (task : Z) : M string :=
  if isnull task then mret "(invalid task)"%string
  else
    t ← load task;
    match t_name t with
    | None => mret "(unamed task)"%string
    | Some n => mret n
    end.

(** [scheduler_switch_task] does not return. *)
Definition syscall_handler_task_exit : M Z :=
  task ← scheduler_current_task;
  task_destroy task;;
  scheduler_switch_task;;
  mret 0.
End code.

(** * The registry of tasks *)

(** The scheduler and the id mapper of tasks together: the queue is a list of
    its own, and a registered id is the id of the task it finds. *)
Record tasks_inv `{Layout} (s : kstate) (L : gmap Z (list (Z * Z))) (q : list Z) (G : gmap Z idm) (g : idm) : Prop := {
  ti_sched : sched_inv s L q;
  ti_ids : ids_inv s L G;
  ti_mapper : G !! a_task_id_mapper = Some g;
  ti_apart p h : G !! p = Some h -> g_list h <> scheduled_tasks (sched s);
  ti_below : below task_t s;
  ti_next : 0 < g_next g < 2 ^ 63;
  ti_reg id t : (id, t) ∈ g_entries g -> exists x, tasks (sched s) !! t = Some x /\ task_id x = id }.

(** What task operations may change: lists, mappers, tasks, and memory by quiet
    allocations of [n] bytes. *)
Record task_frame (n : Z) (s s' : kstate) : Prop := {
  tf_quiet : quiet n (mem s) (mem s');
  tf_vm : Machine.vm s' = Machine.vm s;
  tf_paging : paging s' = paging s;
  tf_pmem : pmem s' = pmem s;
  tf_boot : boot s' = boot s }.

Lemma task_frame_refl s : task_frame 0 s s.
Proof. split; [apply quiet_refl|done..]. Qed.

Lemma task_frame_trans n1 n2 s1 s2 s3 : task_frame n1 s1 s2 -> task_frame n2 s2 s3 -> task_frame (n1 + n2) s1 s3.
Proof. intros [] []. split; [by eapply quiet_trans|congruence..]. Qed.

Lemma only_sched_task n s s' : only_sched n s s' -> task_frame n s s' /\ ids s' = ids s.
Proof. intros (sc & Ls & m' & -> & Hq). by split; [split|]. Qed.

Lemma only_ids_task n s s' : only_ids n s s' -> task_frame n s s' /\ sched s' = sched s.
Proof. intros (I & Ls & m' & -> & Hq). by split; [split|]. Qed.

Lemma task_frame_avail n s s' : alloc_ok (mem s) -> task_frame n s s' -> alloc_ok (mem s') /\ avail s - n <= avail s'.
Proof.
  intros Hok [Hq Ev _ _ _]. split; [eapply grown_alloc_ok; [apply q_grown, Hq|done]|].
  eapply avail_grown_regions; [done|apply q_grown, Hq|by rewrite Ev].
Qed.

(** The scheduler does not look at the other lists. *)
Lemma sched_inv_frame s s' L L' q :
  sched_inv s L q -> sched s' = sched s -> lists_inv s' L' -> alloc_ok (mem s') ->
  L' !! scheduled_tasks (sched s) = L !! scheduled_tasks (sched s) -> sched_inv s' L' q.
Proof.
  intros [Hl Hok Hq Hnd Hr Hc Hcp] Es Hl' Hok' EL. unfold ready_in, running_of in *.
  split; unfold ready_in, running_of; rewrite ?Es; try done. by rewrite EL.
Qed.

(** A task that is not ready may be added. *)
Lemma sched_inv_new s s' L q p x :
  sched_inv s L q -> mem s' = mem s -> lists s' = lists s ->
  sched s' = mk_sched (<[p := x]> (tasks (sched s))) (ntasks (sched s)) (current_task (sched s)) (scheduled_tasks (sched s)) ->
  tasks (sched s) !! p = None -> t_status x <> TASK_STATUS_READY -> sched_inv s' L q.
Proof.
  intros [Hl Hok Hq Hnd Hr Hc Hcp] Em El Es Hp Hx.
  assert (forall t, ready_in s' t = ready_in s t) as Hrd.
  { intros t. unfold ready_in. rewrite Es. cbn. destruct (decide (p = t)) as [<-|Hne].
    - by rewrite lookup_insert_eq, Hp, bool_decide_false.
    - by rewrite lookup_insert_ne. }
  assert (running_of s' = running_of s) as Er by (unfold running_of; by rewrite Es).
  split; rewrite ?Em; try done.
  - by eapply lists_inv_frame.
  - by rewrite Es.
  - intros t Ht. rewrite Hrd. by apply Hr.
  - rewrite Er, Es. cbn. intros c Hcur. destruct (Hc c Hcur) as [? Hs]. split; [done|].
    rewrite lookup_insert_ne; [done|]. intros ->. by rewrite Hp in Hs; destruct Hs.
  - intros t. rewrite Hrd, Er. apply Hcp.
Qed.

Section specs.
Context `{K : Kalloc} `{!GoodAlloc K} `{N : NativeVmem} `{X : NativeTask} `{Y : Layout}.

(** The registry after a new task, and after one is gone. *)
Definition with_entry (g : idm) (t : Z) : idm :=
  mk_gidm (g_list g) (g_next g + 1) (g_entries g ++ [(g_next g, t)]).
Definition without_id (g : idm) (id : Z) : idm :=
  mk_gidm (g_list g) (g_next g) (filter (fun e => e.1 <> id) (g_entries g)).

Lemma task_create_spec s L q G g name v :
  tasks_inv s L q G g -> 88 <= avail s -> g_next g + 1 < 2 ^ 63 ->
  wp (task_create name v) (fun t s' => t = heap_top (mem s) /\ t <> 0 /\ task_frame 88 s s' /\
    sched s' = mk_sched (<[t := mk_task (g_next g) name false 1 0 TASK_STATUS_CREATED 0 v]> (tasks (sched s)))
      (ntasks (sched s)) (current_task (sched s)) (scheduled_tasks (sched s)) /\
    exists L', tasks_inv s' L' q (<[a_task_id_mapper := with_entry g t]> G) (with_entry g t) /\
      forall l, l <> g_list g -> L' !! l = L !! l) s.
Proof.
  intros [Hsi Hii Hm Hap Hbe Hnx Hreg] Ha Hnx1. pose proof (si_alloc _ _ _ Hsi) as Hok. pose proof (si_lists _ _ _ Hsi) as Hl.
  unfold task_create. eapply wp_call; [apply (wp_NEW task_t s Hok); cbn; lia|].
  intros p s1' (-> & m1 & -> & Hq1). cbn in Hq1. set (p := heap_top (mem s)) in *.
  pose proof (gr_top _ _ _ (q_grown _ _ _ Hq1)) as Et1. pose proof (heap_top_pos _ Hok) as Hp0. fold p in Hp0.
  assert (heap_top m1 <= 2 ^ 63) as Htop1 by (eapply (avail_top s); [exact Hq1|lia]).
  pose proof (below_top_fresh _ Hbe) as Hfr. cbn in Hfr. fold p in Hfr.
  nonnull p. wstep. eapply wpx_store; [cbn; apply lookup_insert_eq|].
  set (x0 := mk_task 0 name false 1 0 TASK_STATUS_CREATED 0 v). set (s2 := set_heap _ _).
  assert (task_frame 56 s s2) as Hf2 by done.
  assert (sched s2 = mk_sched (<[p := x0]> (tasks (sched s))) (ntasks (sched s)) (current_task (sched s))
    (scheduled_tasks (sched s))) as Es2
    by (cbn; by rewrite insert_insert_eq).
  destruct (task_frame_avail _ _ _ Hok Hf2) as [Hok2 Ha2].
  assert (lists_inv s2 L) as Hl2 by (by apply (lists_inv_grown 56 s); [|apply q_grown| |]).
  assert (ids_inv s2 L G) as Hii2 by (by apply (ids_inv_frame 56 s s2 L); [|apply q_grown| |]).
  eapply wpx_call; [eapply (id_mapper_add_spec s2 L G a_task_id_mapper g Hl2 Hii2 Hm p Hok2); lia|].
  intros id s3 (-> & Ho3 & ns & Hl3 & Hii3). destruct (only_ids_task _ _ _ Ho3) as [Hf3 Es3].
  destruct (task_frame_avail _ _ _ Hok2 Hf3) as [Hok3 _].
  set (x := mk_task (g_next g) name false 1 0 TASK_STATUS_CREATED 0 v).
  wstep. eapply wpx_update; [cbn; rewrite Es3, Es2; apply lookup_insert_eq|].
  set (s4 := set_heap _ s3).
  assert (sched s4 = mk_sched (<[p := x]> (tasks (sched s))) (ntasks (sched s)) (current_task (sched s))
    (scheduled_tasks (sched s))) as Es4
    by (cbn; rewrite Es3, Es2; cbn; by rewrite insert_insert_eq).
  wstep. eapply wpx_load; [cbn; rewrite Es3, Es2; apply lookup_insert_eq|]. cbn [task_id].
  nonnull (g_next g). wstep. split_and!; [done|lia| |done|].
  { change 88 with (56 + 32). eapply task_frame_trans; [exact Hf2|]. destruct Hf3 as [? ? ? ? ?]. by split. }
  exists (<[g_list g := ns]> L). split; [|intros l Hne; by apply lookup_insert_ne].
  pose proof (Hap _ _ Hm) as Hgl. split.
  - pose (s3' := set_sched (sched s) s3).
    apply (sched_inv_new s3' s4 _ q p x); [|done|done|exact Es4|exact Hfr|done].
    apply (sched_inv_frame s s3' L); [exact Hsi|done| |done|by apply lookup_insert_ne].
    by apply (lists_inv_frame s3).
  - apply (ids_inv_frame 0 s3 s4 (<[g_list g := ns]> L)); [done|apply grown_refl|done|exact Hii3].
  - apply lookup_insert_eq.
  - intros p' h. rewrite Es4. cbn [scheduled_tasks]. intros [[<- <-]|[_ Hh]]%lookup_insert_Some; [exact Hgl|by eapply Hap].
  - intros t w. change (heap s4) with (tasks (sched s4)). rewrite Es4. cbn [tasks].
    pose proof (gr_top _ _ _ (q_grown _ _ _ (tf_quiet _ _ _ Hf3))) as Et3. change (heap_top (mem s2)) with (heap_top m1) in Et3.
    change (heap_top (mem s4)) with (heap_top (mem s3)).
    intros [[<- <-]|[_ Hw]]%lookup_insert_Some; [lia|]. apply Hbe in Hw. fold p in Hw. lia.
  - cbn. lia.
  - intros id t [Hin|Hin]%elem_of_app.
    + destruct (Hreg id t Hin) as (w & Hw & Eid). exists w. rewrite Es4. cbn [tasks].
      rewrite lookup_insert_ne by congruence. done.
    + apply list_elem_of_singleton in Hin. injection Hin as -> ->. exists x. rewrite Es4. cbn [tasks].
      by rewrite lookup_insert_eq.
Qed.

(** The task an id finds. *)
Definition lookup_id (g : idm) (id : Z) : Z := default 0 ((list_to_map (g_entries g) : gmap Z Z) !! id).

Lemma task_get_spec s L q G g id :
  tasks_inv s L q G g -> task_get id s = Ret (lookup_id g id) s.
Proof.
  intros Hi. destruct (wp_inv _ _ _ (id_mapper_get_spec s L G _ g (si_lists _ _ _ (ti_sched _ _ _ _ _ Hi)) (ti_ids _ _ _ _ _ Hi) (ti_mapper _ _ _ _ _ Hi) id))
    as (r & s' & E & -> & ->). exact E.
Qed.

(** Stopping and forgetting a task. *)
Lemma task_destroy_spec s L q G g t x :
  tasks_inv s L q G g -> 16 <= avail s -> t <> 0 -> tasks (sched s) !! t = Some x ->
  wp (task_destroy t) (fun r s' => r = true /\ task_frame 0 s s' /\
    tasks (sched s') = tasks (sched (with_status t TASK_STATUS_NOT_READY s)) /\
    ntasks (sched s') = ntasks (sched s) /\ scheduled_tasks (sched s') = scheduled_tasks (sched s) /\
    running_of s' = running (drop_task t (abs_of s q)) /\
    exists L', tasks_inv s' L' (queue (drop_task t (abs_of s q)))
      (<[a_task_id_mapper := without_id g (task_id x)]> G) (without_id g (task_id x)) /\
      forall l, l <> g_list g -> l <> scheduled_tasks (sched s) -> L' !! l = L !! l) s.
Proof.
  intros [Hsi Hii Hm Hap Hbe Hnx Hreg] Ha Ht0 Hx. pose proof (si_alloc _ _ _ Hsi) as Hok.
  unfold task_destroy, task_release_resources. nonnull t. wstep.
  eapply wpx_call; [eapply (scheduler_task_not_ready_spec s L q t); eauto|].
  intros _ s1 (_ & Ho1 & Et1 & En1 & Eq1 & Er1 & L1 & Hsi1 & HL1). destruct (only_sched_task _ _ _ Ho1) as [Hf1 Ei1].
  assert (ids_inv s1 L1 G) as Hii1.
  { apply (ids_inv_frame 0 s s1 L); [done|apply q_grown, tf_quiet, Hf1| |done]. intros p h Hh. apply HL1. by eapply Hap. }
  unfold with_status in Et1. rewrite Hx in Et1. cbn in Et1.
  wstep. eapply wpx_load; [cbn; rewrite Et1; apply lookup_insert_eq|]. cbn [set_t_status task_id].
  eapply wpx_call; [eapply (id_mapper_del_spec s1 L1 G _ g (si_lists _ _ _ Hsi1) Hii1 Hm)|].
  intros _ s2 (_ & Ho2 & ns & Hl2 & Hii2). destruct (only_ids_task _ _ _ Ho2) as [Hf2 Es2].
  pose proof (task_frame_trans _ _ _ _ _ Hf1 Hf2) as Hf. wstep. wstep.
  destruct (task_frame_avail _ _ _ Hok Hf) as [Hok2 _].
  split_and!; [done|exact Hf| | | | |].
  { unfold with_status. rewrite Hx. by rewrite Es2, Et1. }
  { by rewrite Es2. }
  { by rewrite Es2. }
  { unfold running_of in *. by rewrite Es2. }
  exists (<[g_list g := ns]> L1).
  split; [|intros l Hne Hne'; rewrite lookup_insert_ne by done; by apply HL1].
  split.
  - apply (sched_inv_frame s1 s2 L1); [exact Hsi1|done|exact Hl2|done|]. rewrite Eq1.
    apply lookup_insert_ne. by eapply Hap.
  - exact Hii2.
  - apply lookup_insert_eq.
  - rewrite Es2, Eq1. intros p h [[<- <-]|[_ Hh]]%lookup_insert_Some; [by apply (Hap _ _ Hm)|by eapply Hap].
  - intros t' w. change (heap s2) with (tasks (sched s2)). rewrite Es2, Et1.
    pose proof (gr_top _ _ _ (q_grown _ _ _ (tf_quiet _ _ _ Hf))) as Etop.
    intros [[<- <-]|[_ Hw]]%lookup_insert_Some; [apply Hbe in Hx|apply Hbe in Hw]; lia.
  - exact Hnx.
  - intros id t' [_ Hin]%list_elem_of_filter. destruct (Hreg id t' Hin) as (w & Hw & Eid). rewrite Es2, Et1.
    destruct (decide (t = t')) as [<-|Hne].
    + rewrite lookup_insert_eq. eexists. split; [done|]. cbn. rewrite Hx in Hw. by injection Hw as ->.
    + rewrite lookup_insert_ne by done. eauto.
Qed.

Lemma lookup_id_with g t id :
  (g_next g ∉ (g_entries g).*1) -> lookup_id (with_entry g t) id = if decide (id = g_next g) then t else lookup_id g id.
Proof.
  intros Hn. unfold lookup_id, with_entry. cbn. rewrite list_to_map_app. destruct (decide (id = g_next g)) as [->|Hne].
  - rewrite lookup_union_r; [cbn; by rewrite lookup_insert_eq|]. by apply not_elem_of_list_to_map_1.
  - f_equal. destruct (list_to_map (g_entries g) !! id) as [v|] eqn:E.
    + by apply lookup_union_Some_l.
    + rewrite lookup_union_r by done. cbn. by rewrite lookup_insert_ne.
Qed.

Lemma lookup_id_without g id id' :
  lookup_id (without_id g id) id' = if decide (id' = id) then 0 else lookup_id g id'.
Proof.
  unfold lookup_id, without_id. cbn. destruct (decide (id' = id)) as [->|Hne].
  - rewrite not_elem_of_list_to_map_1; [done|]. intros ([i v] & -> & [Hi _]%list_elem_of_filter)%list_elem_of_fmap. done.
  - f_equal. induction (g_entries g) as [|[i v] es IH]; [done|]. rewrite filter_cons. cbn.
    destruct (decide (i <> id)) as [Hi|Hi]; cbn.
    + destruct (decide (id' = i)) as [->|?]; [by rewrite !lookup_insert_eq|by rewrite !lookup_insert_ne].
    + rewrite IH. apply dec_stable in Hi as ->. by rewrite lookup_insert_ne.
Qed.
End specs.


(** The registry starts empty. *)
Lemma task_service_initialize_spec `{K : Kalloc} `{!GoodAlloc K} `{Y : Layout} s L q G m0 :
  sched_inv s L q -> ids_inv s L G -> (forall p h, G !! p = Some h -> is_Some (L !! g_list h)) ->
  (forall p h, G !! p = Some h -> g_list h <> scheduled_tasks (sched s)) -> below task_t s ->
  16 <= avail s -> idmappers (ids s) !! a_task_id_mapper = Some m0 -> G !! a_task_id_mapper = None ->
  wp task_service_initialize (fun r s' => r = true /\ task_frame 16 s s' /\ sched s' = sched s /\
    exists L' g, tasks_inv s' L' q (<[a_task_id_mapper := g]> G) g /\ g_next g = 1 /\ g_entries g = []) s.
Proof.
  intros Hsi Hii HGL Hap Hbe Ha Hm0 HG. pose proof (si_alloc _ _ _ Hsi) as Hok. pose proof (si_lists _ _ _ Hsi) as Hl.
  unfold task_service_initialize.
  eapply wp_call; [by eapply (id_mapper_create_spec s L G a_task_id_mapper m0)|].
  intros p s1 (-> & Ho & l & -> & Hl1 & Hii1). destruct (only_ids_task _ _ _ Ho) as [Hf Es].
  pose proof (ii_mappers _ _ _ Hii _ _ Hm0). nonnull a_task_id_mapper. wstep. split_and!; [done|done|done|].
  exists (<[heap_top (mem s) := []]> L), (mk_gidm (heap_top (mem s)) 1 []). split; [|done].
  destruct (si_queue _ _ _ Hsi) as (nq & Hnq & _). pose proof (lists_inv_key_below _ _ _ _ Hl Hnq) as Hqb.
  split; cbn [g_list g_next g_entries].
  - apply (sched_inv_frame s s1 L); [done|done|exact Hl1|by eapply task_frame_avail|]. apply lookup_insert_ne. lia.
  - exact Hii1.
  - apply lookup_insert_eq.
  - rewrite Es. intros p h [[<- <-]|[_ Hh]]%lookup_insert_Some; [cbn; lia|by eapply Hap].
  - intros t w. change (heap s1) with (tasks (sched s1)). rewrite Es. intros Hw%Hbe.
    pose proof (gr_top _ _ _ (q_grown _ _ _ (tf_quiet _ _ _ Hf))). lia.
  - lia.
  - intros id t Hin. by apply elem_of_nil in Hin.
Qed.

(** A kernel whose scheduler and task service have just been initialised. *)
Definition s_task : kstate :=
  run (task_service_initialize (H := bump_alloc) (H2 := layout_example)) (run (scheduler_initialise (H := bump_alloc)) state1).

Lemma s_task_inv : exists L G g,
  tasks_inv (H := layout_example) s_task L [] G g /\ g_next g = 1 /\ g_entries g = [] /\ 2 ^ 60 <= avail s_task.
Proof.
  assert (lists_inv state1 ∅) as Hl.
  { split; [split; by intros ? ? ?|by intros ? ?|by intros ? ?|vm_compute; split; congruence]. }
  assert (16 <= avail state1) as Ha by (vm_compute; congruence).
  destruct (wp_run _ _ _ (scheduler_initialise_spec (K := bump_alloc) state1 ∅ Hl state0_alloc_ok Ha eq_refl
    ltac:(by intros t))) as (r & _ & -> & Ho & Et & En & Er & L1 & Hi1 & _).
  set (s1 := run _ state1) in *. destruct (only_sched_task _ _ _ Ho) as [Hf1 Ei1].
  destruct (task_frame_avail _ state1 s1 state0_alloc_ok Hf1) as [Hok1 Ha1].
  pose proof (gr_top _ _ _ (q_grown _ _ _ (tf_quiet _ _ _ Hf1))) as Et1. pose proof state0_avail as Ha0.
  change (avail state1) with (avail state0) in Ha1.
  assert (ids_inv s1 L1 ∅) as Hii.
  { split; [by intros p g Hp|by intros p p' g g' Hp| |].
    - intros p v. change (heap s1) with (idmappers (ids s1)). rewrite Ei1. intros Hp%state1_mappers. lia.
    - intros p v. change (heap s1) with (identries (ids s1)). by rewrite Ei1. }
  destruct (wp_run _ _ _ (task_service_initialize_spec (K := bump_alloc) (Y := layout_example) s1 L1 [] ∅ (mk_idm 0 0) Hi1 Hii
    ltac:(by intros p h Hp) ltac:(by intros p h Hp) ltac:(intros t w Hw; change (tasks (sched s1) !! t = Some w) in Hw; by rewrite Et in Hw)
    ltac:(lia) ltac:(by rewrite Ei1) eq_refl)) as (r & _ & -> & Hf & _ & L2 & g & Hi & Hn & He).
  destruct (task_frame_avail _ _ _ Hok1 Hf) as [_ Ha2].
  exists L2, (<[1500064 := g]> ∅), g. split_and!; [exact Hi|done|done|].
  change (avail s1 - 16 <= avail s_task) in Ha2. lia.
Qed.

