(* ===== verification/TaskArguments.v ===== *)
(** The argument block of a task: what [copy_arguments_to_task] leaves in the
    memory of the task. *)
From S2P Require Import Prelude Machine Logic LinkedList IdMapper PageTable NativeVmem Vmem Region Scheduler CString Task.

Section layout.
Context (stack p : Z) (sizes arguments : list Z) (m0 : bytes).
Let n : Z := Z.of_nat (length sizes).

(** Offset of argument [k] in the block. *)
Definition sum (xs : list Z) : Z := foldr Z.add 0 xs.
Definition offset (k : nat) : Z := 8 * (n + 1) + sum (take k sizes).

(** The first [k] pointers and arguments are written, and nothing else is. *)
Record filled (k : nat) (m : bytes) : Prop := {
  fi_pointer i : (i < k)%nat -> load64 m (p + 8 * Z.of_nat i) = stack + offset i;
  fi_bytes i size arg j : (i < k)%nat -> sizes !! i = Some size -> arguments !! i = Some arg -> 0 <= j < size ->
    m (p + offset i + j) = m0 (arg + j);
  fi_rest a : ~ (p <= a < p + 8 * Z.of_nat k) -> ~ (p + offset 0 <= a < p + offset k) -> m a = m0 a }.

Hypothesis Hsizes : Forall (fun z => 0 <= z) sizes.

Lemma sum_app xs ys : sum (xs ++ ys) = sum xs + sum ys.
Proof. unfold sum. induction xs as [|x xs IH]; cbn; [done|]. rewrite IH. lia. Qed.

Lemma offset_S k size : sizes !! k = Some size -> offset (S k) = offset k + size.
Proof. intros Hk. unfold offset. rewrite (take_S_r _ _ _ Hk), sum_app. cbn. lia. Qed.

Lemma offset_step k : (k < length sizes)%nat -> offset k <= offset (S k).
Proof.
  intros Hk. destruct (lookup_lt_is_Some_2 _ _ Hk) as [size Hs]. rewrite (offset_S _ _ Hs).
  pose proof (Forall_lookup_1 _ _ _ _ Hsizes Hs). cbn in *. lia.
Qed.

Lemma offset_mono j k : (j <= k <= length sizes)%nat -> offset j <= offset k.
Proof.
  intros [Hj Hk]. induction Hj as [|k Hj IH]; [lia|]. pose proof (offset_step k ltac:(lia)). lia.
Qed.

Lemma offset_bounds k : (k <= length sizes)%nat -> 8 * (n + 1) <= offset k <= offset (length sizes).
Proof.
  intros Hk. pose proof (offset_mono 0 k ltac:(lia)) as H0. pose proof (offset_mono k (length sizes) ltac:(lia)).
  assert (offset 0 = 8 * (n + 1)) as E by apply Z.add_0_r. lia.
Qed.

Lemma filled_step k m size arg :
  filled k m -> sizes !! k = Some size -> arguments !! k = Some arg -> 0 <= stack -> stack + offset k < 2 ^ 64 ->
  arg + size <= p \/ p + offset (length sizes) <= arg ->
  filled (S k) (store64 (memcpy m (p + offset k) arg size) (p + 8 * Z.of_nat k) (stack + offset k)).
Proof.
  intros [Hp Hb Hr] Hs Harg Hst Hov Hd. pose proof (lookup_lt_Some _ _ _ Hs) as Hk.
  pose proof (Forall_lookup_1 _ _ _ _ Hsizes Hs) as Hs0. cbn in Hs0. pose proof (offset_S _ _ Hs) as Eo.
  pose proof (offset_mono 0 k ltac:(lia)) as Ho. pose proof (offset_mono (S k) (length sizes) ltac:(lia)) as Ho'.
  assert (offset 0 = 8 * (n + 1)) as Eo0 by apply Z.add_0_r.
  assert (Z.of_nat k < n) as Hkn by (unfold n; lia).
  assert (forall a, memcpy m (p + offset k) arg size a =
    if (p + offset k <=? a) && (a <? p + offset k + size) then m (a - (p + offset k) + arg) else m a) as Hc.
  { intros a. apply memcpy_spec; [done|lia]. }
  assert (forall a, ~ (p <= a < p + offset (length sizes)) -> m a = m0 a) as Hsrc.
  { intros a Ha. apply Hr; [lia|]. pose proof (offset_mono k (length sizes) ltac:(lia)). lia. }
  assert (forall a v, ~ (p + 8 * Z.of_nat k <= a < p + 8 * Z.of_nat k + 8) ->
    store64 (memcpy m (p + offset k) arg size) (p + 8 * Z.of_nat k) v a = memcpy m (p + offset k) arg size a) as Hst64.
  { intros a v Ha. unfold store64. destruct (Z.leb_spec (p + 8 * Z.of_nat k) a), (Z.ltb_spec a (p + 8 * Z.of_nat k + 8)); cbn; done || lia. }
  split.
  - intros i Hi. destruct (decide (i = k)) as [->|Hne].
    + rewrite load64_store64. apply u64_small. unfold offset, sum in *. lia.
    + rewrite load64_store64_ne by lia. rewrite <- (Hp i) by lia. apply load64_ext. intros a Ha. rewrite Hc.
      rewrite (proj2 (Z.leb_gt _ _)) by lia. done.
  - intros i size' arg' j Hi Hs' Harg' Hj. destruct (decide (i = k)) as [->|Hne].
    + assert (size' = size /\ arg' = arg) as [-> ->] by (split; congruence). rewrite Hst64 by lia. rewrite Hc.
      rewrite (proj2 (Z.leb_le _ _)), (proj2 (Z.ltb_lt _ _)) by lia. cbn. rewrite Hsrc by lia. f_equal. lia.
    + pose proof (offset_S _ _ Hs') as Eo'. pose proof (offset_mono (S i) k ltac:(lia)). pose proof (offset_mono 0 i ltac:(lia)).
      rewrite Hst64 by lia. rewrite Hc. rewrite (proj2 (Z.leb_gt _ _)) by lia. cbn. apply (Hb i size'); [lia|done|done|done].
  - intros a H1 H2. rewrite Hst64 by lia. rewrite Hc.
    destruct (Z.leb_spec (p + offset k) a), (Z.ltb_spec a (p + offset k + size)); cbn; try (apply Hr; lia). lia.
Qed.
End layout.

(** * The function *)
Section code.
Context (stack stack_size p : Z) (sizes arguments : list Z).
Let n : nat := length sizes.
Hypothesis Hsizes : Forall (fun z => 0 <= z) sizes.
Hypothesis Hlen : length arguments = length sizes.
Hypothesis Hstack : 0 <= stack /\ stack + stack_size < 2 ^ 64.
Hypothesis Hp : 0 < p /\ p + stack_size < 2 ^ 64.
Hypothesis Hfits : offset sizes n + 16 <= stack_size.

Lemma copy_arguments_loop_spec k : forall i m0 s,
  (i + k = n)%nat -> filled stack p sizes arguments m0 i (ram (mem s)) ->
  (forall j size arg, sizes !! j = Some size -> arguments !! j = Some arg -> arg + size <= p \/ p + offset sizes n <= arg) ->
  exists m', copy_arguments_loop k stack stack_size sizes arguments (Z.of_nat i) p (stack + offset sizes i) (p + offset sizes i) s
      = Ret (inl (stack + offset sizes n, p + offset sizes n)) (set_ram m' s) /\
    filled stack p sizes arguments m0 n m'.
Proof.
  induction k as [|k IH]; intros i m0 s Hik Hf Hd; cbn [copy_arguments_loop].
  { assert (i = n) as -> by lia. exists (ram (mem s)). split; [|done]. by destruct s as [[] ? ? ? ? ? ? ?]. }
  destruct (lookup_lt_is_Some_2 sizes i) as [size Hs]; [unfold n in *; lia|].
  destruct (lookup_lt_is_Some_2 arguments i) as [arg Ha]; [unfold n in *; lia|].
  rewrite Nat2Z.id, Hs, Ha. pose proof (offset_S sizes _ _ Hs) as Eo.
  pose proof (offset_bounds sizes Hsizes (S i) ltac:(unfold n in *; lia)).
  pose proof (offset_bounds sizes Hsizes i ltac:(unfold n in *; lia)). change (length sizes) with n in H, H0.
  pose proof (Forall_lookup_1 _ _ _ _ Hsizes Hs) as Hs0. cbn in Hs0. unfold sizeof_task_userdata.
  rewrite (u64_small (stack + stack_size)), (u64_small (stack + stack_size - 16)), (u64_small (stack + offset sizes i + size)),
    (u64_small (p + offset sizes i + size)) by lia.
  rewrite (proj2 (Z.ltb_ge _ _)) by lia.
  rewrite (bind_Ret _ _ s tt (set_ram (memcpy (ram (mem s)) (p + offset sizes i) arg size) s)) by done.
  set (m1 := memcpy (ram (mem s)) (p + offset sizes i) arg size).
  rewrite (bind_Ret _ _ (set_ram m1 s) tt (set_ram (store64 m1 (p + 8 * Z.of_nat i) (stack + offset sizes i)) s)) by done.
  set (m2 := store64 m1 _ _). replace (Z.of_nat i + 1) with (Z.of_nat (S i)) by lia.
  rewrite <- !Z.add_assoc, <- Eo.
  destruct (IH (S i) m0 (set_ram m2 s)) as (m' & E & Hf'); [lia| |done|].
  - apply filled_step; try done; [lia|lia|]. by eapply Hd.
  - exists m'. by rewrite E.
Qed.

Lemma copy_arguments_spec task x s :
  tasks (sched s) !! task = Some x ->
  vmem_get_physical_address (memory_handler_of x) stack s = Ret p s ->
  vmem_get_physical_address (memory_handler_of x) (stack + 8 * (Z.of_nat n + 1)) s = Ret (p + 8 * (Z.of_nat n + 1)) s ->
  (forall j size arg, sizes !! j = Some size -> arguments !! j = Some arg -> arg + size <= p \/ p + offset sizes n <= arg) ->
  exists m', copy_arguments_to_task task stack stack_size (Z.of_nat n) sizes arguments s =
      Ret (stack + offset sizes n) (set_ram m' s) /\
    exists m1, filled stack p sizes arguments (ram (mem s)) n m1 /\
      m' = store64 (store64 m1 (p + offset sizes n) (Z.of_nat n)) (p + offset sizes n + 8) stack.
Proof.
  intros Hx Hp1 Hp2 Hd. pose proof (offset_bounds sizes Hsizes 0 ltac:(lia)) as H0. fold n in H0.
  assert (offset sizes 0 = 8 * (Z.of_nat n + 1)) as E0 by apply Z.add_0_r.
  assert (load (T := task_t) task s = Ret x s) as Hl by (unfold load; cbn; by rewrite Hx).
  destruct (copy_arguments_loop_spec n 0 (ram (mem s)) s) as (m1 & E & Hf); [lia| |exact Hd|].
  { split; [lia|lia|done]. }
  unfold copy_arguments_to_task. rewrite (bind_Ret _ _ _ _ _ Hl), (bind_Ret _ _ _ _ _ Hp1).
  rewrite (proj2 (isnull_false p)) by lia.
  rewrite (u64_small (Z.of_nat n + 1)), (u64_small (8 * (Z.of_nat n + 1))), (u64_small (stack + 8 * (Z.of_nat n + 1))) by lia.
  rewrite (bind_Ret _ _ _ _ _ Hl), (bind_Ret _ _ _ _ _ Hp2). rewrite (proj2 (isnull_false _)) by lia.
  rewrite Nat2Z.id. rewrite E0 in E. rewrite (bind_Ret _ _ _ _ _ E).
  eexists. split; [reflexivity|]. exists m1. by split.
Qed.
End code.

(** C38: when the block fits and the first physical page behind it is followed by
    the next ones, [copy_arguments_to_task] returns the address of the
    [task_userdata_t], which holds the number of arguments and the address of the
    pointer vector; pointer [i] is the address of argument [i] in the task, where
    its bytes are; nothing outside the block changes, and neither does the word
    after the last pointer, which is not set to NULL. *)
Theorem copy_arguments_layout task x s stack stack_size p sizes arguments :
  let n := length sizes in
  let block := offset sizes n in
  Forall (fun z => 0 <= z) sizes -> length arguments = n ->
  0 <= stack -> stack + stack_size < 2 ^ 64 -> 0 < p -> p + stack_size < 2 ^ 64 -> block + 16 <= stack_size ->
  tasks (sched s) !! task = Some x ->
  vmem_get_physical_address (memory_handler_of x) stack s = Ret p s ->
  vmem_get_physical_address (memory_handler_of x) (stack + 8 * (Z.of_nat n + 1)) s = Ret (p + 8 * (Z.of_nat n + 1)) s ->
  (forall j size arg, sizes !! j = Some size -> arguments !! j = Some arg -> arg + size <= p \/ p + block <= arg) ->
  exists m', copy_arguments_to_task task stack stack_size (Z.of_nat n) sizes arguments s =
      Ret (stack + block) (set_ram m' s) /\
    load64 m' (p + block) = Z.of_nat n /\ load64 m' (p + block + 8) = stack /\
    (forall i size arg, sizes !! i = Some size -> arguments !! i = Some arg ->
      load64 m' (p + 8 * Z.of_nat i) = stack + offset sizes i /\
      forall j, 0 <= j < size -> m' (p + offset sizes i + j) = ram (mem s) (arg + j)) /\
    (forall a, ~ (p <= a < p + block + 16) -> m' a = ram (mem s) a) /\
    (forall a, p + 8 * Z.of_nat n <= a < p + 8 * Z.of_nat n + 8 -> m' a = ram (mem s) a).
Proof.
  intros n block Hsz Hlen Hs1 Hs2 Hp1 Hp2 Hfit Hx Hv1 Hv2 Hd.
  destruct (copy_arguments_spec stack stack_size p sizes arguments Hsz Hlen (conj Hs1 Hs2) (conj Hp1 Hp2) Hfit task x s Hx Hv1 Hv2 Hd)
    as (m' & E & m1 & Hf & Em). exists m'. split; [exact E|].
  pose proof (offset_bounds sizes Hsz 0 ltac:(lia)) as Hb. pose proof (offset_bounds sizes Hsz n ltac:(done)) as Hbn.
  fold n block in Hb, Hbn.
  assert (forall a, ~ (p + block <= a < p + block + 16) -> m' a = m1 a) as Hout.
  { intros a Ha. rewrite Em. fold n. fold block. unfold store64.
    destruct (Z.leb_spec (p + block + 8) a), (Z.ltb_spec a (p + block + 8 + 8)), (Z.leb_spec (p + block) a),
      (Z.ltb_spec a (p + block + 8)); cbn; done || lia. }
  split_and!.
  - rewrite Em. fold n. fold block. rewrite load64_store64_ne by lia. rewrite load64_store64. apply u64_small. lia.
  - rewrite Em. fold n. fold block. rewrite load64_store64. apply u64_small. lia.
  - intros i size arg Hs Ha. pose proof (lookup_lt_Some _ _ _ Hs) as Hi. fold n in Hi.
    pose proof (offset_bounds sizes Hsz i ltac:(unfold n in *; lia)) as Hbi. pose proof (offset_bounds sizes Hsz (S i) ltac:(unfold n in *; lia)) as HbS.
    rewrite (offset_S sizes _ _ Hs) in HbS. fold n in Hbi, HbS. fold block in Hbi, HbS. split.
    + rewrite <- (fi_pointer _ _ _ _ _ _ _ Hf i) by (fold n; lia). apply load64_ext. intros a Hai. apply Hout. lia.
    + intros j Hj. rewrite Hout by lia. by apply (fi_bytes _ _ _ _ _ _ _ Hf i size).
  - intros a Ha. rewrite Hout by lia. apply (fi_rest _ _ _ _ _ _ _ Hf); [fold n; lia|]. fold n. fold block.
    pose proof (offset_bounds sizes Hsz 0 ltac:(lia)) as H0. fold n in H0. fold block in H0. lia.
  - intros a Ha. rewrite Hout by lia. apply (fi_rest _ _ _ _ _ _ _ Hf); [fold n; lia|].
    assert (offset sizes 0 = 8 * (Z.of_nat n + 1)) as -> by apply Z.add_0_r. lia.
Qed.

(** Two arguments for a task whose stack page is mapped. *)
Definition s_arguments : kstate :=
  set_ram (place 5000 [97; 98; 0; 120; 121; 122; 0])
    (set_tasks {[1500100 := mk_task 1 None false 1 0 TASK_STATUS_CREATED 0 1500200]}
      (set_vmems {[1500200 := mk_vmem 1 0 0 1500300 0]}
        (set_maps {[1500400 := mk_map 1048576 67108864 0]}
          (set_lls {[1500300 := mk_ll 1500320 1]} (set_nodes {[1500320 := mk_node 1500400 0]} state0))))).

Lemma copy_arguments_layout_witness : exists m',
  copy_arguments_to_task 1500100 1048576 4096 2 [3; 4] [5000; 5003] s_arguments = Ret (1048576 + 31) (set_ram m' s_arguments) /\
  load64 m' (67108864 + 8) = 1048576 + 27 /\ m' (67108864 + 27 + 2) = 122 /\ load64 m' (67108864 + 31) = 2.
Proof.
  destruct (copy_arguments_layout 1500100 (mk_task 1 None false 1 0 TASK_STATUS_CREATED 0 1500200) s_arguments
    1048576 4096 67108864 [3; 4] [5000; 5003]) as (m' & E & En & _ & Ha & _).
  - repeat constructor; lia.
  - reflexivity.
  - lia.
  - lia.
  - lia.
  - lia.
  - vm_compute. discriminate.
  - reflexivity.
  - reflexivity.
  - reflexivity.
  - intros [|[|j]] size arg Hs Harg; [injection Hs as <-; injection Harg as <-; left; lia..|discriminate Hs].
  - destruct (Ha 1%nat 4 5003 eq_refl eq_refl) as [Hp Hb]. exists m'. split; [exact E|]. split; [exact Hp|]. split; [|exact En].
    exact (Hb 2 ltac:(lia)).
Defined.
