(* ===== verification/Interrupts.v ===== *)
(** What happens when the processor enters the kernel: hal/src/x86_64/lib/idt.c,
    core/src/hw_events.c, core/src/syscall/services.c and
    core/src/syscall/syscalls.c, on x86_64.

    Log messages do not change the state of the kernel and are left out here (the
    logging system call is in Logging.v); acknowledging the interrupt controller
    and the page fault address register are the processor's. *)
From S2P Require Import Prelude Machine Logic LinkedList IdMapper NativeVmem PageTable NativePaging Gdt Scheduler NativeTask Task.

(** * core/syscall *)
Definition SYSCALL_EXIT : Z := 1.
Definition SYSCALL_LOGGING : Z := 2.

(** * x86_64/idt.h *)
Definition IDT_TOTAL_INTERRUPTIONS : Z := 51.
Definition INT_SYSTEM_CALL : Z := 50.
Definition PF_FLAG_PRESENT : Z := Z.shiftl 0 1.
Definition PF_FLAG_READ_WRITE : Z := Z.shiftl 1 1.
Definition PF_FLAG_INSTRUCTION : Z := Z.shiftl 4 1.

(** core/hal/hw_events.h *)
Record pagefault_status_t := mk_pf {
  pf_addr : Z; pf_codeptr : Z; pf_stackptr : Z; no_execution_access : bool; no_reading_access : bool;
  no_writing_access : bool; is_reference_valid : bool }.

Section code.
Context `{Kalloc} `{Layout}.

(** ** System calls *)

Definition register_syscall (syscall_number : Z) (handler : syscall_handler) : M bool :=
  if (syscall_number =? 0) || (SYSCALL_MAX_NUMBER <=? syscall_number) then mret false
  else
    v ← gets (fun s => syscall_vector (boot s));
    match v !! Z.to_nat syscall_number with
    | None => fault
    | Some (Some _) => mret false
    | Some None => modify (fun s => set_syscall_vector (<[Z.to_nat syscall_number := Some handler]> v) s);; mret true
    end.

(** [success = success && register_syscall(...)] *)
Definition SYSCALL_REGISTER (success : bool) (sysnumber : Z) (handler : syscall_handler) : M bool :=
  if success then register_syscall sysnumber handler else mret false.

Definition syscall_registering : M bool :=
  success ← SYSCALL_REGISTER true SYSCALL_EXIT syscall_handler_task_exit_ptr;
  SYSCALL_REGISTER success SYSCALL_LOGGING syscall_handler_logging_ptr.

Definition syscall_initialize : M bool := syscall_registering.

(** Calling a function pointer; the logging handler returns 0. *)
Definition call_handler (h : syscall_handler) (arg1 arg2 arg3 arg4 arg5 : Z) : M Z :=
  match h with
  | syscall_handler_task_exit_ptr => syscall_handler_task_exit
  | syscall_handler_logging_ptr => mret 0
  end.

Definition handle_syscall (syscall_number arg1 arg2 arg3 arg4 arg5 : Z) : M Z :=
  if (syscall_number =? 0) || (SYSCALL_MAX_NUMBER <=? syscall_number) then mret (-1)
  else
    v ← gets (fun s => syscall_vector (boot s));
    match v !! Z.to_nat syscall_number with
    | None => fault
    | Some None => mret (-1)
    | Some (Some handler) => call_handler handler arg1 arg2 arg3 arg4 arg5
    end.

(** ** Hardware events *)

Definition handle_protection_fault : M unit :=
  task ← scheduler_current_task;
  (if negb (isnull task) then task_destroy task;; mret tt else mret tt);;
  scheduler_switch_task.

Definition handle_page_fault (pf : pagefault_status_t) : M unit :=
  task ← scheduler_current_task;
  native_vmem_dump NULL;;
  (if negb (isnull task) then task_destroy task;; mret tt else mret tt);;
  scheduler_switch_task.

Definition handle_invalid_operation : M unit :=
  task ← scheduler_current_task;
  (if negb (isnull task) then task_destroy task;; mret tt else mret tt);;
  scheduler_switch_task.

Definition handle_generic_hw_events : M unit := mret tt.

(** ** idt.c *)

Definition handle_task_switch (ntask : Z) : M unit :=
  task ← scheduler_current_task;
  (if negb (isnull task) then hal_update_current_state ntask;; mret tt else mret tt);;
  scheduler_switch_task.

(** [native_task->rax = v] *)
Definition set_rax (v : Z) (r : native_task_t) : native_task_t :=
  mk_ntask (r15 r) (r14 r) (r13 r) (r12 r) (rbp r) (rbx r) (r11 r) (r10 r) (r9 r) (r8 r)
    v (rcx r) (rdx r) (rsi r) (rdi r) (orig_rax r) (codeptr r) (cs r) (eflags r) (stackptr r) (ss r).

Definition pre_syscall (ntask : Z) : M Z :=
  r ← load ntask;
  v ← handle_syscall (rdi r) (rsi r) (rdx r) (r10 r) (r8 r) (r9 r);
  update ntask (set_rax (u64 v));;
  mret ntask.

Definition parse_intel_pagefault_flag (pf : pagefault_status_t) (pf_flag : Z) : pagefault_status_t :=
  let set x := negb (Z.land pf_flag x =? 0) in
  mk_pf (pf_addr pf) (pf_codeptr pf) (pf_stackptr pf) (set PF_FLAG_INSTRUCTION) (negb (set PF_FLAG_READ_WRITE))
    (set PF_FLAG_READ_WRITE) (negb (set PF_FLAG_PRESENT)).

(** [cr2] is the page fault address of the processor. *)
Definition interrupt_handler (cr2 ntask interrupt : Z) : M unit :=
  (if interrupt =? 8 then handle_task_switch ntask
   else if interrupt =? 13 then handle_protection_fault
   else if interrupt =? 14 then
     r ← load ntask;
     let pf := mk_pf cr2 (codeptr r) (stackptr r) false false false false in
     handle_page_fault (parse_intel_pagefault_flag pf (u32 (orig_rax r)))
   else if interrupt =? 6 then handle_invalid_operation
   else if interrupt =? INT_SYSTEM_CALL then pre_syscall ntask;; intel_switch_task ntask
   else hal_update_current_state ntask;; handle_generic_hw_events);;
  scheduler_switch_task.
End code.

(** ** The interrupt table and the registers of [syscall] *)

(** [idt_entry], with its two unnamed fields. *)
Record idt_entry := mk_idt {
  idt_base_0_15 : Z; idt_segment : Z; idt_ist : Z; idt_pad0 : Z; idt_type : Z; idt_pad1 : Z; idt_ring : Z;
  idt_present : Z; idt_base_16_31 : Z; idt_base_32_63 : Z; idt_pad2 : Z }.
Definition idt_entry_widths : list Z := [16; 16; 3; 5; 4; 1; 2; 1; 16; 32; 32].
Definition idt_entry_fields (e : idt_entry) : list Z :=
  [idt_base_0_15 e; idt_segment e; idt_ist e; idt_pad0 e; idt_type e; idt_pad1 e; idt_ring e;
   idt_present e; idt_base_16_31 e; idt_base_32_63 e; idt_pad2 e].
Definition idt_entry_word (e : idt_entry) : Z := pack idt_entry_widths (idt_entry_fields e).
Definition idt_zero : idt_entry := mk_idt 0 0 0 0 0 0 0 0 0 0 0.

Definition idt_set_gate (num base type ring : Z) (idt : list idt_entry) : option (list idt_entry) :=
  e ← idt !! Z.to_nat num;
  Some (<[Z.to_nat num := mk_idt (Z.land base 65535) (GDT_SEGMENT GDT_ENTRY_KERNEL_CS) 1 (idt_pad0 e) (Z.land type 15)
    (idt_pad1 e) (Z.land ring 3) 1 (Z.land (Z.shiftr base 16) 65535) (Z.land (Z.shiftr base 32) 4294967295) (idt_pad2 e)]> idt).

(** Model-specific registers, x86_64/msr-index.h. *)
Definition MSR_EFER : Z := 3221225600.
Definition MSR_STAR : Z := 3221225601.
Definition MSR_LSTAR : Z := 3221225602.
Definition MSR_SYSCALL_MASK : Z := 3221225604.
Definition MSR_KERNEL_GS_BASE : Z := 3221225730.
Definition EFER_SCE : Z := Z.shiftl 1 0.

Definition rdmsr (msr : Z) (M : gmap Z Z) : Z := default 0 (M !! msr).
Definition wrmsr (msr value : Z) (M : gmap Z Z) : gmap Z Z := <[msr := value]> M.

Definition syscall_install (syscall_jumper kernel_stacks : Z) (M : gmap Z Z) : gmap Z Z :=
  let M := wrmsr MSR_LSTAR syscall_jumper M in
  let user_cs := GDT_SEGMENT GDT_ENTRY_USER_CS in
  let kernel_cs := GDT_SEGMENT GDT_ENTRY_KERNEL_CS in
  let msr_star := u64 (Z.shiftl (Z.lor (Z.shiftl user_cs 16) kernel_cs) 32) in
  let M := wrmsr MSR_STAR msr_star M in
  let M := wrmsr MSR_SYSCALL_MASK (Z.lor (Z.lor (Z.lor (Z.lor (Z.lor X86_EFLAGS_TF X86_EFLAGS_DF) X86_EFLAGS_IF)
    X86_EFLAGS_IOPL) X86_EFLAGS_AC) X86_EFLAGS_NT) M in
  let M := wrmsr MSR_KERNEL_GS_BASE kernel_stacks M in
  let msr_efer := rdmsr MSR_EFER M in
  wrmsr MSR_EFER (Z.lor msr_efer EFER_SCE) M.

(** * A faulting task is removed *)
Section faults.
Context `{K : Kalloc} `{!GoodAlloc K} `{Y : Layout}.

(** The common part of the handlers. *)
Definition kill_and_switch : M unit :=
  task ← scheduler_current_task;
  (if negb (isnull task) then task_destroy task;; mret tt else mret tt);;
  scheduler_switch_task.

(** Tasks that are still there run with their own registers and address space. *)
Lemma runnable_other s s' t u :
  t <> u -> (forall v, v <> t -> tasks (sched s') !! v = tasks (sched s) !! v) ->
  ntasks (sched s') = ntasks (sched s) -> Machine.vm s' = Machine.vm s -> paging s' = paging s ->
  runnable s u -> runnable s' u.
Proof.
  intros Hne Et En Ev Ep (x & regs & r & Hx & Hregs & Hsp). exists x, regs, r.
  unfold regs_of in *. rewrite (Et u) by congruence. rewrite En. split_and!; [done|done|].
  by rewrite (space_of_frame s s').
Qed.

Lemma exit_of_other s s' t next e space :
  next <> Some t -> (forall v, v <> t -> tasks (sched s') !! v = tasks (sched s) !! v) ->
  ntasks (sched s') = ntasks (sched s) -> Machine.vm s' = Machine.vm s -> paging s' = paging s ->
  exit_of s' next e space -> exit_of s next e space.
Proof.
  intros Hne Et En Ev Ep. destruct next as [u|]; [|done]. intros (x & regs & Hx & Hregs & -> & Hsp).
  exists x, regs. unfold regs_of in *. rewrite (Et u) in * by congruence. rewrite En in Hregs. split_and!; [done|done|done|].
  by rewrite <- (space_of_frame s s').
Qed.

(** What is left when the running task, if any, was killed: the head of the
    queue runs, the rest waits. *)
Record killed (s : kstate) (q : list Z) (g : idm) (e : cpu_exit) (s' : kstate) : Prop := {
  ki_inv : exists L' G' g', tasks_inv s' L' (tail q) G' g' /\
    forall id, lookup_id g' id = match running_of s with
      | Some t => if decide (task_id <$> tasks (sched s) !! t = Some id) then 0 else lookup_id g id
      | None => lookup_id g id end;
  ki_running : running_of s' = head q;
  ki_exit : exit_of s (head q) e (cr3 (paging s'));
  ki_task t : running_of s = Some t -> ready_in s' t = false /\ (t ∉ tail q) /\ head q <> Some t }.

Lemma switched_tail s q : running_of s = None -> switch_abs (ready_in s) (abs_of s q) = mk_abs (head q) (tail q).
Proof. intros E. unfold switch_abs, abs_of. cbn. rewrite E. destruct q as [|x q]; [done|]. cbn. by rewrite app_nil_r. Qed.

(** The registry is not the scheduler's. *)
Lemma switched_tasks_inv n s q e s' L L' G g :
  tasks_inv s L q G g -> switched n s q e s' L' -> same_lists s L L' ->
  tasks_inv s' L' (queue (switch_abs (ready_in s) (abs_of s q))) G g.
Proof.
  intros [Hsi Hii Hm Hap Hbe Hnx Hreg] [Hi' Hr' Hex (Et & En & Eq) (c & s1 & -> & Ho)] HL.
  destruct (only_sched_task _ _ _ Ho) as [Hf Ei]. pose proof (q_grown _ _ _ (tf_quiet _ _ _ Hf)) as Hg.
  split.
  - exact Hi'.
  - apply (ids_inv_frame n s (set_cr3 c s1) L); [exact Ei|exact Hg| |exact Hii]. intros p h Hh. apply HL. by eapply Hap.
  - exact Hm.
  - rewrite Eq. exact Hap.
  - intros t x. change (heap (set_cr3 c s1)) with (tasks (sched (set_cr3 c s1))). rewrite Et. intros Hx%Hbe.
    change (heap_top (mem (set_cr3 c s1))) with (heap_top (mem s1)).
    pose proof (gr_top _ _ _ Hg). pose proof (gr_pos _ _ _ Hg). lia.
  - exact Hnx.
  - rewrite Et. exact Hreg.
Qed.

Lemma kill_and_switch_spec s L q G g :
  tasks_inv s L q G g -> 32 <= avail s -> (forall t, t ∈ q -> runnable s t) ->
  wpx kill_and_switch (fun _ _ => False) (fun e s' => killed s q g e s') s.
Proof.
  intros Hi Ha Hrun. pose proof (ti_sched _ _ _ _ _ Hi) as Hsi. pose proof (si_alloc _ _ _ Hsi) as Hok.
  unfold kill_and_switch. wstep. unfold scheduler_current_task. wstep.
  destruct (isnull (current_task (sched s))) eqn:Ec; cbn [negb].
  - wstep. wstep. assert (running_of s = None) as Er by (unfold running_of; by rewrite Ec).
    eapply wpx_mono; [eapply (scheduler_switch_task_spec s L q); [done|lia|done]|done|].
    intros e s' (n & L' & Hn & Hsw & HL). pose proof (switched_tasks_inv _ _ _ _ _ _ _ _ _ Hi Hsw HL) as Hi'.
    destruct Hsw as [Hi1 Hr1 Hex Hts Ho]. rewrite (switched_tail s q Er) in Hi', Hr1. cbn [queue running] in *.
    split.
    + exists L', G, g. split; [done|]. intros id. by rewrite Er.
    + done.
    + by rewrite <- Hr1.
    + by rewrite Er.
  - set (t := current_task (sched s)) in *. assert (running_of s = Some t) as Er by (unfold running_of; fold t; by rewrite Ec).
    destruct (si_current _ _ _ Hsi t Er) as [Htq [x Hx]]. apply isnull_false in Ec.
    wstep. eapply wpx_call; [eapply (task_destroy_spec s L q G g t x); try done; lia|].
    intros _ s1 (_ & Hf1 & Et1 & En1 & _ & Er1 & L1 & Hi1 & _). wstep.
    destruct (task_frame_avail _ _ _ Hok Hf1) as [Hok1 Ha1].
    assert (drop_task t (abs_of s q) = mk_abs None q) as Ed.
    { unfold drop_task, abs_of. cbn. rewrite Er, decide_True by done. by rewrite filter_ne_absent. }
    rewrite Ed in Er1, Hi1. cbn [queue running] in Er1, Hi1.
    unfold with_status in Et1. rewrite Hx in Et1. cbn in Et1.
    assert (forall v, v <> t -> tasks (sched s1) !! v = tasks (sched s) !! v) as Eto.
    { intros v Hv. rewrite Et1. by apply lookup_insert_ne. }
    eapply wpx_mono; [eapply (scheduler_switch_task_spec s1 L1 q); [apply Hi1|lia|]|done|].
    { intros u Hu. apply (runnable_other s s1 t); [by intros ->|exact Eto|exact En1|apply Hf1|apply Hf1|by apply Hrun]. }
    intros e s' (n & L' & Hn & Hsw & HL). pose proof (switched_tasks_inv _ _ _ _ _ _ _ _ _ Hi1 Hsw HL) as Hi'.
    destruct Hsw as [_ Hr2 Hex (Et2 & _) Ho]. rewrite (switched_tail s1 q Er1) in Hi', Hr2. cbn [queue running] in *.
    assert (head q <> Some t) as Hh by (destruct q; [done|]; intros [= ->]; apply Htq; by left).
    split.
    + exists L', (<[a_task_id_mapper := without_id g (task_id x)]> G), (without_id g (task_id x)). split; [exact Hi'|].
      intros id. rewrite lookup_id_without, Er, Hx. cbn. destruct (decide (id = task_id x)) as [->|Hne].
      * by rewrite decide_True.
      * rewrite decide_False by congruence. done.
    + done.
    + rewrite <- Hr2. apply (exit_of_other s s1 t); [by rewrite Hr2|exact Eto|exact En1|apply Hf1|apply Hf1|exact Hex].
    + intros t' [= <-]%(eq_trans (eq_sym Er)). split_and!; [|destruct q; [done|]; intros Hin; apply Htq; by right|done].
      unfold ready_in. by rewrite Et2, Et1, lookup_insert_eq.
Qed.
End faults.

(** * Tasks made ready on x86_64 *)
Section tasks.
Context `{K : Kalloc} `{!GoodAlloc K} `{Y : Layout}.

(** Rewriting a task keeps the invariant when its id and status stay. *)
Lemma tasks_inv_rewrite n s s' L q G g t x x' N' :
  tasks_inv s L q G g -> quiet n (mem s) (mem s') -> heap_top (mem s') <= 2 ^ 63 -> lists s' = lists s -> ids s' = ids s ->
  tasks (sched s) !! t = Some x -> task_id x' = task_id x -> t_status x' = t_status x ->
  sched s' = mk_sched (<[t := x']> (tasks (sched s))) N' (current_task (sched s)) (scheduled_tasks (sched s)) ->
  tasks_inv s' L q G g.
Proof.
  intros [Hsi Hii Hm Hap Hbe Hnx Hreg] Hq Htop El Ei Hx Eid Est Es. pose proof Hsi as [Hl Hok Hqu Hnd Hr Hc Hcp].
  pose proof (q_grown _ _ _ Hq) as Hg. pose proof (gr_top _ _ _ Hg). pose proof (gr_pos _ _ _ Hg).
  assert (forall u, ready_in s' u = ready_in s u) as Hrd.
  { intros u. unfold ready_in. rewrite Es. cbn. destruct (decide (t = u)) as [<-|Hne].
    - by rewrite lookup_insert_eq, Hx, Est.
    - by rewrite lookup_insert_ne. }
  assert (running_of s' = running_of s) as Er by (unfold running_of; by rewrite Es).
  split.
  - split; rewrite ?Es; cbn [scheduled_tasks tasks]; try done.
    + by eapply lists_inv_grown.
    + by eapply grown_alloc_ok.
    + intros u Hu. rewrite Hrd. by apply Hr.
    + rewrite Er. intros c Hcur. destruct (Hc c Hcur) as [? Hs]. split; [done|].
      destruct (decide (t = c)) as [<-|Hne]; [by rewrite lookup_insert_eq|by rewrite lookup_insert_ne].
    + intros u. rewrite Hrd, Er. apply Hcp.
  - by apply (ids_inv_frame n s s' L).
  - exact Hm.
  - by rewrite Es.
  - intros u w. change (heap s') with (tasks (sched s')). rewrite Es. cbn [tasks].
    intros [[<- <-]|[_ Hw]]%lookup_insert_Some; [apply Hbe in Hx|apply Hbe in Hw]; lia.
  - exact Hnx.
  - rewrite Es. cbn [tasks]. intros id u Hin. destruct (Hreg id u Hin) as (w & Hw & Ew).
    destruct (decide (t = u)) as [<-|Hne]; [|by rewrite lookup_insert_ne; eauto].
    exists x'. rewrite lookup_insert_eq. split; [done|]. rewrite Eid. congruence.
Qed.

Lemma tasks_inv_ext s s' L q G g :
  mem s' = mem s -> lists s' = lists s -> ids s' = ids s -> sched s' = sched s ->
  tasks_inv s L q G g -> tasks_inv s' L q G g.
Proof.
  intros Em El Ei Es [Hsi Hii Hm Hap Hbe Hnx Hreg].
  assert (grown 0 (mem s) (mem s')) as Hg by (rewrite Em; apply grown_refl). split; rewrite ?Es; try done.
  - apply (sched_inv_frame s s' L); [done|done| |rewrite Em; apply Hsi|done]. by apply (lists_inv_frame s); [| |apply Hsi].
  - by apply (ids_inv_frame 0 s s' L).
  - intros u w. change (heap s') with (tasks (sched s')). rewrite Es, Em. apply Hbe.
Qed.

Lemma x86_task_create_spec s L q G g t x code stack perm ud :
  tasks_inv s L q G g -> 168 <= avail s -> tasks (sched s) !! t = Some x ->
  wp (x86_task_create t code stack perm ud) (fun r s' => r = true /\ task_frame 168 s s' /\
    sched s' = mk_sched (<[t := set_t_native_task (heap_top (mem s)) x]> (tasks (sched s)))
      (<[heap_top (mem s) := initial_regs code stack perm ud]> (ntasks (sched s)))
      (current_task (sched s)) (scheduled_tasks (sched s)) /\
    tasks_inv s' L q G g) s.
Proof.
  intros Hi Ha Hx. pose proof (si_alloc _ _ _ (ti_sched _ _ _ _ _ Hi)) as Hok. pose proof (heap_top_pos _ Hok) as Hp0.
  unfold x86_task_create. eapply wp_call; [apply (wp_NEW native_task_t s Hok); cbn; lia|].
  intros p s1' (-> & m1 & -> & Hq1). cbn in Hq1. set (p := heap_top (mem s)) in *.
  assert (heap_top m1 <= 2 ^ 63) as Htop1 by (eapply (avail_top s); [exact Hq1|lia]).
  nonnull p. wstep. eapply wpx_store; [cbn; apply lookup_insert_eq|].
  wstep. eapply wpx_update; [cbn; exact Hx|]. wstep. set (s2 := set_heap _ (set_heap _ _)).
  assert (sched s2 = mk_sched (<[t := set_t_native_task p x]> (tasks (sched s)))
    (<[p := initial_regs code stack perm ud]> (ntasks (sched s))) (current_task (sched s)) (scheduled_tasks (sched s))) as Es
    by (cbn; by rewrite insert_insert_eq).
  split_and!; [done|done|exact Es|].
  by apply (tasks_inv_rewrite 168 s s2 L q G g t x (set_t_native_task p x) (<[p := initial_regs code stack perm ud]> (ntasks (sched s)))).
Qed.

Lemma task_ready_tasks_inv s L q G g t :
  tasks_inv s L q G g -> 16 <= avail s -> t <> 0 -> is_Some (tasks (sched s) !! t) ->
  ready_in s t = false -> running_of s <> Some t ->
  wp (scheduler_task_ready t) (fun r s' => r = true /\ task_frame 16 s s' /\
    sched s' = sched (with_status t TASK_STATUS_READY s) /\
    exists L', tasks_inv s' L' (q ++ [t]) G g /\ same_lists s L L') s.
Proof.
  intros [Hsi Hii Hm Hap Hbe Hnx Hreg] Ha Ht0 [x Hx] Hnr Hnc.
  eapply wp_mono; [by eapply (scheduler_task_ready_spec s L q t)|]. intros r s' (-> & Ho & Es & L' & Hi' & HL).
  destruct (only_sched_task _ _ _ Ho) as [Hf Ei]. pose proof (q_grown _ _ _ (tf_quiet _ _ _ Hf)) as Hg.
  pose proof (gr_top _ _ _ Hg). pose proof (gr_pos _ _ _ Hg).
  split_and!; [done|done|done|]. exists L'. split; [|done]. unfold with_status in Es. rewrite Hx in Es. cbn in Es. split.
  - done.
  - apply (ids_inv_frame 16 s s' L); [done|done| |done]. intros p h Hh. apply HL. by eapply Hap.
  - done.
  - by rewrite Es.
  - intros u w. change (heap s') with (tasks (sched s')). rewrite Es. cbn [tasks].
    intros [[<- <-]|[_ Hw]]%lookup_insert_Some; [apply Hbe in Hx|apply Hbe in Hw]; lia.
  - done.
  - rewrite Es. cbn [tasks]. intros id u Hin. destruct (Hreg id u Hin) as (w & Hw & Ew).
    destruct (decide (t = u)) as [<-|Hne]; [|by rewrite lookup_insert_ne; eauto].
    rewrite lookup_insert_eq. eexists. split; [done|]. cbn. congruence.
Qed.
End tasks.

(** An interrupt of which the running task dies: an invalid instruction, a
    protection fault, a page fault, or the exit system call. *)
Definition deadly (s : kstate) (frame interrupt : Z) : Prop :=
  exists r, ntasks (sched s) !! frame = Some r /\
    (interrupt ∈ [6; 13; 14] \/
     interrupt = INT_SYSTEM_CALL /\ rdi r = SYSCALL_EXIT /\
     syscall_vector (boot s) !! Z.to_nat SYSCALL_EXIT = Some (Some syscall_handler_task_exit_ptr)).

(** A computation that leaves is not followed by anything. *)
Lemma bind_Leave {A B} (m : M A) (f : A -> M B) s e s' : m s = Leave e s' -> (m ≫= f) s = Leave e s'.
Proof. unfold mbind, M_bind. by intros ->. Qed.

Lemma task_exit_kills `{Kalloc} `{Layout} s e s' :
  kill_and_switch s = Leave e s' -> syscall_handler_task_exit s = Leave e s'.
Proof.
  intros Hk. unfold syscall_handler_task_exit, kill_and_switch in *.
  rewrite (bind_Ret _ _ s (current_task (sched s)) s) in Hk by done.
  rewrite (bind_Ret _ _ s (current_task (sched s)) s) by done.
  destruct (isnull (current_task (sched s))) eqn:Ec; cbn [negb] in Hk.
  - unfold task_destroy. rewrite Ec. rewrite (bind_Ret _ _ s tt s) in Hk by done.
    rewrite (bind_Ret _ _ s false s) by done. by apply bind_Leave.
  - rewrite bind_assoc in Hk. unfold mbind, M_bind in Hk |- *.
    destruct (task_destroy (current_task (sched s)) s) as [b s1|e1 s1| |]; cbn in Hk |- *; [by rewrite Hk|by injection Hk as -> ->|done|done].
Qed.

(** Such an interrupt removes the running task and switches. *)
Lemma deadly_handler `{Kalloc} `{Layout} s cr2 frame interrupt e s' :
  deadly s frame interrupt -> kill_and_switch s = Leave e s' -> interrupt_handler cr2 frame interrupt s = Leave e s'.
Proof.
  intros (r & Hr & Hd) Ek. assert (load (T := native_task_t) frame s = Ret r s) as Hl by (unfold load; cbn; by rewrite Hr).
  unfold interrupt_handler. apply bind_Leave. destruct Hd as [Hd|(-> & Hd & Hv)].
  - rewrite !elem_of_cons in Hd. destruct Hd as [->|[->|[->|Hd]]]; [exact Ek|exact Ek| |by apply elem_of_nil in Hd].
    cbn -[handle_page_fault]. rewrite (bind_Ret _ _ _ _ _ Hl). unfold handle_page_fault.
    rewrite (bind_Ret _ _ s (current_task (sched s)) s) by done. unfold kill_and_switch in Ek.
    rewrite (bind_Ret _ _ s (current_task (sched s)) s) in Ek by done.
    erewrite (bind_Ret (native_vmem_dump NULL)); [exact Ek|]. reflexivity.
  - cbn -[pre_syscall]. apply bind_Leave. unfold pre_syscall. rewrite (bind_Ret _ _ _ _ _ Hl). apply bind_Leave.
    unfold handle_syscall. rewrite Hd. cbn [orb]. change (_ || _) with false. cbv iota.
    rewrite (bind_Ret _ _ s (syscall_vector (boot s)) s) by done. rewrite Hv. cbn [call_handler]. by apply task_exit_kills.
Qed.

(** C32: after an interrupt that kills, the processor goes to the task at the
    head of the queue, with its registers in its address space, or sleeps when
    the queue is empty; the killed task is not ready, not queued, and its id
    finds NULL, while every other id finds its task; the invariant of scheduler
    and registry holds again. *)
Theorem fault_kills_current_task `{K : Kalloc} `{!GoodAlloc K} `{Y : Layout} s L q G g cr2 frame interrupt :
  tasks_inv s L q G g -> 32 <= avail s -> (forall t, t ∈ q -> runnable s t) -> deadly s frame interrupt ->
  exists e s', interrupt_handler cr2 frame interrupt s = Leave e s' /\ killed s q g e s'.
Proof.
  intros Hi Ha Hrun Hd. pose proof (kill_and_switch_spec s L q G g Hi Ha Hrun) as Hk. unfold wpx in Hk.
  destruct (kill_and_switch s) as [|e s'| |] eqn:Ek; [done| |done|done]. exists e, s'. split; [by apply deadly_handler|done].
Qed.

(** Two tasks, the first one running; the interrupted registers are at 1500800. *)
Definition s_two0 : kstate :=
  set_vmems {[1500700 := mk_vmem 1 1500750 0 0 0]} (set_npts {[1500750 := mk_npt 4096 0 0 0]} s_task).
Definition s_two1 : kstate := run (task_create (H := bump_alloc) (H2 := layout_example) (Some "a"%string) 1500700) s_two0.
Definition task_a : Z := heap_top (mem s_two0).
Definition s_two2 : kstate := run (task_create (H := bump_alloc) (H2 := layout_example) (Some "b"%string) 1500700) s_two1.
Definition task_b : Z := heap_top (mem s_two1).
Definition s_two3 : kstate := run (x86_task_create (H := bump_alloc) task_a 4194304 8388608 false 0) s_two2.
Definition s_two4 : kstate := run (x86_task_create (H := bump_alloc) task_b 4194304 8388608 false 0) s_two3.
Definition s_two5 : kstate := run (scheduler_task_ready (H := bump_alloc) task_a) s_two4.
Definition s_two6 : kstate := run (scheduler_task_ready (H := bump_alloc) task_b) s_two5.
Definition s_two7 : kstate :=
  run (scheduler_switch_task (H := bump_alloc) (H0 := x86_native_vmem (H := bump_alloc)) (H1 := x86_native_task (H := bump_alloc))) s_two6.
Definition s_two : kstate := set_ntasks (<[1500800 := initial_regs 7 9 false 3]> (ntasks (sched s_two7))) s_two7.

Lemma wpx_run_leave {A} (m : M A) (E : cpu_exit -> kstate -> Prop) s :
  wpx m (fun _ _ => False) E s -> exists e, m s = Leave e (run m s) /\ E e (run m s).
Proof. unfold wpx, run. destruct (m s); naive_solver. Qed.

Lemma tasks_inv_ntasks `{Layout} s L q G g N : tasks_inv s L q G g -> tasks_inv (set_ntasks N s) L q G g.
Proof.
  intros [Hsi Hii Hm Hap Hbe Hnx Hreg]. split; try done.
  - destruct Hsi as [Hl Hok Hqu Hnd Hr Hc Hcp]. split; try done. by apply (lists_inv_frame s).
  - by apply (ids_inv_frame 0 s (set_ntasks N s) L); [|apply grown_refl| |].
Qed.

Lemma runnable_b : forall t, t ∈ [task_b] -> runnable (NativeSwitch0 := x86_native_switch (H := bump_alloc)) s_two t.
Proof.
  intros t ->%list_elem_of_singleton. do 3 eexists. split; [vm_compute; reflexivity|]. split; vm_compute; reflexivity.
Qed.

Lemma s_two_inv : exists L G g, tasks_inv (H := layout_example) s_two L [task_b] G g.
Proof.
  destruct s_task_inv as (L0 & G0 & g0 & Hi & Hn & _ & _).
  assert (tasks_inv (H := layout_example) s_two0 L0 [] G0 g0) as Hi0 by (by apply (tasks_inv_ext (Y := layout_example) s_task)).
  destruct (wp_run _ _ _ (task_create_spec (K := bump_alloc) (Y := layout_example) s_two0 L0 [] G0 g0 (Some "a"%string) 1500700 Hi0
    ltac:(vm_compute; discriminate) ltac:(lia))) as (t1 & _ & -> & _ & _ & _ & L1 & Hi1 & _).
  destruct (wp_run _ _ _ (task_create_spec (K := bump_alloc) (Y := layout_example) s_two1 L1 [] _ _ (Some "b"%string) 1500700 Hi1
    ltac:(vm_compute; discriminate) ltac:(cbn; lia))) as (t2 & _ & -> & _ & _ & _ & L2 & Hi2 & _).
  destruct (wp_run _ _ _ (x86_task_create_spec (K := bump_alloc) (Y := layout_example) s_two2 L2 [] _ _ task_a _ 4194304 8388608 false 0
    Hi2 ltac:(vm_compute; discriminate) ltac:(vm_compute; reflexivity))) as (r3 & _ & _ & _ & _ & Hi3).
  destruct (wp_run _ _ _ (x86_task_create_spec (K := bump_alloc) (Y := layout_example) s_two3 L2 [] _ _ task_b _ 4194304 8388608 false 0
    Hi3 ltac:(vm_compute; discriminate) ltac:(vm_compute; reflexivity))) as (r4 & _ & _ & _ & _ & Hi4).
  destruct (wp_run _ _ _ (task_ready_tasks_inv (K := bump_alloc) (Y := layout_example) s_two4 L2 [] _ _ task_a
    Hi4 ltac:(vm_compute; discriminate) ltac:(vm_compute; discriminate) ltac:(vm_compute; eexists; reflexivity)
    ltac:(vm_compute; reflexivity) ltac:(vm_compute; discriminate))) as (r5 & _ & _ & _ & _ & L5 & Hi5 & _).
  destruct (wp_run _ _ _ (task_ready_tasks_inv (K := bump_alloc) (Y := layout_example) s_two5 L5 _ _ _ task_b
    Hi5 ltac:(vm_compute; discriminate) ltac:(vm_compute; discriminate) ltac:(vm_compute; eexists; reflexivity)
    ltac:(vm_compute; reflexivity) ltac:(vm_compute; discriminate))) as (r6 & _ & _ & _ & _ & L6 & Hi6 & _).
  pose proof (scheduler_switch_task_spec (K := bump_alloc) (N := x86_native_vmem (H := bump_alloc)) (X := x86_native_task (H := bump_alloc))
    s_two6 L6 [task_a; task_b] (ti_sched _ _ _ _ _ Hi6) ltac:(vm_compute; discriminate)) as Hsw.
  assert (forall t, t ∈ [task_a; task_b] -> runnable (NativeSwitch0 := x86_native_switch (H := bump_alloc)) s_two6 t) as Hrun.
  { intros t Ht. apply elem_of_cons in Ht as [->|Ht]; [|apply list_elem_of_singleton in Ht as ->]; do 3 eexists.
    - split; [vm_compute; reflexivity|]. split; vm_compute; reflexivity.
    - split; [vm_compute; reflexivity|]. split; vm_compute; reflexivity. }
  destruct (wpx_run_leave _ _ _ (Hsw Hrun)) as (e & _ & n & L7 & _ & Hsw7 & HL).
  pose proof (switched_tasks_inv (K := bump_alloc) _ _ _ _ _ _ _ _ _ Hi6 Hsw7 HL) as Hi7.
  assert (running_of s_two6 = None) as Er by (vm_compute; reflexivity).
  rewrite (switched_tail s_two6 _ Er) in Hi7. cbn [queue tail] in Hi7.
  exists L7. do 2 eexists. apply tasks_inv_ntasks. exact Hi7.
Qed.

Lemma fault_kills_current_task_witness : exists e s' regs,
  interrupt_handler (H := bump_alloc) (H0 := layout_example) 12288 1500800 14 s_two = Leave e s' /\
  running_of s_two = Some task_a /\ running_of s' = Some task_b /\
  regs_of s_two task_b = Some regs /\ e = ResumeTask regs.
Proof.
  destruct s_two_inv as (L & G & g & Hi).
  destruct (fault_kills_current_task (K := bump_alloc) (Y := layout_example) s_two L [task_b] G g 12288 1500800 14 Hi)
    as (e & s' & E & [_ Hr Hex _]).
  - vm_compute. discriminate.
  - exact runnable_b.
  - eexists. split; [vm_compute; reflexivity|]. left. right. right. left.
  - destruct Hex as (x & regs & _ & Hregs & -> & _). exists (ResumeTask regs), s', regs.
    split; [exact E|]. split; [vm_compute; reflexivity|]. split; [exact Hr|]. split; [exact Hregs|reflexivity].
Defined.

(** * System calls *)

Lemma syscall_initialize_spec s :
  syscall_vector (boot s) = replicate (Z.to_nat SYSCALL_MAX_NUMBER) None ->
  syscall_initialize s = Ret true (set_syscall_vector
    (<[2%nat := Some syscall_handler_logging_ptr]> (<[1%nat := Some syscall_handler_task_exit_ptr]>
      (replicate (Z.to_nat SYSCALL_MAX_NUMBER) None))) s).
Proof.
  intros Ev. unfold syscall_initialize, syscall_registering, SYSCALL_REGISTER, register_syscall. mcompute.
  rewrite Ev. change (Pos.to_nat 1) with 1%nat. reflexivity.
Qed.

(** Which handler a number finds after start-up. *)
Lemma handle_syscall_spec `{Kalloc} `{Layout} s n a1 a2 a3 a4 a5 :
  syscall_vector (boot s) = <[2%nat := Some syscall_handler_logging_ptr]> (<[1%nat := Some syscall_handler_task_exit_ptr]>
    (replicate (Z.to_nat SYSCALL_MAX_NUMBER) None)) ->
  0 <= n -> n <> SYSCALL_EXIT ->
  handle_syscall n a1 a2 a3 a4 a5 s = Ret (if n =? SYSCALL_LOGGING then 0 else -1) s.
Proof.
  intros Ev Hn Hne. unfold handle_syscall. change SYSCALL_EXIT with 1 in Hne. change SYSCALL_LOGGING with 2.
  change SYSCALL_MAX_NUMBER with 255 in *.
  destruct (Z.eqb_spec n 0) as [->|Hn0]; [done|]. destruct (Z.leb_spec 255 n) as [Hge|Hlt]; cbn [orb].
  { destruct (Z.eqb_spec n 2); [lia|done]. }
  rewrite (bind_Ret _ _ s (syscall_vector (boot s)) s) by done. rewrite Ev.
  destruct (Z.eqb_spec n 2) as [->|Hn2]; [done|].
  rewrite !list_lookup_insert_ne by lia. rewrite lookup_replicate_2 by lia. done.
Qed.

(** C37: after [syscall_initialize] on a blank vector, a system call from a task
    returns to it at once for every number but that of exit: 0 for the logging
    call, -1 for every other number, registered or not, in range or not; of the
    caller's registers only rax changes, and nothing else in the kernel does.  A
    second registration is refused. *)
Theorem system_call_numbers `{Kalloc} `{Layout} cr2 frame r s :
  syscall_vector (boot s) = replicate (Z.to_nat SYSCALL_MAX_NUMBER) None ->
  ntasks (sched s) !! frame = Some r -> 0 <= rdi r < 2 ^ 64 -> rdi r <> SYSCALL_EXIT ->
  exists s1, syscall_initialize s = Ret true s1 /\ syscall_initialize s1 = Ret false s1 /\
    let r' := set_rax (if rdi r =? SYSCALL_LOGGING then 0 else 2 ^ 64 - 1) r in
    interrupt_handler cr2 frame INT_SYSTEM_CALL s1 =
      Leave (ResumeTask r') (set_ntasks (<[frame := r']> (ntasks (sched s1))) s1).
Proof.
  intros Ev Hr Hrd Hne. eexists. split; [by apply syscall_initialize_spec|].
  set (s1 := set_syscall_vector _ s). split; [reflexivity|]. cbv zeta.
  assert (load (T := native_task_t) frame s1 = Ret r s1) as Hl by (unfold load; cbn; by rewrite Hr).
  unfold interrupt_handler. apply bind_Leave. change (INT_SYSTEM_CALL =? 8) with false. change (INT_SYSTEM_CALL =? 13) with false.
  change (INT_SYSTEM_CALL =? 14) with false. change (INT_SYSTEM_CALL =? 6) with false. rewrite Z.eqb_refl.
  assert (forall v, u64 v = (if rdi r =? SYSCALL_LOGGING then 0 else 2 ^ 64 - 1) ->
    handle_syscall (rdi r) (rsi r) (rdx r) (r10 r) (r8 r) (r9 r) s1 = Ret v s1 ->
    (pre_syscall frame ≫= fun _ => intel_switch_task frame) s1 =
      Leave (ResumeTask (set_rax (if rdi r =? SYSCALL_LOGGING then 0 else 2 ^ 64 - 1) r))
        (set_ntasks (<[frame := set_rax (if rdi r =? SYSCALL_LOGGING then 0 else 2 ^ 64 - 1) r]> (ntasks (sched s1))) s1)) as Hcall.
  { intros v Hv Hs. unfold pre_syscall. rewrite bind_assoc, (bind_Ret _ _ _ _ _ Hl), bind_assoc, (bind_Ret _ _ _ _ _ Hs), Hv, bind_assoc.
    set (r' := set_rax _ r).
    rewrite (bind_Ret _ _ s1 tt (set_ntasks (<[frame := r']> (ntasks (sched s1))) s1)).
    - rewrite (bind_Ret _ _ _ frame _ eq_refl). unfold intel_switch_task.
      rewrite (bind_Ret _ _ _ r' (set_ntasks (<[frame := r']> (ntasks (sched s1))) s1)); [done|].
      unfold load. cbn. by rewrite lookup_insert_eq.
    - unfold update. rewrite (bind_Ret _ _ _ _ _ Hl). unfold store. cbn. by rewrite Hr. }
  eapply Hcall; [|apply handle_syscall_spec; [reflexivity|lia|done]]. by destruct (rdi r =? SYSCALL_LOGGING).
Qed.

Lemma system_call_numbers_witness : exists s1 r',
  syscall_initialize s_two = Ret true s1 /\
  interrupt_handler (H := bump_alloc) (H0 := layout_example) 0 1500800 INT_SYSTEM_CALL s1 =
    Leave (ResumeTask r') (set_ntasks (<[1500800 := r']> (ntasks (sched s1))) s1) /\ rax r' = 2 ^ 64 - 1.
Proof.
  destruct (system_call_numbers (H := bump_alloc) (H0 := layout_example) 0 1500800 (initial_regs 7 9 false 3) s_two)
    as (s1 & E & _ & E').
  - vm_compute. reflexivity.
  - vm_compute. reflexivity.
  - cbn. lia.
  - discriminate.
  - exists s1. eexists. split; [exact E|]. split; [exact E'|reflexivity].
Defined.

(** * Page faults *)

(** The code tests the present bit with a mask of 0, and the bit of instruction
    fetches (bit 4 of the error code) with the mask of the reserved bit 3: every
    reference is reported as valid, no fetch is reported as such. *)
Theorem pagefault_flags_misread pf flag :
  is_reference_valid (parse_intel_pagefault_flag pf flag) = true /\
  no_execution_access (parse_intel_pagefault_flag pf 16) = false.
Proof. split; [|reflexivity]. cbn. change PF_FLAG_PRESENT with 0. by rewrite Z.land_0_r. Qed.

(** * The timer *)

Lemma sched_inv_ntasks s L q N : sched_inv s L q -> sched_inv (set_ntasks N s) L q.
Proof. intros [Hl Hok Hqu Hnd Hr Hc Hcp]. split; try done. by apply (lists_inv_frame s). Qed.

(** Saving the registers of the running task. *)
Lemma hal_update_current_state_spec s t x n frame r :
  running_of s = Some t -> tasks (sched s) !! t = Some x -> ntasks (sched s) !! native_task x = Some n ->
  ntasks (sched s) !! frame = Some r -> native_task x <> frame ->
  let r' := set_segments (cs n) (ss n) r in
  hal_update_current_state frame s =
    Ret (native_task x) (set_ntasks (<[native_task x := r']> (<[frame := r']> (ntasks (sched s)))) s).
Proof.
  intros Hrun Hx Hn Hr Hne r'. unfold running_of in Hrun. destruct (isnull _) eqn:Ec; [done|]. injection Hrun as Et.
  unfold hal_update_current_state. rewrite (bind_Ret _ _ s t s) by (unfold scheduler_current_task, gets; by rewrite Et).
  rewrite Et in Ec. rewrite Ec. rewrite (bind_Ret _ _ s x s) by (unfold load; cbn; by rewrite Hx).
  rewrite (bind_Ret _ _ s n s) by (unfold load; cbn; by rewrite Hn).
  rewrite (bind_Ret _ _ s tt (set_ntasks (<[frame := r']> (ntasks (sched s))) s)).
  - rewrite (bind_Ret _ _ _ r' (set_ntasks (<[frame := r']> (ntasks (sched s))) s)) by (unfold load; cbn; by rewrite lookup_insert_eq).
    rewrite (bind_Ret _ _ _ tt (set_ntasks (<[native_task x := r']> (<[frame := r']> (ntasks (sched s)))) s)); [done|].
    unfold store. cbn. rewrite lookup_insert_ne by done. by rewrite Hn.
  - unfold update. rewrite (bind_Ret _ _ s r s) by (unfold load; cbn; by rewrite Hr). unfold store. cbn. by rewrite Hr.
Qed.

(** C35: a timer interrupt preempts the running task: its interrupted registers
    are saved (with its own segments), it goes to the end of the queue if it is
    still ready, and the task at the head of the queue continues with its saved
    registers in its address space.  With an empty queue the processor sleeps,
    though the preempted task is ready. *)
Theorem timer_preempts `{K : Kalloc} `{!GoodAlloc K} `{Y : Layout} s L q t x n frame r cr2 :
  sched_inv s L q -> 16 <= avail s -> (forall u, u ∈ q -> runnable s u) ->
  running_of s = Some t -> tasks (sched s) !! t = Some x -> ntasks (sched s) !! native_task x = Some n ->
  ntasks (sched s) !! frame = Some r -> native_task x <> frame ->
  (forall u y, u ∈ q -> tasks (sched s) !! u = Some y -> native_task y <> native_task x /\ native_task y <> frame) ->
  exists e s' L', interrupt_handler cr2 frame 8 s = Leave e s' /\
    let a := switch_abs (ready_in s) (mk_abs (Some t) q) in
    sched_inv s' L' (queue a) /\ running_of s' = running a /\ exit_of s (running a) e (cr3 (paging s')) /\
    regs_of s' t = Some (set_segments (cs n) (ss n) r).
Proof.
  intros Hi Ha Hrun Hr Hx Hn Hfr Hne Hother. set (r' := set_segments (cs n) (ss n) r).
  pose proof (hal_update_current_state_spec s t x n frame r Hr Hx Hn Hfr Hne) as Hup. cbv zeta in Hup. fold r' in Hup.
  set (s1 := set_ntasks _ s) in Hup.
  assert (forall u, u ∈ q -> regs_of s1 u = regs_of s u) as Hregs.
  { intros u Hu. unfold regs_of. cbn. destruct (tasks (sched s) !! u) as [y|] eqn:Ey; [|done]. cbn.
    destruct (Hother u y Hu Ey). by rewrite !lookup_insert_ne. }
  pose proof (scheduler_switch_task_spec s1 L q (sched_inv_ntasks s L q _ Hi) Ha) as Hw.
  assert (forall u, u ∈ q -> runnable s1 u) as Hrun1.
  { intros u Hu. destruct (Hrun u Hu) as (y & regs & sp & Hy & Hyr & Hsp). exists y, regs, sp.
    split_and!; [done|by rewrite Hregs|done]. }
  destruct (wpx_run_leave _ _ _ (Hw Hrun1)) as (e & E & nn & L' & _ & [Hi' Hr' Hex (Et & En & _) _] & _).
  set (s' := run scheduler_switch_task s1) in *.
  change (abs_of s1 q) with (mk_abs (running_of s) q) in *. rewrite Hr in Hi', Hr'. change (ready_in s1) with (ready_in s) in *.
  exists e, s', L'. split.
  - unfold interrupt_handler. apply bind_Leave. cbn -[handle_task_switch]. unfold handle_task_switch.
    unfold running_of in Hr. destruct (isnull (current_task (sched s))) eqn:Ec; [done|].
    rewrite (bind_Ret _ _ s (current_task (sched s)) s) by done. rewrite Ec. cbn [negb].
    rewrite (bind_Ret _ _ s tt s1); [exact E|]. by rewrite (bind_Ret _ _ _ _ _ Hup).
  - cbv zeta. split_and!; [done|done| |].
    + rewrite <- Hr'. destruct (running_of s') as [u|] eqn:Eu; [|done]. destruct Hex as (y & regs & Hy & Hyr & -> & Hsp).
      assert (u ∈ q) as Hu by (unfold switch_abs in Hr'; cbn in Hr'; destruct q; [done|]; injection Hr' as ->; by left).
      exists y, regs. split_and!; [done|by rewrite <- Hregs|done|done].
    + unfold regs_of. rewrite Et, En. cbn. rewrite Hx. cbn. apply lookup_insert_eq.
Qed.

Lemma timer_preempts_witness : exists e s',
  interrupt_handler (H := bump_alloc) (H0 := layout_example) 0 1500800 8 s_two = Leave e s' /\
  running_of s' = Some task_b /\ option_map codeptr (regs_of s' task_a) = Some 7.
Proof.
  destruct s_two_inv as (L & G & g & Hi).
  destruct (timer_preempts (K := bump_alloc) (Y := layout_example) s_two L [task_b] task_a
    (mk_task 1 (Some "a"%string) false 1 0 TASK_STATUS_READY (heap_top (mem s_two2)) 1500700)
    (initial_regs 4194304 8388608 false 0) 1500800 (initial_regs 7 9 false 3) 0 (ti_sched _ _ _ _ _ Hi))
    as (e & s' & L' & E & _ & Hr & _ & Hregs).
  - vm_compute. discriminate.
  - exact runnable_b.
  - vm_compute. reflexivity.
  - vm_compute. reflexivity.
  - vm_compute. reflexivity.
  - vm_compute. reflexivity.
  - vm_compute. discriminate.
  - intros u y Hu Hy. apply list_elem_of_singleton in Hu as ->. vm_compute in Hy. injection Hy as <-. vm_compute. split; discriminate.
  - exists e, s'. split; [exact E|]. split; [exact Hr|]. rewrite Hregs. reflexivity.
Defined.
