(* ===== verification/Hello.v ===== *)
(** modules/hello: the demonstration module, a program that only makes system
    calls.  A call enters the kernel at [handle_syscall]; the entry points of
    crt0.S with fewer arguments pass 0 for the others. *)
From S2P Require Import Prelude Machine Logic LinkedList Scheduler NativeTask Task Interrupts.

Section code.
Context `{Kalloc} `{Layout}.

Definition _syscall (syscall_number arg1 arg2 arg3 arg4 arg5 : Z) : M Z := handle_syscall syscall_number arg1 arg2 arg3 arg4 arg5.
Definition _syscall4 (syscall_number arg1 arg2 arg3 arg4 : Z) : M Z := _syscall syscall_number arg1 arg2 arg3 arg4 0.
Definition _syscall3 (syscall_number arg1 arg2 arg3 : Z) : M Z := _syscall4 syscall_number arg1 arg2 arg3 0.
Definition _syscall2 (syscall_number arg1 arg2 : Z) : M Z := _syscall3 syscall_number arg1 arg2 0.
Definition _syscall1 (syscall_number arg1 : Z) : M Z := _syscall2 syscall_number arg1 0.
Definition _syscall0 (syscall_number : Z) : M Z := _syscall1 syscall_number 0.

(** [userdata] and what the calls returned, which the code ignores; [ready] is the
    address of the message. *)
Definition module_init (ready arg : Z) : M (Z * list Z) :=
  let userdata := NULL in
  let userdata := if negb (isnull arg) then arg else userdata in
  r5 ← _syscall 4101 8197 12293 16389 20485 24581;
  r4 ← _syscall4 4100 8196 12292 16388 20484;
  r3 ← _syscall3 4099 8195 12291 16387;
  r2 ← _syscall2 4098 8194 12290;
  r1 ← _syscall1 4097 8193;
  r0 ← _syscall0 4096;
  r ← _syscall2 2 2 ready;
  mret (userdata, [r5; r4; r3; r2; r1; r0; r]).
End code.

(** On a kernel with its own calls registered, the six demonstration calls are
    refused and the message is logged; the kernel does not change, and [userdata]
    is the argument of the task. *)
Theorem hello_calls `{Kalloc} `{Layout} ready arg s :
  syscall_vector (boot s) = replicate (Z.to_nat SYSCALL_MAX_NUMBER) None ->
  exists s1, syscall_initialize s = Ret true s1 /\ module_init ready arg s1 = Ret (arg, [-1; -1; -1; -1; -1; -1; 0]) s1.
Proof.
  intros Ev. eexists. split; [by apply syscall_initialize_spec|]. set (s1 := set_syscall_vector _ s).
  unfold module_init, _syscall0, _syscall1, _syscall2, _syscall3, _syscall4, _syscall.
  assert (forall n a b c d e, 255 <= n -> handle_syscall n a b c d e s1 = Ret (-1) s1) as Hbad.
  { intros n a b c d e Hn. unfold handle_syscall. change SYSCALL_MAX_NUMBER with 255.
    rewrite (proj2 (Z.eqb_neq n 0)), (proj2 (Z.leb_le 255 n)) by lia. reflexivity. }
  do 6 (rewrite (bind_Ret _ _ s1 (-1) s1) by (apply Hbad; lia)).
  rewrite (bind_Ret _ _ s1 0 s1) by reflexivity. destruct (isnull arg) eqn:E; cbn [negb]; [|reflexivity].
  apply Z.eqb_eq in E. by rewrite E.
Qed.
