(* ===== verification/Alloc.v ===== *)
(** core/src/alloc.c: the memory allocator of the kernel.

    Growing kernel data memory itself needs kernel memory (list nodes, page
    tables): [kalloc] calls itself through [vmem_region_resize].  [kalloc_fuel n]
    allows [n] nested calls; a request that fits in kernel data memory makes none,
    which is what the other services rely on ([GoodAlloc]). *)
From S2P Require Import Prelude Machine Logic LinkedList IdMapper Pmem NativeVmem PageTable NativePaging Vmem Region CString.
From Stdlib Require Import FunctionalExtensionality.

(** * Definitions *)

Definition get_current_memory_ptr : M Z :=
  p ← gets (fun s => current_mem_ptr (mem s));
  (if isnull p then modify (fun s => set_current_mem_ptr (addr_end (p_kernel_data (platform (mem s)))) s) else mret tt);;
  gets (fun s => current_mem_ptr (mem s)).

Section code.
Context `{Kalloc} `{Layout}.

(** [platform->memory.kernel_data.addr_end] and [.size] *)
Definition resize_kernel_data (new_size : Z) (s : kstate) : kstate :=
  let kd := p_kernel_data (platform (mem s)) in
  set_kernel_data (mk_seg (addr_start kd) (addr_start kd ⊞ new_size) new_size) s.

Definition ensure_free_memory (size : Z) : M bool :=
  ptr ← get_current_memory_ptr;
  kd ← gets (fun s => p_kernel_data (platform (mem s)));
  let minimum_required_size := ((ptr ⊞ size) ⊞ KERNEL_MEMORY_PAGE_RESERVE) ⊟ addr_start kd in
  r ← gets (fun s => kernel_data_vmem_region (mem s));
  current_size ← (if negb (isnull r) then x ← load (T := vmem_region_t) r; mret (allocated_size x) else mret (seg_size kd));
  if current_size <? minimum_required_size then
    let new_size := ALIGN_NEXT (minimum_required_size ⊞ KERNEL_MEMORY_PAGE_RESERVE) SYSTEM_PAGE_SIZE in
    modify (resize_kernel_data new_size);;
    init ← gets (fun s => mem_allocator_initialised (mem s));
    if (init : bool) then
      r ← gets (fun s => kernel_data_vmem_region (mem s));
      ok ← vmem_region_resize r new_size;
      if negb ok then mret false else mret true
    else mret true
  else mret true.

Definition kalloc_body (size : Z) : M Z :=
  ok ← ensure_free_memory size;
  if negb ok then mret NULL
  else
    ptr ← get_current_memory_ptr;
    modify (fun s => set_current_mem_ptr (current_mem_ptr (mem s) ⊞ size) s);;
    modify (fun s => set_ram (memset (ram (mem s)) ptr 0 size) s);;
    mret ptr.

Definition vmem_map_current_kernel_memory_address : M bool :=
  k ← vmem_get_kernel;
  p ← gets (fun s => platform (mem s));
  r ← vmem_region_create k (Some "kernel-code"%string) (addr_start (p_kernel p)) 0 false true true;
  modify (set_kernel_code_vmem_region r);;
  p ← gets (fun s => platform (mem s));
  v ← vmem_region_map_physical_address r (addr_start (p_kernel p)) (ALIGN_NEXT (seg_size (p_kernel p)) SYSTEM_PAGE_SIZE);
  if isnull v then mret false
  else
    p ← gets (fun s => platform (mem s));
    let data_addr := addr_start (p_kernel_data p) in
    k ← vmem_get_kernel;
    r ← vmem_region_create k (Some "kernel-data"%string) data_addr 0 false true true;
    modify (set_kernel_data_vmem_region r);;
    p ← gets (fun s => platform (mem s));
    let new_size := ALIGN_NEXT (seg_size (p_kernel_data p) ⊞ KERNEL_MEMORY_PAGE_RESERVE) SYSTEM_PAGE_SIZE in
    v ← vmem_region_map_physical_address r (addr_start (p_kernel_data p)) new_size;
    if isnull v then
      modify (fun s => let kd := p_kernel_data (platform (mem s)) in
        set_kernel_data (mk_seg (addr_start kd) (addr_end kd) new_size) s);;
      mret false
    else mret true.

Definition memory_allocator_initialize : M bool :=
  ok ← vmem_map_current_kernel_memory_address;
  if negb ok then mret false
  else
    r ← gets (fun s => kernel_data_vmem_region (mem s));
    allocated_size ← vmem_region_current_size r;
    p ← gets (fun s => platform (mem s));
    if allocated_size <? seg_size (p_kernel_data p) then mret false
    else
      modify (set_mem_allocator_initialised true);;
      k ← vmem_get_kernel;
      native_vmem_switch k;;
      mret true.
End code.

(** The allocator, for [n] nested calls. *)
Fixpoint kalloc_fuel `{Layout} (n : nat) : Kalloc :=
  match n with
  | O => fun _ => out_of_fuel
  | S n' => kalloc_body (H := kalloc_fuel n')
  end.

(** * The promise to the other services *)

Section good.
Context `{Y : Layout}.

Lemma get_current_memory_ptr_spec s :
  0 < heap_top (mem s) ->
  get_current_memory_ptr s = Ret (heap_top (mem s)) (set_current_mem_ptr (heap_top (mem s)) s).
Proof.
  intros Hp. unfold get_current_memory_ptr, heap_top in *. mcompute. destruct (isnull (current_mem_ptr (mem s))) eqn:E; [done|].
  cbn. by destruct s as [[] ? ? ? ? ? ? ?].
Qed.

Lemma memset_zero m p n : 0 <= n -> memset m p 0 n = fun a => if (p <=? a) && (a <? p + n) then 0 else m a.
Proof. intros Hn. apply functional_extensionality. intros a. rewrite memset_spec by done. done. Qed.

(** The size [ensure_free_memory] compares with. *)
Lemma current_size_spec s s1 n :
  alloc_ok (mem s) -> 0 <= n <= avail s ->
  mem s1 = mem (set_current_mem_ptr (heap_top (mem s)) s) -> Machine.vm s1 = Machine.vm s ->
  (if negb (isnull (kernel_data_vmem_region (mem s))) then x ← load (T := vmem_region_t) (kernel_data_vmem_region (mem s)); mret (allocated_size x)
   else mret (seg_size (p_kernel_data (platform (mem s))))) s1 = Ret (kernel_data_current_size s) s1.
Proof.
  intros [Htop Hreg] Hn Em Ev. unfold kernel_data_current_size, avail, kernel_data_region_ok in *.
  unfold kernel_data_current_size in Hn.
  destruct (isnull (kernel_data_vmem_region (mem s))) eqn:E; cbn [negb]; [done|]. cbn [orb] in Hn.
  destruct (regions (Machine.vm s) !! kernel_data_vmem_region (mem s)) as [x|] eqn:Ex.
  - erewrite bind_Ret; [reflexivity|]. unfold load. cbn. rewrite Ev, Ex. reflexivity.
  - exfalso. destruct (mem_allocator_initialised (mem s)).
    + unfold KERNEL_MEMORY_PAGE_RESERVE in Hn. kconst. lia.
    + rewrite bool_decide_eq_false_2 in Hn by (by intros [? ?]). lia.
Qed.

(** A request that fits. *)
Lemma kalloc_body_spec `{K : Kalloc} n s :
  alloc_ok (mem s) -> 0 <= n <= avail s ->
  exists kd, kalloc_body n s = Ret (heap_top (mem s)) (bump n kd s) /\
    addr_start kd = addr_start (p_kernel_data (platform (mem s))) /\
    kdata_size (heap_top (mem s) + n) (p_kernel_data (platform (mem s))) kd /\
    (mem_allocator_initialised (mem s) = true -> kd = p_kernel_data (platform (mem s))).
Proof.
  intros Hok Hn. pose proof Hok as [Htop Hreg]. set (top := heap_top (mem s)) in *. set (s1 := set_current_mem_ptr top s).
  assert (top + n <= 2 ^ 62) as Hmax by (unfold avail in Hn; fold top in Hn; lia).
  assert (exists kd, ensure_free_memory n s = Ret true (set_kernel_data kd s1) /\
    addr_start kd = addr_start (p_kernel_data (platform (mem s))) /\
    kdata_size (top + n) (p_kernel_data (platform (mem s))) kd /\
    (mem_allocator_initialised (mem s) = true -> kd = p_kernel_data (platform (mem s)))) as (kd & E & Hst & Hsize & Hkd).
  { unfold ensure_free_memory. rewrite (bind_Ret _ _ _ _ _ (get_current_memory_ptr_spec s ltac:(fold top; lia))). fold top s1.
    rewrite (bind_Ret _ _ s1 (p_kernel_data (platform (mem s))) s1) by done.
    rewrite (bind_Ret _ _ s1 (kernel_data_vmem_region (mem s)) s1) by done.
    rewrite (bind_Ret _ _ _ _ _ (current_size_spec s s1 n Hok Hn eq_refl eq_refl)).
    set (kd := p_kernel_data (platform (mem s))) in *.
    assert (set_kernel_data kd s1 = s1) as Eid by (unfold kd; by destruct s as [[? ? ? ? ? [] ?] ? ? ? ? ? ? ?]).
    destruct (Z.ltb_spec (kernel_data_current_size s) (((top ⊞ n) ⊞ KERNEL_MEMORY_PAGE_RESERVE) ⊟ addr_start kd)) as [Hlt|Hge].
    - destruct (mem_allocator_initialised (mem s)) eqn:Einit.
      + exfalso. unfold avail in Hn. rewrite Einit in Hn. fold top kd in Hn. unfold KERNEL_MEMORY_PAGE_RESERVE in *. kconst.
        rewrite (u64_small (top + n)), (u64_small (top + n + 10 * 4096)), (u64_small (_ - _)) in Hlt by klia. lia.
      + match goal with |- context [resize_kernel_data ?n] => set (ns := n) end.
        rewrite (bind_Ret (modify (resize_kernel_data ns)) _ s1 tt (resize_kernel_data ns s1)) by done.
        exists (mk_seg (addr_start kd) (addr_start kd ⊞ ns) ns).
        rewrite (bind_Ret _ _ (resize_kernel_data ns s1) false (resize_kernel_data ns s1)) by (unfold gets; cbn; by rewrite Einit).
        split; [done|]. split; [done|]. split; [|done]. intros _. cbn [seg_size].
        unfold ns, KERNEL_MEMORY_PAGE_RESERVE. kconst. fold kd in Htop.
        rewrite (u64_small (top + n)), (u64_small (top + n + 10 * 4096)), (u64_small (_ - _)), (u64_small (_ + 10 * 4096)) by klia.
        rewrite ALIGN_NEXT_page by klia. pose proof (Z.div_mod (top + n + 10 * 4096 - addr_start kd + 10 * 4096 + 4095) 4096).
        pose proof (Z.mod_pos_bound (top + n + 10 * 4096 - addr_start kd + 10 * 4096 + 4095) 4096). lia.
    - exists kd. rewrite Eid. split; [done|]. split; [done|]. split; [apply kdata_size_refl|done]. }
  exists kd. split; [|done]. unfold kalloc_body. rewrite (bind_Ret _ _ _ _ _ E). cbn [negb].
  rewrite (bind_Ret _ _ (set_kernel_data kd s1) top (set_kernel_data kd s1)).
  2: { rewrite get_current_memory_ptr_spec; cbn; unfold heap_top; cbn; rewrite (proj2 (isnull_false top)) by lia; [done|lia]. }
  mcompute. unfold bump, bump_mem. fold top. rewrite memset_zero by lia. rewrite u64_small by lia.
  by destruct s as [[? ? ? ? ? [] ?] ? ? ? ? ? ? ?].
Qed.

#[export] Instance kalloc_good fuel : GoodAlloc (kalloc_fuel (S fuel)).
Proof. intros n s Hok Hn. by apply kalloc_body_spec. Qed.
End good.

(** * Sequences of requests *)

Fixpoint kallocs `{Kalloc} (ns : list Z) : M (list Z) :=
  match ns with
  | [] => mret []
  | n :: ns' => p ← kalloc n; ps ← kallocs ns'; mret (p :: ps)
  end.

Definition total (ns : list Z) : Z := foldr Z.add 0 ns.

Lemma total_pos ns : Forall (fun n => 0 <= n) ns -> 0 <= total ns.
Proof. unfold total. induction 1; cbn [foldr]; lia. Qed.

Lemma kallocs_spec `{K : Kalloc} `{!GoodAlloc K} ns : forall s,
  alloc_ok (mem s) -> Forall (fun n => 0 <= n) ns -> total ns <= avail s ->
  wp (kallocs ns) (fun ps s' => length ps = length ns /\ (exists m', s' = set_mem m' s /\ quiet (total ns) (mem s) m') /\
    forall i p n, ps !! i = Some p -> ns !! i = Some n -> p = heap_top (mem s) + total (take i ns) /\
      forall a, p <= a < p + n -> ram (mem s') a = 0) s.
Proof.
  induction ns as [|n ns IH]; intros s Hok Hf Hb; cbn [kallocs].
  { wstep. split_and!; [done| |done]. exists (mem s). split; [by destruct s|apply quiet_refl]. }
  apply Forall_cons in Hf as [Hn Hf]. cbn [total foldr] in Hb. fold (total ns) in Hb. pose proof (total_pos ns Hf) as Ht.
  eapply wp_call; [apply (wp_kalloc n s Hok); lia|]. intros p s1 (-> & m1 & -> & Hq1 & Hz).
  pose proof (gr_top _ _ _ (q_grown _ _ _ Hq1)) as Et1.
  eapply wp_call; [apply IH|].
  - by eapply grown_alloc_ok; [apply q_grown|].
  - done.
  - pose proof (avail_grown_regions n s (set_mem m1 s) Hok (q_grown _ _ _ Hq1) eq_refl). lia.
  - intros ps s2 (Hlen & (m2 & -> & Hq2) & Hps). cbn [mem set_mem] in Hq2, Hps. wstep. split_and!.
    + cbn. lia.
    + exists m2. split; [done|]. cbn [total foldr]. by eapply quiet_trans.
    + intros [|i] p k Hp Hk.
      * injection Hp as <-. injection Hk as <-. cbn [take total foldr]. split; [lia|]. intros a Ha.
        cbn [mem set_mem]. rewrite (q_ram _ _ _ Hq2) by lia. by apply Hz.
      * cbn in Hp, Hk. destruct (Hps i p k Hp Hk) as [-> Hzero]. split; [|done]. cbn [take total foldr]. fold (total (take i ns)). lia.
Qed.


