(* ===== verification/KernelMemory.v ===== *)
(** Mapping given physical pages ([vmem_region_map_physical_address]) and the
    start of the kernel's own memory ([memory_allocator_initialize] of alloc.c):
    the kernel area maps the image and the data of the kernel to themselves, so
    that switching to it keeps the kernel running. *)
From S2P Require Import Prelude Machine Logic LinkedList ListRefinement IdMapper Pmem NativeVmem PageTable NativePaging Vmem Region VmInv VmemSpec RegionSpec VmStep VmCreate VirtualMemory Alloc.

(** * [vmem_region_map_physical_address] *)

(** [k] pages one behind the other. *)
Fixpoint frames (p : Z) (k : nat) : list Z :=
  match k with O => [] | S k' => p :: frames (p + 4096) k' end.

Lemma frames_length p k : length (frames p k) = k.
Proof. revert p. induction k as [|k IH]; intros p; cbn; [done|]. by rewrite IH. Qed.

Lemma frames_lookup p k i : (i < k)%nat -> frames p k !! i = Some (p + 4096 * Z.of_nat i).
Proof.
  revert p i. induction k as [|k IH]; intros p [|i] Hi; cbn [frames lookup list_lookup]; try lia.
  - f_equal. lia.
  - rewrite IH by lia. f_equal. lia.
Qed.

Section map_physical.
Context `{K : Kalloc} `{!GoodAlloc K}.

Lemma map_physical_loop_spec k : forall s G r g R pa0 paddr ret,
  vm_inv s G -> gR G !! r = Some g -> regions (Machine.vm s) !! r = Some R ->
  paddr mod 4096 = 0 -> 0 < paddr -> paddr + 4096 * Z.of_nat k <= 2 ^ 48 -> pa0 <= paddr -> r_size R = allocated_size R ->
  region_room (Z.of_nat k) G g R ->
  assoc_cost g * Z.of_nat k <= avail s -> heap_top (mem s) + assoc_cost g * Z.of_nat k <= 2 ^ 48 ->
  wp (map_physical_loop (S k) r pa0 paddr (4096 * Z.of_nat k) ret) (fun res s' => exists n G' R',
    n <= assoc_cost g * Z.of_nat k /\ pages_added n s G r g R (frames paddr k) s' G' R' /\ r_size R' = allocated_size R' /\
    pmem s' = pmem s /\ avail s - n <= avail s' /\
    res = inl (if (paddr =? pa0) && (0 <? Z.of_nat k) then r_start R + allocated_size R else ret)) s.
Proof.
  induction k as [|k IH]; intros s G r g R pa0 paddr ret Hi Hg HR Hpm Hp0 Hpe Hpa Hsz Hroom Ha Htop.
  { cbn [map_physical_loop]. change (negb (0 <? 4096 * Z.of_nat 0)) with true. cbv iota. wstep.
    exists 0, G, R. split_and!; try done; [lia|by apply pages_added_refl|lia|]. cbn [Z.of_nat]. by rewrite andb_false_r. }
  assert (0 <= assoc_cost g) as Hc by (unfold assoc_cost, notify_cost; lia).
  unfold map_physical_loop; fold map_physical_loop. rewrite (proj2 (Z.ltb_lt 0 _)) by lia. cbn [negb].
  pose proof (region_repr_at _ _ _ _ _ Hi Hg HR) as HRr.
  eapply wp_call.
  { eapply (vmem_region_assoc_spec s G r g R paddr); try done; [split; [lia|done]|lia
      |eapply (region_room_page s (Z.of_nat (S k))); [lia|done]|nia|nia]. }
  intros va s1 (-> & n1 & G1 & Hn1 & Hadd). destruct (rr_start _ _ _ _ _ HRr) as [_ Hst].
  destruct (allocated_pages _ _ _ _ _ HRr) as [Hal _]. nonnull (r_start R + allocated_size R).
  assert (page_added n1 (set_pmem (pmem s) s) G r g R paddr s1 G1) as Hadd'.
  { replace (set_pmem (pmem s) s) with s; [done|by destruct s]. }
  pose proof (page_added_pages n1 s (pmem s) G r g R paddr s1 G1 Hadd') as Hpg.
  set (R1 := set_allocated_size (allocated_size R + 4096) R) in *.
  assert (regions (Machine.vm s1) !! r = Some R1) as HR1 by (by rewrite (pg_regions _ _ _ _ _ _ _ _ _ _ Hpg), lookup_insert_eq).
  pose proof (gr_top _ _ _ (only_grow_grown _ _ _ (pg_only _ _ _ _ _ _ _ _ _ _ Hpg))) as Et1.
  assert (pmem s1 = pmem s) as Ep1.
  { by destruct (pa_only _ _ _ _ _ _ _ _ _ Hadd) as (? & ? & ? & ? & ? & -> & _). }
  wstep. eapply wpx_update; [exact HR1|]. cbn [heap set_heap vmem_region_t_struct].
  pose proof (pages_added_size n1 s G r g R [paddr] s1 G1 R1 (allocated_size R1) Hpg ltac:(cbn; lia)) as Hpg2.
  set (R2 := set_r_size (allocated_size R1) R1) in *. set (s2 := set_regions _ s1) in *.
  change (wp (map_physical_loop (S k) r pa0 (paddr ⊞ SYSTEM_PAGE_SIZE) ((4096 * Z.of_nat (S k)) ⊟ SYSTEM_PAGE_SIZE)
    (if paddr =? pa0 then r_start R + allocated_size R else ret)) (fun res s' => exists n G' R',
    n <= assoc_cost g * Z.of_nat (S k) /\ pages_added n s G r g R (frames paddr (S k)) s' G' R' /\ r_size R' = allocated_size R' /\
    pmem s' = pmem s /\ avail s - n <= avail s' /\
    res = inl (if (paddr =? pa0) && (0 <? Z.of_nat (S k)) then r_start R + allocated_size R else ret)) s2).
  assert (avail s - n1 <= avail s2) as Ha2.
  { eapply (avail_set_region n1 s s2 r R R2); [apply Hi|by apply only_grow_grown, Hpg2|done|apply Hpg2|cbn; lia]. }
  set (g2 := mk_rg (rg_attached g) (rg_pages g ++ [paddr])).
  kconst. rewrite (u64_small (paddr + 4096)), (u64_small (4096 * Z.of_nat (S k) - 4096)) by lia.
  replace (4096 * Z.of_nat (S k) - 4096) with (4096 * Z.of_nat k) by lia.
  eapply wp_mono.
  { eapply (IH s2 G1 r g2 R2 pa0 (paddr + 4096)); try lia.
    - apply Hpg2.
    - by rewrite (pg_R _ _ _ _ _ _ _ _ _ _ Hpg2), lookup_insert_eq.
    - by rewrite (pg_regions _ _ _ _ _ _ _ _ _ _ Hpg2), lookup_insert_eq.
    - rewrite Z.add_mod, Hpm by lia. done.
    - done.
    - replace (Z.of_nat k) with (Z.of_nat (S k) - 1) by lia. by eapply region_room_next.
    - change (assoc_cost g2) with (assoc_cost g). nia.
    - change (assoc_cost g2) with (assoc_cost g). change (mem s2) with (mem s1). nia. }
  intros res s3 (n2 & G3 & R3 & Hn2 & Hpg3 & Hsz3 & Ep3 & Ha3 & ->). change (assoc_cost g2) with (assoc_cost g) in Hn2.
  exists (n1 + n2), G3, R3. split_and!; [nia| |done|by rewrite Ep3|lia|].
  - by apply (pages_added_trans n1 n2 s G r g R [paddr] s2 G1 R2 (frames (paddr + 4096) k)).
  - rewrite (proj2 (Z.eqb_neq (paddr + 4096) pa0)) by lia. cbn [andb]. by rewrite (proj2 (Z.ltb_lt 0 (Z.of_nat (S k)))), andb_true_r by lia.
Qed.

Lemma vmem_region_map_physical_spec s G r g R pa size :
  vm_inv s G -> gR G !! r = Some g -> regions (Machine.vm s) !! r = Some R ->
  pa mod 4096 = 0 -> size mod 4096 = 0 -> 0 < pa -> 0 < size -> pa + size <= 2 ^ 48 -> r_size R = allocated_size R ->
  let k := size / 4096 in
  region_room k G g R -> assoc_cost g * k <= avail s -> heap_top (mem s) + assoc_cost g * k <= 2 ^ 48 ->
  wp (vmem_region_map_physical_address r pa size) (fun va s' => va = r_start R + allocated_size R /\ exists n G' R',
    n <= assoc_cost g * k /\ pages_added n s G r g R (frames pa (Z.to_nat k)) s' G' R' /\ r_size R' = allocated_size R' /\
    pmem s' = pmem s /\ avail s - n <= avail s') s.
Proof.
  intros Hi Hg HR Hpm Hsm Hp Hs Hend Hsz k Hroom Ha Htop.
  assert (size = 4096 * k) as Es by (unfold k; pose proof (Z.div_mod size 4096); lia). assert (0 < k) as Hk by lia.
  pose proof (rr_ptr _ _ _ _ _ (region_repr_at _ _ _ _ _ Hi Hg HR)) as Hr0.
  unfold vmem_region_map_physical_address. nonnull r.
  rewrite (proj2 (MEM_ALIGN_fix pa)), (proj2 (MEM_ALIGN_fix size)), !Z.eqb_refl by done. cbn [negb orb].
  assert (page_fuel size = S (Z.to_nat k)) as -> by (unfold page_fuel; kconst; done).
  rewrite Es. replace (4096 * k) with (4096 * Z.of_nat (Z.to_nat k)) by lia.
  eapply wp_call; [eapply (map_physical_loop_spec (Z.to_nat k) s G r g R pa pa 0); rewrite ?Z2Nat.id by lia; try done; lia|].
  rewrite Z2Nat.id by lia. intros res s1 (n & G1 & R1 & Hn & Hpg & Hsz1 & Ep & Ha1 & ->).
  rewrite Z.eqb_refl, (proj2 (Z.ltb_lt 0 k)) by lia. cbn [andb].
  unfold flush_if_required. cbn [native_vmem_flush x86_native_vmem]. unfold x86_vmem_flush.
  do 4 wstep. rewrite set_cr3_id. wstep. split; [done|]. by exists n, G1, R1.
Qed.
End map_physical.

(** * The regions of the kernel *)

(** The invariant looks at memory through the top of the heap and the bytes. *)
Lemma vm_inv_mem s m' G :
  vm_inv s G -> heap_top m' = heap_top (mem s) -> ram m' = ram (mem s) -> alloc_ok m' -> vm_inv (set_mem m' s) G.
Proof.
  intros Hi Et Er Hok. destruct Hi as [F1 F2 F3 F4 F5 F6 F7 F8 F9 F10 F11 F12 F13].
  split; [|exact F2| |exact F4| |exact F6|exact Hok| |exact F9| | | |].
  - destruct F1 as [A B C D]. split; [exact A| | |cbn; lia]; intros p v Hp; cbn; rewrite Et; [by apply (B p v)|by apply (C p v)].
  - destruct F3 as [A B C D]. split; [intros p g Hp; destruct (A _ _ Hp); by split|exact B| |]; intros p v Hp; cbn; rewrite Et;
      [by apply (C p v)|by apply (D p v)].
  - destruct F5 as [A B C D]. split; [cbn; rewrite Et, Er; exact A| |exact C|intros p v Hp; cbn; rewrite Et; by apply (D p v)].
    intros p Hp. destruct (B _ Hp) as (? & pt & ? & []). split; [done|]. exists pt. split; [done|].
    split; cbn; rewrite ?Er, ?Et; assumption.
  - intros v g Hv. destruct (F8 _ _ Hv) as (vm & pt & [V1 V2 V3 V4 V5 V6 V7 V8 V9 V10]). exists vm, pt.
    split; try assumption. cbn [mem set_mem]. rewrite Er. exact V10.
  - intros r g Hr. destruct (F10 _ _ Hr) as (R & []). exists R. split; assumption.
  - intros p v Hp. cbn. rewrite Et. by apply (F11 p v).
  - intros p v Hp. cbn. rewrite Et. by apply (F12 p v).
  - intros p v Hp. cbn. rewrite Et. by apply (F13 p v).
Qed.

(** Before it is initialised the allocator hands out whatever is asked for. *)
Lemma avail_early s : mem_allocator_initialised (mem s) = false -> kernel_data_region_ok s = true ->
  avail s = 2 ^ 62 - heap_top (mem s).
Proof. intros Hi Hr. unfold avail. rewrite Hi, Hr. lia. Qed.

(** The memory of the kernel before it is initialised; [bound] limits the heap. *)
Record early (s : kstate) (bound : Z) : Prop := {
  er_init : mem_allocator_initialised (mem s) = false;
  er_region : kernel_data_region_ok s = true;
  er_top : heap_top (mem s) <= bound }.

Lemma early_step n s s' b b' :
  early s b -> grown n (mem s) (mem s') -> b + n <= b' ->
  (forall r, is_Some (regions (Machine.vm s) !! r) -> is_Some (regions (Machine.vm s') !! r)) -> early s' b'.
Proof.
  intros [Hin Hr Ht] Hg Hb Hk. split.
  - by rewrite (gr_init _ _ _ Hg).
  - unfold kernel_data_region_ok in *. rewrite (gr_data _ _ _ Hg). apply orb_true_iff in Hr as [->|Hr]; [done|].
    apply orb_true_iff. right. apply bool_decide_eq_true in Hr. apply bool_decide_eq_true. auto.
  - rewrite (gr_top _ _ _ Hg). lia.
Qed.

Lemma early_avail s b : early s b -> 2 ^ 62 - b <= avail s.
Proof. intros [Hin Hr Ht]. rewrite avail_early by done. lia. Qed.

(** Running a program to a state that has a name. *)
Lemma wp_run_at {A} (m : M A) Q s s' : s' = run m s -> wp m Q s -> exists a, m s = Ret a s' /\ Q a s'.
Proof. intros ->. apply wp_run. Qed.

(** A page of an area, byte by byte. *)
Lemma translate_map s G v g va p r o :
  vm_inv s G -> gV G !! v = Some g -> mk_map va p r ∈ vg_maps g -> 0 <= o < 4096 -> translate s v (va + o) = Some (p + o).
Proof.
  intros Hi Hv Hm Ho. destruct (vi_vmems _ _ Hi _ _ Hv) as (vm & pt & Hr).
  pose proof (vr_maps _ _ _ _ _ _ Hr) as Hok. rewrite Forall_forall in Hok. destruct (Hok _ Hm) as [[Hva Hvm] _]. cbn in Hva, Hvm.
  destruct (page_offset va 0 o Hvm Ho) as [E1 E2]. rewrite Z.mul_0_r, Z.add_0_r in E1, E2.
  pose proof (Z.div_mod va 4096). rewrite (translate_lookup s G v g) by (done || lia).
  rewrite <- E2 at 2. apply (lookup_map_Some _ (mk_map va p r)); [apply Hr|done|cbn; congruence].
Qed.

(** Maps added to one area. *)
Lemma maps_added_single v g ms V V' : V !! v = Some g -> maps_added [v] ms V V' -> V' = <[v := vg_add ms g]> V.
Proof.
  intros Hv F. apply map_eq. intros w. rewrite (F w). destruct (decide (v = w)) as [<-|Hne].
  - rewrite lookup_insert_eq, Hv. cbn. by rewrite bool_decide_eq_true_2 by (by constructor).
  - rewrite lookup_insert_ne by done. rewrite bool_decide_eq_false_2 by (by intros ?%list_elem_of_singleton). by destruct (V !! w).
Qed.

Section kernel_regions.
Context `{K : Kalloc} `{!GoodAlloc K} `{Y : Layout}.

(** A region without pages. *)
Lemma create_region_spec s G v g vm name start user writable executable gi :
  vm_inv s G -> linked G -> gV G !! v = Some g -> vmems (Machine.vm s) !! v = Some vm ->
  gI G !! a_vmem_region_mapper = Some gi -> 0 < g_next gi < 2 ^ 64 - 1 ->
  Z.of_nat (length (vg_regions g)) < 2 ^ 31 -> pmem_ok (pmem s) -> total_memory (pmem s) <= 2 ^ 48 ->
  let base := create_base vm start in
  page_ok base -> 0 < base -> 160 <= avail s -> heap_top (mem s) + 160 <= 2 ^ 48 ->
  wp (vmem_region_create v (Some name) start 0 user writable executable) (fun r s' => r <> 0 /\ exists n G' R,
    n <= 160 /\ vm_frame n s s' /\ vm_inv s' G' /\ linked G' /\ gR G !! r = None /\
    gV G' = <[v := mk_vg (vg_regions g ++ [r]) (vg_maps g)]> (gV G) /\ gR G' = <[r := mk_rg [v] []]> (gR G) /\
    (exists gi', gI G' !! a_vmem_region_mapper = Some gi' /\ g_next gi' = g_next gi + 1) /\
    regions (Machine.vm s') = <[r := R]> (regions (Machine.vm s)) /\ regions (Machine.vm s) !! r = None /\
    r_start R = base /\ r_size R = 0 /\ allocated_size R = 0 /\
    (forall q, page_at (pmem s') q = page_at (pmem s) q) /\ pmem_ok (pmem s') /\
    total_memory (pmem s') = total_memory (pmem s) /\ others_kept G G' /\
    (forall p, p <> a_vmem_region_mapper -> gI G' !! p = gI G !! p)) s.
Proof.
  intros Hi Hlk Hv Hvm HI Hnext Hlen Hpm Htot base Hb Hb0 Ha Htop.
  pose proof (heap_top_pos _ (vi_alloc _ _ Hi)) as Hpos.
  eapply wp_mono.
  { eapply (vmem_region_create_spec s G v g vm name start 0 user writable executable gi); try done; fold base;
      change ((0 + 4095) / 4096) with 0; try done; try (destruct Hb; lia); try (change (region_cost 0) with 160; lia); lia. }
  change ((0 + 4095) / 4096) with 0. change (region_cost 0) with 160.
  intros r s' [(-> & n & G' & R' & ps & Hn & Hps & Hrc)|(_ & ? & _)]; [|lia]. fold base in Hrc.
  assert (ps = []) as -> by (by destruct ps). destruct Hrc as [Hf B C D HV HR HS [Est Esz] HIo Hid Htk Hot].
  cbn [region_maps] in HV. rewrite app_nil_r in HV. destruct (Hid _ HI) as [_ Hid'].
  split; [lia|]. exists n, G', R'. split; [done|]. do 6 (split; [done|]).
  split; [by eexists|]. split; [done|]. split; [exact (below_top_fresh _ (vi_below_r _ _ Hi))|].
  split; [done|]. split; [done|]. split.
  { rewrite (rr_alloc s' G' (heap_top (mem s)) (mk_rg [v] []) R'); [done|]. apply region_repr_at; [done|by rewrite HR, lookup_insert_eq|by rewrite HS, lookup_insert_eq]. }
  destruct Htk as [A1 A2 A3 A4 A5]. split; [|done]. intros q. by rewrite A5, bool_decide_eq_false_2 by apply not_elem_of_nil.
Qed.

(** The same with a start address. *)
Lemma create_empty_region_spec s G v g vm name base user writable executable gi :
  vm_inv s G -> linked G -> gV G !! v = Some g -> vmems (Machine.vm s) !! v = Some vm ->
  gI G !! a_vmem_region_mapper = Some gi -> 0 < g_next gi < 2 ^ 64 - 1 ->
  Z.of_nat (length (vg_regions g)) < 2 ^ 31 -> pmem_ok (pmem s) -> total_memory (pmem s) <= 2 ^ 48 ->
  page_ok base -> 0 < base -> 160 <= avail s -> heap_top (mem s) + 160 <= 2 ^ 48 ->
  wp (vmem_region_create v (Some name) base 0 user writable executable) (fun r s' => r <> 0 /\ exists n G' R,
    n <= 160 /\ vm_frame n s s' /\ vm_inv s' G' /\ linked G' /\ gR G !! r = None /\
    gV G' = <[v := mk_vg (vg_regions g ++ [r]) (vg_maps g)]> (gV G) /\ gR G' = <[r := mk_rg [v] []]> (gR G) /\
    (exists gi', gI G' !! a_vmem_region_mapper = Some gi' /\ g_next gi' = g_next gi + 1) /\
    regions (Machine.vm s') = <[r := R]> (regions (Machine.vm s)) /\ regions (Machine.vm s) !! r = None /\
    r_start R = base /\ r_size R = 0 /\ allocated_size R = 0 /\
    (forall q, page_at (pmem s') q = page_at (pmem s) q) /\ pmem_ok (pmem s') /\
    total_memory (pmem s') = total_memory (pmem s) /\ others_kept G G' /\
    (forall p, p <> a_vmem_region_mapper -> gI G' !! p = gI G !! p)) s.
Proof.
  intros Hi Hlk Hv Hvm HI Hnext Hlen Hpm Htot Hb Hb0 Ha Htop.
  assert (create_base vm base = base) as Eb by (unfold create_base; by rewrite (proj2 (Z.eqb_neq base 0)) by lia).
  pose proof (create_region_spec s G v g vm name base user writable executable gi Hi Hlk Hv Hvm HI Hnext Hlen Hpm Htot) as H.
  cbv zeta in H. rewrite Eb in H. by apply H.
Qed.

(** Mapping [size] bytes of memory to themselves. *)
Lemma map_identity_spec s G v g r R base size :
  vm_inv s G -> linked G -> gV G !! v = Some g -> gR G !! r = Some (mk_rg [v] []) -> regions (Machine.vm s) !! r = Some R ->
  r_start R = base -> r_size R = 0 -> allocated_size R = 0 ->
  size mod 4096 = 0 -> 0 < size -> base + size <= 2 ^ 48 ->
  (forall m, m ∈ vg_maps g -> ~ in_pages base (size / 4096) (map_virtual_addr m)) ->
  (16 + notify_cost) * (size / 4096) <= avail s -> heap_top (mem s) + (16 + notify_cost) * (size / 4096) <= 2 ^ 48 ->
  wp (vmem_region_map_physical_address r base size) (fun va s' => va = base /\ exists n G' R',
    let ps := frames base (Z.to_nat (size / 4096)) in
    n <= (16 + notify_cost) * (size / 4096) /\ vm_frame n s s' /\ vm_inv s' G' /\ linked G' /\
    gV G' = <[v := vg_add (region_maps r base ps) g]> (gV G) /\ gR G' = <[r := mk_rg [v] ps]> (gR G) /\ gI G' = gI G /\
    regions (Machine.vm s') = <[r := R']> (regions (Machine.vm s)) /\ r_start R' = base /\ r_size R' = size /\
    pmem s' = pmem s) s.
Proof.
  intros Hi Hlk Hv Hr HR Est Esz Eal Hsm Hs Hend Hfree Ha Htop.
  pose proof (region_repr_at _ _ _ _ _ Hi Hr HR) as HRr. destruct (rr_start _ _ _ _ _ HRr) as [[Hst Hsta] Hst0]. rewrite Est in *.
  assert (size = 4096 * (size / 4096)) as Ek by (pose proof (Z.div_mod size 4096); lia). set (k := size / 4096) in *.
  assert (assoc_cost (mk_rg [v] []) = 16 + notify_cost) as Eac by (unfold assoc_cost; cbn [rg_attached length]; lia).
  eapply wp_mono.
  { eapply (vmem_region_map_physical_spec s G r (mk_rg [v] []) R base size); fold k; try done; try lia.
    - split; [lia|]. cbn. intros w gw i ->%list_elem_of_singleton Hgw Hik. assert (gw = g) as -> by congruence.
      intros (m & Em & Hm)%list_elem_of_fmap. apply (Hfree m Hm). unfold in_pages. lia. }
  fold k. rewrite Eac, Est, Eal, Z.add_0_r. intros va s' (-> & n & G' & R' & Hn & Hpg & Hsz & Ep & _). split; [done|].
  exists n, G', R'. destruct Hpg as [A B C D E F H I J]. cbn in E. rewrite Eal, Z.add_0_r, Est in F.
  assert (allocated_size R' = size) as Eal'.
  { rewrite D. cbn. rewrite Eal, frames_length. lia. }
  split; [done|]. split; [by apply vm_frame_grow|]. split; [done|]. split; [by eapply (linked_pages G G' r (mk_rg [v] []))|].
  split.
  { by apply maps_added_single. }
  split; [done|]. split; [done|]. split; [done|]. split; [by rewrite D|]. split; [lia|done].
Qed.

(** What boot leaves: the image of the kernel and its data behind it. *)
Record kernel_layout (p : platform_t) : Prop := {
  kl_start : 0 < addr_start (p_kernel p) /\ addr_start (p_kernel p) mod 4096 = 0;
  kl_size : 0 < seg_size (p_kernel p) <= 2 ^ 30;
  kl_data : addr_start (p_kernel_data p) mod 4096 = 0 /\ addr_start (p_kernel_data p) <= 2 ^ 40;
  kl_apart : addr_start (p_kernel p) + seg_size (p_kernel p) <= addr_start (p_kernel_data p);
  kl_dsize : 0 <= seg_size (p_kernel_data p) <= 2 ^ 40 }.

(** Virtual memory with an empty kernel area. *)
Record vm_started (s : kstate) (G : ghost) (kv : Z) : Prop := {
  st_inv : vm_inv s G;
  st_linked : linked G;
  st_kernel : kernel_vmem (Machine.vm s) = kv;
  st_area : gV G !! kv = Some (mk_vg [] []);
  st_ids : exists gi, gI G !! a_vmem_region_mapper = Some gi /\ 0 < g_next gi < 2 ^ 63;
  st_pmem : pmem_ok (pmem s) /\ total_memory (pmem s) <= 2 ^ 48;
  st_early : early s (2 ^ 40) }.

(** The bytes of the image and of the data, in whole pages. *)
Definition code_bytes (p : platform_t) : Z := (seg_size (p_kernel p) + 4095) / 4096 * 4096.

Lemma code_bytes_bound p : kernel_layout p -> code_bytes p mod 4096 = 0 /\ 0 < code_bytes p <= 2 ^ 31 /\
  addr_start (p_kernel p) + code_bytes p <= addr_start (p_kernel_data p).
Proof.
  intros [[Hs Hsm] Hz [Hd _] Hap _]. unfold code_bytes. split; [apply Z.mod_mul; lia|].
  pose proof (Z.div_mod (seg_size (p_kernel p) + 4095) 4096). pose proof (Z.mod_pos_bound (seg_size (p_kernel p) + 4095) 4096).
  split; [lia|]. pose proof (Z.div_mod (addr_start (p_kernel p)) 4096). pose proof (Z.div_mod (addr_start (p_kernel_data p)) 4096). lia.
Qed.

(** The kernel area after its two regions were mapped; [dsz] bytes of data. *)
Record kernel_mapped (s : kstate) (G : ghost) (kv : Z) (p : platform_t) (rc rd dsz : Z) (s' : kstate) (G' : ghost) : Prop := {
  km_inv : vm_inv s' G';
  km_linked : linked G';
  km_V : gV G' = <[kv := mk_vg [rc; rd]
    (region_maps rc (addr_start (p_kernel p)) (frames (addr_start (p_kernel p)) (Z.to_nat (code_bytes p / 4096))) ++
     region_maps rd (addr_start (p_kernel_data p)) (frames (addr_start (p_kernel_data p)) (Z.to_nat (dsz / 4096))))]> (gV G);
  km_data : rd <> 0 /\ kernel_data_vmem_region (mem s') = rd /\ exists R, regions (Machine.vm s') !! rd = Some R /\ r_size R = dsz;
  km_size : dsz mod 4096 = 0 /\ 40960 <= dsz <= 2 ^ 42;
  km_kernel : kernel_vmem (Machine.vm s') = kv;
  km_init : mem_allocator_initialised (mem s') = false;
  km_cr3 : cr3 (paging s') = cr3 (paging s);
  km_sched : sched s' = sched s /\ boot s' = boot s }.

(** The bounds of the sizes that are computed on the way. *)
Lemma data_bytes_bound sz : 0 <= sz <= 2 ^ 41 ->
  let dsz := ALIGN_NEXT (sz ⊞ KERNEL_MEMORY_PAGE_RESERVE) SYSTEM_PAGE_SIZE in
  dsz mod 4096 = 0 /\ 40960 <= dsz <= 2 ^ 42.
Proof.
  intros Hs dsz. unfold dsz. change KERNEL_MEMORY_PAGE_RESERVE with 40960. kconst. rewrite u64_small by lia. rewrite ALIGN_NEXT_page by lia.
  pose proof (Z.div_mod (sz + 40960 + 4095) 4096). pose proof (Z.mod_pos_bound (sz + 40960 + 4095) 4096).
  split; [apply Z.mod_mul; lia|lia].
Qed.

Lemma map_kernel_memory_spec s G kv :
  let p := platform (mem s) in
  vm_started s G kv -> kernel_layout p ->
  wp vmem_map_current_kernel_memory_address (fun ok s' => ok = true /\ exists G' rc rd dsz,
    kernel_mapped s G kv p rc rd dsz s' G') s.
Proof.
  intros p [Hi Hlk Hkv Hkg (gi & HI & Hgi) [Hpm Htot] Her] Hlay.
  destruct (code_bytes_bound p Hlay) as (Hcm & Hcb & Hap). pose proof Hlay as [[Hs Hsm] Hz [Hdm Hdb] _ Hds].
  set (ks := addr_start (p_kernel p)) in *. set (ds := addr_start (p_kernel_data p)) in *.
  assert (ALIGN_NEXT (seg_size (p_kernel p)) SYSTEM_PAGE_SIZE = code_bytes p) as Ecb by (rewrite ALIGN_NEXT_page by lia; done).
  set (cb := code_bytes p) in *. assert (0 < cb / 4096 <= 2 ^ 19) as Hck by (pose proof (Z.div_mod cb 4096); lia).
  pose proof (early_avail _ _ Her) as Ha. pose proof (er_top _ _ Her) as Ht.
  destruct (vi_vmems _ _ Hi _ _ Hkg) as (vm & pt & Hr).
  unfold vmem_map_current_kernel_memory_address, vmem_get_kernel. wstep. wstep. wstep. wstep. rewrite Hkv. fold p ks.
  (* the image *)
  eapply wpx_call; [eapply (create_empty_region_spec s G kv (mk_vg [] []) vm _ ks); try done; try apply Hr; cbn; try lia; split; [lia|done]|].
  intros rc s1 (Hrc0 & n1 & G1 & R1 & Hn1 & Hf1 & Hi1 & Hlk1 & _ & HV1 & HR1 & (gi1 & HI1 & Hgi1) & HS1 & Hnew1 & Est1 & Esz1 & Eal1 & _ & Hpm1 & Htot1 & _).
  cbn [vg_regions vg_maps app] in HV1.
  assert (early s1 (2 ^ 40 + 160)) as Her1.
  { eapply (early_step n1 s s1); [done|apply Hf1|lia|]. intros r Hr'. rewrite HS1. by apply is_Some_insert_kept. }
  wstep. wstep. set (s1' := set_kernel_code_vmem_region rc s1).
  assert (vm_inv s1' G1) as Hi1' by (apply vm_inv_mem; [done|done|done|apply (vi_alloc _ _ Hi1)]).
  assert (early s1' (2 ^ 40 + 160)) as Her1' by (by destruct Her1; split).
  assert (platform (mem s1') = platform (mem s1)) as Ep1 by done.
  wstep. wstep. rewrite Ep1, (gr_kernel _ _ _ (vf_grown _ _ _ Hf1)). fold p ks. rewrite Ecb.
  pose proof (early_avail _ _ Her1') as Ha1. pose proof (er_top _ _ Her1') as Ht1.
  eapply wpx_call.
  { eapply (map_identity_spec s1' G1 kv (mk_vg [rc] []) rc R1 ks cb); try done; unfold notify_cost; try lia.
    - by rewrite HV1, lookup_insert_eq.
    - by rewrite HR1, lookup_insert_eq.
    - change (regions (Machine.vm s1')) with (regions (Machine.vm s1)). by rewrite HS1, lookup_insert_eq.
    - intros m Hm. by apply elem_of_nil in Hm. }
  intros va s2 (-> & n2 & G2 & R2 & Hn2 & Hf2 & Hi2 & Hlk2 & HV2 & HR2 & HI2 & HS2 & Est2 & Esz2 & Epm2).
  unfold vg_add in HV2. cbn [vg_regions vg_maps app] in HV2. rewrite HV1, insert_insert_eq in HV2.
  unfold notify_cost in Hn2. nonnull ks.
  assert (early s2 (2 ^ 40 + 2 ^ 35)) as Her2.
  { eapply (early_step n2 s1' s2); [done|apply Hf2|lia|]. intros r Hr'. rewrite HS2. by apply is_Some_insert_kept. }
  pose proof (early_avail _ _ Her2) as Ha2. pose proof (er_top _ _ Her2) as Ht2.
  assert (kernel_vmem (Machine.vm s2) = kv) as Hkv2.
  { rewrite (vf_kernel _ _ _ Hf2). change (kernel_vmem (Machine.vm s1') = kv). cbn. by rewrite (vf_kernel _ _ _ Hf1). }
  assert (addr_start (p_kernel_data (platform (mem s2))) = ds) as Eds2.
  { rewrite (gr_start _ _ _ (vf_grown _ _ _ Hf2)). change (mem s1') with (mem s1'). rewrite Ep1. apply (gr_start _ _ _ (vf_grown _ _ _ Hf1)). }
  set (ms := region_maps rc ks (frames ks (Z.to_nat (cb / 4096)))) in *.
  assert (gV G2 !! kv = Some (mk_vg [rc] ms)) as Hkg2 by (by rewrite HV2, lookup_insert_eq).
  destruct (vi_vmems _ _ Hi2 _ _ Hkg2) as (vm2 & pt2 & Hr2).
  (* the data *)
  wstep. wstep. wstep. wstep. rewrite Hkv2, Eds2.
  eapply wpx_call.
  { eapply (create_empty_region_spec s2 G2 kv (mk_vg [rc] ms) vm2 _ ds _ _ _ gi1); rewrite ?HI2, ?Epm2;
      change (pmem s1') with (pmem s1); try done; try apply Hr2; cbn; try lia; try (split; [lia|done]). }
  intros rd s3 (Hrd0 & n3 & G3 & R3 & Hn3 & Hf3 & Hi3 & Hlk3 & _ & HV3 & HR3 & _ & HS3 & Hnew3 & Est3 & Esz3 & Eal3 & _).
  cbn [vg_regions vg_maps app] in HV3. rewrite HV2, insert_insert_eq in HV3.
  assert (early s3 (2 ^ 40 + 2 ^ 36)) as Her3.
  { eapply (early_step n3 s2 s3); [done|apply Hf3|lia|]. intros r Hr'. rewrite HS3. by apply is_Some_insert_kept. }
  wstep. wstep. set (s3' := set_kernel_data_vmem_region rd s3).
  assert (regions (Machine.vm s3') !! rd = Some R3) as HR3' by (cbn; by rewrite HS3, lookup_insert_eq).
  assert (vm_inv s3' G3) as Hi3'.
  { apply vm_inv_mem; [done|done|done|]. split; [apply (vi_alloc _ _ Hi3)|done]. }
  assert (early s3' (2 ^ 40 + 2 ^ 36)) as Her3'.
  { destruct Her3 as [A B C]. split; [done| |done]. unfold kernel_data_region_ok. apply orb_true_iff. right.
    apply bool_decide_eq_true. eexists. exact HR3'. }
  pose proof (early_avail _ _ Her3') as Ha3. pose proof (er_top _ _ Her3') as Ht3.
  assert (0 <= seg_size (p_kernel_data (platform (mem s3'))) <= 2 ^ 41) as Hsz3.
  { pose proof (gr_size _ _ _ (vf_grown _ _ _ Hf1)) as Hk1. pose proof (gr_size _ _ _ (vf_grown _ _ _ Hf2)) as Hk2.
    pose proof (gr_size _ _ _ (vf_grown _ _ _ Hf3)) as Hk3. unfold kdata_size in Hk1, Hk2, Hk3. fold p ds in Hk1. rewrite Eds2 in Hk3.
    change (p_kernel_data (platform (mem s1'))) with (p_kernel_data (platform (mem s1))) in Hk2.
    rewrite (gr_start _ _ _ (vf_grown _ _ _ Hf1)) in Hk2. fold p ds in Hk2.
    change (heap_top (mem s1')) with (heap_top (mem s1)) in Ht1. change (heap_top (mem s3')) with (heap_top (mem s3)) in Ht3.
    change (p_kernel_data (platform (mem s3'))) with (p_kernel_data (platform (mem s3))).
    specialize (Hk1 ltac:(lia)). specialize (Hk2 ltac:(lia)). specialize (Hk3 ltac:(lia)). lia. }
  assert (addr_start (p_kernel_data (platform (mem s3'))) = ds) as Eds3.
  { change (platform (mem s3')) with (platform (mem s3)). by rewrite (gr_start _ _ _ (vf_grown _ _ _ Hf3)). }
  wstep. wstep. rewrite Eds3. destruct (data_bytes_bound _ Hsz3) as [Hdsm Hdsb].
  set (dsz := ALIGN_NEXT (seg_size (p_kernel_data (platform (mem s3'))) ⊞ KERNEL_MEMORY_PAGE_RESERVE) SYSTEM_PAGE_SIZE) in *. assert (0 < dsz / 4096 <= 2 ^ 30) as Hdk by (pose proof (Z.div_mod dsz 4096); lia).
  eapply wpx_call.
  { eapply (map_identity_spec s3' G3 kv (mk_vg [rc; rd] ms) rd R3 ds dsz); try done; unfold notify_cost; try lia.
    - by rewrite HV3, lookup_insert_eq.
    - by rewrite HR3, lookup_insert_eq.
    - intros m Hm. apply region_maps_vaddr in Hm as [Hm _]. rewrite frames_length in Hm. unfold in_pages.
      pose proof (Z.div_mod cb 4096). lia. }
  intros va s4 (-> & n4 & G4 & R4 & Hn4 & Hf4 & Hi4 & Hlk4 & HV4 & HR4 & HI4 & HS4 & Est4 & Esz4 & Epm4). nonnull ds. wstep.
  split; [done|]. exists G4, rc, rd, dsz. unfold vg_add in HV4. cbn [vg_regions vg_maps] in HV4.
  split; try done.
  - by rewrite HV4, HV3, insert_insert_eq.
  - split; [done|]. split; [by rewrite (gr_data _ _ _ (vf_grown _ _ _ Hf4))|]. exists R4. by rewrite HS4, lookup_insert_eq.
  - rewrite (vf_kernel _ _ _ Hf4). cbn. by rewrite (vf_kernel _ _ _ Hf3).
  - rewrite (gr_init _ _ _ (vf_grown _ _ _ Hf4)). apply Her3'.
  - rewrite (vf_cr3 _ _ _ Hf4). change (paging s3') with (paging s3). rewrite (vf_cr3 _ _ _ Hf3), (vf_cr3 _ _ _ Hf2). apply Hf1.
  - rewrite (vf_sched _ _ _ Hf4), (vf_boot _ _ _ Hf4). change (sched s3') with (sched s3). change (boot s3') with (boot s3).
    rewrite (vf_sched _ _ _ Hf3), (vf_sched _ _ _ Hf2), (vf_boot _ _ _ Hf3), (vf_boot _ _ _ Hf2). split; apply Hf1.
Qed.
End kernel_regions.

(** * Theorem *)

(** The translation of a region of consecutive pages mapped to themselves. *)
Lemma identity_lookup r base k va :
  base mod 4096 = 0 -> in_pages base (Z.of_nat k) va -> lookup_map (region_maps r base (frames base k)) va = Some va.
Proof.
  intros Hb. assert (forall b, b mod 4096 = 0 -> in_pages b (Z.of_nat k) va -> lookup_map (region_maps r b (frames b k)) va = Some va); [|auto].
  clear Hb base. induction k as [|k IH]; intros b Hb Hin; unfold in_pages in *; [lia|]. cbn [frames region_maps lookup_map map_virtual_addr map_physical_addr].
  pose proof (Z.div_mod va 4096) as Hd. pose proof (Z.mod_pos_bound va 4096) as Hm. pose proof (Z.div_mod b 4096) as Hbd.
  destruct (Z.eqb_spec b (va / 4096 * 4096)) as [E|E]; [f_equal; lia|]. apply IH; [rewrite Z.add_mod, Hb by lia; done|lia].
Qed.

Lemma switch_spec s v vm pt :
  vmems (Machine.vm s) !! v = Some vm -> npts (paging s) !! native_vmem vm = Some pt ->
  x86_vmem_switch v s = Ret tt (set_cr3 (npt_entries pt) s).
Proof.
  intros Hv Hp. unfold x86_vmem_switch, get_current_page_entries.
  rewrite (bind_Ret _ _ s vm s) by (unfold load; cbn; by rewrite Hv).
  rewrite (bind_Ret _ _ s (cr3 (paging s)) s) by done.
  rewrite (bind_Ret _ _ s pt s) by (unfold load; cbn; by rewrite Hp).
  destruct (Z.eqb_spec (cr3 (paging s)) (npt_entries pt)) as [<-|]; cbn [negb]; [|done]. by rewrite set_cr3_id.
Qed.

Section theorem.
Context `{K : Kalloc} `{!GoodAlloc K} `{Y : Layout}.

(** C7: [memory_allocator_initialize] maps the image and the data of the kernel to
    themselves in the kernel area, and nothing else there.  When it succeeds the
    processor has been switched to this area and the data announced so far is
    mapped: the kernel keeps running where it is.  When it fails the processor
    keeps the address space it had. *)
Theorem kernel_identity_mapped s G kv :
  let p := platform (mem s) in
  vm_started s G kv -> kernel_layout p ->
  exists ok s' dsz, memory_allocator_initialize s = Ret ok s' /\ dsz mod 4096 = 0 /\ 40960 <= dsz /\
    (forall va, 0 <= va < 2 ^ 48 -> translate s' kv va =
       if ((addr_start (p_kernel p) <=? va) && (va <? addr_start (p_kernel p) + code_bytes p)) ||
          ((addr_start (p_kernel_data p) <=? va) && (va <? addr_start (p_kernel_data p) + dsz))
       then Some va else None) /\
    mem_allocator_initialised (mem s') = ok /\
    (if ok
     then seg_size (p_kernel_data (platform (mem s'))) <= dsz /\
       forall va, walk (ram (mem s')) 4 (cr3 (paging s')) va = translate s' kv va
     else cr3 (paging s') = cr3 (paging s)).
Proof.
  intros p Hst Hlay. destruct (wp_inv _ _ _ (map_kernel_memory_spec s G kv Hst Hlay)) as (ok & s1 & E & -> & G1 & rc & rd & dsz & Hm).
  fold p in Hm. destruct Hm as [Hi Hlk HV (Hrd0 & Erd & R & HR & Esz) [Hdm Hdb] Hk Hin Hc _].
  destruct (code_bytes_bound p Hlay) as (Hcm & Hcb & Hap). destruct Hlay as [[Hs Hsm] _ [Hdsm Hdsb] _ _].
  set (ks := addr_start (p_kernel p)) in *. set (ds := addr_start (p_kernel_data p)) in *. set (cb := code_bytes p) in *.
  match type of HV with _ = <[kv := ?g]> _ => assert (gV G1 !! kv = Some g) as Hkg by (by rewrite HV, lookup_insert_eq) end.
  assert (forall va, 0 <= va < 2 ^ 48 -> translate s1 kv va =
    if ((ks <=? va) && (va <? ks + cb)) || ((ds <=? va) && (va <? ds + dsz)) then Some va else None) as Htr.
  { intros va Hva. rewrite (translate_lookup _ _ _ _ _ Hi Hkg Hva). cbn [vg_maps]. rewrite lookup_map_app_many.
    pose proof (Z.div_mod cb 4096). pose proof (Z.div_mod dsz 4096).
    destruct (Z.leb_spec ks va), (Z.ltb_spec va (ks + cb)); cbn [andb orb];
      first [rewrite identity_lookup by (done || (unfold in_pages; lia)); done
            |rewrite region_maps_none by (done || (rewrite frames_length; unfold in_pages; lia))].
    all: destruct (Z.leb_spec ds va), (Z.ltb_spec va (ds + dsz)); cbn [andb];
      first [apply identity_lookup; (done || (unfold in_pages; lia))
            |apply region_maps_none; (done || (rewrite frames_length; unfold in_pages; lia))]. }
  destruct (vi_vmems _ _ Hi _ _ Hkg) as (vm & pt & Hr).
  unfold memory_allocator_initialize. rewrite (bind_Ret _ _ _ _ _ E). cbn [negb].
  rewrite (bind_Ret _ _ s1 rd s1) by (unfold gets; by rewrite Erd).
  rewrite (bind_Ret _ _ s1 dsz s1).
  2: { unfold vmem_region_current_size. rewrite (proj2 (isnull_false rd) Hrd0).
       rewrite (bind_Ret _ _ s1 R s1) by (unfold load; cbn; by rewrite HR). by rewrite <- Esz. }
  rewrite (bind_Ret _ _ s1 (platform (mem s1)) s1) by done.
  destruct (Z.ltb_spec dsz (seg_size (p_kernel_data (platform (mem s1))))) as [Hlt|Hle].
  - exists false, s1, dsz. split_and!; try done; lia.
  - rewrite (bind_Ret _ _ s1 tt (set_mem_allocator_initialised true s1)) by done. set (s2 := set_mem_allocator_initialised true s1).
    rewrite (bind_Ret _ _ s2 kv s2) by (unfold vmem_get_kernel, gets; cbn; by rewrite Hk).
    rewrite (bind_Ret _ _ s2 tt (set_cr3 (npt_entries pt) s2)).
    2: { apply (switch_spec s2 kv vm pt); [exact (vr_vm _ _ _ _ _ _ Hr)|exact (vr_pt _ _ _ _ _ _ Hr)]. }
    exists true, (set_cr3 (npt_entries pt) s2), dsz. split; [done|]. split; [done|]. split; [lia|]. split; [exact Htr|].
    split; [done|]. split; [exact Hle|]. intros va. unfold translate. cbn [Machine.vm paging set_cr3 set_paging npts cr3 mem].
    change (Machine.vm s2) with (Machine.vm s1). change (paging s2) with (paging s1).
    by rewrite (vr_vm _ _ _ _ _ _ Hr), (vr_pt _ _ _ _ _ _ Hr).
Qed.
End theorem.

Lemma kernel_identity_mapped_witness :
  let kv := kernel_vmem (Machine.vm s_vm) in
  exists ok s', memory_allocator_initialize (H := bump_alloc) (H0 := layout_example) s_vm = Ret ok s' /\
    translate s' kv 1048581 = Some 1048581 /\ translate s' kv 1576960 = Some 1576960 /\ translate s' kv 4096 = None.
Proof.
  intros kv. destruct s_vm_booted as (G & vm & gi & [Hi Hlk Hk Hv0 _ Hpm Ha Ht] & HV & HI & Hgi & Hvm & Hnx). fold kv in HV.
  destruct (kernel_identity_mapped (K := bump_alloc) (Y := layout_example) s_vm G kv) as (ok & s' & dsz & E & _ & Hd & Htr & _).
  - split.
    + exact Hi.
    + exact Hlk.
    + reflexivity.
    + rewrite HV. apply lookup_singleton_eq.
    + exists gi. split; [exact HI|rewrite Hgi; lia].
    + rewrite Hpm. split; [exact s_pages_ok|cbn; lia].
    + split; [vm_compute; reflexivity|vm_compute; reflexivity|exact Ht].
  - split; vm_compute; repeat split; congruence.
  - exists ok, s'. split; [exact E|]. change (code_bytes (platform (mem s_vm))) with 524288 in Htr.
    change (addr_start (p_kernel (platform (mem s_vm)))) with 1048576 in Htr.
    change (addr_start (p_kernel_data (platform (mem s_vm)))) with 1576960 in Htr.
    split; [rewrite Htr by lia; reflexivity|]. split.
    + rewrite Htr by lia. assert ((1576960 <? 1576960 + dsz) = true) as -> by (apply Z.ltb_lt; lia). reflexivity.
    + rewrite Htr by lia. reflexivity.
Defined.
