(* ===== verification/KernelInv.v ===== *)
(** Virtual memory and tasks together: the services share the lists and the id
    mappers of the kernel, and [kernel_inv] says that both invariants hold of
    them at once.  Steps of one service keep the invariant of the other. *)
From S2P Require Import Prelude Machine Logic LinkedList ListRefinement IdMapper Pmem NativeVmem PageTable NativePaging Vmem Region VmInv VmemSpec RegionSpec VmStep VmCreate VirtualMemory Scheduler NativeTask Task Interrupts KernelMemory.

(** The mappers of the kernel are three. *)
Lemma vmem_mappers_apart `{Layout} : a_vmem_id_mapper <> a_vmem_region_mapper.
Proof. pose proof layout_mappers as Hnd. inversion Hnd as [|? ? Hni _]. intros Eq. apply Hni. rewrite Eq. apply list_elem_of_here. Qed.

Lemma task_mapper_apart `{Layout} : a_vmem_region_mapper <> a_task_id_mapper /\ a_vmem_id_mapper <> a_task_id_mapper.
Proof.
  pose proof layout_mappers as Hnd. apply NoDup_cons in Hnd as [H1 Hnd]. apply NoDup_cons in Hnd as [H2 _].
  split; intros E; [apply H2|apply H1]; rewrite E; [apply list_elem_of_here|apply list_elem_of_further, list_elem_of_here].
Qed.

Section kernel.
Context `{Y : Layout}.

(** [G]: the ghost state of virtual memory; [q]: the queue of ready tasks; [g]:
    the registry of tasks. *)
Record kernel_inv (s : kstate) (G : ghost) (q : list Z) (g : idm) : Prop := {
  ki_vm : vm_inv s G;
  ki_linked : linked G;
  ki_tasks : tasks_inv s (gL G) q (gI G) g;
  ki_queue : gRo G !! scheduled_tasks (sched s) = Some ROther }.

(** A step of virtual memory. *)
Lemma kernel_inv_vm n s s' G G' q g :
  kernel_inv s G q g -> vm_frame n s s' -> vm_inv s' G' -> linked G' -> others_kept G G' ->
  gI G' !! a_task_id_mapper = gI G !! a_task_id_mapper -> kernel_inv s' G' q g.
Proof.
  intros [Hi Hlk [Hsi Hii Hm Hap Hbe Hnx Hreg] Hq] [Hg Es _ _ _ _] Hi' Hlk' Ho HI.
  destruct (Ho _ Hq) as [Hq' EL]. split; [done|done| |by rewrite Es]. split.
  - apply (sched_inv_frame s s' (gL G)); [done|done|apply Hi'|apply Hi'|done].
  - apply Hi'.
  - by rewrite HI.
  - intros p h Hp. rewrite Es. intros E. apply (vi_mappers _ _ Hi') in Hp. rewrite E in Hp. congruence.
  - eapply below_grown; [exact Hg| |exact Hbe]. cbn. by rewrite Es.
  - done.
  - rewrite Es. exact Hreg.
Qed.

(** A step of the task services, which leaves the lists of virtual memory alone. *)
Lemma kernel_inv_task n s s' G q g L' q' I' g' :
  kernel_inv s G q g -> task_frame n s s' -> heap_top (mem s') <= 2 ^ 48 ->
  tasks_inv s' L' q' I' g' -> scheduled_tasks (sched s') = scheduled_tasks (sched s) ->
  (forall p h, I' !! p = Some h -> exists h', gI G !! p = Some h' /\ g_list h = g_list h') ->
  (forall l, l <> g_list g -> l <> scheduled_tasks (sched s) -> L' !! l = gL G !! l) ->
  g_list g' = g_list g ->
  let G' := mk_ghost L' (gRo G) (gT G) (gP G) I' (gV G) (gR G) in kernel_inv s' G' q' g'.
Proof.
  intros [Hi Hlk [Hsi Hii Hm Hap Hbe Hnx Hreg] Hq] [Hqu Ev Ep _ _] Htop Ht' Eq HI HL Eg G'.
  pose proof (vi_mappers _ _ Hi _ _ Hm) as Hrm.
  assert (is_Some (L' !! g_list g) /\ is_Some (L' !! scheduled_tasks (sched s))) as [Hs1 Hs2].
  { split.
    - destruct (ir_list _ _ _ _ (ii_repr _ _ _ (ti_ids _ _ _ _ _ Ht') _ _ (ti_mapper _ _ _ _ _ Ht'))) as (ns & Hns & _).
      rewrite <- Eg. eauto.
    - destruct (si_queue _ _ _ (ti_sched _ _ _ _ _ Ht')) as (ns & Hns & _). rewrite <- Eq. eauto. }
  assert (forall l, is_Some (gL G !! l) -> is_Some (L' !! l)) as HLL.
  { intros l Hl. destruct (decide (l = g_list g)) as [->|H1]; [done|].
    destruct (decide (l = scheduled_tasks (sched s))) as [->|H2]; [done|]. by rewrite HL. }
  split; [|by destruct Hlk; split|done|cbn; by rewrite Eq].
  apply (vm_inv_quiet n s s' G); try done; rewrite ?Ev, ?Ep; try done.
  - apply (si_lists _ _ _ (ti_sched _ _ _ _ _ Ht')).
  - apply Ht'.
  - intros l ro Hro. apply HLL. by eapply (vi_roles _ _ Hi).
  - intros p h Hp. destruct (HI _ _ Hp) as (h' & Hh' & E). rewrite E. by apply (vi_mappers _ _ Hi).
  - intros l ro Hro Hown. apply HL; intros ->; [rewrite Hrm in Hro|rewrite Hq in Hro]; injection Hro as <-; done.
  - intros v vm _ Hv. exists vm. split; [exact Hv|apply same_area_refl].
  - eapply below_grown; [apply Hqu| |apply Hi]. cbn. by rewrite Ev.
  - eapply below_grown; [apply Hqu| |apply Hi]. cbn. by rewrite Ev.
Qed.
End kernel.

(** * The task services on both invariants *)
Section tasks.
Context `{K : Kalloc} `{!GoodAlloc K} `{Y : Layout}.

Lemma task_create_kernel s G q g name v :
  kernel_inv s G q g -> 88 <= avail s -> g_next g + 1 < 2 ^ 63 -> heap_top (mem s) + 88 <= 2 ^ 48 ->
  wp (task_create name v) (fun t s' => t <> 0 /\ task_frame 88 s s' /\
    sched s' = mk_sched (<[t := mk_task (g_next g) name false 1 0 TASK_STATUS_CREATED 0 v]> (tasks (sched s)))
      (ntasks (sched s)) (current_task (sched s)) (scheduled_tasks (sched s)) /\ tasks (sched s) !! t = None /\
    exists G', kernel_inv s' G' q (with_entry g t) /\ gV G' = gV G /\ gR G' = gR G /\ others_kept G G' /\
      forall p, p <> a_task_id_mapper -> gI G' !! p = gI G !! p) s.
Proof.
  intros Hk Ha Hnx Htop. pose proof (ki_tasks _ _ _ _ Hk) as Ht. pose proof (ki_vm _ _ _ _ Hk) as Hi.
  eapply wp_mono; [by apply (task_create_spec s (gL G) q (gI G) g name v)|].
  intros t s' (-> & Ht0 & Hf & Es & L' & Ht' & HL). split; [done|]. split; [done|]. split; [done|].
  split; [exact (below_top_fresh _ (ti_below _ _ _ _ _ Ht))|].
  pose proof (gr_top _ _ _ (q_grown _ _ _ (tf_quiet _ _ _ Hf))) as Et.
  exists (mk_ghost L' (gRo G) (gT G) (gP G) (<[a_task_id_mapper := with_entry g (heap_top (mem s))]> (gI G)) (gV G) (gR G)).
  split_and!; try done.
  - apply (kernel_inv_task 88 s s' G q g); try done; [lia|by rewrite Es| |auto].
    intros p h [[<- <-]|[_ Hh]]%lookup_insert_Some; [exists g; split; [apply Ht|done]|by exists h].
  - intros l Hl. cbn. split; [done|]. apply HL. intros ->. pose proof (vi_mappers _ _ Hi _ _ (ti_mapper _ _ _ _ _ Ht)). congruence.
  - intros p Hp. cbn. by rewrite lookup_insert_ne.
Qed.

(** The native half of [task_run]: registers, then the queue. *)
Lemma start_task_kernel s G q g t x code stack :
  kernel_inv s G q g -> tasks (sched s) !! t = Some x -> t <> 0 -> t_status x = TASK_STATUS_CREATED -> running_of s <> Some t ->
  184 <= avail s -> heap_top (mem s) + 184 <= 2 ^ 48 ->
  wp (ok ← x86_task_create t code stack (t_kernel x) (t_userdata x);
      if negb ok then mret false else scheduler_task_ready t;; mret true)
    (fun r s' => r = true /\ task_frame 184 s s' /\
      sched s' = mk_sched (<[t := set_t_status TASK_STATUS_READY (set_t_native_task (heap_top (mem s)) x)]> (tasks (sched s)))
        (<[heap_top (mem s) := initial_regs code stack (t_kernel x) (t_userdata x)]> (ntasks (sched s)))
        (current_task (sched s)) (scheduled_tasks (sched s)) /\
      exists G', kernel_inv s' G' (q ++ [t]) g /\ gV G' = gV G /\ gR G' = gR G /\ gI G' = gI G /\
        forall l, l <> scheduled_tasks (sched s) -> gL G' !! l = gL G !! l) s.
Proof.
  intros Hk Hx Ht0 Hst Hrun Ha Htop. pose proof (ki_tasks _ _ _ _ Hk) as Ht. pose proof (vi_alloc _ _ (ki_vm _ _ _ _ Hk)) as Hok.
  eapply wp_call; [apply (x86_task_create_spec s (gL G) q (gI G) g t x); [done|lia|done]|].
  intros ok s1 (-> & Hf1 & Es1 & Ht1). cbn [negb]. destruct (task_frame_avail _ _ _ Hok Hf1) as [Hok1 Ha1].
  set (a := heap_top (mem s)) in *. set (x1 := set_t_native_task a x) in *.
  assert (tasks (sched s1) !! t = Some x1) as Hx1 by (rewrite Es1; cbn; apply lookup_insert_eq).
  assert (ready_in s1 t = false) as Hnr by (unfold ready_in; rewrite Hx1; unfold x1; cbn; rewrite Hst; done).
  assert (running_of s1 = running_of s) as Er1 by (unfold running_of; by rewrite Es1).
  eapply wp_call; [apply (task_ready_tasks_inv s1 (gL G) q (gI G) g t); [done|lia|done|by eexists|done|by rewrite Er1]|].
  intros ok s2 (-> & Hf2 & Es2 & L' & Ht2 & HL). wstep. split; [done|].
  pose proof (task_frame_trans _ _ _ _ _ Hf1 Hf2) as Hf. unfold with_status in Es2. rewrite Hx1 in Es2.
  assert (scheduled_tasks (sched s1) = scheduled_tasks (sched s)) as Eq1 by (by rewrite Es1).
  pose proof (gr_top _ _ _ (q_grown _ _ _ (tf_quiet _ _ _ Hf))) as Et.
  split; [exact Hf|]. split.
  - rewrite Es2. cbn [sched set_sched tasks ntasks current_task scheduled_tasks set_tasks]. rewrite Es1. cbn. by rewrite insert_insert_eq.
  - exists (mk_ghost L' (gRo G) (gT G) (gP G) (gI G) (gV G) (gR G)). split_and!; try done.
    + apply (kernel_inv_task (168 + 16) s s2 G q g); try done; [lia|rewrite Es2; exact Eq1| |].
      * intros p h Hp. by exists h.
      * intros l _ Hl. apply HL. by rewrite Eq1.
    + intros l Hl. cbn. apply HL. by rewrite Eq1.
Qed.

(** Memory [task_run] needs: ten pages of stack, registers and a queue node. *)
Definition run_cost : Z := region_cost 10 + 184.

(** A task was started in the area [v], with the stack pages [ps] at [base]. *)
Record task_started (n : Z) (s : kstate) (G : ghost) (q : list Z) (g : idm) (t : Z) (x : task_t) (code v : Z) (gv : vghost)
    (r base : Z) (ps : list Z) (s' : kstate) (G' : ghost) : Prop := {
  ts_inv : kernel_inv s' G' (q ++ [t]) g;
  ts_grown : grown n (mem s) (mem s');
  ts_V : gV G' = <[v := mk_vg (vg_regions gv ++ [r]) (vg_maps gv ++ region_maps r base ps)]> (gV G);
  ts_task : exists a, heap_top (mem s) <= a < heap_top (mem s') /\
    sched s' = mk_sched (<[t := set_t_status TASK_STATUS_READY (set_t_native_task a x)]> (tasks (sched s)))
      (<[a := initial_regs code (base + 40952) (t_kernel x) (t_userdata x)]> (ntasks (sched s)))
      (current_task (sched s)) (scheduled_tasks (sched s));
  ts_kernel : kernel_vmem (Machine.vm s') = kernel_vmem (Machine.vm s);
  ts_ids : is_Some (gI G' !! a_vmem_region_mapper) /\ forall p, p <> a_vmem_region_mapper -> gI G' !! p = gI G !! p;
  ts_stack : Z.of_nat (length ps) = 10 /\ taken (pmem s) ps (pmem s') }.

Lemma task_run_spec s G q g t x code v gv vm gi :
  kernel_inv s G q g -> tasks (sched s) !! t = Some x -> t <> 0 -> t_status x = TASK_STATUS_CREATED -> running_of s <> Some t ->
  memory_handler_of x = v -> gV G !! v = Some gv -> vmems (Machine.vm s) !! v = Some vm ->
  gI G !! a_vmem_region_mapper = Some gi -> 0 < g_next gi < 2 ^ 64 - 1 -> Z.of_nat (length (vg_regions gv)) < 2 ^ 31 ->
  pmem_ok (pmem s) -> total_memory (pmem s) <= 2 ^ 48 ->
  let base := next_start_address vm in
  page_ok base -> 0 < base -> base + 40960 <= 2 ^ 48 ->
  (forall i, 0 <= i < 10 -> base + 4096 * i ∉ map_virtual_addr <$> vg_maps gv) ->
  run_cost <= avail s -> heap_top (mem s) + run_cost <= 2 ^ 48 ->
  wp (task_run t code) (fun r s' =>
    (r = true /\ exists n rg ps G', n <= run_cost /\ task_started n s G q g t x code v gv rg base ps s' G') \/
    (r = false /\ forall q, first_user_page <= q -> page_at (pmem s') q <> Some PAGE_TYPE_FREE)) s.
Proof.
  intros Hk Hx Ht0 Hst Hrun Emh Hv Hvm HI Hnext Hlen Hpm Htot base Hb Hb0 Hend Hfree Ha Htop. unfold run_cost in *.
  pose proof (ki_vm _ _ _ _ Hk) as Hi. unfold task_run. nonnull t. wstep. eapply wpx_load; [exact Hx|].
  rewrite Hst, bool_decide_eq_true_2 by done. cbn [negb]. rewrite Emh. change TASK_DEFAULT_STACK_SIZE with 40960.
  eapply wpx_call.
  { eapply (vmem_region_create_spec s G v gv vm _ 0 40960 true true true gi); try done; try apply Hk; try lia;
      change ((40960 + 4095) / 4096) with 10; change (create_base vm 0) with base; try done; lia. }
  change ((40960 + 4095) / 4096) with 10. change (create_base vm 0) with base.
  pose proof (heap_top_pos _ (vi_alloc _ _ Hi)) as Hpos.
  intros r s1 [(-> & n & G1 & R & ps & Hn & Hps & Hrc)|(-> & _ & Hno)].
  2: { isnullp 0. wstep. right. done. }
  nonnull (heap_top (mem s)). destruct Hrc as [Hf1 Hi1 Hlk1 _ HV1 HR1 HS1 [Est Esz] HIo Hid1 Htk Hot].
  wstep. eapply wpx_load; [cbn; rewrite HS1; apply lookup_insert_eq|]. wstep.
  assert (tasks (sched s1) !! t = Some x) as Hx1 by (by rewrite (vf_sched _ _ _ Hf1)). eapply wpx_load; [exact Hx1|].
  rewrite Est, Esz. rewrite (u64_small (base + 40960)), (u64_small (base + 40960 - 8)) by lia.
  replace (base + 40960 - 8) with (base + 40952) by lia.
  pose proof (not_eq_sym (proj1 task_mapper_apart)) as Hne.
  pose proof (kernel_inv_vm n s s1 G G1 q g Hk Hf1 Hi1 Hlk1 Hot (HIo _ Hne)) as Hk1.
  pose proof (gr_top _ _ _ (vf_grown _ _ _ Hf1)) as Et1. pose proof (gr_pos _ _ _ (vf_grown _ _ _ Hf1)) as Hn0.
  assert (avail s - n <= avail s1) as Ha1.
  { eapply (avail_regions_kept n s); [apply Hi|lia|apply Hf1|]. intros p R' HR'. exists R'. split; [|lia].
    rewrite HS1, lookup_insert_ne; [done|]. intros <-. pose proof (vi_below_r _ _ Hi _ _ HR'). lia. }
  cbn [native_task_create x86_native_task]. eapply wpx_mono; [apply (start_task_kernel s1 G1 q g t x); try done; try lia|cbv beta|done].
  { unfold running_of in *. by rewrite (vf_sched _ _ _ Hf1). }
  intros r s2 (-> & Hf2 & Es2 & G2 & Hk2 & HV2 & _ & HI2 & _). left. split; [done|].
  exists (n + 184), (heap_top (mem s)), ps, G2. split; [lia|]. split.
  - exact Hk2.
  - eapply grown_trans; [apply Hf1|apply q_grown, tf_quiet, Hf2].
  - by rewrite HV2, HV1.
  - exists (heap_top (mem s1)). pose proof (gr_top _ _ _ (q_grown _ _ _ (tf_quiet _ _ _ Hf2))). split; [lia|].
    by rewrite Es2, (vf_sched _ _ _ Hf1).
  - by rewrite (tf_vm _ _ _ Hf2), (vf_kernel _ _ _ Hf1).
  - rewrite HI2. split; [|done]. destruct (Hid1 _ HI) as [_ ->]. by eexists.
  - split; [done|]. by rewrite (tf_pmem _ _ _ Hf2).
Qed.
End tasks.

(** * The invariant is established *)
Section start.
Context `{K : Kalloc} `{!GoodAlloc K} `{Y : Layout}.

(** An idle scheduler with the empty queue [l]. *)
Lemma idle_tasks_inv s G l g :
  vm_inv s G -> tasks (sched s) = ∅ -> current_task (sched s) = 0 -> scheduled_tasks (sched s) = l ->
  gRo G !! l = Some ROther -> gL G !! l = Some [] -> gI G !! a_task_id_mapper = Some g -> g_next g = 1 -> g_entries g = [] ->
  tasks_inv s (gL G) [] (gI G) g.
Proof.
  intros Hi Et Ec El Hro HL Hg Hn He. assert (forall t, ready_in s t = false) as Hnr by (intros t; unfold ready_in; by rewrite Et).
  assert (running_of s = None) as Hrun by (unfold running_of; by rewrite Ec). split.
  - split; try apply Hi.
    + exists []. by rewrite El.
    + constructor.
    + by intros t ?%elem_of_nil.
    + intros c. by rewrite Hrun.
    + intros t. by rewrite Hnr.
  - apply Hi.
  - exact Hg.
  - intros p h Hp. rewrite El. intros <-. apply (vi_mappers _ _ Hi) in Hp. congruence.
  - intros t x. change (heap s) with (tasks (sched s)). by rewrite Et.
  - lia.
  - intros id t. rewrite He. by intros ?%elem_of_nil.
Qed.

Lemma scheduler_list_spec s L :
  lists_inv s L -> alloc_ok (mem s) -> 16 <= avail s ->
  wp scheduler_initialise (fun _ s' => exists s1, s' = set_scheduled_tasks (heap_top (mem s)) s1 /\ L !! heap_top (mem s) = None /\
    only_lists 16 s s1 /\ lists_inv s1 (<[heap_top (mem s) := []]> L)) s.
Proof.
  intros Hl Hok Ha. unfold scheduler_initialise. eapply wp_call; [by apply (linkedlist_create_spec s L Hl Hok)|].
  intros l s1 (-> & HLn & Ho & HL). do 4 wstep. exists s1. done.
Qed.

Lemma services_start_spec s G :
  vm_inv s G -> linked G -> mapper_slot s G a_task_id_mapper -> a_task_id_mapper <> 0 ->
  tasks (sched s) = ∅ -> current_task (sched s) = 0 -> 32 <= avail s -> heap_top (mem s) + 32 <= 2 ^ 48 ->
  wp (scheduler_initialise;; task_service_initialize) (fun ok s' => ok = true /\ exists G' g, kernel_inv s' G' [] g /\
    g_next g = 1 /\ gV G' = gV G /\ gR G' = gR G /\ (forall p, p <> a_task_id_mapper -> gI G' !! p = gI G !! p) /\
    Machine.vm s' = Machine.vm s /\ pmem s' = pmem s /\ tasks (sched s') = ∅ /\ current_task (sched s') = 0 /\
    grown 32 (mem s) (mem s') /\ avail s - 32 <= avail s') s.
Proof.
  intros Hi Hlk [Hslot Hnone] Hm0 Et Ec Ha Htop. pose proof (vi_alloc _ _ Hi) as Hok.
  eapply wp_call; [apply (scheduler_list_spec s (gL G) (vi_lists _ _ Hi) Hok); lia|].
  intros ? s1' (s1 & -> & Hl & Ho1 & HL1). set (l := heap_top (mem s)) in *.
  destruct (only_lists_avail _ _ _ Hok Ho1) as [_ Ha1]. pose proof (q_grown _ _ _ (only_lists_quiet _ _ _ Ho1)) as Hg1.
  pose proof (gr_top _ _ _ Hg1) as Et1. fold l in Et1.
  assert (vm_inv s1 (with_list l ROther [] G)) as Hi1 by (apply (vm_inv_new_list 16 s); try done; lia).
  set (s2 := set_scheduled_tasks l s1). assert (vm_inv s2 (with_list l ROther [] G)) as Hi2 by (by apply (vm_inv_ext s1)).
  assert (linked (with_list l ROther [] G)) as Hlk2 by (destruct Hlk; by split).
  assert (ids s2 = ids s /\ sched s1 = sched s /\ Machine.vm s2 = Machine.vm s /\ pmem s2 = pmem s) as (Ei & Es & Ev & Ep)
    by (by destruct Ho1 as (? & ? & ? & -> & _)).
  unfold task_service_initialize.
  eapply wpx_call; [apply (new_mapper_spec s2 (with_list l ROther [] G) a_task_id_mapper Hi2 Hlk2)|].
  { split; [by rewrite Ei|done]. }
  { change (avail s2) with (avail s1). lia. }
  { change (mem s2) with (mem s1). lia. }
  intros r s3 (-> & l3 & Hl3 & Hi3 & Hlk3 & Ho3). rewrite (proj2 (isnull_false _) Hm0). wstep. split; [done|].
  destruct (only_ids_avail _ _ _ (vi_alloc _ _ Hi2) Ho3) as [_ Ha3]. change (avail s2) with (avail s1) in Ha3.
  assert (sched s3 = sched s2 /\ Machine.vm s3 = Machine.vm s2 /\ pmem s3 = pmem s2) as (Es3 & Ev3 & Ep3) by (by destruct Ho3 as (? & ? & ? & -> & _)).
  set (G3 := with_mapper a_task_id_mapper l3 (with_list l ROther [] G)) in *.
  assert (tasks (sched s3) = ∅ /\ current_task (sched s3) = 0 /\ scheduled_tasks (sched s3) = l) as (Et3 & Ec3 & El3).
  { rewrite Es3. cbn. by rewrite Es. }
  assert (l3 <> l) as Hll by (intros ->; cbn in Hl3; by rewrite lookup_insert_eq in Hl3).
  exists G3, (mk_gidm l3 1 []). split.
  { split; [exact Hi3|exact Hlk3| |].
    - apply (idle_tasks_inv s3 G3 l); try done; [cbn; rewrite lookup_insert_ne by done; apply lookup_insert_eq|cbn; rewrite lookup_insert_ne by done; apply lookup_insert_eq|apply lookup_insert_eq].
    - rewrite El3. cbn. rewrite lookup_insert_ne by done. apply lookup_insert_eq. }
  split_and!; try done; try congruence.
  - intros p Hp. cbn. by rewrite lookup_insert_ne.
  - change 32 with (16 + 16). eapply grown_trans; [exact Hg1|]. exact (q_grown _ _ _ (only_ids_quiet _ _ _ Ho3)).
  - lia.
Qed.
End start.

(** * Starting a task *)
Section run.
Context `{K : Kalloc} `{!GoodAlloc K} `{Y : Layout}.

(** The task [t], in the area [v], can be started: it is new, the next address of
    its area is free for the stack, and there is kernel memory. *)
Record startable (s : kstate) (G : ghost) (q : list Z) (g : idm) (t : Z) (x : task_t) (v : Z) (gv : vghost) (base : Z) : Prop := {
  sa_inv : kernel_inv s G q g;
  sa_task : t <> 0 /\ tasks (sched s) !! t = Some x /\ t_status x = TASK_STATUS_CREATED /\ running_of s <> Some t;
  sa_area : memory_handler_of x = v /\ gV G !! v = Some gv /\ Z.of_nat (length (vg_regions gv)) < 2 ^ 31;
  sa_base : exists vm, vmems (Machine.vm s) !! v = Some vm /\ next_start_address vm = base;
  sa_ids : exists gi, gI G !! a_vmem_region_mapper = Some gi /\ 0 < g_next gi < 2 ^ 64 - 1;
  sa_pmem : pmem_ok (pmem s) /\ total_memory (pmem s) <= 2 ^ 48;
  sa_page : page_ok base /\ 0 < base /\ base + 40960 <= 2 ^ 48;
  sa_free i : 0 <= i < 10 -> base + 4096 * i ∉ map_virtual_addr <$> vg_maps gv;
  sa_memory : run_cost <= avail s /\ heap_top (mem s) + run_cost <= 2 ^ 48 }.

End run.

(** The kernel area of [s_vm] with 15 free pages, and a task in it. *)
Definition pmem_k : pmem_t := mk_pmem 16399 67170304 (replicate (Z.to_nat 16384) 0 ++ replicate 15 0).
Definition s_k0 : kstate := set_pmem pmem_k s_vm.
Definition services_k : M bool := scheduler_initialise (H := bump_alloc);; task_service_initialize (H := bump_alloc) (H2 := layout_example).
Definition s_k1 : kstate := run services_k s_k0.
Definition create_k : M Z := task_create (H := bump_alloc) (H2 := layout_example) (Some "hello"%string) (kernel_vmem (Machine.vm s_vm)).
Definition s_k2 : kstate := run create_k s_k1.
Definition t_k : Z := default 0 (result create_k s_k1).
Definition run_k : M bool := task_run (H := bump_alloc) (H0 := x86_native_vmem (H := bump_alloc)) (H1 := x86_native_task (H := bump_alloc)) (H2 := layout_example) t_k 4194304.

Lemma pmem_k_ok : pmem_ok pmem_k.
Proof.
  split; [by vm_compute|by vm_compute|vm_compute; split; congruence|].
  cbn [pmem_k pages]. apply Forall_app. split; apply Forall_replicate; by left.
Qed.

Lemma run_k_result : result run_k s_k2 = Some true.
Proof. vm_compute. reflexivity. Qed.

Lemma set_pmem_inv s G pm : vm_inv s G -> let s' := set_pmem pm s in
  vm_inv s' G /\ pmem s' = pm /\ mem s' = mem s /\ Machine.vm s' = Machine.vm s /\ ids s' = ids s /\ sched s' = sched s /\ avail s' = avail s.
Proof. intros Hi s'. split; [by apply (vm_inv_ext s)|done]. Qed.

(** The state after [task_create] in [s_k1], from what its specification says. *)
Lemma s_k2_startable : exists G g x, startable (Y := layout_example) s_k2 G [] g t_k x (kernel_vmem (Machine.vm s_vm)) (mk_vg [] []) 1048576.
Proof.
  destruct s_vm_booted as (G & vm & gi & [Hi Hlk Hk Hv0 _ _ Ha Ht Htm] & HV & HI & Hgi & Hvm & Hnx).
  set (v := kernel_vmem (Machine.vm s_vm)) in *.
  destruct (set_pmem_inv s_vm G pmem_k Hi) as (Hi0 & Ep0 & Em0 & Ev0 & Ei0 & Es0 & Ea0). fold s_k0 in Hi0, Ep0, Em0, Ev0, Ei0, Es0, Ea0.
  assert (mapper_slot s_k0 G 1500064) as Hsl by (split; [rewrite Ei0; vm_compute; eexists; reflexivity|exact Htm]).
  assert (tasks (sched s_vm) = ∅ /\ current_task (sched s_vm) = 0) as [Ets Ecs] by (vm_compute; split; reflexivity).
  destruct (wp_run_at _ _ _ s_k1 eq_refl (services_start_spec (K := bump_alloc) (Y := layout_example) s_k0 G Hi0 Hlk Hsl ltac:(discriminate)
    ltac:(rewrite Es0; exact Ets) ltac:(rewrite Es0; exact Ecs) ltac:(rewrite Ea0; lia) ltac:(rewrite Em0; lia)))
    as (ok & _ & _ & G1 & g1 & Hk1 & Hn1 & HV1 & HR1 & HI1 & Ev1 & Ep1 & Et1 & Ec1 & Hg1 & Ha1).
  pose proof (gr_top _ _ _ Hg1) as Etop1. rewrite Em0 in Etop1. rewrite Ea0 in Ha1.
  destruct (wp_run_at _ _ _ s_k2 eq_refl (task_create_kernel (K := bump_alloc) (Y := layout_example) s_k1 G1 [] g1 (Some "hello"%string) v Hk1
    ltac:(lia) ltac:(lia) ltac:(lia))) as (t & E & Ht0 & Hf2 & Es2 & _ & G2 & Hk2 & HV2 & HR2 & _ & HI2).
  assert (t_k = t) as Etk by (unfold t_k, result; rewrite E; reflexivity).
  destruct (task_frame_avail _ _ _ (vi_alloc _ _ (ki_vm _ _ _ _ Hk1)) Hf2) as [_ Ha2].
  pose proof (gr_top _ _ _ (q_grown _ _ _ (tf_quiet _ _ _ Hf2))) as Etop2.
  assert (run_cost <= 2 ^ 30) as Hrc by (vm_compute; discriminate). assert (0 <= run_cost) as Hrc0 by (vm_compute; discriminate).
  exists G2, (with_entry g1 t), (mk_task (g_next g1) (Some "hello"%string) false 1 0 TASK_STATUS_CREATED 0 v). rewrite Etk. split.
  - exact Hk2.
  - split; [exact Ht0|]. split; [rewrite Es2; apply lookup_insert_eq|]. split; [reflexivity|]. unfold running_of. rewrite Es2. cbn. rewrite Ec1. discriminate.
  - split; [reflexivity|]. split; [rewrite HV2, HV1, HV; apply lookup_singleton_eq|cbn; lia].
  - exists vm. rewrite (tf_vm _ _ _ Hf2), Ev1, Ev0. split; [exact Hvm|exact Hnx].
  - exists gi. rewrite HI2, HI1 by discriminate. split; [exact HI|rewrite Hgi; lia].
  - rewrite (tf_pmem _ _ _ Hf2), Ep1, Ep0. split; [exact pmem_k_ok|cbn; lia].
  - split; [split; [lia|reflexivity]|]. lia.
  - intros i _. apply not_elem_of_nil.
  - lia.
Qed.

