(* ===== verification/System.v ===== *)
(** The running kernel: its services and the interrupts as steps of one system,
    and what holds after any sequence of them.

    A configuration is the state of the kernel with the areas that were made so
    far; the steps are calls of the services and the interrupts that arrive while a
    task runs or the processor sleeps.  Calls that fail because physical memory is
    used up, and the loading of a module (LoadModule.v), are not among the steps. *)
From S2P Require Import Prelude Machine Logic LinkedList ListRefinement IdMapper Pmem NativeVmem PageTable NativePaging Vmem Region VmInv VmemSpec RegionSpec VmStep VmCreate VirtualMemory Scheduler NativeTask Task Interrupts KernelMemory KernelInv.

(** * Switching and removing tasks, for the whole kernel *)
Section kernel.
Context `{K : Kalloc} `{!GoodAlloc K} `{Y : Layout}.

Lemma kernel_inv_ext s s' G q g :
  mem s' = mem s -> lists s' = lists s -> ids s' = ids s -> Machine.vm s' = Machine.vm s ->
  npts (paging s') = npts (paging s) -> sched s' = sched s -> kernel_inv s G q g -> kernel_inv s' G q g.
Proof.
  intros Em El Ei Ev En Es [Hi Hlk Ht Hq]. split; [by apply (vm_inv_ext s)|done|by apply (tasks_inv_ext s)|by rewrite Es].
Qed.

(** Registers are nobody's business but the tasks'. *)
Lemma kernel_inv_ntasks s G q g N : kernel_inv s G q g -> kernel_inv (set_ntasks N s) G q g.
Proof. intros [Hi Hlk Ht Hq]. split; [by apply (vm_inv_ext s)|done|by apply tasks_inv_ntasks|done]. Qed.

(** The mappers and the lists of virtual memory after a step of the task services. *)
Definition same_vm (G G' : ghost) : Prop :=
  gV G' = gV G /\ gR G' = gR G /\ forall p, p <> a_task_id_mapper -> gI G' !! p = gI G !! p.

Lemma switch_kernel s G q g :
  kernel_inv s G q g -> 16 <= avail s -> heap_top (mem s) + 16 <= 2 ^ 48 -> (forall t, t ∈ q -> runnable s t) ->
  wpx scheduler_switch_task (fun _ _ => False) (fun e s' => exists n G',
    let a := switch_abs (ready_in s) (abs_of s q) in
    n <= 16 /\ kernel_inv s' G' (queue a) g /\ same_vm G G' /\ running_of s' = running a /\
    exit_of s' (running a) e (cr3 (paging s')) /\ tasks (sched s') = tasks (sched s) /\ ntasks (sched s') = ntasks (sched s) /\
    grown n (mem s) (mem s') /\ Machine.vm s' = Machine.vm s /\ npts (paging s') = npts (paging s) /\ pmem s' = pmem s) s.
Proof.
  intros Hk Ha Htop Hrun. pose proof (ki_tasks _ _ _ _ Hk) as Ht.
  eapply wpx_mono; [eapply (scheduler_switch_task_spec s (gL G) q); [apply Ht|done|done]|done|].
  intros e s' (n & L' & Hn & Hsw & HL). pose proof (switched_tasks_inv _ _ _ _ _ _ _ _ _ Ht Hsw HL) as Ht'.
  destruct Hsw as [_ Hr Hex (Et & En & Eq) (c & s1 & -> & Ho)]. destruct (only_sched_task _ _ _ Ho) as [Hf _].
  pose proof (q_grown _ _ _ (tf_quiet _ _ _ Hf)) as Hg. pose proof (gr_top _ _ _ Hg).
  exists n, (mk_ghost L' (gRo G) (gT G) (gP G) (gI G) (gV G) (gR G)). cbv zeta. split; [done|]. split.
  { apply (kernel_inv_ext s1); try done. apply (kernel_inv_task n s s1 G q g); try done; [lia|by apply (tasks_inv_ext (set_cr3 c s1))| |auto].
    intros p h Hp. by exists h. }
  split; [done|]. split; [done|]. split.
  { rewrite <- Hr. destruct (running_of (set_cr3 c s1)) as [u|]; [|done]. destruct Hex as (x & regs & Hx & Hregs & -> & Hsp).
    exists x, regs. unfold regs_of in *. rewrite Et, En. split_and!; [done|done|done|].
    rewrite space_of_cr3. by rewrite (only_sched_spaces _ _ _ Ho). }
  split_and!; [done|done|done|apply Hf| |apply Hf]. cbn. by rewrite (tf_paging _ _ _ Hf).
Qed.

Lemma destroy_kernel s G q g t x :
  kernel_inv s G q g -> 16 <= avail s -> heap_top (mem s) <= 2 ^ 48 -> t <> 0 -> tasks (sched s) !! t = Some x ->
  wp (task_destroy t) (fun _ s' => exists G' g',
    let a := drop_task t (abs_of s q) in
    kernel_inv s' G' (queue a) g' /\ same_vm G G' /\ running_of s' = running a /\
    tasks (sched s') = <[t := set_t_status TASK_STATUS_NOT_READY x]> (tasks (sched s)) /\
    ntasks (sched s') = ntasks (sched s) /\ task_frame 0 s s') s.
Proof.
  intros Hk Ha Htop Ht0 Hx. pose proof (ki_tasks _ _ _ _ Hk) as Ht.
  eapply wp_mono; [by eapply (task_destroy_spec s (gL G) q (gI G) g t x)|].
  intros _ s' (_ & Hf & Et & En & Eq & Er & L' & Ht' & HL). unfold with_status in Et. rewrite Hx in Et. cbn in Et.
  pose proof (q_grown _ _ _ (tf_quiet _ _ _ Hf)) as Hg. pose proof (gr_top _ _ _ Hg).
  exists (mk_ghost L' (gRo G) (gT G) (gP G) (<[a_task_id_mapper := without_id g (task_id x)]> (gI G)) (gV G) (gR G)), (without_id g (task_id x)).
  cbv zeta. split.
  { apply (kernel_inv_task 0 s s' G q g); try done; [lia|].
    intros p h [[<- <-]|[_ Hh]]%lookup_insert_Some; [exists g; split; [apply Ht|done]|by exists h]. }
  split; [|done]. split; [done|]. split; [done|]. intros p Hp. cbn. by rewrite lookup_insert_ne.
Qed.
End kernel.

(** * What the tasks of the kernel have *)

(** Started tasks have registers of their own above the frame [fr], where the
    processor stores the registers of an interrupted task, and below [top]; the
    areas of all tasks are among [vs]; the running task was started. *)
Record tasks_fit (fr top : Z) (vs : list Z) (c : sched_t) : Prop := {
  tf_area t x : tasks c !! t = Some x -> memory_handler_of x ∈ vs;
  tf_started t x : tasks c !! t = Some x -> t_status x <> TASK_STATUS_CREATED ->
    is_Some (ntasks c !! native_task x) /\ fr < native_task x < top;
  tf_apart t u x y : t <> u -> tasks c !! t = Some x -> tasks c !! u = Some y ->
    t_status x <> TASK_STATUS_CREATED -> t_status y <> TASK_STATUS_CREATED -> native_task x <> native_task y;
  tf_running x : tasks c !! current_task c = Some x -> current_task c <> 0 -> t_status x <> TASK_STATUS_CREATED;
  tf_current : current_task c <> 0 -> is_Some (tasks c !! current_task c) }.

Lemma tasks_fit_mono fr top top' vs vs' c :
  tasks_fit fr top vs c -> top <= top' -> (forall v, v ∈ vs -> v ∈ vs') -> tasks_fit fr top' vs' c.
Proof.
  intros [A B C D E] Ht Hv. split; try done; [intros t x Hx; by eapply Hv, A|]. intros t x Hx Hs. destruct (B t x Hx Hs). split; [done|lia].
Qed.

(** A new task that was not started. *)
Lemma tasks_fit_create fr top vs c t x :
  tasks_fit fr top vs c -> tasks c !! t = None -> t_status x = TASK_STATUS_CREATED -> memory_handler_of x ∈ vs ->
  tasks_fit fr top vs (mk_sched (<[t := x]> (tasks c)) (ntasks c) (current_task c) (scheduled_tasks c)).
Proof.
  intros [A B C D E] Hf Hs Hv.
  assert (forall u y, <[t := x]> (tasks c) !! u = Some y -> t_status y <> TASK_STATUS_CREATED -> tasks c !! u = Some y) as Hold.
  { intros u y [[<- <-]|[_ Hy]]%lookup_insert_Some Hys; done. }
  split; cbn [tasks ntasks current_task].
  - intros u y [[<- <-]|[_ Hy]]%lookup_insert_Some; [done|by eapply A].
  - intros u y Hy Hys. eapply B; eauto.
  - intros u w y z Hne Hy Hz Hys Hzs. eapply C; eauto.
  - intros y Hy H0. destruct (E H0) as [w Hw]. rewrite lookup_insert_ne in Hy by congruence. eapply D; eauto.
  - intros H0. destruct (E H0) as [w Hw]. rewrite lookup_insert_ne by congruence. eauto.
Qed.

(** A task that is started with registers at the new address [a]. *)
Lemma tasks_fit_start fr top top' vs c t x a regs :
  tasks_fit fr top vs c -> tasks c !! t = Some x -> fr < top -> top <= a < top' ->
  tasks_fit fr top' vs (mk_sched (<[t := set_t_status TASK_STATUS_READY (set_t_native_task a x)]> (tasks c)) (<[a := regs]> (ntasks c))
    (current_task c) (scheduled_tasks c)).
Proof.
  intros [A B C D E] Hx Hfr Ha. split; cbn [tasks ntasks current_task].
  - intros u y [[<- <-]|[_ Hy]]%lookup_insert_Some; [by apply (A t x)|by eapply A].
  - intros u y [[<- <-]|[_ Hy]]%lookup_insert_Some Hys; [cbn; rewrite lookup_insert_eq; split; [by eexists|lia]|].
    destruct (B u y Hy Hys). rewrite lookup_insert_ne by lia. split; [done|lia].
  - intros u w y z Hne [[<- <-]|[_ Hy]]%lookup_insert_Some [[<- <-]|[_ Hz]]%lookup_insert_Some Hys Hzs; [done| | |by eapply (C u w)].
    + cbn. destruct (B w z Hz Hzs). lia.
    + cbn. destruct (B u y Hy Hys). lia.
  - intros y [[<- <-]|[_ Hy]]%lookup_insert_Some H0; [done|by eapply D].
  - intros H0. destruct (E H0) as [w Hw]. destruct (decide (t = current_task c)) as [<-|Hne].
    + rewrite lookup_insert_eq. by eexists.
    + rewrite lookup_insert_ne by done. by eexists.
Qed.

(** Registers are saved; nothing else changes. *)
Lemma tasks_fit_registers fr top vs c N :
  tasks_fit fr top vs c -> (forall p, is_Some (ntasks c !! p) -> is_Some (N !! p)) ->
  tasks_fit fr top vs (mk_sched (tasks c) N (current_task c) (scheduled_tasks c)).
Proof. intros [A B C D E] HN. split; try done. intros t x Hx Hs. destruct (B t x Hx Hs). split; [by apply HN|done]. Qed.

(** The next task runs. *)
Lemma tasks_fit_switch fr top vs c c' :
  tasks_fit fr top vs c -> tasks c' = tasks c -> ntasks c' = ntasks c ->
  (current_task c' <> 0 -> exists x, tasks c !! current_task c' = Some x /\ t_status x = TASK_STATUS_READY) ->
  tasks_fit fr top vs c'.
Proof.
  intros [A B C D E] Et En Hc. split; rewrite ?Et, ?En; try done.
  - intros x Hx H0. destruct (Hc H0) as (y & Hy & Es). assert (x = y) as -> by congruence. by rewrite Es.
  - intros H0. destruct (Hc H0) as (y & Hy & _). by eexists.
Qed.

(** The running task dies. *)
Lemma tasks_fit_destroy fr top vs c c' t x :
  tasks_fit fr top vs c -> tasks c !! t = Some x -> t_status x <> TASK_STATUS_CREATED ->
  tasks c' = <[t := set_t_status TASK_STATUS_NOT_READY x]> (tasks c) -> ntasks c' = ntasks c -> current_task c' = 0 -> tasks_fit fr top vs c'.
Proof.
  intros [A B C D E] Hx Hs Et En Ec.
  assert (forall u y, tasks c' !! u = Some y -> exists y0, tasks c !! u = Some y0 /\ native_task y = native_task y0 /\
    memory_handler_of y = memory_handler_of y0 /\ (t_status y <> TASK_STATUS_CREATED -> t_status y0 <> TASK_STATUS_CREATED)) as Hold.
  { intros u y. rewrite Et. intros [[<- <-]|[_ Hy]]%lookup_insert_Some; [by exists x|by exists y]. }
  split; rewrite ?En, ?Ec; try done.
  - intros u y (z & Hz & _ & -> & _)%Hold. by eapply A.
  - intros u y (z & Hz & -> & _ & Hzs)%Hold Hys. eapply B; eauto.
  - intros u w y z Hne (y0 & Hy0 & -> & _ & Hys0)%Hold (z0 & Hz0 & -> & _ & Hzs0)%Hold Hys Hzs. eapply (C u w); eauto.
Qed.

(** * The invariant of the system *)

Definition memory_for (n : Z) (s : kstate) : Prop := n <= avail s /\ heap_top (mem s) + n <= 2 ^ 48.

(** [fr]: the frame the processor stores registers in; [vs]: the areas made so far. *)
Record system_ok `{Layout} (fr : Z) (s : kstate) (vs : list Z) (G : ghost) (q : list Z) (g : idm) : Prop := {
  so_kernel : kernel_inv s G q g;
  so_mappers : is_Some (gI G !! a_vmem_region_mapper) /\ is_Some (gI G !! a_vmem_id_mapper);
  so_areas v : v ∈ vs -> is_Some (gV G !! v);
  so_kernel_area : kernel_vmem (Machine.vm s) ∈ vs;
  so_tasks : tasks_fit fr (heap_top (mem s)) vs (sched s);
  so_frame : fr < heap_top (mem s);
  so_pmem : pmem_ok (pmem s) /\ total_memory (pmem s) <= 2 ^ 48 }.

(** An interrupt: the processor stores the registers [r]. *)
Definition arrive (fr : Z) (r : native_task_t) (s : kstate) : kstate := set_ntasks (<[fr := r]> (ntasks (sched s))) s.

Section steps.
Context `{K : Kalloc} `{!GoodAlloc K} `{Y : Layout}.

(** Ready tasks can run. *)
Lemma system_runnable fr s vs G q g : system_ok fr s vs G q g -> forall t, t ∈ q -> runnable s t.
Proof.
  intros [Hk _ Hvs _ Hfit _ _] t Ht. destruct (si_ready _ _ _ (ti_sched _ _ _ _ _ (ki_tasks _ _ _ _ Hk)) t Ht) as [_ Hr].
  unfold ready_in in Hr. destruct (tasks (sched s) !! t) as [x|] eqn:Hx; [|done]. apply bool_decide_eq_true in Hr.
  destruct (tf_started _ _ _ _ Hfit t x Hx ltac:(by rewrite Hr)) as [[regs Hregs] _].
  destruct (Hvs _ (tf_area _ _ _ _ Hfit t x Hx)) as [gv Hgv]. destruct (vi_vmems _ _ (ki_vm _ _ _ _ Hk) _ _ Hgv) as (vm & pt & Hrp).
  exists x, regs, (npt_entries pt). split; [done|]. split; [unfold regs_of; by rewrite Hx|]. cbn. unfold x86_space_of.
  rewrite (vr_vm _ _ _ _ _ _ Hrp). cbn. by rewrite (vr_pt _ _ _ _ _ _ Hrp).
Qed.

(** Steps of the tasks and steps of virtual memory. *)
Lemma system_ok_tasks fr s s' vs G G' q q' g g' :
  system_ok fr s vs G q g -> kernel_inv s' G' q' g' -> same_vm G G' -> Machine.vm s' = Machine.vm s -> pmem s' = pmem s ->
  heap_top (mem s) <= heap_top (mem s') -> tasks_fit fr (heap_top (mem s')) vs (sched s') -> system_ok fr s' vs G' q' g'.
Proof.
  intros [Hk [Hm1 Hm2] Hvs Hkv _ Hfr Hpm] Hk' (EV & _ & EI) Ev Ep Ht Hfit. destruct task_mapper_apart as [N1 N2].
  split; rewrite ?Ev, ?Ep; try done; [by rewrite !EI|by rewrite EV|lia].
Qed.

Lemma system_ok_vm n fr s s' vs vs' G G' q g :
  system_ok fr s vs G q g -> vm_frame n s s' -> vm_inv s' G' -> linked G' -> others_kept G G' ->
  gI G' !! a_task_id_mapper = gI G !! a_task_id_mapper -> is_Some (gI G' !! a_vmem_region_mapper) -> is_Some (gI G' !! a_vmem_id_mapper) ->
  (forall v, v ∈ vs' -> is_Some (gV G' !! v)) -> (forall v, v ∈ vs -> v ∈ vs') -> pmem_ok (pmem s') -> total_memory (pmem s') = total_memory (pmem s) ->
  system_ok fr s' vs' G' q g.
Proof.
  intros [Hk _ _ Hkv Hfit Hfr [_ Htot]] Hf Hi' Hlk' Ho HI H1 H2 HV Hvs Hpm Et.
  pose proof (gr_top _ _ _ (vf_grown _ _ _ Hf)). pose proof (gr_pos _ _ _ (vf_grown _ _ _ Hf)). split; try done.
  - by eapply kernel_inv_vm.
  - rewrite (vf_kernel _ _ _ Hf). auto.
  - rewrite (vf_sched _ _ _ Hf). eapply tasks_fit_mono; [exact Hfit|lia|done].
  - lia.
  - split; [done|]. by rewrite Et.
Qed.

Lemma arrive_ok fr s vs G q g r : system_ok fr s vs G q g -> system_ok fr (arrive fr r s) vs G q g.
Proof.
  intros Hs. pose proof Hs as [Hk _ _ _ Hfit _ _]. eapply system_ok_tasks; [exact Hs|by apply kernel_inv_ntasks|done|done|done|apply Z.le_refl|].
  apply tasks_fit_registers; [exact Hfit|]. intros p Hp. by apply is_Some_insert_kept.
Qed.

(** What the processor goes on with. *)
Definition resumes (e : cpu_exit) (s : kstate) : Prop := exit_of s (running_of s) e (cr3 (paging s)).

Lemma switch_ok fr s vs G q g :
  system_ok fr s vs G q g -> memory_for 16 s ->
  wpx scheduler_switch_task (fun _ _ => False) (fun e s' => resumes e s' /\ exists G' q', system_ok fr s' vs G' q' g) s.
Proof.
  intros Hs [Ha Ht]. pose proof Hs as [Hk _ _ _ Hfit _ _].
  eapply wpx_mono; [apply (switch_kernel s G q g Hk Ha Ht); by eapply system_runnable|done|].
  intros e s' (n & G' & Hn & Hk' & Hvm & Hr & Hex & Et & En & Hg & Ev & Enp & Ep). pose proof (gr_top _ _ _ Hg). pose proof (gr_pos _ _ _ Hg).
  split; [unfold resumes; by rewrite Hr|]. eexists G', _. eapply system_ok_tasks; [exact Hs|exact Hk'|exact Hvm|done|done|lia|].
  eapply tasks_fit_switch; [eapply (tasks_fit_mono _ _ _ vs vs); [exact Hfit|lia|done]|done|done|].
  intros Hc0. assert (running_of s' = Some (current_task (sched s'))) as Er by (unfold running_of; by rewrite (proj2 (isnull_false _) Hc0)).
  rewrite Hr in Er. unfold switch_abs, abs_of in Er. cbn in Er. destruct q as [|x q]; [done|]. injection Er as <-.
  destruct (si_ready _ _ _ (ti_sched _ _ _ _ _ (ki_tasks _ _ _ _ Hk)) x (list_elem_of_here _ _)) as [_ Hrd]. unfold ready_in in Hrd.
  destruct (tasks (sched s) !! x) as [y|]; [|done]. exists y. split; [done|]. by apply bool_decide_eq_true in Hrd.
Qed.

(** The timer. *)
Lemma tick_ok fr s vs G q g cr2 r :
  system_ok fr s vs G q g -> memory_for 16 s ->
  wpx (interrupt_handler cr2 fr 8) (fun _ _ => False) (fun e s' => resumes e s' /\ exists G' q', system_ok fr s' vs G' q' g) (arrive fr r s).
Proof.
  intros Hs Hm. pose proof (arrive_ok fr s vs G q g r Hs) as Hs0. set (s0 := arrive fr r s) in *.
  assert (memory_for 16 s0) as Hm0 by exact Hm. unfold interrupt_handler. apply wpx_bind. change (8 =? 8) with true. cbv iota.
  unfold handle_task_switch. wstep. unfold scheduler_current_task at 1. wstep.
  destruct (Z.eqb_spec (current_task (sched s0)) 0) as [E0|Hne].
  - rewrite E0. isnullp 0. cbn [negb]. wstep. wstep. eapply wpx_mono; [by apply (switch_ok fr s0 vs G q g)|done|done].
  - rewrite (proj2 (isnull_false _) Hne). cbn [negb]. set (t := current_task (sched s0)) in *.
    pose proof Hs0 as [Hk _ _ _ Hfit _ _]. destruct (tf_current _ _ _ _ Hfit Hne) as [x Hx]. fold t in Hx.
    destruct (tf_started _ _ _ _ Hfit t x Hx (tf_running _ _ _ _ Hfit x Hx Hne)) as [[n Hn] Hfx].
    assert (running_of s0 = Some t) as Er by (unfold running_of; fold t; by rewrite (proj2 (isnull_false _) Hne)).
    assert (ntasks (sched s0) !! fr = Some r) as Hr by apply lookup_insert_eq.
    pose proof (hal_update_current_state_spec s0 t x n fr r Er Hx Hn Hr ltac:(lia)) as Hup. cbv zeta in Hup.
    set (r' := set_segments (cs n) (ss n) r) in *. set (N := <[native_task x := r']> _) in *.
    wstep. eapply (wpx_call _ _ (fun _ s' => s' = set_ntasks N s0)); [unfold wp, wpx; by rewrite Hup|]. intros ? s1 ->. wstep.
    eapply wpx_mono; [apply (switch_ok fr _ vs G q g)|done|done]; [|exact Hm0].
    eapply system_ok_tasks; [exact Hs0|by apply kernel_inv_ntasks|done|done|done|apply Z.le_refl|].
    apply tasks_fit_registers; [exact Hfit|]. intros p Hp. by do 2 apply is_Some_insert_kept.
Qed.

(** Faults and exits. *)
Lemma drop_running (q : list Z) t : t ∉ q -> drop_task t (mk_abs (Some t) q) = mk_abs None q.
Proof. intros Ht. unfold drop_task. cbn. rewrite decide_True by done. by rewrite filter_ne_absent. Qed.

Lemma kill_ok fr s vs G q g :
  system_ok fr s vs G q g -> memory_for 32 s ->
  wpx kill_and_switch (fun _ _ => False) (fun e s' => resumes e s' /\ exists G' q' g', system_ok fr s' vs G' q' g') s.
Proof.
  intros Hs [Ha Ht]. pose proof Hs as [Hk _ _ _ Hfit _ _]. unfold kill_and_switch. wstep. unfold scheduler_current_task. wstep.
  destruct (Z.eqb_spec (current_task (sched s)) 0) as [E0|Hne].
  - rewrite E0. isnullp 0. cbn [negb]. wstep. wstep. eapply wpx_mono; [apply (switch_ok fr s vs G q g); [done|split; lia]|done|].
    intros e s' (He & G' & q' & Hs'). split; [done|eauto].
  - rewrite (proj2 (isnull_false _) Hne). cbn [negb]. set (t := current_task (sched s)) in *.
    destruct (tf_current _ _ _ _ Hfit Hne) as [x Hx]. fold t in Hx.
    assert (running_of s = Some t) as Er by (unfold running_of; fold t; by rewrite (proj2 (isnull_false _) Hne)).
    destruct (si_current _ _ _ (ti_sched _ _ _ _ _ (ki_tasks _ _ _ _ Hk)) t Er) as [Htq _].
    wstep. eapply wpx_call; [eapply (destroy_kernel s G q g t x); (done || lia)|].
    intros _ s1 (G1 & g1 & Hk1 & Hvm1 & Er1 & Et1 & En1 & Hf1). unfold abs_of in Hk1, Er1. rewrite Er, drop_running in Hk1, Er1 by done. cbn [queue running] in Hk1, Er1.
    wstep. destruct (task_frame_avail _ _ _ (vi_alloc _ _ (ki_vm _ _ _ _ Hk)) Hf1) as [_ Ha1].
    pose proof (gr_top _ _ _ (q_grown _ _ _ (tf_quiet _ _ _ Hf1))) as Etop.
    assert (system_ok fr s1 vs G1 q g1) as Hs1.
    { eapply system_ok_tasks; [exact Hs|exact Hk1|exact Hvm1|apply Hf1|apply Hf1|lia|].
      eapply (tasks_fit_destroy fr _ vs (sched s) (sched s1) t x);
        [eapply tasks_fit_mono; [exact Hfit|lia|done]|done|by eapply (tf_running _ _ _ _ Hfit)|done|done|].
      unfold running_of in Er1. destruct (isnull (current_task (sched s1))) eqn:En; [by apply isnull_true|done]. }
    eapply wpx_mono; [apply (switch_ok fr s1 vs G1 q g1); [done|split; lia]|done|].
    intros e s' (He & G' & q' & Hs'). split; [done|eauto].
Qed.

Lemma deadly_ok fr s vs G q g cr2 r i :
  system_ok fr s vs G q g -> memory_for 32 s -> deadly (arrive fr r s) fr i ->
  wpx (interrupt_handler cr2 fr i) (fun _ _ => False) (fun e s' => resumes e s' /\ exists G' q' g', system_ok fr s' vs G' q' g') (arrive fr r s).
Proof.
  intros Hs Hm Hd. pose proof (kill_ok fr _ vs G q g (arrive_ok fr s vs G q g r Hs) Hm) as Hk. unfold wpx in *.
  destruct (kill_and_switch (arrive fr r s)) as [|e s'| |] eqn:E; try done. by rewrite (deadly_handler _ _ _ _ _ _ Hd E).
Qed.

(** ** Calls of the services *)

(** Ids and lists are far from wrapping around. *)
Record roomy (s : kstate) : Prop := {
  rm_ids p m : idmappers (ids s) !! p = Some m -> 0 < idm_next m < 2 ^ 62;
  rm_lists l x : lls (lists s) !! l = Some x -> ll_size x < 2 ^ 31 }.

Lemma room_ids s G p gi : roomy s -> vm_inv s G -> gI G !! p = Some gi -> 0 < g_next gi < 2 ^ 62.
Proof. intros Hr Hi Hp. exact (rm_ids _ Hr p _ (ir_head _ _ _ _ (ii_repr _ _ _ (vi_ids _ _ Hi) p gi Hp))). Qed.

Lemma role_list_size s G l ro xs : vm_inv s G -> role_list G l ro xs -> exists a, lls (lists s) !! l = Some (mk_ll a (Z.of_nat (length xs))).
Proof.
  intros Hi (_ & ns & Hns & <-). destruct (lo_list _ _ _ (li_ok _ _ (vi_lists _ _ Hi)) l ns Hns) as (_ & Hl & _).
  exists (hd_addr ns). rewrite Hl. do 2 f_equal. unfold values. by rewrite length_fmap.
Qed.

Lemma room_regions s G v g : roomy s -> vm_inv s G -> gV G !! v = Some g -> Z.of_nat (length (vg_regions g)) < 2 ^ 31.
Proof.
  intros Hr Hi Hv. destruct (vi_vmems _ _ Hi _ _ Hv) as (vm & pt & Hrp).
  destruct (role_list_size _ _ _ _ _ Hi (vr_regions _ _ _ _ _ _ Hrp)) as [a Hl]. exact (rm_lists _ Hr _ _ Hl).
Qed.

Lemma task_create_ok fr s vs G q g name v :
  system_ok fr s vs G q g -> roomy s -> memory_for 88 s -> v ∈ vs ->
  wp (task_create name v) (fun t s' => exists G' g', system_ok fr s' vs G' q g') s.
Proof.
  intros Hs Hr [Ha Ht] Hv. pose proof Hs as [Hk _ _ _ Hfit _ _]. pose proof (ki_tasks _ _ _ _ Hk) as Hti.
  pose proof (room_ids _ _ _ _ Hr (ki_vm _ _ _ _ Hk) (ti_mapper _ _ _ _ _ Hti)) as Hn.
  eapply wp_mono; [by apply (task_create_kernel s G q g name v Hk Ha); lia|].
  intros t s' (_ & Hf & Es & Hnew & G' & Hk' & EV & ER & _ & EI). pose proof (gr_top _ _ _ (q_grown _ _ _ (tf_quiet _ _ _ Hf))).
  exists G', (with_entry g t). eapply system_ok_tasks; [exact Hs|exact Hk'|by split|apply Hf|apply Hf|lia|].
  rewrite Es. apply tasks_fit_create; [eapply tasks_fit_mono; [exact Hfit|lia|done]|done|done|done].
Qed.

(** Where a region goes, and that there is room for it. *)
Record region_fits (v start size : Z) (s : kstate) (base : Z) : Prop := {
  rf_base : exists vm, vmems (Machine.vm s) !! v = Some vm /\ create_base vm start = base;
  rf_page : page_ok base /\ 0 < base;
  rf_size : 0 <= size < 2 ^ 64 - 4096 /\ base + 4096 * ((size + 4095) / 4096) <= 2 ^ 48;
  rf_free va : in_pages base ((size + 4095) / 4096) va -> translate s v va = None }.

Lemma region_create_ok fr s vs G q g v name start size base user writable executable :
  system_ok fr s vs G q g -> roomy s -> memory_for (region_cost ((size + 4095) / 4096)) s -> v ∈ vs -> region_fits v start size s base ->
  wp (vmem_region_create v (Some name) start size user writable executable)
    (fun r s' => r <> 0 -> exists G', system_ok fr s' vs G' q g) s.
Proof.
  intros Hs Hr [Ha Ht] Hv [(vm & Hvm & Eb) [Hb Hb0] [Hsz Hend] Hfree]. pose proof Hs as [Hk [[gi HI] Hgv] Hvs _ _ _ [Hpm Htot]].
  pose proof (ki_vm _ _ _ _ Hk) as Hi. destruct (Hvs v Hv) as [gv HV]. pose proof (room_ids _ _ _ _ Hr Hi HI) as Hn.
  pose proof (room_regions _ _ _ _ Hr Hi HV) as Hlen. destruct task_mapper_apart as [N1 N2].
  eapply wp_mono.
  { eapply (vmem_region_create_spec s G v gv vm name start size user writable executable gi); rewrite ?Eb; try done; try lia; [apply Hk|].
    eapply free_maps; [done|exact HV|apply Hb|lia|done|done]. }
  intros r s' [(-> & n & G' & R & ps & _ & _ & [Hf Hi' Hlk' _ EV _ _ _ HIo Hid Htk Ho])|(-> & _)] Hr0; [|done]. rewrite Eb in *.
  exists G'. eapply (system_ok_vm n); [exact Hs|exact Hf|exact Hi'|exact Hlk'|exact Ho|by apply HIo| | | |done|apply Htk|apply Htk].
  - destruct (Hid _ HI) as [_ ->]. by eexists.
  - rewrite HIo; [done|]. apply vmem_mappers_apart.
  - intros w Hw. rewrite EV. by apply is_Some_insert_kept, Hvs.
Qed.

(** Room for a new area: at most [n] regions of the kernel, at most [b] pages in each. *)
Record area_room (n b : Z) (s : kstate) : Prop := {
  ar_regions vm x : vmems (Machine.vm s) !! kernel_vmem (Machine.vm s) = Some vm -> lls (lists s) !! v_regions vm = Some x -> ll_size x <= n;
  ar_pages r R : regions (Machine.vm s) !! r = Some R -> allocated_size R <= 4096 * b;
  ar_memory : 0 <= b /\ memory_for (41128 + n * (32 + notify_cost * b)) s }.

Lemma attach_costs_bound s G b rs :
  vm_inv s G -> (forall r, r ∈ rs -> is_Some (gR G !! r)) -> (forall r R, regions (Machine.vm s) !! r = Some R -> allocated_size R <= 4096 * b) ->
  attach_costs G rs <= Z.of_nat (length rs) * (32 + notify_cost * b).
Proof.
  intros Hi Hrs Hb. induction rs as [|r rs IH]; [done|].
  assert (attach_costs G (r :: rs) = attach_cost (pages_of G r) + attach_costs G rs) as -> by done.
  specialize (IH ltac:(intros x Hx; apply Hrs; by apply list_elem_of_further)). cbn [length].
  destruct (Hrs r (list_elem_of_here _ _)) as [h Hh]. destruct (vi_regions _ _ Hi _ _ Hh) as [R Hr].
  pose proof (Hb _ _ (rr_R _ _ _ _ _ Hr)) as Hbr. rewrite (rr_alloc _ _ _ _ _ Hr) in Hbr.
  unfold attach_cost, pages_of. rewrite Hh. cbn [fmap option_fmap option_map default]. unfold notify_cost in *.
  change (length (id (rg_pages h))) with (length (rg_pages h)). rewrite Nat2Z.inj_succ, Z.mul_succ_l. lia.
Qed.

Lemma vmem_create_ok fr s vs G q g n b :
  system_ok fr s vs G q g -> roomy s -> area_room n b s ->
  wp vmem_create (fun v s' => exists G', system_ok fr s' (v :: vs) G' q g) s.
Proof.
  intros Hs Hr [Hn Hb [Hb0 [Ha Ht]]]. pose proof Hs as [Hk [HgI [gi HI]] Hvs Hkv _ _ [Hpm Htot]]. pose proof (ki_vm _ _ _ _ Hk) as Hi.
  destruct (Hvs _ Hkv) as [gk Hgk]. destruct (vi_vmems _ _ Hi _ _ Hgk) as (vm & pt & Hrp). pose proof (vr_ptr _ _ _ _ _ _ Hrp) as Hk0.
  assert (kernel_regions s G = vg_regions gk) as Ers by (unfold kernel_regions; rewrite Hgk; by rewrite (proj2 (isnull_false _) Hk0)).
  destruct (role_list_size _ _ _ _ _ Hi (vr_regions _ _ _ _ _ _ Hrp)) as [a Hl].
  pose proof (Hn _ _ (vr_vm _ _ _ _ _ _ Hrp) Hl) as Hlen. cbn in Hlen. pose proof (rm_lists _ Hr _ _ Hl) as Hlen2. cbn in Hlen2.
  pose proof (attach_costs_bound s G b (vg_regions gk) Hi) as Hc.
  assert (attach_costs G (vg_regions gk) <= Z.of_nat (length (vg_regions gk)) * (32 + notify_cost * b)) as Hc'.
  { apply Hc; [|done]. intros r Hrr. destruct (lk_region _ (ki_linked _ _ _ _ Hk) _ _ r Hgk Hrr) as (h & -> & _). by eexists. }
  assert (area_cost G (vg_regions gk) <= 41128 + n * (32 + notify_cost * b)) as Hac by (unfold area_cost, notify_cost in *; nia).
  pose proof (room_ids _ _ _ _ Hr Hi HI) as Hid. destruct task_mapper_apart as [N1 N2].
  eapply wp_mono; [eapply (vmem_create_spec s G gi); rewrite ?Ers; [done|apply Hk|done|done|lia|lia|lia|lia]|].
  intros v s' (_ & m & G' & vm' & _ & [Hf Hi' Hlk' [Hv0 Hfr] EV _ EI Eid _ _ _ Ep EO]).
  exists G'. eapply (system_ok_vm m fr s s' vs); [exact Hs|exact Hf|exact Hi'|exact Hlk'|exact EO|by apply EI| | | | | |by rewrite Ep].
  - rewrite EI; [done|]. apply not_eq_sym, vmem_mappers_apart.
  - destruct (Eid _ HI) as [_ ->]. by eexists.
  - rewrite EV. intros w [->|Hw]%elem_of_cons; [rewrite lookup_insert_eq; by eexists|by apply is_Some_insert_kept, Hvs].
  - intros w Hw. by apply list_elem_of_further.
  - by rewrite Ep.
Qed.

Lemma task_run_ok fr s vs G q g t x code base :
  system_ok fr s vs G q g -> roomy s -> memory_for run_cost s -> tasks (sched s) !! t = Some x -> t_status x = TASK_STATUS_CREATED ->
  region_fits (memory_handler_of x) 0 40960 s base ->
  wp (task_run t code) (fun ok s' => ok = true -> exists G', system_ok fr s' vs G' (q ++ [t]) g) s.
Proof.
  intros Hs Hr [Ha Ht] Hx Hst [(vm & Hvm & Eb) [Hb Hb0] [_ Hend] Hfree]. change ((40960 + 4095) / 4096) with 10 in *.
  change (create_base vm 0) with (next_start_address vm) in Eb. subst base.
  pose proof Hs as [Hk [[gi HI] Hgv] Hvs Hkv Hfit Hfr [Hpm Htot]]. pose proof (ki_vm _ _ _ _ Hk) as Hi.
  destruct (Hvs _ (tf_area _ _ _ _ Hfit t x Hx)) as [gv HV]. pose proof (room_ids _ _ _ _ Hr Hi HI) as Hn. pose proof (room_regions _ _ _ _ Hr Hi HV) as Hlen.
  assert (t <> 0) as Ht0 by (pose proof (ti_below _ _ _ _ _ (ki_tasks _ _ _ _ Hk) t x Hx); lia).
  assert (running_of s <> Some t) as Hrun.
  { unfold running_of. destruct (isnull (current_task (sched s))) eqn:En; [done|]. apply isnull_false in En. intros [= Ec].
    apply (tf_running _ _ _ _ Hfit x); [by rewrite Ec|done|done]. }
  eapply wp_mono.
  { eapply (task_run_spec s G q g t x code _ gv vm gi); try done; try lia.
    eapply free_maps; [done|exact HV|apply Hb|lia|done|done]. }
  intros ok s' [(_ & n & r & ps & G' & _ & [Hk' Hg EV (a & Haa & Es) Ekv [HI1 HIo] [_ Htk]])|[-> _]] Hok; [|done].
  pose proof (gr_top _ _ _ Hg). pose proof (gr_pos _ _ _ Hg). exists G'. split.
  - done.
  - split; [done|]. rewrite HIo; [done|apply vmem_mappers_apart].
  - intros w Hw. rewrite EV. by apply is_Some_insert_kept, Hvs.
  - by rewrite Ekv.
  - rewrite Es. by eapply tasks_fit_start.
  - lia.
  - split; [apply Htk|]. by rewrite (tk_total _ _ _ Htk).
Qed.

(** A system call that does not end the task goes back to it. *)
Lemma syscall_ok fr s vs G q g cr2 r e s' :
  system_ok fr s vs G q g -> syscall_vector (boot s) !! Z.to_nat (rdi r) <> Some (Some syscall_handler_task_exit_ptr) ->
  interrupt_handler cr2 fr INT_SYSTEM_CALL (arrive fr r s) = Leave e s' ->
  (exists v, e = ResumeTask (set_rax v r)) /\ system_ok fr s' vs G q g.
Proof.
  intros Hs Hne. set (s0 := arrive fr r s). assert (system_ok fr s0 vs G q g) as Hs0 by (by apply arrive_ok).
  assert (load (T := native_task_t) fr s0 = Ret r s0) as Hl by (unfold load, s0, arrive; cbn; by rewrite lookup_insert_eq).
  unfold interrupt_handler. change (INT_SYSTEM_CALL =? 8) with false. change (INT_SYSTEM_CALL =? 13) with false.
  change (INT_SYSTEM_CALL =? 14) with false. change (INT_SYSTEM_CALL =? 6) with false. rewrite Z.eqb_refl. cbv iota.
  assert (forall v, handle_syscall (rdi r) (rsi r) (rdx r) (r10 r) (r8 r) (r9 r) s0 = Ret v s0 ->
    pre_syscall fr s0 = Ret fr (set_ntasks (<[fr := set_rax (u64 v) r]> (ntasks (sched s0))) s0)) as Hpre.
  { intros v E. unfold pre_syscall. rewrite (bind_Ret _ _ _ _ _ Hl), (bind_Ret _ _ _ _ _ E).
    rewrite (bind_Ret _ _ s0 tt (set_ntasks (<[fr := set_rax (u64 v) r]> (ntasks (sched s0))) s0)); [done|].
    unfold update. rewrite (bind_Ret _ _ _ _ _ Hl). unfold store. cbn. by rewrite lookup_insert_eq. }
  assert (forall v s1, s1 = set_ntasks (<[fr := set_rax (u64 v) r]> (ntasks (sched s0))) s0 ->
    intel_switch_task fr s1 = Leave (ResumeTask (set_rax (u64 v) r)) s1 /\ system_ok fr s1 vs G q g) as Hend.
  { intros v s1 ->. split.
    - unfold intel_switch_task. rewrite (bind_Ret _ _ _ (set_rax (u64 v) r) (set_ntasks (<[fr := set_rax (u64 v) r]> (ntasks (sched s0))) s0)); [done|].
      unfold load. cbn. by rewrite lookup_insert_eq.
    - pose proof Hs0 as [Hk _ _ _ Hfit _ _]. eapply system_ok_tasks; [exact Hs0|by apply kernel_inv_ntasks|done|done|done|apply Z.le_refl|].
      apply tasks_fit_registers; [exact Hfit|]. intros p Hp. by apply is_Some_insert_kept. }
  assert ((exists v, handle_syscall (rdi r) (rsi r) (rdx r) (r10 r) (r8 r) (r9 r) s0 = Ret v s0) \/
    handle_syscall (rdi r) (rsi r) (rdx r) (r10 r) (r8 r) (r9 r) s0 = Fault) as [[v E]|E].
  { unfold handle_syscall. destruct (_ || _); [left; by eexists|]. rewrite (bind_Ret _ _ s0 (syscall_vector (boot s)) s0) by done.
    destruct (syscall_vector (boot s) !! Z.to_nat (rdi r)) as [[[]|]|]; [done|left; by eexists|left; by eexists|by right]. }
  - destruct (Hend v _ eq_refl) as [E1 E2]. intros H.
    erewrite bind_Leave in H; [|rewrite (bind_Ret _ _ _ _ _ (Hpre v E)); exact E1]. injection H as <- <-. split; [by eexists|exact E2].
  - intros H. exfalso. revert H. unfold mbind, M_bind, pre_syscall. unfold mbind, M_bind. rewrite Hl. unfold mbind, M_bind. rewrite E. done.
Qed.

(** ** The steps of the system *)

(** Services that succeed, with the memory they need and room for what they make,
    and interrupts with any registers [r]: the timer, those of which the running
    task dies, and system calls that go back to the task. *)
Inductive kernel_step (fr : Z) : kstate * list Z -> kstate * list Z -> Prop :=
  | step_task_create name v t s s' vs :
      roomy s -> memory_for 88 s -> v ∈ vs -> task_create name v s = Ret t s' -> kernel_step fr (s, vs) (s', vs)
  | step_vmem_create n b v s s' vs :
      roomy s -> area_room n b s -> vmem_create s = Ret v s' -> kernel_step fr (s, vs) (s', v :: vs)
  | step_region_create v name start size base user writable executable r s s' vs :
      roomy s -> memory_for (region_cost ((size + 4095) / 4096)) s -> v ∈ vs -> region_fits v start size s base ->
      vmem_region_create v (Some name) start size user writable executable s = Ret r s' -> r <> 0 -> kernel_step fr (s, vs) (s', vs)
  | step_task_run t x code base s s' vs :
      roomy s -> memory_for run_cost s -> tasks (sched s) !! t = Some x -> t_status x = TASK_STATUS_CREATED ->
      region_fits (memory_handler_of x) 0 40960 s base -> task_run t code s = Ret true s' -> kernel_step fr (s, vs) (s', vs)
  | step_timer cr2 r e s s' vs :
      memory_for 16 s -> interrupt_handler cr2 fr 8 (arrive fr r s) = Leave e s' -> kernel_step fr (s, vs) (s', vs)
  | step_deadly cr2 r i e s s' vs :
      memory_for 32 s -> deadly (arrive fr r s) fr i -> interrupt_handler cr2 fr i (arrive fr r s) = Leave e s' ->
      kernel_step fr (s, vs) (s', vs)
  | step_syscall cr2 r e s s' vs :
      syscall_vector (boot s) !! Z.to_nat (rdi r) <> Some (Some syscall_handler_task_exit_ptr) ->
      interrupt_handler cr2 fr INT_SYSTEM_CALL (arrive fr r s) = Leave e s' -> kernel_step fr (s, vs) (s', vs).

Definition sound (fr : Z) (c : kstate * list Z) : Prop := exists G q g, system_ok fr c.1 c.2 G q g.

Lemma wp_Ret {A} (m : M A) Q s a s' : wp m Q s -> m s = Ret a s' -> Q a s'.
Proof. unfold wp, wpx. intros H E. by rewrite E in H. Qed.
Lemma wpx_Leave {A} (m : M A) Q E s e s' : wpx m Q E s -> m s = Leave e s' -> E e s'.
Proof. unfold wpx. intros H Eq. by rewrite Eq in H. Qed.

Lemma kernel_step_sound fr c c' : kernel_step fr c c' -> sound fr c -> sound fr c'.
Proof.
  intros [name v t s s' vs Hr Hm Hv E|n b v s s' vs Hr Ha E|v name start size base u w x r s s' vs Hr Hm Hv Hf E Hr0
    |t x code base s s' vs Hr Hm Hx Hst Hf E|cr2 r e s s' vs Hm E|cr2 r i e s s' vs Hm Hd E|cr2 r e s s' vs Hne E] (G & q & g & Hs); unfold sound; cbn [fst snd] in *.
  - destruct (wp_Ret _ _ _ _ _ (task_create_ok fr s vs G q g name v Hs Hr Hm Hv) E) as (G' & g' & Hs'). eauto.
  - destruct (wp_Ret _ _ _ _ _ (vmem_create_ok fr s vs G q g n b Hs Hr Ha) E) as (G' & Hs'). eauto.
  - destruct (wp_Ret _ _ _ _ _ (region_create_ok fr s vs G q g v name start size base u w x Hs Hr Hm Hv Hf) E Hr0) as (G' & Hs'). eauto.
  - destruct (wp_Ret _ _ _ _ _ (task_run_ok fr s vs G q g t x code base Hs Hr Hm Hx Hst Hf) E eq_refl) as (G' & Hs'). eauto.
  - destruct (wpx_Leave _ _ _ _ _ _ (tick_ok fr s vs G q g cr2 r Hs Hm) E) as (_ & G' & q' & Hs'). eauto.
  - destruct (wpx_Leave _ _ _ _ _ _ (deadly_ok fr s vs G q g cr2 r i Hs Hm Hd) E) as (_ & G' & q' & g' & Hs'). eauto.
  - destruct (syscall_ok fr s vs G q g cr2 r e s' Hs Hne E) as [_ Hs']. eauto.
Qed.


(** The system starts sound. *)
Lemma services_ok fr s G v :
  vm_inv s G -> linked G -> mapper_slot s G a_task_id_mapper -> a_task_id_mapper <> 0 ->
  tasks (sched s) = ∅ -> current_task (sched s) = 0 -> memory_for 32 s ->
  kernel_vmem (Machine.vm s) = v -> is_Some (gV G !! v) -> is_Some (gI G !! a_vmem_region_mapper) -> is_Some (gI G !! a_vmem_id_mapper) ->
  fr < heap_top (mem s) -> pmem_ok (pmem s) -> total_memory (pmem s) <= 2 ^ 48 ->
  wp (scheduler_initialise;; task_service_initialize) (fun ok s' => ok = true /\ sound fr (s', [v])) s.
Proof.
  intros Hi Hlk Hsl H0 Et Ec [Ha Ht] Hk HV HI1 HI2 Hfr Hpm Htot. destruct task_mapper_apart as [N1 N2].
  eapply wp_mono; [by apply (services_start_spec s G)|].
  intros ok s' (-> & G' & g & Hk' & _ & EV & _ & EI & Ev & Ep & Et' & Ec' & Hg & _). split; [done|].
  pose proof (gr_top _ _ _ Hg). exists G', [], g. split; cbn [fst snd].
  - done.
  - by rewrite !EI.
  - intros w ->%list_elem_of_singleton. by rewrite EV.
  - rewrite Ev, Hk. apply list_elem_of_here.
  - split; rewrite ?Et', ?Ec'; done.
  - lia.
  - by rewrite Ep.
Qed.
End steps.

(** * An example *)

(** The machine of [s_k0] with the services started, a task made and run; its
    registers when the timer comes. *)
Definition fr_k : Z := 1500800.
Definition regs_k : native_task_t := initial_regs 4194310 1089528 false 0.
Definition s_k3 : kstate := run run_k s_k2.

Lemma s_k1_sound : sound (Y := layout_example) fr_k (s_k1, [kernel_vmem (Machine.vm s_vm)]).
Proof.
  destruct s_vm_booted as (G & vm & gi & [Hi Hlk Hk Hv0 (gv & Hgv & _) _ Ha Ht Htm] & HV & HI & _ & _ & _).
  destruct (set_pmem_inv s_vm G pmem_k Hi) as (Hi0 & Ep0 & Em0 & Ev0 & Ei0 & Es0 & Ea0). fold s_k0 in Hi0, Ep0, Em0, Ev0, Ei0, Es0, Ea0.
  assert (mapper_slot s_k0 G 1500064) as Hsl by (split; [rewrite Ei0; vm_compute; eexists; reflexivity|exact Htm]).
  assert (tasks (sched s_vm) = ∅ /\ current_task (sched s_vm) = 0) as [Ets Ecs] by (vm_compute; split; reflexivity).
  pose proof (services_ok (K := bump_alloc) (Y := layout_example) fr_k s_k0 G (kernel_vmem (Machine.vm s_vm)) Hi0 Hlk Hsl ltac:(discriminate)
    ltac:(rewrite Es0; exact Ets) ltac:(rewrite Es0; exact Ecs) ltac:(split; [rewrite Ea0; lia|rewrite Em0; lia]) ltac:(rewrite Ev0; reflexivity)
    ltac:(rewrite HV, lookup_singleton_eq; eexists; reflexivity) ltac:(eexists; exact HI) ltac:(eexists; exact Hgv)
    ltac:(rewrite Em0; vm_compute; reflexivity) ltac:(rewrite Ep0; exact pmem_k_ok) ltac:(rewrite Ep0; cbn; lia)) as Hw.
  destruct (wp_run_at _ _ _ s_k1 eq_refl Hw) as (ok & _ & _ & Hs). exact Hs.
Qed.

(** Room, as a test. *)
Definition roomy_b (s : kstate) : bool :=
  forallb (fun e => (0 <? idm_next e.2) && (idm_next e.2 <? 2 ^ 62)) (map_to_list (idmappers (ids s))) &&
  forallb (fun e => ll_size e.2 <? 2 ^ 31) (map_to_list (lls (lists s))).

Lemma roomy_b_true s : roomy_b s = true -> roomy s.
Proof.
  unfold roomy_b. rewrite andb_true_iff, !forallb_forall. intros [H1 H2]. split.
  - intros p m Hm. specialize (H1 (p, m) ltac:(apply list_elem_of_In, elem_of_map_to_list; exact Hm)). cbn in H1. lia.
  - intros l x Hx. specialize (H2 (l, x) ltac:(apply list_elem_of_In, elem_of_map_to_list; exact Hx)). cbn in H2. lia.
Qed.

Lemma rooms_k : roomy_b s_k1 = true /\ roomy_b s_k2 = true /\ result create_k s_k1 = Some t_k.
Proof. vm_compute. repeat split. Qed.

Lemma memory_k : 2 ^ 60 <= avail s_k1 /\ heap_top (mem s_k1) <= 2 ^ 30 /\ 2 ^ 60 <= avail s_k3 /\ heap_top (mem s_k3) <= 2 ^ 30.
Proof. vm_compute. repeat split; discriminate. Qed.

Lemma reached_k : rtc (kernel_step (K := bump_alloc) (Y := layout_example) fr_k) (s_k1, [kernel_vmem (Machine.vm s_vm)]) (s_k3, [kernel_vmem (Machine.vm s_vm)]).
Proof.
  destruct rooms_k as (Hr1 & Hr2 & Ec). destruct memory_k as (Ha1 & Ht1 & _).
  destruct s_k2_startable as (G & g & x & [Hk (_ & Hx & Hst & _) (Emh & Hv & _) (vm & Hvm & Hnx) _ _ Hb _ [Ha Ht]]).
  eapply rtc_l; [|eapply rtc_once].
  - eapply (step_task_create fr_k (Some "hello"%string) (kernel_vmem (Machine.vm s_vm)) t_k s_k1 s_k2 [kernel_vmem (Machine.vm s_vm)]).
    + exact (roomy_b_true _ Hr1).
    + split; lia.
    + apply list_elem_of_here.
    + exact (result_run _ _ _ Ec).
  - eapply (step_task_run fr_k t_k x 4194304 1048576 s_k2 s_k3 [kernel_vmem (Machine.vm s_vm)]).
    + exact (roomy_b_true _ Hr2).
    + split; [exact Ha|exact Ht].
    + exact Hx.
    + exact Hst.
    + rewrite Emh. split.
      * exists vm. split; [exact Hvm|exact Hnx].
      * split; [apply Hb|lia].
      * split; [lia|vm_compute; discriminate].
      * intros va Hva. change ((40960 + 4095) / 4096) with 10 in Hva. unfold in_pages in Hva.
        rewrite (translate_lookup s_k2 G _ _ va (ki_vm _ _ _ _ Hk) Hv) by lia. reflexivity.
    + exact (result_run _ _ _ run_k_result).
Qed.

