(* ===== verification/Loader.v ===== *)
(** core/src/loader/module_loader.c: boot modules become tasks.

    A module is mapped into the kernel area to read its ELF headers; every
    segment to load becomes a region of a new area, backed by the pages of the
    module itself and, behind them, by free pages. *)
From S2P Require Import Prelude Machine Logic LinkedList ListRefinement IdMapper Pmem NativeVmem PageTable NativePaging Vmem Region VmInv VmemSpec RegionSpec VmStep VmCreate VirtualMemory Elf Scheduler Task KernelMemory.

(** * Definitions *)
Section code.
Context `{Kalloc} `{NativeVmem} `{NativeTask} `{Layout}.

(** [ph->field]: the header is read where the image is mapped. *)
Definition ph_type_at (ph : Z) : M Z := vload 4 ph.
Definition ph_flags_at (ph : Z) : M Z := vload 4 (ph + 4).
Definition ph_offset_at (ph : Z) : M Z := vload 8 (ph + 8).
Definition ph_vaddr_at (ph : Z) : M Z := vload 8 (ph + 16).
Definition ph_file_size_at (ph : Z) : M Z := vload 8 (ph + 32).
Definition ph_mem_size_at (ph : Z) : M Z := vload 8 (ph + 40).

(** Mapping the content of the file. *)
Definition map_file_content (elf : elf_t) (ph region : Z) : M bool :=
  file_size ← ph_file_size_at ph;
  if negb (isnull file_size) then
    memory_handler ← gets (fun s => memory_handler (boot s));
    offset ← ph_offset_at ph;
    paddr ← vmem_get_physical_address memory_handler (elf_base elf ⊞ offset);
    file_size ← ph_file_size_at ph;
    vaddr ← vmem_region_map_physical_address region paddr (ALIGN_NEXT file_size SYSTEM_PAGE_SIZE);
    mret (negb (isnull vaddr))
  else mret true.

Definition allocate_program_header (elf : elf_t) (ph module_memory_handler : Z) : M bool :=
  flags ← ph_flags_at ph;
  let writable := negb (Z.land flags ELF_PF_FLAGS_W =? 0) in
  flags ← ph_flags_at ph;
  let code := negb (Z.land flags ELF_PF_FLAGS_X =? 0) in
  vaddr ← ph_vaddr_at ph;
  region ← vmem_region_create module_memory_handler (Some "elf-loader"%string) vaddr 0 true writable code;
  if isnull region then mret false
  else
    mapped ← map_file_content elf ph region;
    if negb mapped then mret false
    else
      mem_size ← ph_mem_size_at ph;
      resized ← vmem_region_resize region mem_size;
      mret resized.

(** The loop over the program headers; [inr] is [abort]. *)
Definition load_program_headers (elf : elf_t) (module_memory_handler : Z) : M (unit + unit) :=
  while_linkedlist_iter (program_headers elf) tt (fun program_header _ =>
    type ← ph_type_at program_header;
    if type =? ELF_PT_LOAD then
      ok ← allocate_program_header elf program_header module_memory_handler;
      mret (if negb ok then inr tt else inl tt)
    else mret (inl tt)).

(** The loop body: the module is mapped into the kernel area ... *)
Definition map_module (module : Z) : M Z :=
  memory_handler ← gets (fun s => memory_handler (boot s));
  region ← vmem_region_create memory_handler (Some "module-loading"%string) 0 0 true true true;
  m ← load module;
  vmem_region_map_physical_address region (addr_start (m_region m))
    (ALIGN_NEXT (seg_size (m_region m)) SYSTEM_PAGE_SIZE).

(** ... and parsed; [inl] is [return false]. *)
Definition read_module (module : Z) : M (unit + (Z + elf_t)) :=
  vaddr ← map_module module;
  if isnull vaddr then mret (inl tt)
  else
    m ← load module;
    parsed ← elf_parser vaddr (seg_size (m_region m));
    mret (inr parsed).

(** Up to the program in its own area; [inl] is how the function goes on without
    one: the next module ([inl]) or [return] ([inr]). *)
Definition load_module (module : Z) : M ((unit + bool) + (elf_t * Z)) :=
  read ← read_module module;
  match read with
  | inl _ => mret (inl (inr false))
  | inr (inl _) => mret (inl (inl tt))
  | inr (inr elf) =>
      module_memory_handler ← vmem_create;
      abort ← load_program_headers elf module_memory_handler;
      match abort with
      | inr _ => mret (inl (inr false))
      | inl _ => mret (inr (elf, module_memory_handler))
      end
  end.

(** The body of the loop over the modules; [inr] leaves the function. *)
Definition initialize_module (module : Z) : M (unit + bool) :=
  m ← load module;
  let module_name := m_param m in
  loaded ← load_module module;
  match loaded with
  | inl r => mret r
  | inr (elf, module_memory_handler) =>
      task ← task_create module_name module_memory_handler;
      task_run task (entry_point elf);;
      mret (inl tt)
  end.

Definition module_task_initialize : M bool :=
  modules ← gets (fun s => p_modules (platform (mem s)));
  r ← while_linkedlist_iter modules tt (fun module _ => initialize_module module);
  match r with
  | inr v => mret v
  | inl _ => mret true
  end.

Definition module_initialize : M bool :=
  kernel ← vmem_get_kernel;
  modify (set_memory_handler kernel);;
  module_task_initialize;;
  mret true.
End code.

(** * A module in the kernel area *)

(** The program header at [ph] in an image held by [f]. *)
Definition header_at (f : Z -> Z) (ph : Z) : elf_program_header_t :=
  mk_ph (le_load f ph 4) (le_load f (ph + 4) 4) (le_load f (ph + 8) 8) (le_load f (ph + 16) 8)
    (le_load f (ph + 24) 8) (le_load f (ph + 32) 8) (le_load f (ph + 40) 8) (le_load f (ph + 48) 8).

(** The module of [size] bytes at the physical address [paddr] is mapped at
    [base] in the kernel area [kv], which the processor uses; its bytes are [f].
    It is above [top], the part of memory the kernel allocates from. *)
Record module_mapped (s : kstate) (G : ghost) (kv : Z) (gk : vghost) (f : Z -> Z) (base paddr size top : Z) : Prop := {
  mm_area : gV G !! kv = Some gk;
  mm_handler : memory_handler (boot s) = kv;
  mm_root : root_of s kv = Some (cr3 (paging s));
  mm_base : 0 < base /\ base + size <= 2 ^ 48;
  mm_paddr : 0 < paddr /\ paddr mod 4096 = 0;
  mm_map a : base <= a < base + size -> lookup_map (vg_maps gk) a = Some (paddr + (a - base));
  mm_bytes a : base <= a < base + size -> ram (mem s) (paddr + (a - base)) = f a;
  mm_top : top <= paddr }.

Lemma module_mapped_frame n s s' G G' kv gk f base paddr size top :
  module_mapped s G kv gk f base paddr size top -> vm_frame n s s' -> gV G' !! kv = Some gk ->
  heap_top (mem s') <= top -> module_mapped s' G' kv gk f base paddr size top.
Proof.
  intros [A B C D E F H I] Hf HV Ht. split; try done.
  - by rewrite (vf_boot _ _ _ Hf).
  - rewrite (vf_cr3 _ _ _ Hf). by apply (vf_roots _ _ _ Hf).
  - intros a Ha. rewrite (gr_above _ _ _ (vf_grown _ _ _ Hf)) by lia. by apply H.
Qed.

(** Its bytes can be read. *)
Lemma module_readable s G kv gk f base paddr size top :
  vm_inv s G -> module_mapped s G kv gk f base paddr size top -> image s f base (base + size).
Proof.
  intros Hi [A B C D E F H I] a Ha. exists (paddr + (a - base)). split; [|by apply H].
  destruct (vi_vmems _ _ Hi _ _ A) as (vm & pt & Hr). unfold root_of in C.
  rewrite (vr_vm _ _ _ _ _ _ Hr) in C. cbn in C. rewrite (vr_pt _ _ _ _ _ _ Hr) in C. cbn in C. injection C as <-.
  rewrite (vr_agree _ _ _ _ _ _ Hr) by lia. by apply F.
Qed.

(** Reading a field of a header. *)
Lemma wpx_field {A} k o ph s G kv gk f base paddr size top (c : Z -> M A) Q E :
  vm_inv s G -> module_mapped s G kv gk f base paddr size top -> base <= ph -> ph + 56 <= base + size ->
  0 <= o -> o + Z.of_nat k <= 56 ->
  wpx (c (le_load f (ph + o) k)) Q E s -> wpx (vload k (ph + o) ≫= c) Q E s.
Proof.
  intros Hi Hm Hb He Ho Hk. eapply wpx_vload; [by eapply module_readable|lia|lia].
Qed.

(** Pages of [n] bytes. *)
Definition pages_for (n : Z) : Z := (n + 4095) / 4096.

Lemma pages_for_bounds n : 0 <= n -> 0 <= pages_for n /\ n <= 4096 * pages_for n < n + 4096.
Proof.
  intros Hn. unfold pages_for. pose proof (Z.div_mod (n + 4095) 4096). pose proof (Z.mod_pos_bound (n + 4095) 4096). lia.
Qed.

Lemma taken_ext pm pm1 ps pm' :
  (forall q, page_at pm1 q = page_at pm q) -> total_memory pm1 = total_memory pm -> taken pm1 ps pm' -> taken pm ps pm'.
Proof.
  intros Hp Ht [A B C D E]. split; [done|congruence|done| |].
  - intros p Hps. rewrite <- Ht, <- Hp. by apply D.
  - intros q. rewrite E. by rewrite Hp.
Qed.

(** Pages of a segment, those of the file and those behind them. *)
Definition segment_pages (h : elf_program_header_t) : Z := Z.max (pages_for (ph_file_size h)) (pages_for (ph_mem_size h)).

(** A segment of a module of [size] bytes at [paddr] that can be loaded: it
    starts on a page in the file and in memory, and lies in the file. *)
Record segment_fits (h : elf_program_header_t) (paddr size : Z) : Prop := {
  sf_vaddr : page_ok (ph_vaddr h) /\ 0 < ph_vaddr h;
  sf_offset : 0 <= ph_offset h /\ ph_offset h mod 4096 = 0;
  sf_file : 0 <= ph_file_size h /\ ph_offset h + ph_file_size h <= size;
  sf_frames : paddr + ph_offset h + 4096 * pages_for (ph_file_size h) <= 2 ^ 48;
  sf_mem : 0 <= ph_mem_size h < 2 ^ 48;
  sf_end : ph_vaddr h + 4096 * segment_pages h <= 2 ^ 48 }.

Section load.
Context `{K : Kalloc} `{!GoodAlloc K} `{Y : Layout}.

(** [vmem_region_resize], whether the region has the pages already or not. *)
Lemma resize_spec s G r g R new_size :
  vm_inv s G -> gR G !! r = Some g -> regions (Machine.vm s) !! r = Some R ->
  pmem_ok (pmem s) -> total_memory (pmem s) <= 2 ^ 48 -> 0 <= new_size < 2 ^ 64 - 4096 ->
  let k := Z.max 0 (pages_for new_size - allocated_size R / 4096) in
  region_room k G g R -> assoc_cost g * k <= avail s -> heap_top (mem s) + assoc_cost g * k <= 2 ^ 48 ->
  wp (vmem_region_resize r new_size) (fun ok s' => exists n ps G' R',
    n <= assoc_cost g * k /\ pages_added n s G r g R ps s' G' R' /\ taken (pmem s) ps (pmem s') /\
    ((ok = true /\ Z.of_nat (length ps) = k) \/
     (ok = false /\ Z.of_nat (length ps) <= k /\ forall q, first_user_page <= q -> page_at (pmem s') q <> Some PAGE_TYPE_FREE))) s.
Proof.
  intros Hi Hg HR Hpm Htot Hn k Hroom Ha Htop. pose proof (region_repr_at _ _ _ _ _ Hi Hg HR) as HRr.
  destruct (allocated_pages _ _ _ _ _ HRr) as [Hal Ham]. pose proof (Z.div_mod (allocated_size R) 4096) as Hd.
  unfold pages_for in k. set (na := (new_size + 4095) / 4096) in *.
  destruct (Z.ltb_spec (na * 4096) (allocated_size R)) as [Hlt|Hge].
  - eapply wp_mono; [by eapply (vmem_region_resize_shrink_spec s G r g R new_size)|]. intros ok s' (-> & -> & Hi').
    assert (k = 0) as -> by lia. exists 0, [], G, (set_r_size new_size R). split; [lia|]. split.
    + apply (pages_added_size 0 s G r g R [] s G R); [by apply pages_added_refl|].
      pose proof (Z.div_mod (new_size + 4095) 4096). pose proof (Z.mod_pos_bound (new_size + 4095) 4096). lia.
    + split; [by apply taken_nil|]. by left.
  - assert (missing_pages R new_size = k) as Ek.
    { unfold missing_pages. fold na. replace (na * 4096 - allocated_size R) with ((na - allocated_size R / 4096) * 4096) by lia.
      rewrite Z.div_mul by lia. lia. }
    eapply wp_mono; [eapply (vmem_region_resize_grow_spec s G r g R new_size); rewrite ?Ek; try done; lia|].
    rewrite Ek. intros ok s' (n & ps & G' & R' & Hnk & Hpg & Htk & Hres). exists n, ps, G', R'.
    split; [done|]. split; [done|]. split; [done|]. destruct Hres as [(-> & ? & _)|(-> & ? & _ & ?)]; [by left|]. right. split; [done|]. split; [lia|done].
Qed.

Lemma map_file_content_spec s G kv gk f base paddr size top elf ph r v R :
  vm_inv s G -> module_mapped s G kv gk f base paddr size top -> elf_base elf = base ->
  base <= ph -> ph + 56 <= base + size ->
  gR G !! r = Some (mk_rg [v] []) -> regions (Machine.vm s) !! r = Some R -> allocated_size R = 0 -> r_size R = 0 ->
  let h := header_at f ph in let k := pages_for (ph_file_size h) in
  segment_fits h paddr size -> region_room k G (mk_rg [v] []) R ->
  (16 + notify_cost) * k <= avail s -> heap_top (mem s) + (16 + notify_cost) * k <= 2 ^ 48 ->
  wp (map_file_content elf ph r) (fun ok s' => ok = true /\ exists n G' R', n <= (16 + notify_cost) * k /\
    pages_added n s G r (mk_rg [v] []) R (frames (paddr + ph_offset h) (Z.to_nat k)) s' G' R' /\
    pmem s' = pmem s /\ avail s - n <= avail s') s.
Proof.
  intros Hi Hm Eb Hb He Hr HR Eal Esz h k [_ [Ho Hom] [Hfs Hfe] Hfr _ _] Hroom Ha Htop.
  destruct (pages_for_bounds _ Hfs) as [Hk Hkb]. fold k in Hk, Hkb. set (fs := ph_file_size h) in *. set (off := ph_offset h) in *.
  pose proof (mm_base _ _ _ _ _ _ _ _ _ Hm) as [Hb0 Hbs]. pose proof (mm_paddr _ _ _ _ _ _ _ _ _ Hm) as [Hp0 Hpm].
  assert (assoc_cost (mk_rg [v] []) = 16 + notify_cost) as Eac by (unfold assoc_cost; cbn [rg_attached length]; lia).
  unfold map_file_content, ph_file_size_at. eapply (wpx_field 8 32); [exact Hi|exact Hm|done|done|lia|cbn; lia|]. fold fs.
  change (le_load f (ph + 32) 8) with fs. destruct (Z.eqb_spec fs 0) as [E0|Hne].
  - isnullp fs. cbn [negb]. wstep. split; [done|]. assert (k = 0) as Ek by lia. rewrite Ek. cbn [Z.to_nat frames].
    exists 0, G, R. split; [lia|]. split; [by apply pages_added_refl|]. split; [done|lia].
  - nonnull fs. cbn [negb]. wstep. wstep. rewrite (mm_handler _ _ _ _ _ _ _ _ _ Hm).
    unfold ph_offset_at. eapply (wpx_field 8 8); [exact Hi|exact Hm|done|done|lia|cbn; lia|].
    change (le_load f (ph + 8) 8) with off. rewrite Eb, (u64_small (base + off)) by lia.
    eapply wpx_call; [eapply (vmem_get_physical_address_spec s G kv gk); [done|apply Hm|lia]|]. intros ? ? (-> & ->).
    rewrite (mm_map _ _ _ _ _ _ _ _ _ Hm) by lia. cbn [default]. replace (base + off - base) with off by lia.
    eapply (wpx_field 8 32); [exact Hi|exact Hm|done|done|lia|cbn; lia|]. change (le_load f (ph + 32) 8) with fs.
    rewrite ALIGN_NEXT_page by lia. fold (pages_for fs). fold k. assert (0 < k) as Hk0 by lia.
    assert (k * 4096 / 4096 = k) as Ekd by (apply Z.div_mul; lia).
    eapply wpx_call.
    { eapply (vmem_region_map_physical_spec s G r (mk_rg [v] []) R (paddr + off) (k * 4096)); rewrite ?Ekd, ?Eac; try done; try lia.
      - by rewrite Z.add_mod, Hpm, Hom by lia.
      - apply Z.mod_mul. lia. }
    rewrite Ekd, Eac. intros va s' (-> & n & G' & R' & Hn & Hpg & _ & Ep & Hav).
    pose proof (rr_start _ _ _ _ _ (region_repr_at _ _ _ _ _ Hi Hr HR)) as [_ Hst]. nonnull (r_start R + allocated_size R). wstep.
    split; [done|]. by exists n, G', R'.
Qed.

(** Memory the kernel needs for a segment. *)
Definition segment_cost (h : elf_program_header_t) : Z := 160 + (16 + notify_cost) * segment_pages h.

(** A segment was given the pages of the file and the free pages [ps]. *)
Record segment_added (n : Z) (s : kstate) (G : ghost) (v : Z) (g : vghost) (r paddr : Z) (h : elf_program_header_t)
    (ps : list Z) (s' : kstate) (G' : ghost) : Prop := {
  sa_frame : vm_frame n s s';
  sa_inv : vm_inv s' G';
  sa_linked : linked G';
  sa_V : gV G' = <[v := mk_vg (vg_regions g ++ [r]) (vg_maps g ++ region_maps r (ph_vaddr h)
    (frames (paddr + ph_offset h) (Z.to_nat (pages_for (ph_file_size h))) ++ ps))]> (gV G);
  sa_ids gi : gI G !! a_vmem_region_mapper = Some gi ->
    exists gi', gI G' !! a_vmem_region_mapper = Some gi' /\ g_next gi' = g_next gi + 1;
  sa_regions q R : regions (Machine.vm s) !! q = Some R -> regions (Machine.vm s') !! q = Some R;
  sa_taken : taken (pmem s) ps (pmem s');
  sa_others : others_kept G G';
  sa_I p : p <> a_vmem_region_mapper -> gI G' !! p = gI G !! p }.

(** The rest of [allocate_program_header], behind the region. *)
Definition fill_region (elf : elf_t) (ph region : Z) : M bool :=
  mapped ← map_file_content elf ph region;
  if negb mapped then mret false
  else
    mem_size ← ph_mem_size_at ph;
    resized ← vmem_region_resize region mem_size;
    mret resized.

Lemma fill_region_spec s G kv gk f base paddr size top elf ph r v R :
  let h := header_at f ph in
  vm_inv s G -> module_mapped s G kv gk f base paddr size top -> elf_base elf = base ->
  base <= ph -> ph + 56 <= base + size -> segment_fits h paddr size -> v <> kv ->
  gR G !! r = Some (mk_rg [v] []) -> regions (Machine.vm s) !! r = Some R -> allocated_size R = 0 -> r_size R = 0 ->
  region_room (segment_pages h) G (mk_rg [v] []) R -> pmem_ok (pmem s) -> total_memory (pmem s) <= 2 ^ 48 ->
  (16 + notify_cost) * segment_pages h <= avail s -> heap_top (mem s) + (16 + notify_cost) * segment_pages h <= top ->
  top <= 2 ^ 48 ->
  wp (fill_region elf ph r) (fun ok s' => exists n ps G' R', n <= (16 + notify_cost) * segment_pages h /\
    pages_added n s G r (mk_rg [v] []) R (frames (paddr + ph_offset h) (Z.to_nat (pages_for (ph_file_size h))) ++ ps) s' G' R' /\
    taken (pmem s) ps (pmem s') /\
    ((ok = true /\ Z.of_nat (length ps) = segment_pages h - pages_for (ph_file_size h)) \/
     (ok = false /\ forall q, first_user_page <= q -> page_at (pmem s') q <> Some PAGE_TYPE_FREE))) s.
Proof.
  intros h Hi Hm Eb Hb He Hfit Hvk Hr HR Eal Esz [Hre Hrf] Hpm Htot Ha Htop Htop48.
  pose proof Hfit as [_ _ [Hfs _] _ Hms _]. destruct (pages_for_bounds _ Hfs) as [Hk1 Hk1b].
  destruct (pages_for_bounds (ph_mem_size h) ltac:(lia)) as [Hk2 Hk2b].
  set (k1 := pages_for (ph_file_size h)) in *. set (k := segment_pages h) in *.
  assert (k = k1 + Z.max 0 (pages_for (ph_mem_size h) - k1)) as Ekk by (unfold k, segment_pages; fold k1; lia).
  assert (0 <= notify_cost) as Hnc by (unfold notify_cost; lia). set (k2 := Z.max 0 (pages_for (ph_mem_size h) - k1)) in *.
  assert ((16 + notify_cost) * k = (16 + notify_cost) * k1 + (16 + notify_cost) * k2) as Ec by (rewrite Ekk; lia).
  assert (0 <= (16 + notify_cost) * k2) as Hc2 by nia.
  unfold fill_region. eapply wp_call.
  { eapply (map_file_content_spec s G kv gk f base paddr size top elf ph r v R); try done; fold h; fold k1; try lia.
    split; [lia|]. intros w gw i Hw Hgw Hik. apply (Hrf w gw); [done|done|lia]. }
  fold h k1. intros ok s2 (-> & n2 & G2 & R2 & Hn2 & Hpg2 & Ep2 & Ha2). cbn [negb].
  set (ps1 := frames (paddr + ph_offset h) (Z.to_nat k1)) in *.
  assert (Z.of_nat (length ps1) = k1) as Hlen1 by (unfold ps1; rewrite frames_length; lia).
  pose proof Hpg2 as [Ho2 Hi2 HS2 ER2 HR2 HV2 _ _ _]. cbn [rg_attached rg_pages app] in HR2, HV2. rewrite Eal, Z.add_0_r in HV2.
  pose proof (gr_top _ _ _ (only_grow_grown _ _ _ Ho2)) as Et2.
  assert (gV G2 !! kv = Some gk) as Hk2v.
  { rewrite (HV2 kv), (mm_area _ _ _ _ _ _ _ _ _ Hm). cbn. rewrite bool_decide_eq_false_2; [done|]. by intros ?%list_elem_of_singleton. }
  pose proof (module_mapped_frame n2 s s2 G G2 kv gk f base paddr size top Hm (vm_frame_grow _ _ _ Ho2) Hk2v ltac:(lia)) as Hm2.
  eapply (wpx_field 8 40); [exact Hi2|exact Hm2|done|done|lia|cbn; lia|]. change (le_load f (ph + 40) 8) with (ph_mem_size h).
  assert (allocated_size R2 = 4096 * k1 /\ r_start R2 = r_start R) as [Eal2 Est2] by (rewrite ER2; cbn; rewrite Eal, Hlen1; split; [lia|done]).
  assert (assoc_cost (mk_rg [v] ps1) = 16 + notify_cost) as Eac by (unfold assoc_cost; cbn [rg_attached length]; lia).
  assert (Z.max 0 (pages_for (ph_mem_size h) - allocated_size R2 / 4096) = k2) as Ek2.
  { rewrite Eal2, Z.mul_comm, Z.div_mul by lia. done. }
  eapply wpx_call.
  { eapply (resize_spec s2 G2 r (mk_rg [v] ps1) R2); rewrite ?Ek2, ?Eac, ?Ep2; try done; try lia.
    - by rewrite HR2, lookup_insert_eq.
    - by rewrite HS2, lookup_insert_eq.
    - unfold region_room. rewrite Eal2, Est2. split; [lia|]. cbn [rg_attached]. intros w gw i Hw Hgw Hik.
      rewrite (HV2 w) in Hgw. destruct (gV G !! w) as [g0|] eqn:Hg0; [|done]. cbn in Hgw. injection Hgw as <-.
      rewrite bool_decide_eq_true_2 by done. cbn. rewrite fmap_app, not_elem_of_app. split.
      + replace (r_start R + 4096 * k1 + 4096 * i) with (r_start R + allocated_size R + 4096 * (k1 + i)) by lia. apply (Hrf w g0); [done|done|lia].
      + intros (m & Em & Hmm)%list_elem_of_fmap. apply region_maps_vaddr in Hmm as [Hmm _]. lia. }
  rewrite Ek2, Eac. intros ok s3 (n3 & ps & G3 & R3 & Hn3 & Hpg3 & Htk & Hres). wstep. rewrite Ep2 in Htk.
  exists (n2 + n3), ps, G3, R3. split; [lia|]. split; [by eapply pages_added_trans|]. split; [done|].
  destruct Hres as [[-> Hl]|(-> & _ & Hno)]; [left; split; [done|lia]|by right].
Qed.

Lemma allocate_program_header_spec s G kv gk f base paddr size top elf ph v g vm gi :
  let h := header_at f ph in
  vm_inv s G -> linked G -> module_mapped s G kv gk f base paddr size top -> elf_base elf = base ->
  base <= ph -> ph + 56 <= base + size -> segment_fits h paddr size ->
  v <> kv -> gV G !! v = Some g -> vmems (Machine.vm s) !! v = Some vm ->
  gI G !! a_vmem_region_mapper = Some gi -> 0 < g_next gi < 2 ^ 64 - 1 -> Z.of_nat (length (vg_regions g)) < 2 ^ 31 ->
  pmem_ok (pmem s) -> total_memory (pmem s) <= 2 ^ 48 ->
  (forall i, 0 <= i < segment_pages h -> ph_vaddr h + 4096 * i ∉ map_virtual_addr <$> vg_maps g) ->
  segment_cost h <= avail s -> heap_top (mem s) + segment_cost h <= top -> top <= 2 ^ 48 ->
  wp (allocate_program_header elf ph v) (fun ok s' => exists n r ps G', n <= segment_cost h /\
    segment_added n s G v g r paddr h ps s' G' /\
    ((ok = true /\ Z.of_nat (length ps) = segment_pages h - pages_for (ph_file_size h)) \/
     (ok = false /\ forall q, first_user_page <= q -> page_at (pmem s') q <> Some PAGE_TYPE_FREE))) s.
Proof.
  intros h Hi Hlk Hm Eb Hb He Hfit Hvk Hv Hvm HI Hnext Hlen Hpm Htot Hfree Ha Htop Htop48. unfold segment_cost in *.
  pose proof Hfit as [[Hva Hva0] _ [Hfs _] _ Hms Hend]. destruct (pages_for_bounds _ Hfs) as [Hk1 _]. set (k := segment_pages h) in *.
  assert (0 <= k) as Hk by (unfold k, segment_pages; lia). assert (0 <= (16 + notify_cost) * k) as Hc by (unfold notify_cost; lia).
  unfold allocate_program_header, ph_flags_at, ph_vaddr_at.
  do 2 (eapply (wpx_field 4 4); [exact Hi|exact Hm|done|done|lia|cbn; lia|]; cbv beta zeta).
  eapply (wpx_field 8 16); [exact Hi|exact Hm|done|done|lia|cbn; lia|]. change (le_load f (ph + 16) 8) with (ph_vaddr h).
  eapply wpx_call; [eapply (create_empty_region_spec s G v g vm _ (ph_vaddr h)); try done; lia|].
  intros r s1 (Hr0 & n1 & G1 & R1 & Hn1 & Hf1 & Hi1 & Hlk1 & Hfr & HV1 & HR1 & Hid1 & HS1 & Hnew1 & Est1 & Esz1 & Eal1 & Hpg1 & Hpm1 & Htot1 & Hot1 & HIo1).
  nonnull r. pose proof (gr_top _ _ _ (vf_grown _ _ _ Hf1)) as Et1. pose proof (gr_pos _ _ _ (vf_grown _ _ _ Hf1)) as Hp1.
  assert (forall q R, regions (Machine.vm s) !! q = Some R -> r <> q) as Hqr by (intros q R Hq ->; congruence).
  assert (avail s - n1 <= avail s1) as Ha1.
  { eapply (avail_regions_kept n1 s); [apply Hi|lia|apply Hf1|]. intros q R Hq. exists R. split; [|lia].
    rewrite HS1, lookup_insert_ne; [done|by eapply Hqr]. }
  assert (gV G1 !! v = Some (mk_vg (vg_regions g ++ [r]) (vg_maps g))) as Hv1 by (by rewrite HV1, lookup_insert_eq).
  assert (gR G1 !! r = Some (mk_rg [v] [])) as Hr1 by (by rewrite HR1, lookup_insert_eq).
  assert (gV G1 !! kv = Some gk) as Hk1v by (rewrite HV1, lookup_insert_ne by done; apply Hm).
  pose proof (module_mapped_frame n1 s s1 G G1 kv gk f base paddr size top Hm Hf1 Hk1v ltac:(lia)) as Hm1.
  change (wp (fill_region elf ph r) (fun ok s' => exists n r ps G', n <= 160 + (16 + notify_cost) * k /\
    segment_added n s G v g r paddr h ps s' G' /\
    ((ok = true /\ Z.of_nat (length ps) = k - pages_for (ph_file_size h)) \/
     (ok = false /\ forall q, first_user_page <= q -> page_at (pmem s') q <> Some PAGE_TYPE_FREE))) s1).
  eapply wp_mono.
  { eapply (fill_region_spec s1 G1 kv gk f base paddr size top elf ph r v R1); try done; fold h; fold k; try lia.
    - by rewrite HS1, lookup_insert_eq.
    - unfold region_room. rewrite Est1, Eal1, Z.add_0_r. split; [done|]. cbn [rg_attached].
      intros w gw i ->%list_elem_of_singleton Hgw Hik. assert (gw = mk_vg (vg_regions g ++ [r]) (vg_maps g)) as -> by congruence. by apply Hfree. }
  fold h k. intros ok s2 (n2 & ps & G2 & R2 & Hn2 & [Ho2 Hi2 HS2 ER2 HR2 HV2 HI2 _ Hot2] & Htk & Hres).
  rewrite Est1, Eal1, Z.add_0_r in HV2. cbn [rg_attached] in HV2.
  exists (n1 + n2), r, ps, G2. split; [lia|]. split; [|exact Hres]. split.
  - eapply vm_frame_trans; [exact Hf1|by apply vm_frame_grow].
  - done.
  - by eapply (linked_pages G1 G2 r (mk_rg [v] [])).
  - by rewrite (maps_added_single v _ _ _ _ Hv1 HV2), HV1, insert_insert_eq.
  - intros gi0 Hgi0. assert (gi0 = gi) as -> by congruence. by rewrite HI2.
  - intros q R Hq. pose proof (Hqr _ _ Hq). rewrite HS2, lookup_insert_ne, HS1, lookup_insert_ne by done. done.
  - by eapply taken_ext.
  - by eapply others_kept_trans.
  - intros p Hp. by rewrite HI2, HIo1.
Qed.
End load.
