(* ===== verification/LoadProgram.v ===== *)
(** The loop of module_loader.c over the program headers of a module: every
    segment to load becomes readable in the memory of the new task, byte for byte
    as it is in the file. *)
From S2P Require Import Prelude Machine Logic LinkedList ListRefinement IdMapper Pmem NativeVmem PageTable NativePaging Vmem Region VmInv VmemSpec RegionSpec VmStep VmCreate VirtualMemory Elf KernelMemory Loader.

(** * Programs *)

(** The header at [ph] is one to load. *)
Definition loads (f : Z -> Z) (ph : Z) : bool := ph_type (header_at f ph) =? ELF_PT_LOAD.

(** The addresses of a segment, in whole pages. *)
Definition seg_pages (f : Z -> Z) (ph va : Z) : Prop :=
  in_pages (ph_vaddr (header_at f ph)) (segment_pages (header_at f ph)) va.

Definition program_cost (f : Z -> Z) (hs : list Z) : Z :=
  foldr (fun ph n => (if loads f ph then segment_cost (header_at f ph) else 0) + n) 0 hs.

(** A program that can be loaded from a module of [size] bytes, mapped at [base],
    into an area with the maps [ms]: its headers are in the module, its segments
    fit, are apart and free. *)
Record program_ok (f : Z -> Z) (base paddr size : Z) (ms : list vmem_map_t) (hs : list Z) : Prop := {
  po_headers ph : ph ∈ hs -> ph <> 0 /\ base <= ph /\ ph + 56 <= base + size;
  po_fits ph : ph ∈ hs -> loads f ph = true -> segment_fits (header_at f ph) paddr size;
  po_free ph m : ph ∈ hs -> loads f ph = true -> m ∈ ms -> ~ seg_pages f ph (map_virtual_addr m);
  po_apart i j p q va : hs !! i = Some p -> hs !! j = Some q -> i <> j -> loads f p = true -> loads f q = true ->
    seg_pages f p va -> ~ seg_pages f q va }.

Lemma segment_cost_pos h paddr size : segment_fits h paddr size -> 0 <= segment_cost h.
Proof.
  intros [_ _ [Hf _] _ _ _]. destruct (pages_for_bounds _ Hf) as [Hk _]. unfold segment_cost, segment_pages, notify_cost. lia.
Qed.

Lemma program_cost_app f hs1 hs2 : program_cost f (hs1 ++ hs2) = program_cost f hs1 + program_cost f hs2.
Proof. unfold program_cost. induction hs1 as [|h hs IH]; cbn [foldr app]; [lia|]. rewrite IH. lia. Qed.

Lemma program_cost_pos f base paddr size ms hs : program_ok f base paddr size ms hs ->
  forall hs', (forall ph, ph ∈ hs' -> ph ∈ hs) -> 0 <= program_cost f hs'.
Proof.
  intros Hp hs'. unfold program_cost. induction hs' as [|h hs' IH]; cbn [foldr]; [lia|]. intros Hin.
  specialize (IH (fun ph Hx => Hin ph (list_elem_of_further _ _ _ Hx))). destruct (loads f h) eqn:E; [|lia].
  pose proof (segment_cost_pos _ _ _ (po_fits _ _ _ _ _ _ Hp h (Hin h (list_elem_of_here _ _)) E)). lia.
Qed.

(** * The loop *)

(** The segments [done] were loaded into the area [v]. *)
Record loaded `{Layout} (n : Z) (s : kstate) (G : ghost) (f : Z -> Z) (paddr v : Z) (g : vghost) (gi : idm)
    (hs : list Z) (s' : kstate) (G' : ghost) (g' : vghost) : Prop := {
  ld_frame : vm_frame n s s';
  ld_inv : vm_inv s' G';
  ld_linked : linked G';
  ld_V : gV G' = <[v := g']> (gV G);
  ld_ids : exists gi', gI G' !! a_vmem_region_mapper = Some gi' /\ g_next gi <= g_next gi' <= g_next gi + Z.of_nat (length hs);
  ld_pmem : pmem_ok (pmem s') /\ total_memory (pmem s') = total_memory (pmem s);
  ld_avail : avail s - n <= avail s';
  ld_others : others_kept G G';
  ld_I p : p <> a_vmem_region_mapper -> gI G' !! p = gI G !! p;
  ld_length : Z.of_nat (length (vg_regions g')) <= Z.of_nat (length (vg_regions g)) + Z.of_nat (length hs);
  ld_old m : m ∈ vg_maps g -> m ∈ vg_maps g';
  ld_new m : m ∈ vg_maps g' -> m ∈ vg_maps g \/ exists ph, ph ∈ hs /\ loads f ph = true /\ seg_pages f ph (map_virtual_addr m);
  ld_mapped ph i : ph ∈ hs -> loads f ph = true -> 0 <= i < segment_pages (header_at f ph) ->
    exists p r, mk_map (ph_vaddr (header_at f ph) + 4096 * i) p r ∈ vg_maps g' /\
      (i < pages_for (ph_file_size (header_at f ph)) -> p = paddr + ph_offset (header_at f ph) + 4096 * i) }.

Section loop.
Context `{K : Kalloc} `{!GoodAlloc K} `{Y : Layout}.

Lemma loaded_nil s G f paddr v g gi :
  vm_inv s G -> linked G -> gV G !! v = Some g -> gI G !! a_vmem_region_mapper = Some gi -> pmem_ok (pmem s) ->
  loaded 0 s G f paddr v g gi [] s G g.
Proof.
  intros Hi Hlk Hv HI Hpm. split; try done.
  - split; try done. apply grown_refl.
  - by rewrite insert_id.
  - exists gi. split; [done|]. cbn. lia.
  - lia.
  - cbn. lia.
  - by left.
  - intros ph i Hph. by apply elem_of_nil in Hph.
Qed.

(** A header that is not one to load. *)
Lemma loaded_skip n s G f paddr v g gi hs s' G' g' ph :
  loaded n s G f paddr v g gi hs s' G' g' -> loads f ph = false -> loaded n s G f paddr v g gi (hs ++ [ph]) s' G' g'.
Proof.
  intros [A B C D (gi' & E & E') F H I J L M N O] Hl. split; try done.
  - exists gi'. split; [done|]. rewrite length_app. cbn. lia.
  - rewrite length_app. cbn. lia.
  - intros m Hm. destruct (N m Hm) as [?|(x & Hx & Hr)]; [by left|right]. exists x. split; [apply elem_of_app; by left|done].
  - intros x i [Hx| ->%list_elem_of_singleton]%elem_of_app; [by apply O|congruence].
Qed.

(** The maps a segment adds. *)
Definition segment_maps (r paddr : Z) (h : elf_program_header_t) (ps : list Z) : list vmem_map_t :=
  region_maps r (ph_vaddr h) (frames (paddr + ph_offset h) (Z.to_nat (pages_for (ph_file_size h))) ++ ps).

Lemma segment_maps_at r paddr h ps i :
  0 <= ph_file_size h -> 0 <= i < pages_for (ph_file_size h) + Z.of_nat (length ps) ->
  exists p, mk_map (ph_vaddr h + 4096 * i) p r ∈ segment_maps r paddr h ps /\
    (i < pages_for (ph_file_size h) -> p = paddr + ph_offset h + 4096 * i).
Proof.
  intros Hf Hi. destruct (pages_for_bounds _ Hf) as [Hk _]. unfold segment_maps. set (k := pages_for (ph_file_size h)) in *.
  set (qs := frames (paddr + ph_offset h) (Z.to_nat k) ++ ps).
  assert (exists p, qs !! Z.to_nat i = Some p /\ (i < k -> p = paddr + ph_offset h + 4096 * i)) as (p & Hp & E).
  { destruct (Z.ltb_spec i k) as [Hlt|Hge].
    - exists (paddr + ph_offset h + 4096 * i). split; [|done]. unfold qs. rewrite lookup_app_l by (rewrite frames_length; lia).
      rewrite frames_lookup by lia. f_equal. lia.
    - destruct (qs !! Z.to_nat i) as [p|] eqn:Ep; [exists p; split; [done|lia]|]. apply lookup_ge_None in Ep.
      unfold qs in Ep. rewrite length_app, frames_length in Ep. lia. }
  exists p. split; [|done]. replace i with (Z.of_nat (Z.to_nat i)) by lia. by apply region_maps_lookup.
Qed.

Lemma segment_maps_vaddr r paddr h ps m :
  0 <= ph_file_size h -> m ∈ segment_maps r paddr h ps ->
  in_pages (ph_vaddr h) (pages_for (ph_file_size h) + Z.of_nat (length ps)) (map_virtual_addr m).
Proof.
  intros Hf Hm. destruct (pages_for_bounds _ Hf) as [Hk _]. apply region_maps_vaddr in Hm as [Hm _].
  rewrite length_app, frames_length in Hm. unfold in_pages. lia.
Qed.

Lemma loaded_snoc n n2 s G f paddr v g gi hs s1 G1 g1 ph r ps s2 G2 :
  let h := header_at f ph in
  loaded n s G f paddr v g gi hs s1 G1 g1 -> segment_added n2 s1 G1 v g1 r paddr h ps s2 G2 ->
  loads f ph = true -> 0 <= ph_file_size h -> pages_for (ph_file_size h) + Z.of_nat (length ps) = segment_pages h -> 0 <= avail s1 ->
  loaded (n + n2) s G f paddr v g gi (hs ++ [ph]) s2 G2 (mk_vg (vg_regions g1 ++ [r]) (vg_maps g1 ++ segment_maps r paddr h ps)).
Proof.
  intros h [A B C D (gi' & E & E') F H I J L M N O] [A2 B2 C2 D2 E2 F2 H2 I2 J2] Hl Hf Hps Hav.
  assert (length (hs ++ [ph]) = S (length hs)) as El by (rewrite length_app; cbn; lia). split.
  - by eapply vm_frame_trans.
  - done.
  - done.
  - by rewrite D2, D, insert_insert_eq.
  - destruct (E2 _ E) as (gi2 & Hgi2 & En). exists gi2. split; [done|]. lia.
  - split; [apply H2|]. by rewrite (tk_total _ _ _ H2), (proj2 F).
  - assert (avail s1 - n2 <= avail s2); [|lia]. eapply avail_regions_kept; [apply B|done|apply A2|]. intros q R Hq. exists R. split; [auto|lia].
  - by eapply others_kept_trans.
  - intros p Hp. by rewrite J2, J.
  - cbn [vg_regions]. rewrite length_app. cbn [length]. lia.
  - intros m Hm. cbn. apply elem_of_app. auto.
  - cbn. intros m [Hm|Hm]%elem_of_app.
    + destruct (N m Hm) as [?|(x & Hx & Hr)]; [by left|right]. exists x. split; [apply elem_of_app; by left|done].
    + right. exists ph. split; [apply elem_of_app; right; by constructor|]. split; [done|].
      apply segment_maps_vaddr in Hm; [|done]. unfold seg_pages. fold h. by rewrite <- Hps.
  - cbn. intros x i [Hx| ->%list_elem_of_singleton]%elem_of_app Hlx Hix.
    + destruct (O x i Hx Hlx Hix) as (p & r0 & Hin & Ep). exists p, r0. split; [apply elem_of_app; by left|done].
    + fold h in Hix |- *. destruct (segment_maps_at r paddr h ps i Hf ltac:(lia)) as (p & Hin & Ep). exists p, r.
      split; [apply elem_of_app; by right|done].
Qed.

(** The addresses of a segment are free when the others are apart. *)
Lemma loaded_free n s G f base paddr size v g gi hs done ph rest s' G' g' :
  program_ok f base paddr size (vg_maps g) hs -> hs = done ++ ph :: rest ->
  loaded n s G f paddr v g gi done s' G' g' -> loads f ph = true ->
  forall i, 0 <= i < segment_pages (header_at f ph) ->
    ph_vaddr (header_at f ph) + 4096 * i ∉ map_virtual_addr <$> vg_maps g'.
Proof.
  intros Hp Ehs Hld Hl i Hi (m & Em & Hm)%list_elem_of_fmap.
  assert (seg_pages f ph (map_virtual_addr m)) as Hin by (unfold seg_pages, in_pages; lia).
  assert (hs !! length done = Some ph) as Hph by (rewrite Ehs; by rewrite list_lookup_middle).
  destruct (ld_new _ _ _ _ _ _ _ _ _ _ _ _ Hld m Hm) as [Hold|(q & Hq & Hlq & Hqin)].
  - eapply (po_free _ _ _ _ _ _ Hp ph m); [by eapply list_elem_of_lookup_2|done|done|done].
  - apply list_elem_of_lookup in Hq as (j & Hj). pose proof (lookup_lt_Some _ _ _ Hj) as Hlt.
    eapply (po_apart _ _ _ _ _ _ Hp j (length done) q ph); [|exact Hph|lia|done|done|exact Hqin|done].
    rewrite Ehs. by rewrite lookup_app_l.
Qed.

(** What the loop relies on: the module is mapped for reading, the list of its
    headers is [ns], the area [v] is not the kernel's, and there is memory. *)
Record loadable (s : kstate) (G : ghost) (kv : Z) (gk : vghost) (f : Z -> Z) (base paddr size top : Z) (elf : elf_t)
    (ns : list (Z * Z)) (v : Z) (g : vghost) (gi : idm) : Prop := {
  lb_inv : vm_inv s G;
  lb_linked : linked G;
  lb_module : module_mapped s G kv gk f base paddr size top;
  lb_base : elf_base elf = base;
  lb_list : gRo G !! program_headers elf = Some ROther /\ gL G !! program_headers elf = Some ns;
  lb_program : program_ok f base paddr size (vg_maps g) (values ns);
  lb_area : v <> kv /\ gV G !! v = Some g;
  lb_ids : gI G !! a_vmem_region_mapper = Some gi /\ 0 < g_next gi /\ g_next gi + Z.of_nat (length ns) < 2 ^ 63;
  lb_length : Z.of_nat (length (vg_regions g)) + Z.of_nat (length ns) < 2 ^ 31;
  lb_pmem : pmem_ok (pmem s) /\ total_memory (pmem s) <= 2 ^ 48;
  lb_memory : program_cost f (values ns) <= avail s;
  lb_top : heap_top (mem s) + program_cost f (values ns) <= top /\ top <= 2 ^ 48 }.

Lemma load_program_headers_spec s G kv gk f base paddr size top elf ns v g gi :
  loadable s G kv gk f base paddr size top elf ns v g gi ->
  wp (load_program_headers elf v) (fun res s' => match res with
    | inl _ => exists n G' g', n <= program_cost f (values ns) /\ loaded n s G f paddr v g gi (values ns) s' G' g'
    | inr _ => forall q, first_user_page <= q -> page_at (pmem s') q <> Some PAGE_TYPE_FREE end) s.
Proof.
  intros [Hi Hlk Hm Eb [Hro Hns] Hp [Hvk Hv] (HI & Hg0 & Hgn) Hlen [Hpm Htot] Ha [Htop Htop48]].
  assert (length (values ns) = length ns) as Elen by apply length_fmap. set (hs := values ns) in *.
  assert (upto_null hs = hs) as Hup.
  { apply upto_null_all, Forall_forall. intros ph Hph. by apply (po_headers _ _ _ _ _ _ Hp). }
  unfold load_program_headers. eapply (wp_while_linkedlist_iter (program_headers elf) ns _ (fun done _ s' => exists n G' g',
    n <= program_cost f done /\ loaded n s G f paddr v g gi done s' G' g')).
  - intros done _ s' (n & G' & g' & _ & Hld). destruct (ld_others _ _ _ _ _ _ _ _ _ _ _ _ Hld _ Hro) as [_ E].
    eapply inv_is_list; [apply Hld|by rewrite E].
  - intros done ph _ s' [rest Hpre] Hph0 (n & G' & g' & Hn & Hld). fold hs in Hpre. rewrite Hup, <- app_assoc in Hpre. cbn in Hpre.
    assert (ph ∈ hs) as Hin by (rewrite Hpre; set_solver). destruct (po_headers _ _ _ _ _ _ Hp ph Hin) as (_ & Hb & He).
    assert (program_cost f hs = program_cost f done + program_cost f [ph] + program_cost f rest) as Ec.
    { rewrite Hpre, program_cost_app. change (ph :: rest) with ([ph] ++ rest). rewrite program_cost_app. lia. }
    assert (0 <= program_cost f rest) as Hrest.
    { eapply program_cost_pos; [exact Hp|]. intros x Hx. rewrite Hpre. set_solver. }
    assert (Z.of_nat (length done) < Z.of_nat (length ns)) as Hd by (rewrite <- Elen, Hpre, length_app; cbn; lia).
    pose proof (gr_top _ _ _ (vf_grown _ _ _ (ld_frame _ _ _ _ _ _ _ _ _ _ _ _ Hld))) as Et.
    pose proof (ld_avail _ _ _ _ _ _ _ _ _ _ _ _ Hld) as Hav. pose proof (ld_V _ _ _ _ _ _ _ _ _ _ _ _ Hld) as HV.
    assert (0 <= program_cost f [ph]) as Hone.
    { eapply program_cost_pos; [exact Hp|]. intros x ->%list_elem_of_singleton. done. }
    assert (gV G' !! kv = Some gk) as Hkv by (rewrite HV, lookup_insert_ne by done; apply Hm).
    pose proof (module_mapped_frame n s s' G G' kv gk f base paddr size top Hm (ld_frame _ _ _ _ _ _ _ _ _ _ _ _ Hld) Hkv ltac:(lia)) as Hm'.
    pose proof (ld_inv _ _ _ _ _ _ _ _ _ _ _ _ Hld) as Hi'.
    unfold ph_type_at. replace ph with (ph + 0) at 1 by lia.
    eapply (wpx_field 4 0); [exact Hi'|exact Hm'|done|done|lia|cbn; lia|]. rewrite Z.add_0_r.
    change (le_load f ph 4 =? ELF_PT_LOAD) with (loads f ph). unfold program_cost in Hone, Ec. cbn [foldr] in Hone, Ec. fold (program_cost f hs) (program_cost f done) (program_cost f rest) in Ec.
    destruct (loads f ph) eqn:Hl.
    2: { wstep. exists n, G', g'. split; [|by apply loaded_skip]. rewrite program_cost_app. unfold program_cost at 2. cbn [foldr]. rewrite Hl. lia. }
    destruct (vi_vmems _ _ Hi' v g') as (vm & pt & Hr); [by rewrite HV, lookup_insert_eq|].
    destruct (ld_ids _ _ _ _ _ _ _ _ _ _ _ _ Hld) as (gi' & HI' & Hgi'). destruct (ld_pmem _ _ _ _ _ _ _ _ _ _ _ _ Hld) as [Hpm' Htot'].
    pose proof (po_fits _ _ _ _ _ _ Hp ph Hin Hl) as Hfit. pose proof (ld_length _ _ _ _ _ _ _ _ _ _ _ _ Hld) as Hll.
    eapply wpx_call.
    { eapply (allocate_program_header_spec s' G' kv gk f base paddr size top elf ph v g' vm gi'); try done; try lia.
      - apply Hld.
      - by rewrite HV, lookup_insert_eq.
      - apply Hr.
      - by eapply loaded_free. }
    intros ok s2 (n2 & r & ps & G2 & Hn2 & Hsa & Hres). wstep. destruct Hres as [[-> Hps]|[-> Hno]]; cbn [negb]; [|exact Hno].
    exists (n + n2), G2, (mk_vg (vg_regions g' ++ [r]) (vg_maps g' ++ segment_maps r paddr (header_at f ph) ps)).
    split; [rewrite program_cost_app; unfold program_cost at 2; cbn [foldr]; rewrite Hl; lia|].
    apply (loaded_snoc n n2 s G f paddr v g gi done s' G'); [done|done|done|apply Hfit|lia|lia].
  - intros [] s' H. fold hs in H. rewrite Hup in H. exact H.
  - exists 0, G, g. split; [done|]. by apply loaded_nil.
Qed.
End loop.
