(* ===== verification/LoadModule.v ===== *)
(** A module from the file to its own area: the first part of the loop of
    [module_task_initialize], which maps the module into the kernel area, parses
    it, makes an area and loads the program into it.

    The theorems are for the loop over the headers and for the whole of it: the
    new area holds the program byte for byte. *)
From S2P Require Import Prelude Machine Logic LinkedList ListRefinement IdMapper Pmem NativeVmem PageTable NativePaging Vmem Region VmInv VmemSpec RegionSpec VmStep VmCreate VirtualMemory Elf KernelMemory KernelInv Loader LoadProgram.

(** * The program in its area *)

(** The area [v] holds the program of the image [f] at [base] with the headers
    [hs]: the bytes of the file at the addresses of the segments, and memory
    behind them. *)
Definition program_in (s : kstate) (v : Z) (f : Z -> Z) (base : Z) (hs : list Z) : Prop :=
  forall ph, ph ∈ hs -> loads f ph = true -> let h := header_at f ph in
    (forall o, 0 <= o < ph_file_size h -> exists pa, translate s v (ph_vaddr h + o) = Some pa /\
       ram (mem s) pa = f (base + ph_offset h + o)) /\
    (forall o, 0 <= o < ph_mem_size h -> is_Some (translate s v (ph_vaddr h + o))).

Lemma lookup_map_agree ms ms' va :
  NoDup (map_virtual_addr <$> ms') -> (forall m, m ∈ ms -> m ∈ ms') ->
  (forall m, m ∈ ms' -> map_virtual_addr m = va / 4096 * 4096 -> m ∈ ms) -> lookup_map ms' va = lookup_map ms va.
Proof.
  intros Hnd Hsub Hback. destruct (lookup_map ms va) as [x|] eqn:E.
  - apply lookup_map_inv in E as (m & Hm & Em & ->). apply lookup_map_Some; [done|auto|done].
  - destruct (lookup_map ms' va) as [y|] eqn:E'; [|done]. apply lookup_map_inv in E' as (m & Hm & Em & _).
    specialize (Hback m Hm Em). apply list_elem_of_lookup in Hback as (i & Hi). clear -E Hi Em.
    exfalso. revert i Hi E. induction ms as [|x ms IH]; intros i Hi; [done|]. cbn. destruct i as [|i]; cbn in Hi.
    + injection Hi as ->. rewrite Em, Z.eqb_refl. done.
    + destruct (_ =? _); [done|]. by eapply IH.
Qed.

Lemma page_split n o : 0 <= o -> o < n -> exists i o', o = 4096 * i + o' /\ 0 <= o' < 4096 /\ 0 <= i < pages_for n.
Proof.
  intros Ho Hn. exists (o / 4096), (o mod 4096). pose proof (Z.div_mod o 4096). pose proof (Z.mod_pos_bound o 4096).
  destruct (pages_for_bounds n ltac:(lia)). assert (0 <= o / 4096) by (apply Z.div_pos; lia). lia.
Qed.

Section program.
Context `{K : Kalloc} `{!GoodAlloc K} `{Y : Layout}.

Lemma loaded_program s G kv gk f base paddr size top elf ns v g gi n s' G' g' :
  loadable s G kv gk f base paddr size top elf ns v g gi -> n <= program_cost f (values ns) ->
  loaded n s G f paddr v g gi (values ns) s' G' g' -> program_in s' v f base (values ns).
Proof.
  intros Hlb Hn Hld ph Hph Hl h. pose proof Hlb as [_ _ Hm _ _ Hp _ _ _ _ _ [Htop _]].
  assert (gV G' !! v = Some g') as Hv' by (by rewrite (ld_V _ _ _ _ _ _ _ _ _ _ _ _ Hld), lookup_insert_eq).
  pose proof (vf_grown _ _ _ (ld_frame _ _ _ _ _ _ _ _ _ _ _ _ Hld)) as Hg. pose proof (gr_top _ _ _ Hg) as Et.
  pose proof (po_fits _ _ _ _ _ _ Hp ph Hph Hl) as Hfit. fold h in Hfit. pose proof Hfit as [_ [Ho _] [Hf Hfe] _ Hms _].
  assert (pages_for (ph_file_size h) <= segment_pages h /\ pages_for (ph_mem_size h) <= segment_pages h) as [Hs1 Hs2]
    by (unfold segment_pages; lia).
  split; intros o Hoo.
  - destruct (page_split (ph_file_size h) o) as (i & o' & Eo & Ho' & Hik); [lia|lia|].
    destruct (ld_mapped _ _ _ _ _ _ _ _ _ _ _ _ Hld ph i Hph Hl ltac:(fold h; lia)) as (p & r & Hin & Ep). fold h in Hin, Ep.
    rewrite (Ep ltac:(lia)) in Hin. exists (paddr + ph_offset h + 4096 * i + o').
    split; [rewrite Eo, Z.add_assoc; eapply translate_map; [apply Hld|done..]|].
    rewrite (gr_above _ _ _ Hg); [|pose proof (mm_top _ _ _ _ _ _ _ _ _ Hm); lia].
    replace (paddr + ph_offset h + 4096 * i + o') with (paddr + (base + ph_offset h + o - base)) by lia.
    apply (mm_bytes _ _ _ _ _ _ _ _ _ Hm). lia.
  - destruct (page_split (ph_mem_size h) o) as (i & o' & Eo & Ho' & Hik); [lia|lia|].
    destruct (ld_mapped _ _ _ _ _ _ _ _ _ _ _ _ Hld ph i Hph Hl ltac:(fold h; lia)) as (p & r & Hin & _). fold h in Hin.
    exists (p + o'). rewrite Eo, Z.add_assoc. eapply translate_map; [apply Hld|done..].
Qed.

End program.

(** * From the module to its area *)

(** Kernel memory to read a module of [k] pages with [e] headers, and to load it. *)
Definition read_cost (k e : Z) : Z := 160 + (16 + notify_cost) * k + (16 + 16 * e).
Definition module_cost (G : ghost) (rs : list Z) (f : Z -> Z) (base k : Z) : Z :=
  read_cost k (entries_of f base) + (area_cost G rs + (32 + notify_cost * k)) + program_cost f (headers_of f base).

(** A module [m] that can be loaded: the kernel area [kv] is in use and has room
    for it at [base], the address of its next region; the file is [f]; if it is an
    ELF file its segments fit and are apart from the kernel and the window; there is
    memory for all of it below the module. *)
Record module_ok `{Layout} (s : kstate) (G : ghost) (kv : Z) (gk : vghost) (module : Z) (m : info_module_t) (f : Z -> Z)
    (base : Z) (gi gv : idm) : Prop := {
  mo_inv : vm_inv s G;
  mo_linked : linked G;
  mo_kernel : kv <> 0 /\ kernel_vmem (Machine.vm s) = kv /\ memory_handler (boot s) = kv /\ root_of s kv = Some (cr3 (paging s));
  mo_area : gV G !! kv = Some gk /\ exists vm, vmems (Machine.vm s) !! kv = Some vm /\ next_start_address vm = base;
  mo_module : mods (boot s) !! module = Some m;
  mo_size : 58 <= seg_size (m_region m);
  mo_base : page_ok base /\ 0 < base /\ base + 4096 * pages_for (seg_size (m_region m)) <= 2 ^ 48;
  mo_paddr : 0 < addr_start (m_region m) /\ addr_start (m_region m) mod 4096 = 0 /\
    addr_start (m_region m) + 4096 * pages_for (seg_size (m_region m)) <= 2 ^ 48;
  mo_free i : 0 <= i < pages_for (seg_size (m_region m)) -> base + 4096 * i ∉ map_virtual_addr <$> vg_maps gk;
  mo_bytes a : base <= a < base + seg_size (m_region m) -> ram (mem s) (addr_start (m_region m) + (a - base)) = f a;
  mo_byte a : 0 <= f a < 256;
  mo_program : check_ident (ident_of f base) = ELF_SUCCESS ->
    program_ok f base (addr_start (m_region m)) (seg_size (m_region m)) (area_maps s G (vg_regions gk)) (headers_of f base) /\
    forall ph va, ph ∈ headers_of f base -> loads f ph = true -> in_pages base (pages_for (seg_size (m_region m))) va -> ~ seg_pages f ph va;
  mo_ids : gI G !! a_vmem_region_mapper = Some gi /\ 0 < g_next gi < 2 ^ 62;
  mo_vids : gI G !! a_vmem_id_mapper = Some gv /\ 0 < g_next gv < 2 ^ 62;
  mo_length : Z.of_nat (length (vg_regions gk)) < 2 ^ 30;
  mo_pmem : pmem_ok (pmem s) /\ total_memory (pmem s) <= 2 ^ 48;
  mo_memory : module_cost G (vg_regions gk) f base (pages_for (seg_size (m_region m))) <= avail s;
  mo_top : heap_top (mem s) + module_cost G (vg_regions gk) f base (pages_for (seg_size (m_region m))) <= addr_start (m_region m) }.

(** The module at [paddr] is mapped in the region [r] of the kernel area. *)
Record module_window `{Layout} (n : Z) (s : kstate) (G : ghost) (kv : Z) (gk : vghost) (f : Z -> Z) (base paddr size : Z) (gi : idm)
    (s' : kstate) (G' : ghost) (r : Z) : Prop := {
  mw_frame : vm_frame n s s';
  mw_inv : vm_inv s' G';
  mw_linked : linked G';
  mw_V : gV G' = <[kv := mk_vg (vg_regions gk ++ [r]) (vg_maps gk ++ region_maps r base (frames paddr (Z.to_nat (pages_for size))))]> (gV G);
  mw_mapped : module_mapped s' G' kv (mk_vg (vg_regions gk ++ [r]) (vg_maps gk ++ region_maps r base (frames paddr (Z.to_nat (pages_for size)))))
    f base paddr size paddr;
  mw_maps : area_maps s' G' (vg_regions gk ++ [r]) = area_maps s G (vg_regions gk) ++ region_maps r base (frames paddr (Z.to_nat (pages_for size)));
  mw_cost : area_cost G' (vg_regions gk ++ [r]) = area_cost G (vg_regions gk) + (32 + notify_cost * pages_for size);
  mw_ids : exists gi', gI G' !! a_vmem_region_mapper = Some gi' /\ g_next gi' = g_next gi + 1;
  mw_others p : p <> a_vmem_region_mapper -> gI G' !! p = gI G !! p;
  mw_pmem : pmem_ok (pmem s') /\ total_memory (pmem s') = total_memory (pmem s);
  mw_avail : avail s - n <= avail s' }.

Lemma attach_costs_ext G G' rs : (forall r, r ∈ rs -> pages_of G' r = pages_of G r) -> attach_costs G' rs = attach_costs G rs.
Proof.
  unfold attach_costs. induction rs as [|r rs IH]; [done|]. cbn [foldr]. intros H. rewrite (H r) by apply list_elem_of_here.
  rewrite IH; [done|]. intros q Hq. apply H. by apply list_elem_of_further.
Qed.

Lemma area_maps_ext s s' G G' rs :
  (forall r, r ∈ rs -> pages_of G' r = pages_of G r /\ start_of s' r = start_of s r) -> area_maps s' G' rs = area_maps s G rs.
Proof.
  unfold area_maps. intros H. f_equal. apply list_fmap_ext. intros i r Hr. apply list_elem_of_lookup_2 in Hr.
  by destruct (H r Hr) as [-> ->].
Qed.

Lemma window_lookup r base paddr k ms a :
  NoDup (map_virtual_addr <$> ms) -> (forall m, m ∈ region_maps r base (frames paddr (Z.to_nat k)) -> m ∈ ms) ->
  base mod 4096 = 0 -> base <= a < base + 4096 * k -> lookup_map ms a = Some (paddr + (a - base)).
Proof.
  intros Hnd Hin Hb Ha. set (i := (a - base) / 4096). pose proof (Z.div_mod (a - base) 4096) as Hd.
  pose proof (Z.mod_pos_bound (a - base) 4096) as Hm. fold i in Hd. assert (0 <= i) by (apply Z.div_pos; lia).
  set (o := (a - base) mod 4096) in *. destruct (page_offset base i o Hb (Hm ltac:(lia))) as [E1 E2].
  replace a with (base + 4096 * i + o) at 1 by lia.
  rewrite (lookup_map_Some ms (mk_map (base + 4096 * i) (paddr + 4096 * i) r)); [cbn; rewrite E2; f_equal; lia|done| |cbn; lia].
  apply Hin. pose proof (region_maps_lookup r base (frames paddr (Z.to_nat k)) (Z.to_nat i) (paddr + 4096 * i)) as Hr.
  rewrite Z2Nat.id in Hr by done. apply Hr. rewrite frames_lookup by lia. f_equal. lia.
Qed.

Lemma program_cost_nonneg f hs : (forall a, 0 <= f a < 256) -> 0 <= program_cost f hs.
Proof.
  intros Hf. unfold program_cost. induction hs as [|h hs IH]; cbn [foldr]; [lia|]. destruct (loads f h); [|lia].
  assert (0 <= ph_file_size (header_at f h)) as Hh by apply (le_load_range f (h + 32) 8 Hf).
  destruct (pages_for_bounds _ Hh) as [Hk _].
  assert (0 <= segment_cost (header_at f h)) by (unfold segment_cost, segment_pages, notify_cost; lia). lia.
Qed.

Lemma only_lists_same n s s' : only_lists n s s' -> pmem s' = pmem s /\ Machine.vm s' = Machine.vm s.
Proof. by intros (H & N & m' & -> & _). Qed.

Section module.
Context `{K : Kalloc} `{!GoodAlloc K} `{Y : Layout}.

Lemma map_module_spec s G kv gk module m f base gi gv :
  module_ok s G kv gk module m f base gi gv ->
  wp (map_module module) (fun vaddr s' => vaddr = base /\ exists n G' r, n <= 160 + (16 + notify_cost) * pages_for (seg_size (m_region m)) /\
    module_window n s G kv gk f base (addr_start (m_region m)) (seg_size (m_region m)) gi s' G' r) s.
Proof.
  intros [Hi Hlk (Hk0 & Hk & Hmh & Hroot) (Hgk & vm & Hvm & Hnx) Hm Hsz (Hb & Hb0 & Hbe) (Hp0 & Hpm & Hpe) Hfree Hby Hbyte Hprog
    (HI & Hgi0 & Hgi) (Hgv & _) Hlen [Hpok Htot] Ha Ht].
  set (paddr := addr_start (m_region m)) in *. set (size := seg_size (m_region m)) in *. set (k := pages_for size) in *.
  destruct (pages_for_bounds size ltac:(lia)) as [Hk' Hkb]. fold k in Hk', Hkb.
  assert (0 <= entries_of f base) as He0 by (apply le_load_range; done).
  set (e := entries_of f base) in *. set (rs := vg_regions gk) in *.
  pose proof (program_cost_nonneg f (headers_of f base) Hbyte) as Hpc. pose proof (attach_costs_pos G rs) as Hac.
  assert (0 <= notify_cost) as Hnc by (unfold notify_cost; lia). assert (0 <= (16 + notify_cost) * k /\ 0 <= notify_cost * k) as [Hck Hnk] by nia.
  unfold module_cost, area_cost, read_cost in Ha, Ht. pose proof (heap_top_pos _ (vi_alloc _ _ Hi)) as Hpos.
  unfold map_module. wstep. wstep. rewrite Hmh.
  assert (create_base vm 0 = base) as Ecb by done.
  eapply wpx_call; [eapply (create_region_spec s G kv gk vm _ 0 true true true gi); rewrite ?Ecb; try done; fold rs; lia|].
  rewrite Ecb.
  intros r s1 (Hr0 & n1 & G1 & R1 & Hn1 & Hf1 & Hi1 & Hlk1 & Hnew & HV1 & HR1 & (gi1 & HI1 & Hgi1) & HS1 & HnS & Est1 & Esz1 & Eal1 & _ & Hpm1 & Htot1 & Hot1 & HIo1).
  pose proof (gr_top _ _ _ (vf_grown _ _ _ Hf1)) as Et1. pose proof (gr_pos _ _ _ (vf_grown _ _ _ Hf1)) as Hp1.
  assert (avail s - n1 <= avail s1) as Ha1.
  { eapply (avail_regions_kept n1 s); [apply Hi|lia|apply Hf1|]. intros q R Hq. exists R. split; [|lia].
    rewrite HS1, lookup_insert_ne; [done|]. intros <-. congruence. }
  eapply wpx_bind, wpx_load; [cbn; rewrite (vf_boot _ _ _ Hf1); exact Hm|].
  rewrite ALIGN_NEXT_page by lia. fold size paddr. fold (pages_for size). fold k.
  assert (k * 4096 / 4096 = k) as Ekd by (apply Z.div_mul; lia).
  assert (assoc_cost (mk_rg [kv] []) = 16 + notify_cost) as Eac by (unfold assoc_cost; cbn [rg_attached length]; lia).
  assert (gV G1 !! kv = Some (mk_vg (rs ++ [r]) (vg_maps gk))) as Hk1 by (by rewrite HV1, lookup_insert_eq).
  assert (gR G1 !! r = Some (mk_rg [kv] [])) as Hr1 by (by rewrite HR1, lookup_insert_eq).
  eapply wp_mono.
  { eapply (vmem_region_map_physical_spec s1 G1 r (mk_rg [kv] []) R1 paddr (k * 4096)); rewrite ?Ekd, ?Eac; try done; try lia.
    - by rewrite HS1, lookup_insert_eq.
    - apply Z.mod_mul. lia.
    - unfold region_room. rewrite Est1, Eal1, Z.add_0_r. split; [done|]. cbn [rg_attached].
      intros w gw i ->%list_elem_of_singleton Hgw Hik. assert (gw = mk_vg (rs ++ [r]) (vg_maps gk)) as -> by congruence. by apply Hfree. }
  rewrite Ekd, Eac. intros va s2 (-> & n2 & G2 & R2 & Hn2 & [Ho2 Hi2 HS2 ER2 HR2 HV2 HI2 _ Hot2] & _ & Ep2 & Ha2).
  rewrite Est1, Eal1, Z.add_0_r in *. cbn [rg_attached rg_pages app] in HR2, HV2.
  pose proof (vm_frame_grow _ _ _ Ho2) as Hf2. pose proof (gr_top _ _ _ (vf_grown _ _ _ Hf2)) as Et2.
  set (ps := frames paddr (Z.to_nat k)) in *. 
  split; [done|]. exists (n1 + n2), G2, r. split; [lia|].
  assert (length ps = Z.to_nat k) as Elp by apply frames_length.
  assert (gV G2 = <[kv := mk_vg (rs ++ [r]) (vg_maps gk ++ region_maps r base ps)]> (gV G)) as EV2.
  { by rewrite (maps_added_single kv _ _ _ _ Hk1 HV2), HV1, insert_insert_eq. }
  assert (gV G2 !! kv = Some (mk_vg (rs ++ [r]) (vg_maps gk ++ region_maps r base ps))) as Hk2 by (by rewrite EV2, lookup_insert_eq).
  assert (forall q, q ∈ rs -> q <> r) as Hne.
  { intros q Hq ->. destruct (lk_region _ Hlk kv gk r Hgk Hq) as (h & Hh & _). congruence. }
  assert (pages_of G2 r = ps /\ start_of s2 r = base) as [Epr Esr].
  { unfold pages_of, start_of. rewrite HR2, HS2, !lookup_insert_eq. cbn. split; [done|]. by rewrite ER2. }
  assert (forall q, q ∈ rs -> pages_of G2 q = pages_of G q /\ start_of s2 q = start_of s q) as Hold.
  { intros q Hq. pose proof (Hne q Hq). unfold pages_of, start_of. rewrite HR2, HR1, HS2, HS1, !lookup_insert_ne by congruence. done. }
  split.
  - by eapply vm_frame_trans.
  - done.
  - by eapply (linked_pages G1 G2 r (mk_rg [kv] [])).
  - done.
  - destruct (vi_vmems _ _ Hi2 _ _ Hk2) as (vm2 & pt & Hr2). pose proof (vm_frame_trans _ _ _ _ _ Hf1 Hf2) as Hf. split.
    + done.
    + by rewrite (vf_boot _ _ _ Hf).
    + rewrite (vf_cr3 _ _ _ Hf). by apply (vf_roots _ _ _ Hf).
    + lia.
    + done.
    + intros a Hab. eapply (window_lookup r base paddr k); [apply Hr2| |apply Hb|lia]. intros x Hx. apply elem_of_app. by right.
    + intros a Hab. rewrite (gr_above _ _ _ (vf_grown _ _ _ Hf)) by lia. by apply Hby.
    + lia.
  - fold rs k ps. rewrite area_maps_snoc, Epr, Esr. f_equal. by apply area_maps_ext.
  - fold rs k. unfold area_cost. rewrite attach_costs_app, (attach_costs_ext G G2) by (intros q Hq; by apply Hold).
    unfold attach_costs at 2. cbn [foldr]. rewrite Epr. unfold attach_cost. rewrite Elp. lia.
  - exists gi1. by rewrite HI2.
  - intros p Hp. by rewrite HI2, HIo1.
  - by rewrite Ep2.
  - lia.
Qed.

(** A list of the program leaves the window alone. *)
Lemma window_new_list n n2 s G kv gk f base paddr size gi s1 G1 r s2 l ns :
  module_window n s G kv gk f base paddr size gi s1 G1 r -> only_lists n2 s1 s2 -> gL G1 !! l = None ->
  lists_inv s2 (<[l := ns]> (gL G1)) -> heap_top (mem s1) + n2 <= paddr -> paddr <= 2 ^ 48 ->
  module_window (n + n2) s G kv gk f base paddr size gi s2 (with_list l ROther ns G1) r.
Proof.
  intros [A B [C1 C2 C3] D E F H I J P Q] Ho Hl HL Ht Hp. pose proof (vm_frame_lists _ _ _ Ho) as Hf.
  pose proof (gr_top _ _ _ (vf_grown _ _ _ Hf)) as Et. destruct (only_lists_same _ _ _ Ho) as [Ep Ev].
  destruct (only_lists_avail _ _ _ (vi_alloc _ _ B) Ho) as [_ Ha]. split; try done.
  - by eapply vm_frame_trans.
  - eapply (vm_inv_new_list n2 s1 s2 G1 l ROther ns); (done || lia).
  - eapply (module_mapped_frame n2 s1 s2 G1); [exact E|exact Hf| |lia]. cbn. apply E.
  - rewrite <- F. apply area_maps_ext. intros q _. unfold start_of. by rewrite Ev.
  - by rewrite Ep.
  - lia.
Qed.

Lemma read_module_spec s G kv gk module m f base gi gv :
  module_ok s G kv gk module m f base gi gv ->
  wp (read_module module) (fun res s' => match res with
    | inl _ => False
    | inr (inl e) => e = check_ident (ident_of f base) /\ e <> ELF_SUCCESS
    | inr (inr elf) => check_ident (ident_of f base) = ELF_SUCCESS /\
        elf_base elf = base /\ entry_point elf = le_load f (base + 24) 8 /\ exists n G' r ns,
        n <= read_cost (pages_for (seg_size (m_region m))) (entries_of f base) /\
        module_window n s G kv gk f base (addr_start (m_region m)) (seg_size (m_region m)) gi s' G' r /\
        gRo G' !! program_headers elf = Some ROther /\ gL G' !! program_headers elf = Some ns /\ values ns = headers_of f base end) s.
Proof.
  intros Hok. pose proof Hok as [Hi _ _ _ Hm Hsz (_ & Hb0 & _) (Hp0 & _ & Hpe) _ _ Hbyte _ _ _ _ _ Ha Ht].
  set (paddr := addr_start (m_region m)) in *. set (size := seg_size (m_region m)) in *. set (k := pages_for size) in *.
  destruct (pages_for_bounds size ltac:(lia)) as [Hk' _]. fold k in Hk'.
  assert (0 <= entries_of f base) as He0 by (apply le_load_range; done).
  pose proof (program_cost_nonneg f (headers_of f base) Hbyte) as Hpc. pose proof (attach_costs_pos G (vg_regions gk)) as Hac.
  assert (0 <= notify_cost * k) by (unfold notify_cost; lia). unfold module_cost, area_cost, read_cost in Ha, Ht.
  unfold read_module. eapply wp_call; [by eapply map_module_spec|]. fold paddr size k. intros va s1 (-> & n & G1 & r & Hn & Hw).
  pose proof (gr_top _ _ _ (vf_grown _ _ _ (mw_frame _ _ _ _ _ _ _ _ _ _ _ _ _ Hw))) as Et. pose proof (mw_inv _ _ _ _ _ _ _ _ _ _ _ _ _ Hw) as Hi1.
  pose proof (mw_avail _ _ _ _ _ _ _ _ _ _ _ _ _ Hw) as Ha1. pose proof (module_readable _ _ _ _ _ _ _ _ _ Hi1 (mw_mapped _ _ _ _ _ _ _ _ _ _ _ _ _ Hw)) as Him.
  nonnull base. eapply wpx_bind, wpx_load; [cbn; rewrite (vf_boot _ _ _ (mw_frame _ _ _ _ _ _ _ _ _ _ _ _ _ Hw)); exact Hm|]. fold size.
  eapply wpx_call.
  { eapply (elf_parser_spec s1 (gL G1) f base size); [apply Hi1|apply Hi1|done|lia|lia|intros a Hab; apply Him; lia|lia]. }
  intros res s2 Hres. wstep. destruct (Z.eqb_spec (check_ident (ident_of f base)) ELF_SUCCESS) as [Eok|Hne].
  - destruct Hres as (l & L' & ns & -> & Ho & Hl & -> & HL & Hv). cbn [elf_base entry_point program_headers].
    do 3 (split; [done|]). exists (n + (16 + 16 * entries_of f base)), (with_list l ROther ns G1), r, ns.
    split; [unfold read_cost; lia|]. split; [eapply window_new_list; (done || lia)|]. cbn. by rewrite !lookup_insert_eq.
  - by destruct Hres as [-> _].
Qed.

(** A program that is apart from the window too. *)
Lemma program_ok_window f base paddr size ms hs r ps :
  program_ok f base paddr size ms hs ->
  (forall ph va, ph ∈ hs -> loads f ph = true -> in_pages base (Z.of_nat (length ps)) va -> ~ seg_pages f ph va) ->
  program_ok f base paddr size (ms ++ region_maps r base ps) hs.
Proof.
  intros [A B C D] Hw. split; try done. intros ph x Hph Hl [Hx|Hx]%elem_of_app; [by apply C|].
  apply region_maps_vaddr in Hx as [Hx _]. by apply Hw.
Qed.

Lemma area_loadable s G kv gk module m f base gi gv n s1 G1 r elf ns :
  let paddr := addr_start (m_region m) in let size := seg_size (m_region m) in
  module_ok s G kv gk module m f base gi gv -> check_ident (ident_of f base) = ELF_SUCCESS ->
  n <= read_cost (pages_for size) (entries_of f base) -> module_window n s G kv gk f base paddr size gi s1 G1 r ->
  elf_base elf = base -> gRo G1 !! program_headers elf = Some ROther -> gL G1 !! program_headers elf = Some ns ->
  values ns = headers_of f base ->
  wp vmem_create (fun v s' => exists G' gk' g gi', gV G !! v = None /\ gV G' = <[v := g]> (gV G1) /\
    loadable s' G' kv gk' f base paddr size paddr elf ns v g gi') s1.
Proof.
  intros paddr size Hok Eid Hn Hw Eb Hro Hns Hv. pose proof Hok as [_ _ (Hk0 & Hk & _) [Hgk _] _ Hsz _ (Hp0 & _ & Hpe) _ _ Hbyte Hprog
    (_ & Hgi0 & Hgi) (Hgv & Hgv0 & Hgvn) Hlen [_ Htot] Ha Ht]. destruct (Hprog Eid) as [Hpr Hapart].
  fold paddr size in Hpe, Hpr, Hapart, Ha, Ht. set (k := pages_for size) in *. destruct (pages_for_bounds size ltac:(unfold size; lia)) as [Hk' _]. fold k in Hk'.
  pose proof (program_cost_nonneg f (headers_of f base) Hbyte) as Hpc. rewrite <- Hv in Hpc.
  destruct Hw as [A B C EV E Emaps Ecost (gi1 & HI1 & Hgi1) HIo [Hpm1 Htot1] Ha1]. fold k in Emaps, Ecost, EV, E.
  set (rs := vg_regions gk ++ [r]) in *. set (ps := frames paddr (Z.to_nat k)) in *. set (gk' := mk_vg rs (vg_maps gk ++ region_maps r base ps)) in *.
  pose proof (gr_top _ _ _ (vf_grown _ _ _ A)) as Et. pose proof (gr_pos _ _ _ (vf_grown _ _ _ A)) as Hn0.
  assert (kernel_vmem (Machine.vm s1) = kv) as Hk1 by (by rewrite (vf_kernel _ _ _ A)).
  assert (gV G1 !! kv = Some gk') as HV1 by (by rewrite EV, lookup_insert_eq).
  assert (kernel_regions s1 G1 = rs) as Ers by (unfold kernel_regions; rewrite Hk1, HV1; by nonnull kv).
  assert (0 <= area_cost G1 rs) as Hac by (unfold area_cost; pose proof (attach_costs_pos G1 rs); lia).
  assert (Z.of_nat (length rs) = Z.of_nat (length (vg_regions gk)) + 1) as Elr by (unfold rs; rewrite length_app; cbn; lia).
  assert (0 <= entries_of f base < 2 ^ 16) as He0 by (apply (le_load_range f (base + 56) 2); done).
  assert (Z.of_nat (length ns) = entries_of f base) as Eln.
  { rewrite <- (length_fmap snd ns). fold (values ns). rewrite Hv. unfold headers_of. rewrite header_addrs_length. lia. }
  unfold module_cost in Ha, Ht. fold k in Ha, Ht. rewrite <- Ecost, <- Hv in Ha, Ht.
  eapply wp_mono; [eapply (vmem_create_spec s1 G1 gv); rewrite ?Ers, ?Hk1; try done|].
  - by rewrite HIo by (apply vmem_mappers_apart).
  - lia.
  - lia.
  - lia.
  - lia.
  - rewrite Ers. intros v s2 (_ & n2 & G2 & vm & Hn2 & [A2 B2 C2 [Hv0 Hfr] EV2 _ EI2 _ _ _ ERs EP EO]).
    assert (v <> kv) as Hvk by congruence. pose proof (gr_top _ _ _ (vf_grown _ _ _ A2)) as Et2. destruct (EO _ Hro) as [Hro2 HL2].
    assert (avail s1 - n2 <= avail s2) as Ha2.
    { eapply (avail_regions_kept n2 s1); [apply B|lia|apply A2|]. intros q R Hq. exists R. split; [by rewrite ERs|lia]. }
    exists G2, gk', (mk_vg rs (area_maps s1 G1 rs)), gi1. split.
    { rewrite EV in Hfr. by rewrite lookup_insert_ne in Hfr. }
    split; [done|]. split; try done.
    + eapply (module_mapped_frame n2 s1 s2 G1); [exact E|exact A2|by rewrite EV2, lookup_insert_ne|lia].
    + split; [done|by rewrite HL2].
    + rewrite Hv. cbn [vg_maps]. rewrite Emaps. apply program_ok_window; [done|].
      intros ph va Hph Hl Hin. apply Hapart; [done|done|]. unfold in_pages, ps in *. rewrite frames_length in Hin. lia.
    + split; [done|by rewrite EV2, lookup_insert_eq].
    + rewrite EI2 by (apply not_eq_sym, vmem_mappers_apart). split; [done|lia].
    + cbn [vg_regions]. lia.
    + rewrite EP. split; [done|lia].
    + lia.
    + lia.
Qed.

End module.

(** * An example *)

(** The module of [ram_module] on the machine of [s_vm]. *)
Definition module_l : Z := 1500300.
Definition info_l : info_module_t := mk_module (Some "hello"%string) (mk_seg 67108864 67108992 128).
Definition kv_l : Z := kernel_vmem (Machine.vm s_vm).
Definition s_l : kstate :=
  set_mods {[module_l := info_l]} (set_memory_handler kv_l (set_cr3 (default 0 (root_of s_vm kv_l)) s_vm)).
Definition f_l (a : Z) : Z := ram_module (67108864 + (a - 1048576)).

Lemma f_l_byte a : 0 <= f_l a < 256.
Proof.
  unfold f_l, ram_module. destruct (_ <? _); [lia|]. set (n := Z.to_nat _). clearbody n.
  assert (Forall (fun b => 0 <= b < 256) module_image) as H by (unfold module_image; repeat constructor; lia).
  destruct (module_image !! n) as [b|] eqn:E; cbn; [|lia]. rewrite Forall_lookup in H. by eapply H.
Qed.

Lemma f_l_bytes : forallb (fun a => ram (mem s_vm) (67108864 + (a - 1048576)) =? f_l a) (seqZ 1048576 128) = true.
Proof. vm_compute. reflexivity. Qed.

Lemma header_l : headers_of f_l 1048576 = [1048640] /\ header_at f_l 1048640 = mk_ph 1 5 0 4194304 0 128 8192 4096.
Proof. vm_compute. split; reflexivity. Qed.

Lemma program_l : program_ok f_l 1048576 67108864 128 [] [1048640].
Proof.
  destruct header_l as [_ Eh]. split.
  - intros ph ->%list_elem_of_singleton. lia.
  - intros ph ->%list_elem_of_singleton _. rewrite Eh. split; cbn [ph_vaddr ph_offset ph_file_size ph_mem_size];
      [split; [split; [lia|reflexivity]|lia]|split; [lia|reflexivity]|lia|vm_compute; discriminate|lia|vm_compute; discriminate].
  - intros ph m _ _ Hm. by apply elem_of_nil in Hm.
  - intros i j p q va Hp Hq Hij. destruct i as [|i]; [|discriminate Hp]. destruct j as [|j]; [congruence|discriminate Hq].
Qed.

Lemma switched ms v b s G : vm_inv s G -> let s' := set_mods ms (set_memory_handler v (set_cr3 b s)) in
  vm_inv s' G /\ mem s' = mem s /\ memory_handler (boot s') = v /\ mods (boot s') = ms /\ cr3 (paging s') = b /\
  Machine.vm s' = Machine.vm s /\ pmem s' = pmem s /\ (forall w, root_of s' w = root_of s w) /\ avail s' = avail s.
Proof. intros Hi s'. split; [by apply (vm_inv_ext s)|done]. Qed.

Lemma root_l : is_Some (root_of s_vm kv_l).
Proof. vm_compute. eexists. reflexivity. Qed.

Lemma s_l_ok : exists G gi gv, module_ok (H := layout_example) s_l G kv_l (mk_vg [] []) module_l info_l f_l 1048576 gi gv /\ gV G = {[kv_l := mk_vg [] []]}.
Proof.
  destruct s_vm_booted as (G & vm & gi & [Hi Hlk Hk Hv0 (gv & Hgv & Hgn) Hpm Ha Ht _] & HV & HI & Hgi & Hvm & Hnx).
  fold kv_l in HV, Hvm, Hv0. destruct root_l as [b Hb].
  destruct (switched {[module_l := info_l]} kv_l (default 0 (root_of s_vm kv_l)) s_vm G Hi) as (Hi0 & Em & Emh & Emo & Ec & Ev & Ep & Er & Ea).
  fold s_l in Hi0, Em, Emh, Emo, Ec, Ev, Ep, Er, Ea.
  assert (module_cost G [] f_l 1048576 1 <= 2 ^ 20) as Hc by (vm_compute; discriminate).
  exists G, gi, gv. split; [|exact HV]. split.
  - exact Hi0.
  - exact Hlk.
  - split; [exact Hv0|]. split; [rewrite Ev; reflexivity|]. split; [exact Emh|]. rewrite Er, Ec, Hb. reflexivity.
  - split; [rewrite HV; apply lookup_singleton_eq|]. exists vm. rewrite Ev. split; [exact Hvm|exact Hnx].
  - rewrite Emo. apply lookup_singleton_eq.
  - cbn. lia.
  - split; [split; [lia|reflexivity]|]. split; [lia|vm_compute; discriminate].
  - split; [reflexivity|]. split; [reflexivity|vm_compute; discriminate].
  - intros i _. apply not_elem_of_nil.
  - intros a Ha0. rewrite Em. pose proof f_l_bytes as H. rewrite forallb_forall in H.
    apply Z.eqb_eq, H, list_elem_of_In, elem_of_seqZ. cbn in Ha0. lia.
  - apply f_l_byte.
  - intros _. destruct header_l as [-> Eh]. split; [exact program_l|].
    intros ph va ->%list_elem_of_singleton _. unfold seg_pages, in_pages. rewrite Eh. change (pages_for (seg_size (m_region info_l))) with 1.
    cbn [ph_vaddr]. lia.
  - split; [exact HI|lia].
  - split; [exact Hgv|lia].
  - cbn. lia.
  - rewrite Ep, Hpm. split; [exact s_pages_ok|cbn; lia].
  - cbn [vg_regions]. change (pages_for (seg_size (m_region info_l))) with 1. rewrite Ea. lia.
  - cbn [vg_regions]. change (pages_for (seg_size (m_region info_l))) with 1. rewrite Em. change (addr_start (m_region info_l)) with 67108864.
    assert (heap_top (mem s_vm) <= 2 ^ 20 * 2) by (vm_compute; discriminate). lia.
Qed.

Definition loaded_l : option (unit + bool + elf_t * Z) :=
  result (load_module (H := bump_alloc) (H0 := x86_native_vmem (H := bump_alloc)) (H2 := layout_example) module_l) s_l.
Definition v_l : Z := match loaded_l with Some (inr (_, v)) => v | _ => 0 end.
Definition elf_l : elf_t := match loaded_l with Some (inr (elf, _)) => elf | _ => mk_elf 0 0 0 0 end.

Lemma loaded_l_result : loaded_l = Some (inr (elf_l, v_l)).
Proof. vm_compute. reflexivity. Qed.

Lemma result_Ret {A} (m : M A) s a s' r : result m s = Some r -> m s = Ret a s' -> a = r.
Proof. unfold result. intros H E. rewrite E in H. by injection H. Qed.

(** The byte at offset 1 of the program is that of the file. *)
Lemma program_in_l s v : program_in s v f_l 1048576 [1048640] ->
  (exists pa, translate s v (4194304 + 1) = Some pa /\ ram (mem s) pa = 69) /\ is_Some (translate s v (4194304 + 4096)).
Proof.
  intros Hin. destruct header_l as [_ Eh]. destruct (Hin 1048640 ltac:(apply list_elem_of_here) eq_refl) as [Hb Hm].
  rewrite Eh in Hb, Hm. cbn [ph_vaddr ph_offset ph_file_size ph_mem_size] in Hb, Hm. split.
  - destruct (Hb 1 ltac:(lia)) as (pa & Ht & Hby). exists pa. split; [exact Ht|]. rewrite Hby. vm_compute. reflexivity.
  - exact (Hm 4096 ltac:(lia)).
Qed.


(** The state in which its headers are loaded. *)
#[local] Abbreviation read_l := (read_module (H := bump_alloc) (H0 := x86_native_vmem (H := bump_alloc)) (H2 := layout_example) module_l).
#[local] Abbreviation create_l := (vmem_create (H := bump_alloc) (H0 := x86_native_vmem (H := bump_alloc)) (H1 := layout_example)).
#[local] Abbreviation s_l1 := (run read_l s_l).
#[local] Abbreviation s_l2 := (run create_l s_l1).

Lemma s_l2_loadable : exists G gk ns v elf g gi, loadable (Y := layout_example) s_l2 G kv_l gk f_l 1048576 67108864 128 67108864 elf ns v g gi /\
  values ns = [1048640] /\ result read_l s_l = Some (inr (inr elf)) /\ result create_l s_l1 = Some v.
Proof.
  destruct s_l_ok as (G & gi & gv & Hok & _).
  pose proof (read_module_spec (K := bump_alloc) (Y := layout_example) s_l G kv_l (mk_vg [] []) module_l info_l f_l 1048576 gi gv Hok) as Hread.
  apply wp_run in Hread as (res & E & Hr). assert (check_ident (ident_of f_l 1048576) = ELF_SUCCESS) as Eid by (vm_compute; reflexivity).
  destruct res as [?|[e|elf]]; [destruct Hr|destruct Hr as [-> Hne]; destruct (Hne Eid)|].
  destruct Hr as (_ & Eb & _ & n & G1 & r & ns & Hn & Hw & Hro & Hns & Hv).
  pose proof (area_loadable (K := bump_alloc) (Y := layout_example) s_l G kv_l (mk_vg [] []) module_l info_l f_l 1048576 gi gv
    n _ G1 r elf ns Hok Eid Hn Hw Eb Hro Hns Hv) as Hcreate.
  apply wp_run in Hcreate as (v & E2 & G2 & gk2 & g & gi2 & _ & _ & Hlb).
  exists G2, gk2, ns, v, elf, g, gi2. split; [exact Hlb|]. split; [rewrite Hv; exact (proj1 header_l)|].
  unfold result. rewrite E, E2. split; reflexivity.
Qed.

#[local] Abbreviation headers_l := (load_program_headers (H := bump_alloc) (H0 := x86_native_vmem (H := bump_alloc)) (H2 := layout_example) elf_l v_l).

Lemma same_result {A} (x : option A) a b : x = Some a -> x = Some b -> a = b.
Proof. congruence. Qed.
Lemma same_parsed {A B C} (x : option (A + (B + C))) a b : x = Some (inr (inr a)) -> x = Some (inr (inr b)) -> a = b.
Proof. congruence. Qed.

Lemma s_l2_results : result read_l s_l = Some (inr (inr elf_l)) /\ result create_l s_l1 = Some v_l /\ result headers_l s_l2 = Some (inl tt).
Proof. vm_compute. repeat split. Qed.

