(* ===== verification/KernelGrowth.v ===== *)
(** core/src/alloc.c: kernel data memory that grows.

    [native_pagging.c] takes the addresses [kalloc] returns for its tables as
    physical addresses, which is right where kernel memory is mapped to itself.
    [ensure_free_memory] grows kernel data with [vmem_region_resize], and the pages
    it adds are not mapped to themselves. *)
From S2P Require Import Prelude Machine Logic LinkedList ListRefinement IdMapper Pmem NativeVmem PageTable NativePaging Vmem Region VmInv VmemSpec RegionSpec VmStep VmCreate VirtualMemory KernelMemory Loader.

(** The processor finds at the physical address [va] what the kernel stores at the
    virtual address [va]. *)
Definition identity_at (s : kstate) (kv va : Z) : Prop := translate s kv va = Some va.

Section growth.
Context `{K : Kalloc} `{!GoodAlloc K} `{Y : Layout}.

End growth.

(** The kernel area of [s_vm] with a region of one page at 1 MB. *)
Definition kv_m : Z := kernel_vmem (Machine.vm s_vm).
Definition create_m : M Z := vmem_region_create (H := bump_alloc) (H0 := x86_native_vmem (H := bump_alloc)) (H1 := layout_example)
  kv_m (Some "module-loading"%string) 1048576 0 true true true.
Definition s_m1 : kstate := run create_m s_vm.
Definition r_m : Z := default 0 (result create_m s_vm).
Definition map_m : M Z := vmem_region_map_physical_address (H := bump_alloc) (H0 := x86_native_vmem (H := bump_alloc)) r_m 67108864 4096.
Definition s_m2 : kstate := run map_m s_m1.

Lemma s_m2_inv : exists G gi,
  vm_inv s_m2 G /\ linked G /\ kv_m <> 0 /\ kernel_vmem (Machine.vm s_m2) = kv_m /\
  gV G = {[kv_m := mk_vg [r_m] (region_maps r_m 1048576 [67108864])]} /\
  gR G !! r_m = Some (mk_rg [kv_m] [67108864]) /\ start_of s_m2 r_m = 1048576 /\
  gI G !! 1500032 = Some gi /\ g_next gi = 2 /\ (exists gv, gI G !! 1500000 = Some gv /\ g_next gv = 2) /\
  pmem_ok (pmem s_m2) /\ total_memory (pmem s_m2) <= 2 ^ 48 /\ is_Some (root_of s_m2 kv_m).
Proof.
  destruct s_vm_booted as (G & vm & gi & [Hi Hlk Hk Hv0 (gv & Hgv & Hgn) Hpm Ha Ht] & HV & HI & Hgi & Hvm & Hnx).
  fold kv_m in HV, Hvm, Hv0.
  destruct (wp_run _ _ _ (create_empty_region_spec (K := bump_alloc) (Y := layout_example) s_vm G kv_m (mk_vg [] []) vm
    "module-loading"%string 1048576 true true true gi Hi Hlk ltac:(rewrite HV; apply lookup_singleton_eq) Hvm HI ltac:(rewrite Hgi; lia)
    ltac:(cbn; lia) ltac:(rewrite Hpm; exact s_pages_ok) ltac:(rewrite Hpm; cbn; lia) ltac:(split; [lia|reflexivity]) ltac:(lia) ltac:(lia) ltac:(lia)))
    as (r & E & Hr0 & n1 & G1 & R1 & Hn1 & Hf1 & Hi1 & Hlk1 & _ & HV1 & HR1 & (gi1 & HI1 & Hgi1) & HS1 & Hnew & Est1 & Esz1 & Eal1 & _ & Hpm1 & Htot1 & _ & HIo1).
  change (run _ s_vm) with s_m1 in *. assert (r = r_m) as -> by (unfold r_m, result, create_m; rewrite E; reflexivity).
  pose proof (gr_top _ _ _ (vf_grown _ _ _ Hf1)) as Et1.
  assert (gR G1 !! r_m = Some (mk_rg [kv_m] [])) as Hr1 by (rewrite HR1; apply lookup_insert_eq).
  assert (regions (Machine.vm s_m1) !! r_m = Some R1) as HRs1 by (rewrite HS1; apply lookup_insert_eq).
  assert (avail s_vm - n1 <= avail s_m1) as Ha1.
  { eapply (avail_regions_kept n1 s_vm); [apply Hi|lia|apply Hf1|]. intros q R Hq. exists R. split; [|lia].
    rewrite HS1, lookup_insert_ne; [exact Hq|]. intros Eq. rewrite <- Eq, Hnew in Hq. discriminate Hq. }
  assert (assoc_cost (mk_rg [kv_m] []) * 1 = 41032) as Eac by reflexivity.
  destruct (wp_run _ _ _ (vmem_region_map_physical_spec (K := bump_alloc) s_m1 G1 r_m (mk_rg [kv_m] []) R1 67108864 4096 Hi1 Hr1 HRs1
    eq_refl eq_refl ltac:(lia) ltac:(lia) ltac:(lia) ltac:(congruence)
    ltac:(change (4096 / 4096) with 1; split; [rewrite Est1, Eal1; lia|];
          intros w gw i Hw Hgw _; apply list_elem_of_singleton in Hw as ->; rewrite HV1, lookup_insert_eq in Hgw; injection Hgw as <-; apply not_elem_of_nil)
    ltac:(change (4096 / 4096) with 1; lia) ltac:(change (4096 / 4096) with 1; lia)))
    as (va & E2 & -> & n2 & G2 & R2 & Hn2 & Hpg & _ & Ep2 & Ha2).
  change (run _ s_m1) with s_m2 in *. change (frames _ _) with [67108864] in Hpg. destruct Hpg as [A B C D E3 F H I J].
  cbn [rg_attached rg_pages app] in E3, F. rewrite Est1, Eal1, Z.add_0_r in F.
  assert (gV G1 !! kv_m = Some (mk_vg [r_m] [])) as Hk1 by (rewrite HV1; apply lookup_insert_eq).
  exists G2, gi1. split; [exact B|]. split; [eapply (linked_pages G1 G2 r_m (mk_rg [kv_m] [])); [exact Hlk1|exact Hr1|exact F|exact E3]|].
  split; [exact Hv0|]. split.
  { rewrite (vf_kernel _ _ _ (vm_frame_grow _ _ _ A)), (vf_kernel _ _ _ Hf1). reflexivity. }
  split.
  { rewrite (maps_added_single _ _ _ _ _ Hk1 F), HV1, HV, insert_singleton_eq. cbn [vg_regions vg_maps app]. rewrite insert_singleton_eq. reflexivity. }
  split; [rewrite E3; apply lookup_insert_eq|]. split; [unfold start_of; rewrite C, lookup_insert_eq; cbn; rewrite D; exact Est1|].
  split; [rewrite H; exact HI1|]. split; [lia|]. split.
  { exists gv. split; [rewrite H, HIo1; [exact Hgv|discriminate]|exact Hgn]. }
  split; [rewrite Ep2; exact Hpm1|]. split; [rewrite Ep2, Htot1, Hpm; cbn; lia|]. vm_compute. eexists. reflexivity.
Qed.

Definition resize_m : M bool := vmem_region_resize (H := bump_alloc) (H0 := x86_native_vmem (H := bump_alloc)) r_m 8192.

Lemma resize_m_result : result resize_m s_m2 = Some true.
Proof. vm_compute. reflexivity. Qed.

