(* ===== verification/ModuleStack.v ===== *)
(** Where the regions of a task are placed: core/src/vmem/services.c,
    region_services.c and task/services.c together.

    A region without a start address is placed at [next_start_address] of its
    area, which begins at 1 MB in every area; but a new area starts with the
    regions of the kernel, and the kernel's own areas without a start address,
    those that modules are read through, are at 1 MB too. *)
From S2P Require Import Prelude Machine Logic LinkedList ListRefinement IdMapper Pmem NativeVmem PageTable NativePaging Vmem Region VmInv VmemSpec RegionSpec VmStep VmCreate VirtualMemory Scheduler NativeTask Task KernelMemory Loader.

(** The address is in use in the area. *)
Definition in_use (s : kstate) (v va : Z) : Prop := is_Some (translate s v va).

Section placement.
Context `{K : Kalloc} `{!GoodAlloc K} `{Y : Layout}.

(** C14: once a region of the kernel is mapped at 1 MB, as the first module that is
    loaded is, every new area has memory there, and 1 MB is nevertheless the
    address the first region of the area that asks for none is given: the stack of
    a module's task is placed over the module. *)
Theorem first_placement_in_use s G gk gi r p ps :
  let kv := kernel_vmem (Machine.vm s) in
  vm_inv s G -> linked G -> kv <> 0 -> gV G !! kv = Some gk ->
  gI G !! a_vmem_id_mapper = Some gi -> 0 < g_next gi < 2 ^ 64 - 1 ->
  let rs := vg_regions gk in
  r ∈ rs -> start_of s r = REGION_ADDRESS_INCREMENT -> pages_of G r = p :: ps ->
  Z.of_nat (length rs) < 2 ^ 31 -> area_cost G rs <= avail s -> heap_top (mem s) + area_cost G rs <= 2 ^ 48 ->
  exists v s' s'', vmem_create s = Ret v s' /\
    find_next_memory_address v s' = Ret REGION_ADDRESS_INCREMENT s'' /\ in_use s' v REGION_ADDRESS_INCREMENT.
Proof.
  intros kv Hi Hlk Hk0 Hk HI Hnext rs Hr Hst Hpg Hlen Ha Htop.
  assert (kernel_regions s G = rs) as Ers by (unfold kernel_regions; fold kv; by rewrite (proj2 (isnull_false kv) Hk0), Hk).
  destruct (wp_inv _ _ _ (vmem_create_spec s G gi Hi Hlk ltac:(intros _; by exists gk) HI Hnext
    ltac:(by rewrite Ers) ltac:(by rewrite Ers) ltac:(by rewrite Ers))) as (v & s' & E & _ & n & G' & vm & _ & Hac).
  rewrite Ers in Hac. destruct Hac as [A B C [Hv0 Hf] HV HR _ _ Hvm Hnx Er _ _].
  assert (gV G' !! v = Some (mk_vg rs (area_maps s G rs))) as Hv' by (by rewrite HV, lookup_insert_eq).
  assert (vmems (Machine.vm s') !! v = Some vm) as Hvv by (by rewrite Hvm, lookup_insert_eq).
  assert (wp (find_next_memory_address v) (fun a _ => a = next_start_address vm) s') as Hw.
  { unfold find_next_memory_address. wstep. eapply wpx_load; [exact Hvv|]. wstep. eapply wpx_update; [exact Hvv|]. by wstep. }
  destruct (wp_inv _ _ _ Hw) as (a & s2 & E2 & ->). rewrite Hnx in E2.
  exists v, s', s2. split; [exact E|]. split; [exact E2|].
  exists (p + 0). replace REGION_ADDRESS_INCREMENT with (REGION_ADDRESS_INCREMENT + 0) by lia.
  eapply (translate_map s' G' v); [done|exact Hv'| |lia].
  cbn [vg_maps]. apply area_maps_elem. exists r, 0%nat, p. split; [done|]. split; [by rewrite Hpg|]. rewrite Hst. f_equal.
Qed.
End placement.

Lemma first_placement_in_use_witness : exists v s' s'',
  vmem_create (H := bump_alloc) (H0 := x86_native_vmem (H := bump_alloc)) (H1 := layout_example) s_region = Ret v s' /\
  find_next_memory_address v s' = Ret 1048576 s'' /\ in_use s' v 1048576.
Proof.
  destruct s_region_inv as (G & r & ps & gi & Hi & Hlk & Hk0 & Hk & HV & HR & Est & Hlen & HI & Hgi & Ha & Ht).
  destruct ps as [|p ps]; [discriminate|].
  assert (pages_of G r = p :: ps) as Epg by (unfold pages_of; rewrite HR; reflexivity).
  assert (area_cost G [r] = 41128 + attach_cost (p :: ps)) as Ec by (unfold area_cost, attach_costs; cbn [foldr]; rewrite Epg, Z.add_0_r; reflexivity).
  assert (attach_cost (p :: ps) <= 2 ^ 20) as Hc.
  { destruct ps as [|p2 [|? ?]]; [discriminate| |discriminate]. vm_compute. discriminate. }
  apply (first_placement_in_use (K := bump_alloc) (Y := layout_example) s_region G (mk_vg [r] (region_maps r 1048576 (p :: ps))) gi r p ps).
  - exact Hi.
  - exact Hlk.
  - rewrite Hk. exact Hk0.
  - rewrite Hk, HV. apply lookup_singleton_eq.
  - exact HI.
  - rewrite Hgi. lia.
  - apply list_elem_of_here.
  - exact Est.
  - exact Epg.
  - cbn. lia.
  - cbn [vg_regions]. lia.
  - cbn [vg_regions]. lia.
Defined.

(** * A module from start to end *)

(** A machine with 15 pages above 64 MB, the first one with the module. *)
Definition pmem_o : pmem_t := mk_pmem 16399 67170304 (replicate (Z.to_nat 16384) 0 ++ [1] ++ replicate 14 0).
Definition module_o : Z := 1500300.
Definition s_o0 : kstate :=
  set_mods {[module_o := mk_module (Some "hello"%string) (mk_seg 67108864 67108992 128)]} (set_ram ram_module (set_pmem pmem_o state1)).
Definition start_o : M unit :=
  vmem_initialize (H := bump_alloc) (H0 := x86_native_vmem (H := bump_alloc)) (H1 := layout_example);;
  vmem_region_initialize (H := bump_alloc) (H1 := layout_example);;
  scheduler_initialise (H := bump_alloc);;
  task_service_initialize (H := bump_alloc) (H2 := layout_example);;
  k ← vmem_get_kernel;
  x86_vmem_switch k;;
  modify (set_memory_handler k).
Definition s_o : kstate := run start_o s_o0.
Definition load_o : M (unit + bool) := initialize_module (H := bump_alloc) (H0 := x86_native_vmem (H := bump_alloc))
  (H1 := x86_native_task (H := bump_alloc)) (H2 := layout_example) module_o.
Definition s_o1 : kstate := run load_o s_o.
(** The task that was made. *)
Definition task_o : task_t := match map_to_list (tasks (sched s_o1)) with (_, t) :: _ => t | [] => zeroed end.
Definition area_o : Z := memory_handler_of task_o.

(** The module becomes a ready task with its entry point and its stack; the first
    page of the stack is where the module is mapped, and there the list of maps
    (the module) and the page tables (a page of the stack) disagree. *)
Lemma module_stack_overlaps_image :
  result load_o s_o = Some (inl tt) /\ t_status task_o = TASK_STATUS_READY /\
  (codeptr <$> ntasks (sched s_o1) !! native_task task_o) = Some 4194424 /\
  (stackptr <$> ntasks (sched s_o1) !! native_task task_o) = Some (1048576 + 40952) /\
  result (vmem_get_physical_address area_o 1048576) s_o1 = Some 67108864 /\
  translate s_o1 area_o 1048576 = Some 67117056.
Proof. vm_compute. repeat split. Qed.
