(* ===== verification/Init.v ===== *)
(** core/src/init.c, hal/src/x86_64/boot.c, idt.c and idt_fill.S: the start of the
    system.

    [native_boot] is what the assembler entry calls: it sets up the serial port,
    the platform object, segments and interrupts, then [kernel_main] starts the
    services one after the other and loads the modules. *)
From S2P Require Import Prelude Machine Logic LinkedList ListRefinement IdMapper Pmem NativeVmem PageTable NativePaging Vmem Region Scheduler Gdt NativeTask CString Multiboot Task Interrupts Alloc Loader Serial.

(** * x86_64/idt.h *)
Definition INTERRUPT_GATE_386 : Z := 14.

(** Static objects and registers of the processor that only start-up changes. *)
Record hw_t := mk_hw {
  hw_io : io_t; hw_segments : segments_t; hw_idt : list idt_entry; hw_idtr : Z * Z; hw_msrs : gmap Z Z }.

(** Addresses of static objects and of assembler code, and bytes left on the
    stack by earlier calls. *)
Record statics_t := mk_statics {
  a_gdt : Z; a_tss : Z; a_kernel_stack : Z; a_idt : Z; a_syscall_jumper : Z; a_intr : Z -> Z; a_newlines : Z; garbage : Z }.

(** * idt_fill.S, idt.c *)

(** [REGISTER_INTR(n)] *)
Definition REGISTER_INTR (intr : Z -> Z) (n : Z) : list idt_entry -> option (list idt_entry) :=
  idt_set_gate n (intr n) INTERRUPT_GATE_386 GDT_RING_SYSTEM.
(** [REGISTER_USR_INTR(n)] *)
Definition REGISTER_USR_INTR (intr : Z -> Z) (n : Z) : list idt_entry -> option (list idt_entry) :=
  idt_set_gate n (intr n) INTERRUPT_GATE_386 GDT_RING_USER.

(** [REGISTER_INTR(n)] for [n], [n + 1], ...: [k] of them. *)
Fixpoint register_intrs (intr : Z -> Z) (k : nat) (n : Z) (idt : list idt_entry) : option (list idt_entry) :=
  match k with
  | O => Some idt
  | S k' => idt ← REGISTER_INTR intr n idt; register_intrs intr k' (n + 1) idt
  end.

Definition idt_fill_table (intr : Z -> Z) (idt : list idt_entry) : option (list idt_entry) :=
  idt ← register_intrs intr 50 0 idt;
  REGISTER_USR_INTR intr 50 idt.

Definition idt_flush (base limit : Z) (h : hw_t) : hw_t :=
  mk_hw (hw_io h) (hw_segments h) (hw_idt h) (base, limit) (hw_msrs h).

Definition idt_install (st : statics_t) (h : hw_t) : hw_t :=
  let h := idt_flush (a_idt st) (u16 (16 * IDT_TOTAL_INTERRUPTIONS - 1)) h in
  mk_hw (hw_io h) (hw_segments h) (hw_idt h) (hw_idtr h)
    (syscall_install (a_syscall_jumper st) (get_kernel_stack (hw_segments h)) (hw_msrs h)).

Definition idt_initialize (st : statics_t) (h : hw_t) : option hw_t :=
  idt ← idt_fill_table (a_intr st) (hw_idt h);
  Some (idt_install st (mk_hw (hw_io h) (hw_segments h) idt (hw_idtr h) (hw_msrs h))).

(** * init.c *)
Section code.
Context `{Kalloc} `{Layout}.

(** Pages the firmware keeps are marked as system pages. *)
Definition mark_reserved : M unit :=
  segments ← gets (fun s => reserved_segments (platform (mem s)));
  while_linkedlist_iter (R := unit) segments tt (fun region _ =>
    r ← load (T := region_t) region;
    pmem_set_as_system (addr_start r) (seg_size r);;
    mret (inl tt));;
  mret tt.

(** Physical memory, until every page has its type. *)
Definition start_memory : M unit :=
  total ← gets (fun s => total_memory_info (platform (mem s)));
  pmem_initialize total;;
  mark_reserved;;
  p ← gets (fun s => platform (mem s));
  pmem_set_as_system (addr_start (p_kernel p)) (seg_size (p_kernel p));;
  mret tt.

Definition kernel_main : M unit :=
  start_memory;;
  vmem_initialize;;
  vmem_region_initialize;;
  memory_allocator_initialize;;
  scheduler_initialise;;
  task_service_initialize;;
  syscall_initialize;;
  module_initialize;;
  mret tt.

(** * boot.c *)

(** [None]: the processor left defined behaviour before [kernel_main], or the
    serial port never became ready. *)
Definition native_boot (status : nat -> Z) (fuel : nat) (st : statics_t) (magic addr : Z) (h : hw_t) : M (option hw_t) :=
  m ← gets (fun s => ram (mem s));
  match serial_init status fuel m (a_newlines st) (hw_io h) with
  | None => mret None
  | Some io =>
      platform_initialize;;
      ok ← multiboot2_parser fuel magic addr;
      if negb ok then mret (Some (mk_hw io (hw_segments h) (hw_idt h) (hw_idtr h) (hw_msrs h)))
      else
        c ← gdt_initialize (garbage st) (a_gdt st) (a_tss st) (a_kernel_stack st) (hw_segments h);
        match c with
        | None => mret None
        | Some c =>
            match idt_initialize st (mk_hw io c (hw_idt h) (hw_idtr h) (hw_msrs h)) with
            | None => mret None
            | Some h => kernel_main;; mret (Some h)
            end
        end
  end.
End code.

(** * The interrupt table *)

(** What the processor reads of a gate. *)
Record gate (x base ring : Z) : Prop := {
  gt_base : bits x 0 16 + Z.shiftl (bits x 48 16) 16 + Z.shiftl (bits x 64 32) 32 = base;
  gt_selector : bits x 16 16 = GDT_SEGMENT GDT_ENTRY_KERNEL_CS;
  gt_stack : bits x 32 3 = 1;
  gt_type : bits x 40 4 = INTERRUPT_GATE_386;
  gt_ring : bits x 45 2 = ring;
  gt_present : bits x 47 1 = 1 }.

(** An entry whose unnamed bits are as static data starts. *)
Definition blank (e : idt_entry) : Prop := idt_pad0 e = 0 /\ idt_pad1 e = 0 /\ idt_pad2 e = 0.

Definition gate_entry (base ring : Z) : idt_entry :=
  mk_idt (Z.land base 65535) (GDT_SEGMENT GDT_ENTRY_KERNEL_CS) 1 0 (Z.land INTERRUPT_GATE_386 15) 0 (Z.land ring 3) 1
    (Z.land (Z.shiftr base 16) 65535) (Z.land (Z.shiftr base 32) 4294967295) 0.

Lemma idt_set_gate_spec num base ring idt e :
  idt !! Z.to_nat num = Some e -> blank e ->
  idt_set_gate num base INTERRUPT_GATE_386 ring idt = Some (<[Z.to_nat num := gate_entry base ring]> idt).
Proof. intros He (E1 & E2 & E3). unfold idt_set_gate. rewrite He. cbn. by rewrite E1, E2, E3. Qed.

Lemma gate_entry_gate base ring : 0 <= base < 2 ^ 64 -> 0 <= ring < 4 -> gate (idt_entry_word (gate_entry base ring)) base ring.
Proof.
  intros Hb Hr.
  assert (Forall2 fits idt_entry_widths (idt_entry_fields (gate_entry base ring))) as Hf.
  { repeat (apply Forall2_cons; split; [first [by apply (land_ones_fits _ 16)|by apply (land_ones_fits _ 4)|by apply (land_ones_fits _ 2)
      |by apply (land_ones_fits _ 32)|(split; [done|vm_compute; split; congruence])]|]). apply Forall2_nil. done. }
  pose proof (fun i w v => bits_pack _ _ i w v Hf) as Hbits.
  fold (idt_entry_word (gate_entry base ring)) in Hbits. set (x := idt_entry_word (gate_entry base ring)) in *. split.
  - pose proof (Hbits 0%nat _ _ eq_refl eq_refl : bits x 0 16 = bits base 0 16) as ->.
    pose proof (Hbits 8%nat _ _ eq_refl eq_refl : bits x 48 16 = bits base 16 16) as ->.
    pose proof (Hbits 9%nat _ _ eq_refl eq_refl : bits x 64 32 = bits base 32 32) as ->.
    rewrite <- (slices64 base Hb) at 4. pose proof (bits_join base 16 8 8 ltac:(lia) ltac:(lia) ltac:(lia)) as J.
    change (8 + 8) with 16 in J. change (16 + 8) with 24 in J. rewrite J, !Z.shiftl_mul_pow2 by lia. lia.
  - exact (Hbits 1%nat _ _ eq_refl eq_refl).
  - exact (Hbits 2%nat _ _ eq_refl eq_refl).
  - exact (Hbits 4%nat _ _ eq_refl eq_refl).
  - rewrite (Hbits 6%nat _ _ eq_refl eq_refl : bits x 45 2 = Z.land ring (Z.ones 2)). rewrite Z.land_ones by lia. by apply Z.mod_small.
  - exact (Hbits 7%nat _ _ eq_refl eq_refl).
Qed.

Lemma register_intrs_spec intr k : forall n idt,
  0 <= n -> (Z.to_nat n + k <= length idt)%nat -> (forall i e, idt !! i = Some e -> (Z.to_nat n <= i)%nat -> blank e) ->
  exists idt', register_intrs intr k n idt = Some idt' /\ length idt' = length idt /\
    (forall i, (Z.to_nat n <= i < Z.to_nat n + k)%nat -> idt' !! i = Some (gate_entry (intr (Z.of_nat i)) GDT_RING_SYSTEM)) /\
    (forall i, (i < Z.to_nat n \/ Z.to_nat n + k <= i)%nat -> idt' !! i = idt !! i).
Proof.
  induction k as [|k IH]; intros n idt Hn Hlen Hb; cbn [register_intrs].
  { exists idt. split_and!; try done. intros i Hi. lia. }
  destruct (lookup_lt_is_Some_2 idt (Z.to_nat n)) as [e He]; [lia|].
  unfold REGISTER_INTR. rewrite (idt_set_gate_spec n _ _ idt e He) by (apply (Hb _ _ He); lia). cbn [mbind option_bind].
  set (idt1 := <[Z.to_nat n := _]> idt). assert (length idt1 = length idt) as El by apply length_insert.
  destruct (IH (n + 1) idt1) as (idt' & E & Hl & Hin & Hout); [lia|lia| |].
  { intros i x Hx Hi. unfold idt1 in Hx. rewrite list_lookup_insert_ne in Hx by lia. apply (Hb i); [done|lia]. }
  exists idt'. split; [exact E|]. split; [lia|]. split.
  - intros i Hi. destruct (decide (i = Z.to_nat n)) as [->|Hne]; [|apply Hin; lia].
    rewrite Hout by lia. unfold idt1. rewrite list_lookup_insert_eq by lia. by rewrite Z2Nat.id.
  - intros i Hi. rewrite Hout by lia. unfold idt1. apply list_lookup_insert_ne. lia.
Qed.

(** What [syscall] and [swapgs] use. *)
Lemma syscall_install_regs j k M : let M' := syscall_install j k M in
  rdmsr MSR_LSTAR M' = j /\ Z.testbit (rdmsr MSR_EFER M') 0 = true /\
  bits (rdmsr MSR_STAR M') 32 16 = GDT_SEGMENT GDT_ENTRY_KERNEL_CS /\ rdmsr MSR_KERNEL_GS_BASE M' = k.
Proof.
  cbv zeta. unfold syscall_install, rdmsr, wrmsr. split_and!.
  - do 4 rewrite lookup_insert_ne by done. by rewrite lookup_insert_eq.
  - rewrite lookup_insert_eq. cbv [from_option id]. rewrite Z.lor_spec. change (Z.testbit EFER_SCE 0) with true. apply orb_true_r.
  - do 3 rewrite lookup_insert_ne by done. by rewrite lookup_insert_eq.
  - rewrite lookup_insert_ne by done. by rewrite lookup_insert_eq.
Qed.

(** C21: after [idt_initialize] every interrupt has a gate to its own entry point,
    with the kernel's code segment and the stack of the task state segment;
    programs can only raise the one for system calls.  The processor is given the
    whole table, and [syscall] enters the kernel at [syscall_jumper]. *)
Theorem idt_initialize_gates st h :
  hw_idt h = replicate 51 idt_zero -> (forall n, 0 <= n <= 50 -> 0 <= a_intr st n < 2 ^ 64) ->
  exists h', idt_initialize st h = Some h' /\
    (forall n, 0 <= n < IDT_TOTAL_INTERRUPTIONS -> exists e, hw_idt h' !! Z.to_nat n = Some e /\
       gate (idt_entry_word e) (a_intr st n) (if n =? INT_SYSTEM_CALL then GDT_RING_USER else GDT_RING_SYSTEM)) /\
    hw_idtr h' = (a_idt st, 16 * Z.of_nat (length (hw_idt h')) - 1) /\
    rdmsr MSR_LSTAR (hw_msrs h') = a_syscall_jumper st /\ Z.testbit (rdmsr MSR_EFER (hw_msrs h')) 0 = true /\
    bits (rdmsr MSR_STAR (hw_msrs h')) 32 16 = GDT_SEGMENT GDT_ENTRY_KERNEL_CS /\
    rdmsr MSR_KERNEL_GS_BASE (hw_msrs h') = kernel_stacks (hw_segments h).
Proof.
  intros Hidt Hi. unfold idt_initialize, idt_fill_table.
  destruct (register_intrs_spec (a_intr st) 50 0 (hw_idt h)) as (idt1 & E1 & Hl1 & Hin & Hout); [lia|rewrite Hidt; cbn; lia| |].
  { intros i e He _. rewrite Hidt in He. apply lookup_replicate in He as [-> _]. done. }
  rewrite E1. cbn [mbind option_bind]. unfold REGISTER_USR_INTR.
  assert (idt1 !! Z.to_nat 50 = Some idt_zero) as H50 by (rewrite Hout by (cbn; lia); by rewrite Hidt).
  rewrite (idt_set_gate_spec 50 _ _ idt1 _ H50) by done. cbn [mbind option_bind]. eexists. split; [done|].
  assert (length idt1 = 51%nat) as Hl by (rewrite Hl1, Hidt; apply length_replicate). split.
  { intros n Hn. change IDT_TOTAL_INTERRUPTIONS with 51 in Hn. change INT_SYSTEM_CALL with 50. cbn [hw_idt idt_install idt_flush].
    destruct (Z.eqb_spec n 50) as [->|Hne].
    - exists (gate_entry (a_intr st 50) GDT_RING_USER). split; [apply list_lookup_insert_eq; cbn; lia|]. apply gate_entry_gate; [apply Hi; lia|done].
    - exists (gate_entry (a_intr st n) GDT_RING_SYSTEM). rewrite list_lookup_insert_ne by lia. split; [|apply gate_entry_gate; [apply Hi; lia|done]].
      rewrite (Hin (Z.to_nat n)) by (cbn; lia). by rewrite Z2Nat.id by lia. }
  split; [cbn [hw_idtr hw_idt idt_install idt_flush]; rewrite length_insert, Hl; reflexivity|].
  apply syscall_install_regs.
Qed.

(** Entry points 32 bytes apart. *)
Definition st_boot : statics_t := mk_statics 40960 45056 49152 53248 57344 (fun n => 65536 + 32 * n) 61440 77.
Definition hw_reset : hw_t := mk_hw (mk_io 0 []) segments0 (replicate 51 idt_zero) (0, 0) ∅.

Lemma idt_initialize_gates_witness : exists h' e, idt_initialize st_boot hw_reset = Some h' /\
  hw_idt h' !! Z.to_nat 50 = Some e /\ gate (idt_entry_word e) 67136 GDT_RING_USER /\ rdmsr MSR_LSTAR (hw_msrs h') = 57344.
Proof.
  destruct (idt_initialize_gates st_boot hw_reset) as (h' & E & Hg & _ & Hl & _).
  - reflexivity.
  - intros n Hn. cbn. lia.
  - destruct (Hg 50) as (e & He & Hga); [split; [discriminate|reflexivity]|]. exists h', e. split_and!; [exact E|exact He|exact Hga|exact Hl].
Defined.

(** * Physical memory *)

(** A range of bytes whose end does not wrap around, and the pages it touches. *)
Definition seg_range (g : region_t) : Prop := 0 <= addr_start g /\ 0 <= seg_size g /\ addr_start g + seg_size g < 2 ^ 64.
Definition covers (g : region_t) (p : Z) : bool :=
  (addr_start g / 4096 <=? p) && (p <=? (addr_start g + seg_size g) / 4096).

Definition mark_segment (pm : pmem_t) (g : region_t) : pmem_t :=
  mark_many (system_span (addr_start g) (seg_size g)) (addr_start g / 4096) PAGE_TYPE_SYSTEM pm.
Definition mark_segments (gs : list region_t) (pm : pmem_t) : pmem_t := foldl mark_segment pm gs.

Lemma mark_segments_ok gs pm : pmem_ok pm -> pmem_ok (mark_segments gs pm).
Proof.
  unfold mark_segments. revert pm. induction gs as [|g gs IH]; intros pm Hok; cbn; [done|]. apply IH, mark_many_ok; [by auto|done].
Qed.

Lemma page_at_mark_segment pm g p : seg_range g ->
  page_at (mark_segment pm g) p = if covers g p then (fun _ => PAGE_TYPE_SYSTEM) <$> page_at pm p else page_at pm p.
Proof.
  intros (Ha & Hs & He). assert (0 <= addr_start g / 4096) by (apply Z.div_pos; lia).
  assert (addr_start g / 4096 <= (addr_start g + seg_size g) / 4096) by (apply Z.div_le_mono; lia).
  unfold mark_segment. rewrite page_at_mark_many by done. unfold covers, system_span. rewrite Z2Nat.id by lia.
  replace (p <? addr_start g / 4096 + ((addr_start g + seg_size g) / 4096 - addr_start g / 4096 + 1))
    with (p <=? (addr_start g + seg_size g) / 4096).
  - destruct (_ && _); [|done]. destruct (page_at pm p) as [o|]; cbn; [|done]. by destruct (Z.eqb_spec o PAGE_TYPE_SYSTEM) as [->|].
  - destruct (Z.leb_spec p ((addr_start g + seg_size g) / 4096)), (Z.ltb_spec p (addr_start g / 4096 + ((addr_start g + seg_size g) / 4096 - addr_start g / 4096 + 1))); done || lia.
Qed.

Lemma page_at_mark_segments gs : Forall seg_range gs -> forall pm p,
  page_at (mark_segments gs pm) p = if existsb (fun g => covers g p) gs then (fun _ => PAGE_TYPE_SYSTEM) <$> page_at pm p else page_at pm p.
Proof.
  induction 1 as [|g gs Hg _ IH]; intros pm p; cbn; [done|]. unfold mark_segments in IH. rewrite IH, page_at_mark_segment by done.
  destruct (covers g p), (existsb _ gs); cbn; try done. by destruct (page_at pm p).
Qed.

Section memory.
Context `{K : Kalloc} `{!GoodAlloc K}.

Lemma set_pmem_id s : set_pmem (pmem s) s = s.
Proof. by destruct s. Qed.

Lemma mark_reserved_spec s L ns gs :
  lists_inv s L -> L !! reserved_segments (platform (mem s)) = Some ns -> holds s (values ns) gs -> Forall seg_range gs -> pmem_ok (pmem s) ->
  wp mark_reserved (fun _ s' => s' = set_pmem (mark_segments gs (pmem s)) s) s.
Proof.
  intros Hl Hns Hh Hgs Hok. unfold mark_reserved. wstep. wstep. set (l := reserved_segments (platform (mem s))) in *.
  assert (upto_null (values ns) = values ns) as Hup.
  { apply upto_null_all. eapply Forall2_Forall_l; [exact Hh|]. apply Forall_true. intros g p [_ Hp]. lia. }
  assert (length (values ns) = length gs) as Elen by (by eapply Forall2_length).
  eapply wpx_call; [|intros r s' Hr; wstep; exact Hr].
  eapply (wp_while_linkedlist_iter l ns _ (fun done _ s' => s' = set_pmem (mark_segments (take (length done) gs) (pmem s)) s)).
  - intros done _ s' ->. eapply inv_is_list; [|exact Hns]. by apply (lists_inv_frame s).
  - intros done v _ s' [rest Hpre] _ ->. rewrite Hup, <- app_assoc in Hpre. cbn in Hpre.
    assert (values ns !! length done = Some v) as Hv by (rewrite Hpre; by apply list_lookup_middle).
    destruct (Forall2_lookup_l _ _ _ _ _ Hh Hv) as (g & Hg & Hpg & _). rewrite Forall_lookup in Hgs. pose proof (Hgs _ _ Hg) as (Ha & Hsz & He).
    wstep. eapply wpx_load; [exact Hpg|]. eapply wpx_call; [apply pmem_set_as_system_spec; [by apply mark_segments_ok|done|done|done]|].
    intros _ s' [_ ->]. wstep. rewrite length_app, Nat.add_comm. cbn [Nat.add length]. rewrite (take_S_r _ _ _ Hg).
    unfold mark_segments. by rewrite foldl_app.
  - intros _ s' ->. rewrite Hup, Elen, firstn_all. done.
  - symmetry. exact (set_pmem_id s).
Qed.

End memory.

(** The boot of [m_mbi]: 128 MB, one reserved region and one module. *)
Definition s_mbi1 : kstate := run (platform_initialize (H := bump_alloc) (H0 := layout_example)) (reset_state (H := layout_example) m_mbi).
Definition s_mbi : kstate := run (parse_tags (H := bump_alloc) 30 8200) s_mbi1.

Lemma s_mbi_rel : exists L, boot_rel s_mbi L (mk_info 134217728 [mk_seg 983040 1048576 65536]
  [mk_module (Some "hello"%string) (mk_seg 4194304 4198400 4096)]).
Proof.
  assert (byte_mem m_mbi) as Hb by (apply place_bytes; unfold mbi_bytes; vm_compute; repeat constructor; discriminate).
  destruct (wp_run _ _ _ (platform_initialize_spec (K := bump_alloc) (L := layout_example) m_mbi Hb)) as (r & E & _ & _ & Et & _ & Hram & Ha & L1 & Hr).
  fold s_mbi1 in Et, Hram, Ha, Hr. change (@kernel_data_start layout_example) with 1576960 in Et, Hram.
  destruct (wp_run _ _ _ (parse_tags_spec (K := bump_alloc) 8400 8200 tags_mbi s_mbi1 L1 _ 30 Hr ltac:(lia)
    ltac:(eapply tags_at_stable; [|exact tags_mbi_at]; intros a Hlt; apply Hram; lia) ltac:(assert (tags_cost tags_mbi <= 2 ^ 20) by (vm_compute; discriminate); lia) ltac:(cbn; lia)))
    as (u & E' & _ & L2 & Hr2).
  exists L2. exact Hr2.
Qed.

