(* ===== verification/Dump.v ===== *)
(** The functions that describe the kernel in the log: [vmem_dump]
    (core/src/vmem/services.c), [vmem_region_dump]
    (core/src/vmem/region_services.c), [log_pagetable_entry]
    (hal/src/x86_64/native_pagging.c) and [display_boot_info] (core/src/init.c).

    A call of a logging macro is a line: the level, the format as it is written in
    the source, and the arguments.  Logging.v and Formatting.v say what becomes of
    it.  The functions return their lines, in order. *)
From Stdlib Require Import Ascii.
From S2P Require Import Prelude Machine Logic LinkedList ListRefinement NativeVmem PageTable NativePaging Vmem VmInv Region VmStep VmCreate Logging.

(** * Lines *)
Definition LOG_DEBUG : Z := 1.
Definition LOG_WARN : Z := 3.

(** The arguments of [%p] and [%d], of [%s] and of [%c]. *)
Inductive log_arg := ANum (n : Z) | AStr (s : cstring) | AChar (c : Ascii.ascii).
Record log_line := mk_line { line_level : Z; line_format : string; line_args : list log_arg }.

Definition log_trace (fmt : string) (args : list log_arg) : list log_line := [mk_line LOG_TRACE fmt args].
Definition log_debug (fmt : string) (args : list log_arg) : list log_line := [mk_line LOG_DEBUG fmt args].
Definition log_info (fmt : string) (args : list log_arg) : list log_line := [mk_line LOG_INFO fmt args].
Definition log_warn (fmt : string) (args : list log_arg) : list log_line := [mk_line LOG_WARN fmt args].

(** [c ? a : '-'] *)
Definition flag (b : bool) (a : Ascii.ascii) : log_arg := AChar (if b then a else "-"%char).

(** * The functions *)
Definition log_pagetable_entry (entry : page_map_entry_t) : list log_line :=
  log_debug "==> vaddr=%p \t - %p  \tpaddr=%p-%p \t size=%d KB \t %cr%c%c"
    [ANum (pme_virtual_addr entry);
     ANum (pme_virtual_addr entry ⊞ pme_size entry ⊟ 1);
     ANum (pme_physical_addr entry);
     ANum (pme_physical_addr entry ⊞ pme_size entry ⊟ 1);
     ANum (pme_size entry / 1024);
     flag (negb (PERM_IS_KERNEL_MODE (pme_permission entry))) "u"%char;
     flag (PERM_IS_WRITE (pme_permission entry)) "w"%char;
     flag (PERM_IS_EXEC (pme_permission entry)) "x"%char].

Definition display_boot_info : M (list log_line) :=
  platform ← gets (fun s => platform (mem s));
  let code := seg_size (p_kernel platform) in
  let data := seg_size (p_kernel_data platform) in
  mret (log_info "Memory allocation: code %d KB / data %d KB / total %d KB"
    [ANum (code / 1024); ANum (data / 1024); ANum ((code ⊞ data) / 1024)]).

Definition vmem_region_dump (vmem_region : Z) : M (list log_line) :=
  if isnull vmem_region then mret (log_warn "vmem_region_dump called with NULL region" [])
  else
    r ← load vmem_region;
    attached ← linkedlist_size (r_attached r);
    number_of_pages ← linkedlist_size (r_pages r);
    first_page ← linkedlist_get (r_pages r) 0;
    mret (log_trace "=========== Dump memory region ==============" [] ++
      log_trace "Name: %s \t Metadata: %p \t Attached: %d" [AStr (r_name r); ANum vmem_region; ANum attached] ++
      log_trace "Start Address: %p \t End (alloc): %p \t Size: %d (%d KB) bytes \t Allocated: %d KB"
        [ANum (r_start r); ANum (r_start r ⊞ allocated_size r ⊟ 1); ANum (r_size r); ANum (r_size r / 1024);
         ANum (allocated_size r / 1024)] ++
      log_trace "Permissions: %c%c%c%c \t Physical pages: %d \t First Page Address: %p"
        [flag (r_user r) "u"%char; AChar "r"%char; flag (r_writable r) "w"%char; flag (r_executable r) "x"%char; ANum number_of_pages; ANum first_page] ++
      log_trace "---------------------------------------------" []).

Definition vmem_dump (vmem : Z) : M (list log_line) :=
  if isnull vmem then mret []
  else
    v ← load vmem;
    regions ← linkedlist_size (v_regions v);
    maps ← linkedlist_size (v_map v);
    let head := log_trace "====================== Dump memory =========================" [] ++
      log_trace "Memory addr: %p" [ANum vmem] ++
      log_trace "Num. regions: %d \t num. of maps: %d \t Next start address: %p" [ANum regions; ANum maps; ANum (next_start_address v)] in
    r ← while_linkedlist_iter (St := list log_line) (R := Empty_set) (v_regions v) head (fun region lines =>
      more ← vmem_region_dump region; mret (inl (lines ++ more)));
    match r : list log_line + Empty_set with
    | inl lines => mret (lines ++ log_trace "------------------------------------------------------------" [])
    | inr e => match e : Empty_set with end
    end.

(** * What they say *)

(** The lines of a region [R] at [r] in [n] areas with the pages [ps]. *)
Definition region_lines (r : Z) (R : vmem_region_t) (n : Z) (ps : list Z) : list log_line :=
  [mk_line LOG_TRACE "=========== Dump memory region ==============" [];
   mk_line LOG_TRACE "Name: %s \t Metadata: %p \t Attached: %d" [AStr (r_name R); ANum r; ANum n];
   mk_line LOG_TRACE "Start Address: %p \t End (alloc): %p \t Size: %d (%d KB) bytes \t Allocated: %d KB"
     [ANum (r_start R); ANum (r_start R + 4096 * Z.of_nat (length ps) - 1); ANum (r_size R); ANum (r_size R / 1024);
      ANum (4 * Z.of_nat (length ps))];
   mk_line LOG_TRACE "Permissions: %c%c%c%c \t Physical pages: %d \t First Page Address: %p"
     [flag (r_user R) "u"%char; AChar "r"%char; flag (r_writable R) "w"%char; flag (r_executable R) "x"%char; ANum (Z.of_nat (length ps)); ANum (default 0 (head ps))];
   mk_line LOG_TRACE "---------------------------------------------" []].

(** The same of the region [r], from the ghost state. *)
Definition known_region_lines (s : kstate) (G : ghost) (r : Z) : list log_line :=
  match gR G !! r, regions (Machine.vm s) !! r with
  | Some g, Some R => region_lines r R (Z.of_nat (length (rg_attached g))) (rg_pages g)
  | _, _ => []
  end.

Lemma role_list_length s G l ro xs : vm_inv s G -> role_list G l ro xs -> linkedlist_size l s = Ret (Z.of_nat (length xs)) s.
Proof.
  intros Hi (_ & ns & Hns & <-). destruct (wp_inv _ _ _ (linkedlist_size_spec s (gL G) l ns (vi_lists _ _ Hi) Hns)) as (r & s' & E & -> & ->).
  unfold values. by rewrite length_fmap.
Qed.

Lemma vmem_region_dump_lines s G r :
  vm_inv s G -> is_Some (gR G !! r) -> vmem_region_dump r s = Ret (known_region_lines s G r) s.
Proof.
  intros Hi [g Hg]. destruct (vi_regions _ _ Hi _ _ Hg) as [R Hr]. unfold known_region_lines. rewrite Hg, (rr_R _ _ _ _ _ Hr).
  unfold vmem_region_dump. rewrite (proj2 (isnull_false r)) by apply Hr.
  rewrite (bind_Ret _ _ s R s) by (unfold load; cbn; by rewrite (rr_R _ _ _ _ _ Hr)).
  rewrite (bind_Ret _ _ _ _ _ (role_list_length _ _ _ _ _ Hi (rr_attached _ _ _ _ _ Hr))).
  rewrite (bind_Ret _ _ _ _ _ (role_list_length _ _ _ _ _ Hi (rr_pages _ _ _ _ _ Hr))).
  destruct (rr_pages _ _ _ _ _ Hr) as (_ & ns & Hns & Ev).
  destruct (wp_inv _ _ _ (linkedlist_get_spec s (gL G) (r_pages R) ns (vi_lists _ _ Hi) Hns 0 ltac:(lia))) as (p & s' & E & -> & ->).
  rewrite (bind_Ret _ _ _ _ _ E), Ev. pose proof (rr_alloc _ _ _ _ _ Hr) as Ea. pose proof (rr_end _ _ _ _ _ Hr). pose proof (rr_start _ _ _ _ _ Hr) as [_ Hst].
  set (k := Z.of_nat (length (rg_pages g))) in *. assert (0 <= k) by lia.
  unfold region_lines. fold k. rewrite Ea. rewrite (u64_small (r_start R + 4096 * k)), u64_small by lia.
  assert (4096 * k / 1024 = 4 * k) as -> by (replace (4096 * k) with (4 * k * 1024) by lia; by apply Z.div_mul).
  by destruct (rg_pages g).
Qed.

(** [vmem_dump] of a known area writes the numbers of its regions and maps and the
    lines of all its regions, in their order, and changes nothing. *)
Theorem vmem_dump_lines s G v g vm :
  vm_inv s G -> linked G -> gV G !! v = Some g -> vmems (Machine.vm s) !! v = Some vm ->
  vmem_dump v s = Ret (
    [mk_line LOG_TRACE "====================== Dump memory =========================" [];
     mk_line LOG_TRACE "Memory addr: %p" [ANum v];
     mk_line LOG_TRACE "Num. regions: %d \t num. of maps: %d \t Next start address: %p"
       [ANum (Z.of_nat (length (vg_regions g))); ANum (Z.of_nat (length (vg_maps g))); ANum (next_start_address vm)]] ++
    concat (known_region_lines s G <$> vg_regions g) ++
    [mk_line LOG_TRACE "------------------------------------------------------------" []]) s.
Proof.
  intros Hi Hlk Hv Hvm. destruct (vi_vmems _ _ Hi _ _ Hv) as (vm' & pt & Hr).
  assert (vm' = vm) as -> by (pose proof (vr_vm _ _ _ _ _ _ Hr); congruence). unfold vmem_dump.
  rewrite (proj2 (isnull_false v)) by apply Hr. rewrite (bind_Ret _ _ s vm s) by (unfold load; cbn; by rewrite Hvm).
  rewrite (bind_Ret _ _ _ _ _ (role_list_length _ _ _ _ _ Hi (vr_regions _ _ _ _ _ _ Hr))).
  destruct (vr_map _ _ _ _ _ _ Hr) as (mp & Hmp & Hf). apply Forall2_length in Hf.
  rewrite (bind_Ret _ _ _ _ _ (role_list_length _ _ _ _ _ Hi Hmp)), Hf. cbv zeta. set (hd := log_trace _ [] ++ _).
  match goal with |- _ = Ret (?x ++ _) _ => change x with hd end. clearbody hd.
  destruct (vr_regions _ _ _ _ _ _ Hr) as (_ & ns & Hns & Ev).
  assert (forall r, r ∈ vg_regions g -> r <> 0 /\ is_Some (gR G !! r)) as Hrs.
  { intros r Hin. destruct (lk_region _ Hlk v g r Hv Hin) as (h & Hh & _). destruct (vi_regions _ _ Hi _ _ Hh) as [R HR]. split; [apply HR|by eexists]. }
  assert (upto_null (values ns) = vg_regions g) as Eup.
  { rewrite Ev. apply upto_null_all, Forall_forall. intros r Hin. by apply Hrs. }
  assert (wp (while_linkedlist_iter (R := Empty_set) (v_regions vm) hd (fun region lines =>
      more ← vmem_region_dump region; mret (inl (lines ++ more))))
    (fun res s' => s' = s /\ res = inl (hd ++ concat (known_region_lines s G <$> vg_regions g))) s) as Hw.
  { eapply (wp_while_linkedlist_iter (v_regions vm) ns _ (fun done st s' => s' = s /\ st = hd ++ concat (known_region_lines s G <$> done))).
    - intros done st s' [-> _]. by eapply inv_is_list; [apply Hi|].
    - intros done r st s' [rest Hpre] _ [-> ->]. rewrite Eup in Hpre.
      assert (r ∈ vg_regions g) as Hin by (rewrite Hpre; set_solver). destruct (Hrs r Hin) as [_ HR].
      unfold wp, wpx. rewrite (bind_Ret _ _ _ _ _ (vmem_region_dump_lines s G r Hi HR)). cbn.
      split; [done|]. rewrite fmap_app, concat_app. cbn. by rewrite app_nil_r, app_assoc.
    - intros st s' [-> ->]. by rewrite Eup.
    - cbn. by rewrite app_nil_r. }
  destruct (wp_inv _ _ _ Hw) as (res & s' & E & -> & ->). rewrite (bind_Ret _ _ _ _ _ E). cbv beta iota. unfold mret, M_ret. by rewrite app_assoc.
Qed.
